(* ===== verification/_CoqProject ===== *)
-Q . S2P
Prelude.v
Codec.v
Prog.v
Models.v
Errors.v
SocketAddr.v
Config.v
Merge.v
RateLimit.v
Entropy.v
EntropyReal.v
EntropySpec.v
Db.v
State.v
Cache.v
Auth.v
Jobs.v
Backups.v
BackupsSpec.v
BackupsProps.v
CacheSpec.v
Endpoints.v
Coherence.v
Grpc.v
Stale.v
Race.v
Cancel.v
Router.v
Transport.v
HttpTable.v
Metrics.v
Bounds.v
Contract.v
Apollo.v
Migrations.v
Worker.v
JobPath.v
WorkerSystem.v
WorkerFaults.v
System.v
Linear.v
Startup.v
UnitTests.v
