(* ===== verification/Prelude.v ===== *)
(** * The backup service: a verification development

    ** The program

    Two processes.  The service ([crates/backup-service]) is an HTTP API for the backups of
    several tenants: rows of one PostgreSQL table, a Redis cache in front of it, JWT
    authentication, a rate limiter per tenant, a configuration that a remote endpoint can
    update at run time, and a gRPC endpoint.  The worker ([crates/backup-worker]) takes jobs
    that the API puts in a RabbitMQ queue, measures the entropy of the data and reports
    status and result through the gRPC endpoint.  [crates/backup-common] holds what both use:
    the job and its publication, and the entropy calculator, which is C code.

    ** How it is modelled

    An [async fn] is a [Prog] ([Prog.v]): a finite tree of awaited calls ending in the
    returned value; [?] is [<-?].  A handler of calls ([service] in [State.v], the function
    from a call and a [World] to its answer and the next [World]) runs it alone ([run]), and
    [pool_step] runs any number of them interleaved at their awaited calls.  Integers are [Z]
    with the ranges and the wrap-around of their Rust types; the table is a [gmap]; the
    limiter's map a [gmap]; text is [string].

    What the source only calls is a class with the laws its documentation states, and a
    reference instance that satisfies them and runs the witnesses: [UuidCrate], [SerdeJson],
    [JobJson], [RemoteJson] (codecs), [Libm] ([log]), [Postgres] (identifiers drawn, ties of
    an order), [RedisServer] with [RedisLaws] (a failed command may or may not have been
    executed; values vanish on their own but never appear) and [RedisUp] (the connection is
    up), [Broker], [AmqpServer] with [AmqpLaws] (what a declared exchange, queue and binding
    do with a message), [JsonWebToken], [HeaderValues], [Extractors] (what axum does with input
    that does not parse), [TowerHttp] (what the transport layers answer by themselves).
    Failures of the database are a schedule of faults, each before or after the execution of
    the statement.

    ** The files

    - [Prelude]: results, machine integers, strings and lists; [Codec]: a text codec for the
      reference instances; [Prog]: programs, the sequential and the concurrent semantics, the
      rely/guarantee judgement [obeys] and its soundness for pools.
    - [Models] ([models.rs]), [Errors] ([errors.rs]), [SocketAddr] (the standard library's
      address parser), [Config] ([config.rs]), [Merge] ([apollo/merge.rs]), [RateLimit] (the
      limiter of [middleware/rate_limit.rs]), [Entropy] and [EntropyReal] ([ffi.rs],
      [entropy.c]: one definition over an arithmetic, in binary64 and over the reals).
    - [Db]: every SQL statement of the handlers and of [grpc.rs] on the table of
      [migrations/001_create_backups.sql]; [State] ([state.rs]): the shared state, the awaited
      calls and the world; [Cache] ([cache.rs]) and [CacheSpec]: its abstract contract.
    - [Auth] ([middleware/auth.rs], [handlers/auth.rs]), [Jobs]
      ([backup-common/src/worker.rs]), [Backups] ([handlers/backups.rs]), [BackupsSpec] and
      [BackupsProps]: what each handler does on each branch; [Endpoints]: operation to
      response; [Grpc] ([grpc.rs]); [Router] (the routes of [router.rs], the rate limiting
      middleware, [handlers/health.rs]); [Transport] (the layers around the routes); [Apollo]
      ([apollo/fetch.rs]); [Migrations] ([db.rs]).
    - [Worker] ([backup-worker/src/main.rs]) against any broker and service, [JobPath]: the
      way of a job from its publication to the worker, [WorkerSystem]: the worker with the
      service's own gRPC handlers and a queue, and [WorkerFaults]: the same under failures of
      the network, the thread pool and the database.
    - [Startup]: [main] of both processes ([backup-service/src/main.rs],
      [backup-worker/src/main.rs]) and [telemetry.rs].
    - [Coherence]: the cached operations refine a plain table, and [HttpTable]: so does the
      whole service, from the HTTP request on, with the life of a backup as a consequence;
      [Stale]: the two ways around the cache's invalidation; [Race]: a read and an update
      interleaved; [Cancel]: requests that are cut off; [Bounds]: how many calls a request
      makes at most; [Contract]: the responses it may get; [System]: concurrent requests and
      tenant isolation.
    - [Metrics]: the metrics route and what the counters count.
    - [Linear]: the interleaved requests of a service without Redis as the atomic steps of a
      table.
    - [EntropySpec]: Shannon's formula, and an exact decision of bounds on the entropy;
      [UnitTests]: the unit tests of the source as checks of the model, without two of
      [ffi.rs] that assert on binary64 values ([EntropyReal] has their bounds over the reals).

    ** What is proved

    - For the whole: any sequence of HTTP requests is answered as a table without a cache
      would answer ([HttpTable], [Coherence]), so a backup is read back as it was created
      and updated until it is deleted; under any interleaving, dropped handlers and
      failures, no tenant sees or acts on another's backups, and every job is of a backup of
      the tenant it names ([System]); without Redis the interleaved requests are
      linearizable, a listing excepted, which reads the table twice ([Linear]); no protected
      operation without a valid token, through all the layers, and a request that is cut off
      has done its write or none ([Transport]); a request makes ten calls at most ([Bounds]) and gets a response of its type
      ([Contract]); every delivery is settled once, acknowledged only after its reports were
      accepted ([Worker]), and the queue is drained with its rows completed whatever finite
      number of failures lies ahead ([WorkerFaults]).
    - For each component: the handlers, the gRPC calls and the probes branch by branch
      (updates, deletions and reports whatever happens to their statement, executed or not);
      the limiter as the log of its window, each tenant by itself, with the exact bounds that
      fixed windows give; the cache as a lossy map; the algebra of configuration payloads and
      the updater loop; migrations under faults, whether or not the server accepts the
      script; when the service comes up and how both processes stop; tokens from login to
      expiry, through [verify_token] and the middleware; what is read from each variable of
      the environment; the topology that carries a job, and no other message; path
      validation; the C routine as Shannon's formula, its range, zero case and
      classification; what an error response may show.
    - Where the code does less than it means to: a worker whose consumer has ended waits for a
      signal ([Startup]), a gRPC report leaves stale cache entries and a change of the cached
      paging serves the old page ([Stale]), a read that races with an update caches the old
      row ([Race]), a write that is cut off leaves the old row in the cache ([Cancel]), a
      listing mixes two tables ([Linear]), a report for an unknown row is acknowledged
      ([Grpc]), the job of a deleted backup is requeued for ever ([WorkerSystem]), the entropy
      of an ASCII path cannot be suspicious ([EntropyReal]), and the migration script sent as one statement ([Migrations]).

    ** Bounds and fuel

    The loops that do not end by themselves (the updater, the worker's consumer) take the
    number of their iterations, and their theorems hold for every number; a queue of [n]
    deliveries is drained in [n + 1] iterations, and in [n + k + 1] with [k] failures ahead.
    The deadline of the router is a number of awaited calls; ten are enough for any request.
    Everything else is total without fuel.

    ** What is not modelled

    What the transport layers do inside tower-http (compression, the preflight answers, the
    reading of a streamed body up to the limit: only a declared length is checked here) and
    the body limit that axum's own extractors have.  Log lines.  How axum's server ends after
    the signal, what is dropped when [main] returns early.  A text with a NUL character:
    PostgreSQL refuses it, here it is stored (a schedule with a failure before that statement
    is what the client of the source sees).  The spacing of the updater's ticks.  Failures of
    the broker while a delivery is settled, after which the worker ends ([Worker] has them,
    [WorkerFaults] does not).  Response headers that axum sets by itself.  The integration tests, which need live
    services: what [api_tests.rs] does with a backup is the subject of [backup_lifecycle] in
    [HttpTable]. *)

From stdpp Require Export base gmap strings list fin_maps pretty.
From Stdlib Require Export ZArith Lia Sorting.Sorted.
From Stdlib Require Export (notations) Ascii.
#[export] Set Warnings "-register-all".


#[global] Open Scope Z_scope.

(** ** Rust's [Result] *)

Inductive result (A E : Type) : Type :=
  | Ok (a : A)
  | Err (e : E).
Arguments Ok {A E} a.
Arguments Err {A E} e.

Definition is_ok {A E} (r : result A E) : bool :=
  match r with Ok _ => true | Err _ => false end.

(** [Result::ok] *)
Definition ok {A E} (r : result A E) : option A :=
  match r with Ok a => Some a | Err _ => None end.

(** [Result::map_err] *)
Definition map_err {A E F} (f : E -> F) (r : result A E) : result A F :=
  match r with Ok a => Ok a | Err e => Err (f e) end.

(** [Option::ok_or_else] *)
Definition ok_or {A E} (o : option A) (e : E) : result A E :=
  match o with Some a => Ok a | None => Err e end.

(** [Option::unwrap_or] *)
Definition unwrap_or {A} (o : option A) (d : A) : A :=
  match o with Some a => a | None => d end.

(** ** Machine integers *)

Definition u64_max : Z := 2 ^ 64 - 1.
Definition i64_min : Z := - 2 ^ 63.
Definition i64_max : Z := 2 ^ 63 - 1.

Definition in_u64 (z : Z) : bool := (0 <=? z) && (z <=? u64_max).
Definition in_i64 (z : Z) : bool := (i64_min <=? z) && (z <=? i64_max).

(** Unsigned 64-bit addition as the release build compiles it: it wraps. *)
Definition wadd64 (a b : Z) : Z := (a + b) mod 2 ^ 64.

(** [u64::saturating_sub] *)
Definition saturating_sub (a b : Z) : Z := Z.max 0 (a - b).

(** [Ord::clamp] on [i64] *)
Definition clamp (x lo hi : Z) : Z :=
  if x <? lo then lo else if hi <? x then hi else x.

Lemma wadd64_small (a b : Z) : 0 <= a -> 0 <= b -> a + b <= u64_max -> wadd64 a b = a + b.
Proof. unfold wadd64, u64_max. intros. apply Z.mod_small. lia. Qed.

Lemma clamp_bounds (x lo hi : Z) : lo <= hi -> lo <= clamp x lo hi <= hi.
Proof. unfold clamp. intros. repeat case_match; lia. Qed.

Lemma clamp_id (x lo hi : Z) : lo <= x <= hi -> clamp x lo hi = x.
Proof. unfold clamp. intros. repeat case_match; lia. Qed.

(** ** Strings (byte strings: Rust's [str] as its UTF-8 bytes) *)

(** [str::starts_with] *)
Definition starts_with (p s : string) : bool := String.prefix p s.

(** [str::strip_prefix] *)
Fixpoint strip_prefix (p s : string) : option string :=
  match p, s with
  | EmptyString, _ => Some s
  | String a p', String b s' => if Ascii.eqb a b then strip_prefix p' s' else None
  | String _ _, EmptyString => None
  end.

(** [str::contains] *)
Fixpoint contains (p s : string) : bool :=
  String.prefix p s ||
  match s with EmptyString => false | String _ s' => contains p s' end.

Lemma prefix_spec (p s : string) : String.prefix p s = true <-> exists t, s = p +:+ t.
Proof.
  revert s. induction p as [|a p IH]; intros s; simpl.
  - split; [|destruct s; done]. intros _. by exists s.
  - destruct s as [|b s]; [split; [done|intros [t ?]; done]|]. simpl.
    destruct (Ascii.ascii_dec a b) as [->|Hne].
    + rewrite IH. split; intros [t Ht]; exists t; [by rewrite Ht|by injection Ht].
    + split; [done|]. intros [t Ht]. by injection Ht.
Qed.

Lemma strip_prefix_spec (p s t : string) : strip_prefix p s = Some t <-> s = p +:+ t.
Proof.
  revert s. induction p as [|a p IH]; intros s; simpl.
  - split; [by intros [= ->]|by intros ->].
  - destruct s as [|b s]; [done|].
    destruct (Ascii.eqb_spec a b) as [->|Hne].
    + rewrite IH. split; [by intros ->|]. intros H. by injection H.
    + split; [done|]. intros H. by injection H.
Qed.

Lemma contains_spec (p s : string) :
  contains p s = true <-> exists a b, s = a +:+ p +:+ b.
Proof.
  induction s as [|c s IH].
  - change (contains p "") with (String.prefix p "" || false).
    rewrite orb_false_r, prefix_spec. split.
    + intros [t Ht]. by exists "", t.
    + intros (a & b & H). destruct a; [|done]. by exists b.
  - change (contains p (String c s)) with (String.prefix p (String c s) || contains p s).
    rewrite orb_true_iff, prefix_spec, IH. split.
    + intros [[t Ht]|(a & b & ->)]; [by exists "", t|]. by exists (String c a), b.
    + intros (a & b & H). destruct a as [|d a]; [left; by exists b|right].
      exists a, b. by injection H.
Qed.

(** [s.bytes()] *)
Definition bytes (s : string) : list Byte.byte := String.list_byte_of_string s.

(** [it.cycle().take(n)]: Rust's [Cycle::next] restarts the iterator it cloned when the
    current one is exhausted, and ends when the original is empty. *)
Fixpoint cycle_take {A} (orig cur : list A) (n : nat) : list A :=
  match n with
  | O => []
  | S n' =>
      match cur with
      | x :: rest => x :: cycle_take orig rest n'
      | [] =>
          match orig with
          | [] => []
          | x :: rest => x :: cycle_take orig rest n'
          end
      end
  end.

Lemma cycle_take_length {A} (orig cur : list A) (n : nat) :
  orig <> [] -> length (cycle_take orig cur n) = n.
Proof.
  intros Ho. revert cur. induction n as [|n IH]; intros cur; [done|].
  simpl. destruct cur as [|x cur]; [destruct orig; [done|]|]; simpl; by rewrite IH.
Qed.

Lemma cycle_take_elem {A} (orig cur : list A) (n : nat) (x : A) :
  cur ⊆ orig -> x ∈ cycle_take orig cur n -> x ∈ orig.
Proof.
  revert cur. induction n as [|n IH]; intros cur Hsub; simpl; [by intros ?%elem_of_nil|].
  destruct cur as [|y cur]; [destruct orig as [|y orig]; [by intros ?%elem_of_nil|]|];
    rewrite elem_of_cons; intros [->|Hx]; try set_solver; apply (IH _ ltac:(set_solver) Hx).
Qed.

(** ** Lists *)

Lemma NoDup_map_filter {A B} (f : A -> B) (p : A -> bool) (l : list A) :
  NoDup (map f l) -> NoDup (map f (List.filter p l)).
Proof.
  induction l as [|x l IH]; [done|]. cbn. intros [Hx Hl]%NoDup_cons.
  destruct (p x); [|by apply IH]. cbn. apply NoDup_cons. split; [|by apply IH].
  intros Hin. apply Hx. apply list_elem_of_In, in_map_iff in Hin as (y & Hy & Hin).
  apply List.filter_In in Hin as [Hin _]. apply list_elem_of_In, in_map_iff. eauto.
Qed.

Lemma StronglySorted_sublist {A} (R : relation A) (l k : list A) :
  k `sublist_of` l -> StronglySorted R l -> Sorting.Sorted.StronglySorted R k.
Proof.
  induction 1 as [|x l k Hlk IH|x l k Hlk IH]; [done| |].
  - inversion 1 as [|? ? Hs Hf]; subst. constructor; [by apply IH|].
    apply Forall_forall. intros y Hy. apply (proj1 (Forall_forall _ _) Hf).
    by eapply elem_of_sublist.
  - inversion 1; subst. by apply IH.
Qed.

Lemma sublist_map {A B} (f : A -> B) (l k : list A) :
  k `sublist_of` l -> map f k `sublist_of` map f l.
Proof. induction 1; cbn; by constructor. Qed.
