(* ===== verification/Codec.v ===== *)
(** A textual codec for every countable type.  The reference implementations of the external
    crates, which the concrete instances of the theorems run on, are built from it. *)

From S2P Require Import Prelude.

Fixpoint bits_of_pos (p : positive) : string :=
  match p with
  | xH => EmptyString
  | xO p' => String "0"%char (bits_of_pos p')
  | xI p' => String "1"%char (bits_of_pos p')
  end.

Fixpoint pos_of_bits (s : string) : option positive :=
  match s with
  | EmptyString => Some xH
  | String "0"%char s' => xO <$> pos_of_bits s'
  | String "1"%char s' => xI <$> pos_of_bits s'
  | String _ _ => None
  end.

Lemma pos_of_bits_of_pos (p : positive) : pos_of_bits (bits_of_pos p) = Some p.
Proof. induction p as [p IH|p IH|]; simpl; [by rewrite IH|by rewrite IH|done]. Qed.

Definition encode_text `{Countable A} (a : A) : string := bits_of_pos (encode a).
Definition decode_text `{Countable A} (s : string) : option A := p ← pos_of_bits s; decode p.

Lemma decode_encode_text `{Countable A} (a : A) : decode_text (encode_text a) = Some a.
Proof. unfold decode_text, encode_text. rewrite pos_of_bits_of_pos. apply decode_encode. Qed.
