(* ===== verification/Prog.v ===== *)
(** Effectful programs.  An [async fn] of the service is a [Prog E A]: a finite tree whose
    nodes are the awaited calls (effects of signature [E]) and whose leaves are the returned
    values.  The file gives the monad and its notations, the sequential interpreter [run],
    what a dropped program did ([run_for]), the embedding of programs into a larger signature
    ([lift]),
    the rely/guarantee judgement [obeys] and the interleaving semantics of a pool of
    concurrently running handlers with its invariant theorem. *)

From S2P Require Import Prelude.
From stdpp Require Import relations.

Declare Scope prog_scope.
Delimit Scope prog_scope with prog.

Inductive Prog (E : Type -> Type) (A : Type) : Type :=
  | Ret (a : A)
  | Vis {X : Type} (e : E X) (k : X -> Prog E A).
Arguments Ret {E A} a.
Arguments Vis {E A X} e k.

Fixpoint bind {E A B} (p : Prog E A) (f : A -> Prog E B) : Prog E B :=
  match p with
  | Ret a => f a
  | Vis e k => Vis e (fun x => bind (k x) f)
  end.

(** Awaiting one call. *)
Definition perform {E X} (e : E X) : Prog E X := Vis e Ret.

(** The [?] operator: stop with the error, or go on with the value. *)
Definition try_bind {E A B Er}
    (p : Prog E (result A Er)) (f : A -> Prog E (result B Er)) : Prog E (result B Er) :=
  bind p (fun r => match r with Ok a => f a | Err e => Ret (Err e) end).

(** [?] on a value that is already computed. *)
Definition try_pure {E A B Er}
    (r : result A Er) (f : A -> Prog E (result B Er)) : Prog E (result B Er) :=
  match r with Ok a => f a | Err e => Ret (Err e) end.

Notation "x <- p ;; q" := (bind p (fun x => q))
  (at level 100, p at next level, right associativity) : prog_scope.
Notation "p ;;; q" := (bind p (fun _ => q))
  (at level 100, right associativity) : prog_scope.
Notation "x <-? p ;; q" := (try_bind p (fun x => q))
  (at level 100, p at next level, right associativity) : prog_scope.
Notation "x <-! p ;; q" := (try_pure p (fun x => q))
  (at level 100, p at next level, right associativity) : prog_scope.

(** ** Sequential execution *)

(** What the environment answers to an effect, and the state it leaves. *)
Definition Handler (E : Type -> Type) (S : Type) : Type := forall X, E X -> S -> X * S.

Fixpoint run {E S A} (h : Handler E S) (p : Prog E A) (s : S) : A * S :=
  match p with
  | Ret a => (a, s)
  | Vis e k => let '(x, s') := h _ e s in run h (k x) s'
  end.

Lemma run_bind {E S A B} (h : Handler E S) (p : Prog E A) (f : A -> Prog E B) (s : S) :
  run h (bind p f) s = let '(a, s') := run h p s in run h (f a) s'.
Proof.
  revert s. induction p as [a|X e k IH]; intros s; simpl; [done|].
  destruct (h X e s) as [x s']. apply IH.
Qed.

Lemma run_perform {E S X} (h : Handler E S) (e : E X) (s : S) : run h (perform e) s = h X e s.
Proof. unfold perform. simpl. by destruct (h X e s). Qed.

Lemma run_try {E S A B Er} (h : Handler E S) (p : Prog E (result A Er))
    (f : A -> Prog E (result B Er)) (s : S) :
  run h (try_bind p f) s =
  let '(r, s') := run h p s in
  match r with Ok a => run h (f a) s' | Err e => (Err e, s') end.
Proof.
  unfold try_bind. rewrite run_bind. destruct (run h p s) as [[a|e] s']; done.
Qed.

Create Rewrite HintDb prog.
#[export] Hint Rewrite @run_bind @run_perform @run_try : prog.

(** ** Dropped executions *)

(** A program that is dropped after [n] calls: the answer when it got to one. *)
Fixpoint run_for {E S A} (n : nat) (h : Handler E S) (p : Prog E A) (s : S) : option A * S :=
  match p with
  | Ret a => (Some a, s)
  | Vis e k =>
      match n with
      | O => (None, s)
      | Datatypes.S n => let '(x, s') := h _ e s in run_for n h (k x) s'
      end
  end.

(** The number of calls of a whole run. *)
Fixpoint calls {E S A} (h : Handler E S) (p : Prog E A) (s : S) : nat :=
  match p with
  | Ret _ => O
  | Vis e k => let '(x, s') := h _ e s in (1 + calls h (k x) s')%nat
  end.

(** Dropping a program after its last call is not dropping it. *)
Lemma run_for_whole {E S A} (n : nat) (h : Handler E S) (p : Prog E A) (s : S) :
  (calls h p s <= n)%nat -> run_for n h p s = let '(a, s') := run h p s in (Some a, s').
Proof.
  revert n s. induction p as [a|X e k IH]; intros n s; [by destruct n|].
  destruct n as [|n]; cbn; destruct (h X e s) as [x s'] eqn:Eh; [lia|]. intros Hn.
  apply IH. lia.
Qed.

(** An answer is the answer of the whole run. *)
Lemma run_for_some {E S A} (n : nat) (h : Handler E S) (p : Prog E A) (s s' : S) (a : A) :
  run_for n h p s = (Some a, s') -> run h p s = (a, s').
Proof.
  revert n s. induction p as [b|X e k IH]; intros n s; [by destruct n; intros [= -> ->]|].
  destruct n as [|n]; cbn; [done|]. destruct (h X e s) as [x s1]. apply IH.
Qed.

(** ** Whatever the calls answer *)

(** Every value the program can return satisfies [Q]. *)
Fixpoint returns {E A} (Q : A -> Prop) (p : Prog E A) : Prop :=
  match p with
  | Ret a => Q a
  | Vis e k => forall x, returns Q (k x)
  end.

Lemma returns_bind {E A B} (R : A -> Prop) (Q : B -> Prop) (p : Prog E A) (f : A -> Prog E B) :
  returns R p -> (forall a, R a -> returns Q (f a)) -> returns Q (bind p f).
Proof. intros Hp Hf. induction p as [a|X e k IH]; cbn in *; auto. Qed.

Lemma returns_any {E A} (p : Prog E A) : returns (fun _ => True) p.
Proof. by induction p. Qed.

Lemma returns_run {E S A} (Q : A -> Prop) (h : Handler E S) (p : Prog E A) (s : S) :
  returns Q p -> Q (run h p s).1.
Proof.
  revert s. induction p as [a|X e k IH]; intros s Hp; cbn in *; [done|].
  destruct (h X e s) as [x s']. by apply IH.
Qed.

(** The program makes [n] calls at most. *)
Fixpoint calls_at_most {E A} (n : nat) (p : Prog E A) : Prop :=
  match p with
  | Ret _ => True
  | Vis e k => match n with O => False | S n => forall x, calls_at_most n (k x) end
  end.

Lemma calls_at_most_mono {E A} (n m : nat) (p : Prog E A) :
  (n <= m)%nat -> calls_at_most n p -> calls_at_most m p.
Proof.
  revert n m. induction p as [a|X e k IH]; intros [|n] [|m] Hle; cbn; try done; [lia|].
  intros Hk x. apply (IH x n); [lia|apply Hk].
Qed.

Lemma calls_at_most_bind {E A B} (n m : nat) (p : Prog E A) (f : A -> Prog E B) :
  calls_at_most n p -> (forall a, calls_at_most m (f a)) -> calls_at_most (n + m) (bind p f).
Proof.
  intros Hp Hf. revert n Hp. induction p as [a|X e k IH]; intros n Hp; cbn [bind].
  - eapply calls_at_most_mono; [|apply Hf]. lia.
  - destruct n as [|n]; [done|]. cbn in *. auto.
Qed.

Lemma calls_at_most_calls {E S A} (n : nat) (h : Handler E S) (p : Prog E A) (s : S) :
  calls_at_most n p -> (calls h p s <= n)%nat.
Proof.
  revert n s. induction p as [a|X e k IH]; intros n s Hp; cbn; [lia|].
  destruct n as [|n]; [done|]. destruct (h X e s) as [x s'].
  pose proof (IH x n s' (Hp x)). lia.
Qed.

(** ** Programs over a larger signature *)

Fixpoint lift {E F A} (f : forall X, E X -> F X) (p : Prog E A) : Prog F A :=
  match p with
  | Ret a => Ret a
  | Vis e k => Vis (f _ e) (fun x => lift f (k x))
  end.

(** A handler that answers the lifted calls on one component of its state runs a lifted
    program on that component. *)
Lemma run_lift {E F S T A} (f : forall X, E X -> F X) (h : Handler F S) (g : Handler E T)
    (get : S -> T) (set : T -> S -> S) (p : Prog E A) (s : S) :
  (forall t s, get (set t s) = t) -> (forall t u s, set u (set t s) = set u s) ->
  (forall s, set (get s) s = s) ->
  (forall X (e : E X) s, h X (f X e) s = let '(x, t) := g X e (get s) in (x, set t s)) ->
  run h (lift f p) s = let '(a, t) := run g p (get s) in (a, set t s).
Proof.
  intros Hget Hset Hid Hh. revert s. induction p as [a|X e k IH]; intros s; cbn.
  - by rewrite Hid.
  - rewrite Hh. destruct (g X e (get s)) as [x t]. rewrite IH, Hget.
    destruct (run g (k x) t) as [a u]. by rewrite Hset.
Qed.

(** A handler with a record of what its calls and their answers amount to. *)
Definition recorded {E S N} (note : forall X, E X -> X -> list N) (h : Handler E S)
    : Handler E (S * list N) := fun X e s =>
  let '(x, s') := h X e s.1 in (x, (s', s.2 ++ note X e x)).

Lemma recorded_eq {E S N} (note : forall X, E X -> X -> list N) (h : Handler E S) X (e : E X)
    (s : S) (l : list N) :
  recorded note h X e (s, l) = ((h X e s).1, ((h X e s).2, l ++ note X e (h X e s).1)).
Proof. unfold recorded. cbn. by destruct (h X e s). Qed.

(** ** Rely/guarantee *)

(** What is known for good about the run so far is a knowledge [w], which only grows.
    [may] says which calls a program may make given what is known; [learns] what it may
    conclude from an answer, whatever the other programs do in between. *)
Record Contract (E : Type -> Type) (W : Type) (grows : relation W) : Type := {
  may : forall X, W -> E X -> Prop;
  learns : forall X, W -> E X -> X -> Prop;
  may_mono : forall X w w' (e : E X), grows w w' -> may X w e -> may X w' e;
}.
Arguments may {E W grows} c {X} w e.
Arguments learns {E W grows} c {X} w e x.
Arguments may_mono {E W grows} c {X} w w' e.

Fixpoint obeys {E W grows A} (c : Contract E W grows) (w : W) (p : Prog E A)
    (Q : W -> A -> Prop) : Prop :=
  match p with
  | Ret a => Q w a
  | Vis e k =>
      may c w e /\ forall w' x, grows w w' -> learns c w' e x -> obeys c w' (k x) Q
  end.

Section obeys.
Context {E : Type -> Type} {W : Type} {grows : relation W} `{!PreOrder grows}.
Context (c : Contract E W grows).

Lemma obeys_mono {A} (w : W) (p : Prog E A) (Q R : W -> A -> Prop) :
  (forall w' a, grows w w' -> Q w' a -> R w' a) -> obeys c w p Q -> obeys c w p R.
Proof using Type*.
  revert w. induction p as [a|X e k IH]; intros w HQR; simpl; [by apply HQR|].
  intros [? Hk]. split; [done|]. intros w' x Hw Hx. apply IH; [|by apply Hk].
  intros w'' a Hw'. apply HQR. by etrans.
Qed.

Lemma obeys_grows {A} (w w' : W) (p : Prog E A) (Q : W -> A -> Prop) :
  (forall v v' a, grows v v' -> Q v a -> Q v' a) ->
  grows w w' -> obeys c w p Q -> obeys c w' p Q.
Proof using Type*.
  intros HQ Hw. destruct p as [a|X e k]; simpl; [by apply HQ|].
  intros [Hm Hk]. split; [by apply (may_mono c w)|].
  intros v x Hv Hx. apply Hk; [by etrans|done].
Qed.

Lemma obeys_bind {A B} (w : W) (p : Prog E A) (f : A -> Prog E B) (Q : W -> B -> Prop) :
  obeys c w p (fun w' a => obeys c w' (f a) Q) -> obeys c w (bind p f) Q.
Proof using Type.
  revert w. induction p as [a|X e k IH]; intros w; simpl; [auto|]. intros [? ?]; eauto.
Qed.

Lemma obeys_perform {X} (w : W) (e : E X) (Q : W -> X -> Prop) :
  may c w e -> (forall w' x, grows w w' -> learns c w' e x -> Q w' x) ->
  obeys c w (perform e) Q.
Proof using Type. done. Qed.

Lemma obeys_try {A B Er} (w : W) (p : Prog E (result A Er))
    (f : A -> Prog E (result B Er)) (Q : W -> result B Er -> Prop) :
  obeys c w p (fun w' r =>
    match r with Ok a => obeys c w' (f a) Q | Err e => Q w' (Err e) end) ->
  obeys c w (try_bind p f) Q.
Proof using Type*.
  intros H. apply obeys_bind. eapply obeys_mono; [|exact H]. by intros ? [a|e].
Qed.
End obeys.

(** A handler keeps the invariant [I] and answers as the contract says, possibly after the
    knowledge has grown. *)
Definition sound {E S W grows} (c : Contract E W grows) (I : W -> S -> Prop)
    (h : Handler E S) : Prop :=
  forall X (e : E X) w s, I w s -> may c w e ->
    exists w', grows w w' /\ I w' (h X e s).2 /\ learns c w' e (h X e s).1.

Lemma obeys_run {E S W grows A} `{!PreOrder grows} (c : Contract E W grows)
    (I : W -> S -> Prop) (h : Handler E S) (p : Prog E A) (Q : W -> A -> Prop) (w : W) (s : S) :
  sound c I h -> I w s -> obeys c w p Q ->
  exists w', grows w w' /\ Q w' (run h p s).1 /\ I w' (run h p s).2.
Proof.
  intros Hh. revert w s. induction p as [a|X e k IH]; intros w s HI Hp; simpl in *.
  - by exists w.
  - destruct Hp as [Hmay Hk]. destruct (Hh X e w s HI Hmay) as (w' & Hw & HI' & Hx).
    destruct (h X e s) as [x s']. destruct (IH x w' s' HI' (Hk w' x Hw Hx)) as (v & ? & ?).
    exists v. split; [by etrans|done].
Qed.

(** ** Interleavings *)

(** The shared state and the handlers in flight, each with the request it serves. *)
Record Pool (E : Type -> Type) (S T A : Type) : Type := MkPool {
  shared : S;
  threads : list (T * Prog E A);
}.
Arguments MkPool {E S T A} shared threads.
Arguments shared {E S T A} p.
Arguments threads {E S T A} p.

(** One step: a request arrives and its handler is started, a handler in flight makes its
    next awaited call or is dropped between two calls (a timeout, a closed connection), or
    the environment changes the shared state. *)
Inductive pool_step {E S T A} (h : Handler E S) (serve : T -> Prog E A)
    (env : S -> S -> Prop) : Pool E S T A -> Pool E S T A -> Prop :=
  | step_accept s ts t :
      pool_step h serve env (MkPool s ts) (MkPool s (ts ++ [(t, serve t)]))
  | step_call s ts i t X (e : E X) k :
      ts !! i = Some (t, Vis e k) ->
      pool_step h serve env (MkPool s ts)
        (MkPool (h X e s).2 (<[i := (t, k (h X e s).1)]> ts))
  | step_drop s ts1 tp ts2 :
      pool_step h serve env (MkPool s (ts1 ++ tp :: ts2)) (MkPool s (ts1 ++ ts2))
  | step_env s s' ts :
      env s s' -> pool_step h serve env (MkPool s ts) (MkPool s' ts).

(** A handler in flight makes its next call. *)
Lemma pool_call {E S T A} (h : Handler E S) (serve : T -> Prog E A) (env : S -> S -> Prop)
    (s s' : S) (ts : list (T * Prog E A)) (i : nat) (t : T) X (e : E X) k (x : X) :
  ts !! i = Some (t, Vis e k) -> h X e s = (x, s') ->
  rtc (pool_step h serve env) (MkPool s ts) (MkPool s' (<[i := (t, k x)]> ts)).
Proof.
  intros Hi Hh. apply rtc_once. pose proof (step_call h serve env s ts i t X e k Hi) as Hs.
  by rewrite Hh in Hs.
Qed.

(** A handler in flight may run to its end before anything else happens. *)
Lemma pool_finish {E S T A} (h : Handler E S) (serve : T -> Prog E A) (env : S -> S -> Prop)
    (s : S) (ts : list (T * Prog E A)) (i : nat) (t : T) (p : Prog E A) :
  ts !! i = Some (t, p) ->
  rtc (pool_step h serve env) (MkPool s ts)
    (MkPool (run h p s).2 (<[i := (t, Ret (run h p s).1)]> ts)).
Proof.
  revert s ts. induction p as [a|X e k IH]; intros s ts Hi; cbn [run].
  - by rewrite list_insert_id.
  - eapply rtc_l; [by apply (step_call h serve env s ts i t X e k)|].
    destruct (h X e s) as [x s']. cbn [fst snd].
    assert (Hi' : <[i := (t, k x)]> ts !! i = Some (t, k x))
      by (apply list_lookup_insert_eq; by eapply lookup_lt_Some).
    pose proof (IH x s' _ Hi') as Hr. by rewrite list_insert_insert_eq in Hr.
Qed.

(** An interleaving given by which handler makes each call; a finished one makes none. *)
Fixpoint run_schedule {E S T A} (h : Handler E S) (schedule : list nat) (s : S)
    (ts : list (T * Prog E A)) : Pool E S T A :=
  match schedule with
  | [] => MkPool s ts
  | i :: rest =>
      match ts !! i with
      | Some (t, Vis e k) =>
          let '(x, s') := h _ e s in run_schedule h rest s' (<[i := (t, k x)]> ts)
      | _ => run_schedule h rest s ts
      end
  end.

Lemma run_schedule_steps {E S T A} (h : Handler E S) (serve : T -> Prog E A)
    (env : S -> S -> Prop) (schedule : list nat) (s : S) (ts : list (T * Prog E A)) :
  rtc (pool_step h serve env) (MkPool s ts) (run_schedule h schedule s ts).
Proof.
  revert s ts. induction schedule as [|i rest IH]; intros s ts; cbn [run_schedule]; [done|].
  destruct (ts !! i) as [[t [a|X e k]]|] eqn:Hi; [apply IH| |apply IH].
  destruct (h X e s) as [x s'] eqn:Hx. etrans; [by eapply pool_call|apply IH].
Qed.

(** Requests that arrive one after the other. *)
Lemma pool_arrivals {E S T A} (h : Handler E S) (serve : T -> Prog E A) (env : S -> S -> Prop)
    (s : S) (l : list T) (ts : list (T * Prog E A)) :
  rtc (pool_step h serve env) (MkPool s ts) (MkPool s (ts ++ map (fun t => (t, serve t)) l)).
Proof.
  revert ts. induction l as [|t l IH]; intros ts; cbn [map]; [by rewrite app_nil_r|].
  eapply rtc_l; [apply (step_accept _ _ _ s ts t)|]. 
  pose proof (IH (ts ++ [(t, serve t)])) as Hr. by rewrite <-app_assoc in Hr.
Qed.

Section pool.
Context {E : Type -> Type} {S T A W : Type} {grows : relation W} `{!PreOrder grows}.
Context (c : Contract E W grows) (I : W -> S -> Prop).
Context (h : Handler E S) (serve : T -> Prog E A) (env : S -> S -> Prop).
Context (Q : T -> W -> A -> Prop).
Context (Q_mono : forall t w w' a, grows w w' -> Q t w a -> Q t w' a).
Context (h_sound : sound c I h) (env_ok : forall w s s', I w s -> env s s' -> I w s').
Context (serve_ok : forall t w, obeys c w (serve t) (Q t)).

Definition pool_inv (w : W) (p : Pool E S T A) : Prop :=
  I w (shared p) /\ Forall (fun tp => obeys c w tp.2 (Q tp.1)) (threads p).

Lemma pool_step_inv (w : W) (p q : Pool E S T A) :
  pool_step h serve env p q -> pool_inv w p -> exists w', grows w w' /\ pool_inv w' q.
Proof using Type*.
  intros Hstep [HI Hts].
  destruct Hstep as [s ts t|s ts i t X e k Hi|s ts1 tp ts2|s s' ts Henv]; simpl in *.
  - exists w. split; [done|]. split; [done|]. apply Forall_app. split; [done|].
    apply Forall_singleton. apply serve_ok.
  - pose proof (Forall_lookup_1 _ _ _ _ Hts Hi) as [Hmay Hk].
    destruct (h_sound X e w s HI Hmay) as (w' & Hw & HI' & Hx).
    exists w'. split; [done|]. split; [done|]. apply Forall_insert; [|by apply Hk].
    eapply Forall_impl; [exact Hts|]. intros [t' p']. by apply obeys_grows; eauto.
  - exists w. split; [done|]. split; [done|]. apply Forall_app in Hts as [? Hts].
    apply Forall_app. split; [done|]. by inversion Hts.
  - exists w. split; [done|]. split; [by apply (env_ok w s)|done].
Qed.

(** Whatever the interleaving, every finished handler satisfies its postcondition. *)
Lemma pool_reachable (w : W) (s : S) (p : Pool E S T A) :
  I w s -> rtc (pool_step h serve env) (MkPool s []) p ->
  exists w', grows w w' /\ I w' (shared p)
             /\ forall i t a, threads p !! i = Some (t, Ret a) -> Q t w' a.
Proof using Type*.
  intros HI Hrtc.
  assert (Hinv : exists w', grows w w' /\ pool_inv w' p).
  { assert (H0 : pool_inv w (MkPool s [])) by (split; [exact HI|by constructor]).
    clear HI. revert w H0. induction Hrtc as [|x y z Hxy _ IH]; intros w Hw; [by exists w|].
    destruct (pool_step_inv w _ _ Hxy Hw) as (w1 & Hw1 & Hy).
    destruct (IH w1 Hy) as (w2 & Hw2 & Hz). exists w2. split; [by etrans|done]. }
  destruct Hinv as (w' & Hw & HI' & Hts). exists w'. split; [done|]. split; [done|].
  intros i t a Hi. by apply (Forall_lookup_1 _ _ _ _ Hts Hi).
Qed.
End pool.
