(* ===== verification/Models.v ===== *)
(** The data of the service ([models.rs]): identifiers, the status enumeration, the row
    model, the request and response types and the JWT claims; and the interfaces of the two
    crates the data rely on, [uuid] (textual form of an identifier) and [serde_json]
    (textual form of a row), as classes with the laws their documentation states. *)

From S2P Require Import Prelude Codec.
From Stdlib Require Export Floats.SpecFloat.

(** ** Identifiers *)

(** A [uuid::Uuid] is a 128-bit value. *)
Record Uuid : Type := MkUuid {
  uuid_bits : N;
  uuid_width : bool_decide (uuid_bits < 2 ^ 128)%N = true;
}.

Lemma uuid_ext (u v : Uuid) : uuid_bits u = uuid_bits v -> u = v.
Proof. destruct u as [a Ha], v as [b Hb]. simpl. intros ->. f_equal. apply proof_irrel. Qed.

#[export] Instance Uuid_eq_dec : EqDecision Uuid.
Proof.
  refine (fun u v => cast_if (decide (uuid_bits u = uuid_bits v)));
    [by apply uuid_ext|congruence].
Defined.

(** The identifier with the given bits (a literal in the witnesses). *)
Definition uuid_of (n : N) : Uuid.
Proof.
  refine (MkUuid (n mod 2 ^ 128) _). apply bool_decide_eq_true. by apply N.mod_lt.
Defined.

#[export] Instance Uuid_countable : Countable Uuid.
Proof.
  apply (inj_countable' uuid_bits uuid_of). intros u. apply uuid_ext. simpl.
  apply N.mod_small. destruct u as [b Hb]. simpl.
  by apply bool_decide_eq_true in Hb.
Defined.

(** Newtype wrappers (declared by the source, not used by the handlers). *)
Record TenantId : Type := MkTenantId { tenant_id_0 : Uuid }.
Record BackupId : Type := MkBackupId { backup_id_0 : Uuid }.

(** The [uuid] crate's [Display] and [FromStr], and the text of the latter's error. *)
Class UuidCrate : Type := {
  uuid_to_string : Uuid -> string;
  uuid_parse : string -> option Uuid;
  uuid_parse_error : string -> string;
}.

(** Every identifier's textual form is read back as that identifier. *)
Class UuidLaws `{UuidCrate} : Prop := {
  uuid_parse_display : forall u, uuid_parse (uuid_to_string u) = Some u;
}.

#[export] Instance uuid_to_string_inj `{UuidLaws} : Inj (=) (=) uuid_to_string.
Proof.
  intros u v Huv. apply (f_equal uuid_parse) in Huv.
  rewrite !uuid_parse_display in Huv. congruence.
Qed.

(** ** Scalars *)

(** [chrono::DateTime<Utc>]: microseconds since the epoch, the precision of a [TIMESTAMPTZ]. *)
Abbreviation DateTime := Z.

(** [f64]: IEEE binary64. *)
Abbreviation f64 := spec_float.
Definition f64_lt (a b : f64) : bool := SFltb a b.

(** ** Status *)

Inductive BackupStatus : Type := Pending | Running | Completed | Failed.

#[export] Instance BackupStatus_eq_dec : EqDecision BackupStatus.
Proof. solve_decision. Defined.

(** [Display for BackupStatus] *)
Definition status_to_string (s : BackupStatus) : string :=
  match s with
  | Pending => "pending"
  | Running => "running"
  | Completed => "completed"
  | Failed => "failed"
  end.

(** The derived [Deserialize] under [rename_all = "lowercase"]. *)
Definition status_from_string (s : string) : option BackupStatus :=
  if String.eqb s "pending" then Some Pending
  else if String.eqb s "running" then Some Running
  else if String.eqb s "completed" then Some Completed
  else if String.eqb s "failed" then Some Failed
  else None.

(** ** Rows, requests and responses *)

Record Backup : Type := MkBackup {
  b_id : Uuid;
  b_tenant_id : Uuid;
  b_source_path : string;
  b_size_bytes : Z;
  b_status : string;
  b_encryption_enabled : bool;
  b_created_at : DateTime;
  b_updated_at : DateTime;
}.

#[export] Instance Backup_eq_dec : EqDecision Backup.
Proof. solve_decision. Defined.

Record CreateBackupRequest : Type := MkCreateBackupRequest {
  req_source_path : string;
  req_encryption_enabled : bool;
}.

Record UpdateBackupRequest : Type := MkUpdateBackupRequest {
  req_status : option BackupStatus;
  req_size_bytes : option Z;
}.

Record BackupResponse : Type := MkBackupResponse {
  r_id : Uuid;
  r_tenant_id : Uuid;
  r_source_path : string;
  r_size_bytes : Z;
  r_status : string;
  r_encryption_enabled : bool;
  r_created_at : DateTime;
  r_updated_at : DateTime;
  r_entropy : option f64;
}.

(** [impl From<Backup> for BackupResponse] *)
Definition response_of (b : Backup) : BackupResponse :=
  {| r_id := b_id b;
     r_tenant_id := b_tenant_id b;
     r_source_path := b_source_path b;
     r_size_bytes := b_size_bytes b;
     r_status := b_status b;
     r_encryption_enabled := b_encryption_enabled b;
     r_created_at := b_created_at b;
     r_updated_at := b_updated_at b;
     r_entropy := None |}.

(** [resp.entropy = Some(e)] *)
Definition with_entropy (r : BackupResponse) (e : f64) : BackupResponse :=
  {| r_id := r_id r;
     r_tenant_id := r_tenant_id r;
     r_source_path := r_source_path r;
     r_size_bytes := r_size_bytes r;
     r_status := r_status r;
     r_encryption_enabled := r_encryption_enabled r;
     r_created_at := r_created_at r;
     r_updated_at := r_updated_at r;
     r_entropy := Some e |}.

Record ListParams : Type := MkListParams {
  lp_offset : Z;
  lp_limit : Z;
  lp_status : option string;
}.

Definition default_limit : Z := 20.

(** The derived [Deserialize] of [ListParams]: absent fields take their defaults. *)
Definition list_params (offset limit : option Z) (status : option string) : ListParams :=
  {| lp_offset := unwrap_or offset 0;
     lp_limit := unwrap_or limit default_limit;
     lp_status := status |}.

Record ListResponse (T : Type) : Type := MkListResponse {
  items : list T;
  total : Z;
  lr_offset : Z;
  lr_limit : Z;
}.
Arguments MkListResponse {T}.
Arguments items {T} l.
Arguments total {T} l.
Arguments lr_offset {T} l.
Arguments lr_limit {T} l.

Record Claims : Type := MkClaims {
  c_sub : string;
  c_tenant_id : Uuid;
  c_roles : list string;
  c_exp : Z;
  c_iat : Z;
}.

(** ** [serde_json] on rows *)

Record SerdeError : Type := MkSerdeError { serde_msg : string }.

(** [serde_json::to_string] and [from_str] at the two types the cache stores. *)
Class SerdeJson : Type := {
  backup_to_json : Backup -> result string SerdeError;
  backup_from_json : string -> result Backup SerdeError;
  page_to_json : list Backup * Z -> result string SerdeError;
  page_from_json : string -> result (list Backup * Z) SerdeError;
}.

(** What was serialized is read back unchanged. *)
Class SerdeJsonLaws `{SerdeJson} : Prop := {
  backup_json_roundtrip : forall b s, backup_to_json b = Ok s -> backup_from_json s = Ok b;
  page_json_roundtrip : forall p s, page_to_json p = Ok s -> page_from_json s = Ok p;
}.

(** ** Lemmas *)

Lemma status_from_to_string (s : BackupStatus) :
  status_from_string (status_to_string s) = Some s.
Proof. by destruct s. Qed.

Lemma status_to_from_string (s : string) (st : BackupStatus) :
  status_from_string s = Some st -> status_to_string st = s.
Proof.
  unfold status_from_string. repeat case_match; intros [= <-]; simpl;
    symmetry; by apply String.eqb_eq.
Qed.

Lemma response_of_inj (a b : Backup) : response_of a = response_of b -> a = b.
Proof. destruct a, b. by intros [= -> -> -> -> -> -> -> ->]. Qed.

(** ** Reference implementations of the interfaces *)

#[export] Instance Backup_countable : Countable Backup.
Proof.
  apply (inj_countable'
    (fun b => (b_id b, b_tenant_id b, b_source_path b, b_size_bytes b, b_status b,
               b_encryption_enabled b, b_created_at b, b_updated_at b))
    (fun '(a, b, c, d, e, f, g, h) => MkBackup a b c d e f g h)).
  by intros [].
Defined.

#[export] Instance Claims_eq_dec : EqDecision Claims.
Proof. solve_decision. Defined.

#[export] Instance Claims_countable : Countable Claims.
Proof.
  apply (inj_countable'
    (fun c => (c_sub c, c_tenant_id c, c_roles c, c_exp c, c_iat c))
    (fun '(a, b, c, d, e) => MkClaims a b c d e)).
  by intros [].
Defined.

Module Reference.
Definition uuids : UuidCrate :=
  {| uuid_to_string u := encode_text u; uuid_parse s := decode_text s;
     uuid_parse_error _ := "invalid character" |}.

Lemma uuids_laws : @UuidLaws uuids.
Proof. split. intros u. apply decode_encode_text. Qed.

Definition json : SerdeJson :=
  {| backup_to_json b := Ok (encode_text b);
     backup_from_json s := ok_or (decode_text s) (MkSerdeError "invalid JSON");
     page_to_json p := Ok (encode_text p);
     page_from_json s := ok_or (decode_text s) (MkSerdeError "invalid JSON") |}.

Lemma row_json_laws : @SerdeJsonLaws json.
Proof. by split; intros x s [= <-]; cbn; rewrite decode_encode_text. Qed.
End Reference.
