(* ===== verification/Errors.v ===== *)
(** HTTP responses and the service's error type ([errors.rs]): the variants of [AppError],
    their [Display] text and the response each one becomes. *)

From S2P Require Import Prelude Models.

(** ** Responses *)

Abbreviation StatusCode := Z.
Definition OK : StatusCode := 200.
Definition CREATED : StatusCode := 201.
Definition ACCEPTED : StatusCode := 202.
Definition NO_CONTENT : StatusCode := 204.
Definition BAD_REQUEST : StatusCode := 400.
Definition UNAUTHORIZED : StatusCode := 401.
Definition FORBIDDEN : StatusCode := 403.
Definition NOT_FOUND : StatusCode := 404.
Definition METHOD_NOT_ALLOWED : StatusCode := 405.
Definition REQUEST_TIMEOUT : StatusCode := 408.
Definition CONFLICT : StatusCode := 409.
Definition PAYLOAD_TOO_LARGE : StatusCode := 413.
Definition TOO_MANY_REQUESTS : StatusCode := 429.
Definition INTERNAL_SERVER_ERROR : StatusCode := 500.
Definition SERVICE_UNAVAILABLE : StatusCode := 503.

(** [serde_json::Value], as the [json!] macro builds it. *)
Inductive Json : Type :=
  | JBool (b : bool)
  | JNum (z : Z)
  | JStr (s : string)
  | JObj (fields : list (string * Json)).

(** [LoginResponse] ([handlers/auth.rs]) *)
Record LoginResponse : Type := MkLoginResponse {
  token : string;
  token_type : string;
  expires_in : Z;
}.

(** What a handler passes to [Json(..)], or nothing. *)
Inductive Body : Type :=
  | JsonValue (j : Json)
  | JsonBackup (r : BackupResponse)
  | JsonBackups (l : ListResponse BackupResponse)
  | JsonLogin (l : LoginResponse)
  | TextBody (s : string)
  | NoBody.

Record Response : Type := MkResponse {
  status : StatusCode;
  headers : list (string * string);
  body : Body;
}.

(** [HeaderMap::insert]: the previous values of the name are replaced. *)
Definition header_insert (k v : string) (r : Response) : Response :=
  {| status := status r;
     headers := (k, v) :: List.filter (fun h => negb (String.eqb h.1 k)) (headers r);
     body := body r |}.

Fixpoint assoc (k : string) (hs : list (string * string)) : option string :=
  match hs with
  | [] => None
  | (k', v) :: hs' => if String.eqb k' k then Some v else assoc k hs'
  end.

(** ** Errors *)

(** Errors of the crates, with the text their [Display] prints. *)
Inductive SqlxKind : Type :=
  | CheckViolation
  | UniqueViolation
  | InvalidLimit
  | Unavailable.
Record SqlxError : Type := MkSqlxError { sqlx_kind : SqlxKind; sqlx_msg : string }.
Record RedisError : Type := MkRedisError { redis_msg : string }.
Record JwtError : Type := MkJwtError { jwt_msg : string }.
Record AnyhowError : Type := MkAnyhowError { anyhow_msg : string }.

Inductive AppError : Type :=
  | NotFound (msg : string)
  | Unauthorized (msg : string)
  | Forbidden (msg : string)
  | Validation (msg : string)
  | Conflict (msg : string)
  | Database (e : SqlxError)
  | Redis_ (e : RedisError)
  | Jwt (e : JwtError)
  | Internal (e : AnyhowError).

(** The [#[error(...)]] attributes. *)
Definition app_error_to_string (e : AppError) : string :=
  match e with
  | NotFound m => "resource not found: " +:+ m
  | Unauthorized m => "unauthorized: " +:+ m
  | Forbidden m => "forbidden: " +:+ m
  | Validation m => "validation error: " +:+ m
  | Conflict m => "conflict: " +:+ m
  | Database e => "database error: " +:+ sqlx_msg e
  | Redis_ e => "redis error: " +:+ redis_msg e
  | Jwt e => "jwt error: " +:+ jwt_msg e
  | Internal e => "internal error: " +:+ anyhow_msg e
  end.

(** The status and message that [into_response] selects. *)
Definition error_status (e : AppError) : StatusCode * string :=
  match e with
  | NotFound msg => (NOT_FOUND, msg)
  | Unauthorized msg => (UNAUTHORIZED, msg)
  | Forbidden msg => (FORBIDDEN, msg)
  | Validation msg => (BAD_REQUEST, msg)
  | Conflict msg => (CONFLICT, msg)
  | Database _ => (INTERNAL_SERVER_ERROR, "internal server error")
  | Redis_ _ => (INTERNAL_SERVER_ERROR, "internal server error")
  | Jwt _ => (UNAUTHORIZED, "invalid token")
  | Internal _ => (INTERNAL_SERVER_ERROR, "internal server error")
  end.

(** [impl IntoResponse for AppError] *)
Definition into_response (e : AppError) : Response :=
  let '(st, message) := error_status e in
  {| status := st;
     headers := [];
     body := JsonValue (JObj [("error", JStr message); ("status", JNum st)]) |}.

(** A variant that wraps another crate's error. *)
Definition wraps_internal (e : AppError) : bool :=
  match e with
  | Database _ | Redis_ _ | Jwt _ | Internal _ => true
  | _ => false
  end.

(** ** Lemmas *)

Lemma header_insert_eq (k v : string) (r : Response) :
  assoc k (headers (header_insert k v r)) = Some v.
Proof. simpl. by rewrite String.eqb_refl. Qed.

Lemma assoc_filter_ne (k k' : string) (hs : list (string * string)) :
  k <> k' -> assoc k' (List.filter (fun h => negb (String.eqb h.1 k)) hs) = assoc k' hs.
Proof.
  intros Hne. induction hs as [|[a v] hs IH]; [done|]. simpl.
  destruct (String.eqb_spec a k) as [->|]; simpl.
  - destruct (String.eqb_spec k k'); [done|]. by rewrite IH.
  - by rewrite IH.
Qed.

Lemma header_insert_ne (k k' v : string) (r : Response) :
  k <> k' -> assoc k' (headers (header_insert k v r)) = assoc k' (headers r).
Proof.
  intros Hne. simpl. destruct (String.eqb_spec k k'); [done|]. by apply assoc_filter_ne.
Qed.

(** ** What a client learns from an error *)

(** The variant, without the error it wraps. *)
Definition same_variant (e e' : AppError) : bool :=
  match e, e' with
  | NotFound _, NotFound _ | Unauthorized _, Unauthorized _ | Forbidden _, Forbidden _
  | Validation _, Validation _ | Conflict _, Conflict _ | Database _, Database _
  | Redis_ _, Redis_ _ | Jwt _, Jwt _ | Internal _, Internal _ => true
  | _, _ => false
  end.

(** The message a variant of the service's own carries. *)
Definition own_message (e : AppError) : option string :=
  match e with
  | NotFound m | Unauthorized m | Forbidden m | Validation m | Conflict m => Some m
  | Database _ | Redis_ _ | Jwt _ | Internal _ => None
  end.

(** An error response never shows what another crate's error says: the response of a
    variant that wraps one is the same whatever it wraps, while a variant of the service's
    own shows its message; the status code is a 4xx or a 5xx, and it is the one repeated in
    the body. *)
Theorem error_response_hides_causes (e : AppError) :
  let r := into_response e in
  (exists m, body r = JsonValue (JObj [("error", JStr m); ("status", JNum (status r))])
             /\ (own_message e = Some m \/ own_message e = None))
  /\ 400 <= status r <= 500
  /\ (forall e', same_variant e e' = true -> own_message e = own_message e' ->
        into_response e' = r)
  /\ (forall m, own_message e = Some m ->
        body r = JsonValue (JObj [("error", JStr m); ("status", JNum (status r))])).
Proof.
  destruct e; cbn; (split; [eexists; split; [done|by auto]|]);
    unfold NOT_FOUND, UNAUTHORIZED, FORBIDDEN, BAD_REQUEST, CONFLICT, INTERNAL_SERVER_ERROR;
    (split; [lia|]); (split; [|naive_solver]);
    intros [] Hv; try done; cbn; naive_solver.
Qed.
