(* ===== verification/SocketAddr.v ===== *)
(** [std::net::SocketAddr] and its [FromStr], after the standard library's address parser:
    a recursive-descent reader over the input that gives back the rest of the text. *)

From S2P Require Import Prelude.

(** The four octets and the port, or the eight groups, the scope id and the port. *)
Inductive SocketAddr : Type :=
  | V4 (ip : list Z) (port : Z)
  | V6 (groups : list Z) (scope_id : Z) (port : Z).

#[export] Instance SocketAddr_eq_dec : EqDecision SocketAddr.
Proof. solve_decision. Defined.

(** A reader consumes a prefix of its input. *)
Abbreviation Reader A := (string -> option (A * string)).

Definition char_digit (radix : Z) (a : Ascii.ascii) : option Z :=
  let n := Z.of_nat (Ascii.nat_of_ascii a) in
  let d := if (48 <=? n) && (n <=? 57) then n - 48
           else if (97 <=? n) && (n <=? 122) then n - 87
           else if (65 <=? n) && (n <=? 90) then n - 55
           else radix in
  if d <? radix then Some d else None.

Definition read_given_char (c : Ascii.ascii) : Reader unit := fun s =>
  match s with
  | String a s' => if Ascii.eqb a c then Some (tt, s') else None
  | EmptyString => None
  end.

(** The longest run of digits: their number, their value and the rest of the text. *)
Fixpoint read_digits (radix count acc : Z) (s : string) : Z * Z * string :=
  match s with
  | EmptyString => (count, acc, s)
  | String a s' =>
      match char_digit radix a with
      | Some d => read_digits radix (count + 1) (acc * radix + d) s'
      | None => (count, acc, s)
      end
  end.

(** [read_number]: at least one digit, at most [max_digits] when it is given, no leading
    zero unless allowed, and a value that fits ([bound] excluded). *)
Definition read_number (radix : Z) (max_digits : option Z) (zero_prefix : bool) (bound : Z)
    : Reader Z := fun s =>
  let '(count, v, rest) := read_digits radix 0 0 s in
  let leading_zero := match s with String "0"%char _ => true | _ => false end in
  if match max_digits with Some m => m <? count | None => false end then None
  else if count =? 0 then None
  else if negb zero_prefix && leading_zero && (1 <? count) then None
  else if v <? bound then Some (v, rest) else None.

(** [read_separator]: the separator comes before every element but the first. *)
Definition read_separator {A} (sep : Ascii.ascii) (index : nat) (r : Reader A) : Reader A :=
  fun s =>
    match index with
    | O => r s
    | _ => match read_given_char sep s with Some (_, s') => r s' | None => None end
    end.

Fixpoint read_octets (n index : nat) : Reader (list Z) := fun s =>
  match n with
  | O => Some ([], s)
  | S n' =>
      match read_separator "."%char index (read_number 10 (Some 3) false 256) s with
      | Some (o, s') =>
          match read_octets n' (S index) s' with
          | Some (os, s'') => Some (o :: os, s'')
          | None => None
          end
      | None => None
      end
  end.

Definition read_ipv4_addr : Reader (list Z) := read_octets 4 0.

(** [read_groups]: up to [n] groups; the flag says that an embedded IPv4 address ended them. *)
Fixpoint read_groups (n index : nat) (s : string) : list Z * bool * string :=
  match n with
  | O => ([], false, s)
  | S n' =>
      let v4 := match n' with
                | O => None
                | _ => read_separator ":"%char index read_ipv4_addr s
                end in
      match v4 with
      | Some ([a; b; c; d], s') => ([a * 256 + b; c * 256 + d], true, s')
      | _ =>
          match read_separator ":"%char index (read_number 16 (Some 4) true 65536) s with
          | Some (g, s') =>
              let '(gs, v4end, s'') := read_groups n' (S index) s' in (g :: gs, v4end, s'')
          | None => ([], false, s)
          end
      end
  end.

Definition read_ipv6_addr : Reader (list Z) := fun s =>
  let '(head, head_v4, s1) := read_groups 8 0 s in
  if Nat.eqb (length head) 8 then Some (head, s1)
  else if head_v4 then None
  else
    match read_given_char ":"%char s1 with
    | Some (_, s2) =>
        match read_given_char ":"%char s2 with
        | Some (_, s3) =>
            let '(tail, _, s4) := read_groups (7 - length head) 0 s3 in
            Some (head ++ repeat 0 (8 - length head - length tail) ++ tail, s4)
        | None => None
        end
    | None => None
    end.

Definition read_port : Reader Z := fun s =>
  match read_given_char ":"%char s with
  | Some (_, s') => read_number 10 None true 65536 s'
  | None => None
  end.

Definition read_scope_id : Reader Z := fun s =>
  match read_given_char "%"%char s with
  | Some (_, s') => read_number 10 None true (2 ^ 32) s'
  | None => None
  end.

Definition read_socket_addr_v4 : Reader SocketAddr := fun s =>
  match read_ipv4_addr s with
  | Some (ip, s1) => match read_port s1 with Some (p, s2) => Some (V4 ip p, s2) | None => None end
  | None => None
  end.

Definition read_socket_addr_v6 : Reader SocketAddr := fun s =>
  match read_given_char "["%char s with
  | Some (_, s1) =>
      match read_ipv6_addr s1 with
      | Some (ip, s2) =>
          let '(scope, s3) := match read_scope_id s2 with
                              | Some r => r
                              | None => (0, s2)
                              end in
          match read_given_char "]"%char s3 with
          | Some (_, s4) =>
              match read_port s4 with
              | Some (p, s5) => Some (V6 ip scope p, s5)
              | None => None
              end
          | None => None
          end
      | None => None
      end
  | None => None
  end.

(** The whole text must be consumed. *)
Definition parse_addr (s : string) : option SocketAddr :=
  match match read_socket_addr_v4 s with
        | Some r => Some r
        | None => read_socket_addr_v6 s
        end with
  | Some (a, EmptyString) => Some a
  | _ => None
  end.

Example parse_addr_v4 : parse_addr "0.0.0.0:8080" = Some (V4 [0; 0; 0; 0] 8080).
Proof. reflexivity. Qed.
Example parse_addr_v6 : parse_addr "[::1]:50051" = Some (V6 [0; 0; 0; 0; 0; 0; 0; 1] 0 50051).
Proof. reflexivity. Qed.
Example parse_addr_octal : parse_addr "127.0.0.01:80" = None.
Proof. reflexivity. Qed.
Example parse_addr_port : parse_addr "127.0.0.1:65536" = None.
Proof. reflexivity. Qed.
Example parse_addr_no_port : parse_addr "localhost:8080" = None.
Proof. reflexivity. Qed.
