(* ===== verification/Merge.v ===== *)
(** The remote configuration payload and its merge into [AppConfig] ([apollo/merge.rs]). *)

From S2P Require Import Prelude SocketAddr Config.

Record RateLimitUpdate : Type := MkRateLimitUpdate {
  u_max_requests : option Z;
  u_window_secs : option Z;
}.

Record RemoteConfigUpdate : Type := MkRemoteConfigUpdate {
  u_rate_limit : option RateLimitUpdate;
  u_cache_ttl_secs : option Z;
  u_cached_list_limit : option Z;
  u_cached_list_offset : option Z;
}.

(** [#[derive(Default)]] *)
Definition default_update : RemoteConfigUpdate :=
  {| u_rate_limit := None; u_cache_ttl_secs := None;
     u_cached_list_limit := None; u_cached_list_offset := None |}.

(** ** The assignments *)

(** [config.rate_limit.max_requests = v] and the other assignments of [apply_update]. *)
Definition set_rate_limit (f : RateLimitConfig -> RateLimitConfig) (c : AppConfig) : AppConfig :=
  {| database_url := database_url c; redis_url := redis_url c; amqp_url := amqp_url c;
     jwt_secret := jwt_secret c; listen_addr := listen_addr c; grpc_addr := grpc_addr c;
     rate_limit := f (rate_limit c);
     cache_ttl_secs := cache_ttl_secs c; cached_list_limit := cached_list_limit c;
     cached_list_offset := cached_list_offset c; apollo_config_url := apollo_config_url c;
     apollo_poll_interval_secs := apollo_poll_interval_secs c;
     apollo_timeout_secs := apollo_timeout_secs c |}.

Definition set_max_requests (v : Z) (r : RateLimitConfig) : RateLimitConfig :=
  {| max_requests := v; window_secs := window_secs r |}.

Definition set_window_secs (v : Z) (r : RateLimitConfig) : RateLimitConfig :=
  {| max_requests := max_requests r; window_secs := v |}.

Definition set_cache (ttl limit offset : Z) (c : AppConfig) : AppConfig :=
  {| database_url := database_url c; redis_url := redis_url c; amqp_url := amqp_url c;
     jwt_secret := jwt_secret c; listen_addr := listen_addr c; grpc_addr := grpc_addr c;
     rate_limit := rate_limit c;
     cache_ttl_secs := ttl; cached_list_limit := limit; cached_list_offset := offset;
     apollo_config_url := apollo_config_url c;
     apollo_poll_interval_secs := apollo_poll_interval_secs c;
     apollo_timeout_secs := apollo_timeout_secs c |}.

(** [if let Some(v) = o { f(v) }] *)
Definition when_some {A S} (o : option A) (f : A -> S -> S) (s : S) : S :=
  match o with Some v => f v s | None => s end.

Definition apply_update (c : AppConfig) (u : RemoteConfigUpdate) : AppConfig :=
  let c := when_some (u_rate_limit u) (fun rl c =>
             let c := when_some (u_max_requests rl)
                        (fun v => set_rate_limit (set_max_requests v)) c in
             when_some (u_window_secs rl) (fun v => set_rate_limit (set_window_secs v)) c) c in
  let c := when_some (u_cache_ttl_secs u)
             (fun v c => set_cache v (cached_list_limit c) (cached_list_offset c) c) c in
  let c := when_some (u_cached_list_limit u)
             (fun v c => set_cache (cache_ttl_secs c) v (cached_list_offset c) c) c in
  when_some (u_cached_list_offset u)
    (fun v c => set_cache (cache_ttl_secs c) (cached_list_limit c) v c) c.

(** ** The algebra of updates *)

Definition or_else {A} (later earlier : option A) : option A :=
  match later with Some v => Some v | None => earlier end.

Definition merge_rate_limit (r1 r2 : option RateLimitUpdate) : option RateLimitUpdate :=
  match r1, r2 with
  | Some a, Some b =>
      Some {| u_max_requests := or_else (u_max_requests b) (u_max_requests a);
              u_window_secs := or_else (u_window_secs b) (u_window_secs a) |}
  | None, r | r, None => r
  end.

(** One payload with the effect of [u1] and then [u2]. *)
Definition merge_updates (u1 u2 : RemoteConfigUpdate) : RemoteConfigUpdate :=
  {| u_rate_limit := merge_rate_limit (u_rate_limit u1) (u_rate_limit u2);
     u_cache_ttl_secs := or_else (u_cache_ttl_secs u2) (u_cache_ttl_secs u1);
     u_cached_list_limit := or_else (u_cached_list_limit u2) (u_cached_list_limit u1);
     u_cached_list_offset := or_else (u_cached_list_offset u2) (u_cached_list_offset u1) |}.

(** The fields a remote payload must not reach. *)
Definition protected_fields (c : AppConfig) :=
  (database_url c, redis_url c, amqp_url c, jwt_secret c, listen_addr c, grpc_addr c,
   apollo_config_url c, apollo_poll_interval_secs c, apollo_timeout_secs c).

(** The fields it may set. *)
Definition updatable_fields (c : AppConfig) : list Z :=
  [max_requests (rate_limit c); window_secs (rate_limit c); cache_ttl_secs c;
   cached_list_limit c; cached_list_offset c].

Definition update_fields (u : RemoteConfigUpdate) : list (option Z) :=
  [rl ← u_rate_limit u; u_max_requests rl; rl ← u_rate_limit u; u_window_secs rl;
   u_cache_ttl_secs u; u_cached_list_limit u; u_cached_list_offset u].

(** Every number of the payload has its field's type. *)
Definition update_wf (u : RemoteConfigUpdate) : bool :=
  let fits ok o := match o with Some v => ok v | None => true end in
  fits in_u64 (rl ← u_rate_limit u; u_max_requests rl)
  && fits in_u64 (rl ← u_rate_limit u; u_window_secs rl)
  && fits in_u64 (u_cache_ttl_secs u)
  && fits in_i64 (u_cached_list_limit u) && fits in_i64 (u_cached_list_offset u).

Ltac destruct_update u :=
  destruct u as [[[[?|] [?|]]|] [?|] [?|] [?|]].

Lemma apply_update_protected (c : AppConfig) (u : RemoteConfigUpdate) :
  protected_fields (apply_update c u) = protected_fields c.
Proof. by destruct_update u. Qed.

Lemma apply_update_fields (c : AppConfig) (u : RemoteConfigUpdate) :
  updatable_fields (apply_update c u) =
  zip_with unwrap_or (update_fields u) (updatable_fields c).
Proof. by destruct_update u. Qed.

Lemma config_ext (c d : AppConfig) :
  protected_fields c = protected_fields d -> updatable_fields c = updatable_fields d -> c = d.
Proof.
  destruct c as [? ? ? ? ? ? [? ?]], d as [? ? ? ? ? ? [? ?]]. cbn.
  by intros [= -> -> -> -> -> -> -> -> ->] [= -> -> -> -> ->].
Qed.

#[export] Hint Resolve apply_update_protected : core.

(** A remote payload sets each of the five updatable fields it names to its value and
    leaves the rest alone; URLs, the JWT secret, the listen addresses and the updater's own
    settings are never overwritten from remote, and a payload whose numbers have their types
    keeps the configuration well formed. *)
Theorem apply_update_spec (c : AppConfig) (u : RemoteConfigUpdate) :
  protected_fields (apply_update c u) = protected_fields c
  /\ updatable_fields (apply_update c u) =
     zip_with unwrap_or (update_fields u) (updatable_fields c)
  /\ (update_wf u = true -> config_wf c = true -> config_wf (apply_update c u) = true).
Proof.
  split; [done|]. split; [apply apply_update_fields|].
  destruct_update u; unfold update_wf, config_wf; simpl; rewrite ?andb_true_iff; tauto.
Qed.

(** Merging is a monoid action: applying one payload and then another is applying the
    single payload in which the later one wins field by field, and applying the same payload
    again changes nothing. *)
Theorem apply_update_compose (c : AppConfig) (u1 u2 : RemoteConfigUpdate) :
  apply_update (apply_update c u1) u2 = apply_update c (merge_updates u1 u2)
  /\ apply_update (apply_update c u1) u1 = apply_update c u1
  /\ apply_update c default_update = c.
Proof.
  split; [|split].
  - apply config_ext; [by rewrite !apply_update_protected|].
    rewrite !apply_update_fields. by destruct_update u1; destruct_update u2.
  - apply config_ext; [by rewrite !apply_update_protected|].
    rewrite !apply_update_fields. by destruct_update u1.
  - by destruct c.
Qed.

Definition sample_config : AppConfig :=
  {| database_url := "postgres://local"; redis_url := "redis://local";
     amqp_url := "amqp://local"; jwt_secret := "secret";
     listen_addr := V4 [0; 0; 0; 0] 8080; grpc_addr := V4 [0; 0; 0; 0] 50051;
     rate_limit := default_rate_limit; cache_ttl_secs := 300;
     cached_list_limit := 20; cached_list_offset := 0; apollo_config_url := None;
     apollo_poll_interval_secs := 60; apollo_timeout_secs := 10 |}.

Definition sample_update : RemoteConfigUpdate :=
  {| u_rate_limit := Some {| u_max_requests := Some 50; u_window_secs := None |};
     u_cache_ttl_secs := Some 600; u_cached_list_limit := None;
     u_cached_list_offset := Some 10 |}.

Lemma apply_update_spec_witness :
  updatable_fields (apply_update sample_config sample_update) = [50; 60; 600; 20; 10]
  /\ config_wf (apply_update sample_config sample_update) = true.
Proof.
  destruct (apply_update_spec sample_config sample_update) as (_ & Hf & Hwf).
  split; [rewrite Hf; reflexivity|]. apply Hwf; reflexivity.
Defined.
