(* ===== verification/RateLimit.v ===== *)
(** The per-tenant rate limiter ([InMemoryRateLimiter] of [middleware/rate_limit.rs]): one
    counter and window start per tenant behind a mutex.  The file proves that the limiter
    implements the log of the requests of the current window, that tenants do not influence
    each other, and what the fixed windows promise about any stretch of time. *)

From S2P Require Import Prelude Models SocketAddr Config.
From Stdlib Require Import Sorting.Sorted.

(** [std::time::Instant] and [Duration], in nanoseconds. *)
Abbreviation Instant := Z.
Definition from_secs (s : Z) : Z := s * 1000000000.

(** [Instant::duration_since] saturates at zero. *)
Definition duration_since (now earlier : Instant) : Z := Z.max 0 (now - earlier).

Record RateLimitInfo : Type := MkRateLimitInfo {
  rl_limit : Z;
  rl_remaining : Z;
  rl_reset_secs : Z;
}.

(** The map under the mutex: the count and the start of each tenant's window. *)
Abbreviation Limiter := (gmap Uuid (Z * Instant)).

(** The new entry: [or_insert((0, now))], the reset when the window expired, the increment. *)
Definition next_entry (e : option (Z * Instant)) (window : Z) (now : Instant) : Z * Instant :=
  let entry := unwrap_or e (0, now) in
  let entry := if window <=? duration_since now entry.2 then (0, now) else entry in
  (wadd64 entry.1 1, entry.2).

(** The decision on the incremented count. *)
Definition decide_entry (count : Z) (config : RateLimitConfig) : result RateLimitInfo unit :=
  let remaining := saturating_sub (max_requests config) count in
  if max_requests config <? count then Err tt
  else Ok {| rl_limit := max_requests config;
             rl_remaining := remaining;
             rl_reset_secs := window_secs config |}.

Definition check_and_increment (counters : Limiter) (tenant_id : Uuid)
    (config : RateLimitConfig) (now : Instant) : result RateLimitInfo unit * Limiter :=
  let window := from_secs (window_secs config) in
  let entry := next_entry (counters !! tenant_id) window now in
  (decide_entry entry.1 config, <[tenant_id := entry]> counters).

(** ** Sequences of calls *)

Record Call : Type := MkCall { k_tenant : Uuid; k_config : RateLimitConfig; k_now : Instant }.

(** The calls in the order in which they took the mutex. *)
Fixpoint run_calls (counters : Limiter) (calls : list Call)
    : list (Uuid * result RateLimitInfo unit) * Limiter :=
  match calls with
  | [] => ([], counters)
  | c :: cs =>
      let '(r, counters') := check_and_increment counters (k_tenant c) (k_config c) (k_now c) in
      let '(rs, counters'') := run_calls counters' cs in
      ((k_tenant c, r) :: rs, counters'')
  end.

Definition of_tenant (t : Uuid) (rs : list (Uuid * result RateLimitInfo unit)) :=
  List.filter (fun r => bool_decide (r.1 = t)) rs.

Definition calls_of (t : Uuid) (cs : list Call) : list Call :=
  List.filter (fun c => bool_decide (k_tenant c = t)) cs.

(** ** The abstract specification: the log of the current window *)

(** The instants of the requests counted in the tenant's current window, oldest first. *)
Abbreviation RequestLog := (gmap Uuid (list Instant)).

Definition log_window (l : list Instant) (window : Z) (now : Instant) : list Instant :=
  match l with
  | [] => [now]
  | first :: _ => if window <=? duration_since now first then [now] else l ++ [now]
  end.

(** A request whose log, with itself, is no longer than the maximum is admitted and told how
    many more would be; every other is refused. *)
Definition spec_answer (l : list Instant) (cfg : RateLimitConfig) : result RateLimitInfo unit :=
  let n := Z.of_nat (length l) in
  if n <=? max_requests cfg
  then Ok {| rl_limit := max_requests cfg;
             rl_remaining := max_requests cfg - n;
             rl_reset_secs := window_secs cfg |}
  else Err tt.

Definition spec_call (log : RequestLog) (c : Call) : result RateLimitInfo unit * RequestLog :=
  let l := log_window (unwrap_or (log !! k_tenant c) [])
             (from_secs (window_secs (k_config c))) (k_now c) in
  (spec_answer l (k_config c), <[k_tenant c := l]> log).

Fixpoint spec_calls (log : RequestLog) (calls : list Call)
    : list (Uuid * result RateLimitInfo unit) :=
  match calls with
  | [] => []
  | c :: cs => let '(r, log') := spec_call log c in (k_tenant c, r) :: spec_calls log' cs
  end.

(** The counter is the length of the log and the window starts at its first entry. *)
Definition entry_refines (e : option (Z * Instant)) (l : option (list Instant)) : Prop :=
  match e, l with
  | None, None => True
  | Some (n, s), Some (first :: rest) => n = Z.of_nat (length (first :: rest)) /\ s = first
  | _, _ => False
  end.

Definition limiter_refines (bound : Z) (counters : Limiter) (log : RequestLog) : Prop :=
  forall t, entry_refines (counters !! t) (log !! t)
            /\ match counters !! t with Some (n, _) => n <= bound | None => True end.

Lemma next_entry_refines (e : option (Z * Instant)) (l : option (list Instant))
    (window now bound : Z) :
  entry_refines e l -> match e with Some (n, _) => n <= bound | None => True end ->
  0 <= bound < u64_max ->
  let l' := log_window (unwrap_or l []) window now in
  entry_refines (Some (next_entry e window now)) (Some l')
  /\ (next_entry e window now).1 = Z.of_nat (length l')
  /\ (next_entry e window now).1 <= bound + 1.
Proof.
  intros Hr Hb Hbound. unfold next_entry, log_window.
  destruct e as [[n s]|], l as [[|first rest]|]; cbn [entry_refines] in Hr; try done.
  - destruct Hr as [-> ->]. cbn [unwrap_or fst snd].
    case_match; cbn [fst snd entry_refines length app];
      rewrite ?length_app; cbn [length];
      rewrite wadd64_small; cbn [length] in *; unfold u64_max in *; lia.
  - cbn [unwrap_or fst snd]. case_match; cbn [fst snd entry_refines length];
      rewrite wadd64_small; unfold u64_max in *; lia.
Qed.

Lemma decide_entry_spec (l : list Instant) (cfg : RateLimitConfig) :
  decide_entry (Z.of_nat (length l)) cfg = spec_answer l cfg.
Proof.
  unfold decide_entry, spec_answer, saturating_sub.
  destruct (Z.ltb_spec (max_requests cfg) (Z.of_nat (length l)));
    destruct (Z.leb_spec (Z.of_nat (length l)) (max_requests cfg)); try lia; [done|].
  do 2 f_equal. lia.
Qed.

Lemma run_calls_refines (calls : list Call) (counters : Limiter) (log : RequestLog) (bound : Z) :
  limiter_refines bound counters log -> 0 <= bound ->
  bound + Z.of_nat (length calls) <= u64_max ->
  (run_calls counters calls).1 = spec_calls log calls.
Proof.
  revert counters log bound. induction calls as [|c cs IH]; intros counters log bound HR H0 Hb;
    [done|].
  cbn [length] in Hb. cbn [run_calls spec_calls]. unfold check_and_increment, spec_call.
  destruct (HR (k_tenant c)) as [He Hn].
  destruct (next_entry_refines _ _ (from_secs (window_secs (k_config c))) (k_now c) bound
              He Hn ltac:(lia)) as (He' & Hlen & Hb').
  rewrite Hlen, decide_entry_spec.
  destruct (run_calls _ cs) as [rs counters''] eqn:E. simpl. f_equal.
  change rs with (rs, counters'').1. rewrite <-E. apply (IH _ _ (bound + 1)); [|lia|lia].
  intros t. destruct (decide (t = k_tenant c)) as [->|Hne].
  - rewrite !lookup_insert_eq. destruct (next_entry _ _ _) as [n s]. by split.
  - rewrite !lookup_insert_ne by done. destruct (HR t) as [Ht Hnt]. split; [done|].
    destruct (counters !! t) as [[? ?]|]; [lia|done].
Qed.

(** C15. The limiter implements its specification: on every sequence of fewer than 2^64 calls,
    in any order of tenants, instants and configurations, it answers exactly as the limiter
    that keeps the log of the current window ([spec_call], which shares no code with it): the
    request is admitted exactly when the log with it is no longer than the maximum, and the
    reported remaining quota is the maximum minus the log's length. *)
Theorem limiter_refines_log (calls : list Call) :
  Z.of_nat (length calls) <= u64_max ->
  (run_calls ∅ calls).1 = spec_calls ∅ calls.
Proof.
  intros H. apply (run_calls_refines _ _ _ 0); [|lia|lia].
  intros t. by rewrite !lookup_empty.
Qed.

Definition five_per_minute : RateLimitConfig := {| max_requests := 5; window_secs := 60 |}.

Lemma limiter_refines_log_witness :
  (run_calls ∅ (repeat (MkCall (uuid_of 7) five_per_minute 0) 6)).1
  = spec_calls ∅ (repeat (MkCall (uuid_of 7) five_per_minute 0) 6).
Proof. apply limiter_refines_log. vm_compute. done. Defined.

(** ** Tenants do not influence each other *)

Lemma run_calls_length (calls : list Call) (c : Limiter) :
  length (run_calls c calls).1 = length calls.
Proof.
  revert c. induction calls as [|k ks IH]; intros c; [done|]. cbn [run_calls].
  destruct (check_and_increment _ _ _ _) as [r c']. specialize (IH c').
  destruct (run_calls c' ks). cbn in *. by rewrite IH.
Qed.

Lemma run_calls_app (xs ys : list Call) (c : Limiter) :
  (run_calls c (xs ++ ys)).1 = (run_calls c xs).1 ++ (run_calls (run_calls c xs).2 ys).1.
Proof.
  revert c. induction xs as [|k ks IH]; intros c; [done|]. cbn [run_calls app].
  destruct (check_and_increment _ _ _ _) as [r c']. specialize (IH c').
  destruct (run_calls c' (ks ++ ys)), (run_calls c' ks). cbn in *. by rewrite IH.
Qed.

Lemma run_calls_isolated (t : Uuid) (calls : list Call) (c1 c2 : Limiter) :
  c1 !! t = c2 !! t ->
  of_tenant t (run_calls c1 calls).1 = (run_calls c2 (calls_of t calls)).1
  /\ (run_calls c1 calls).2 !! t = (run_calls c2 (calls_of t calls)).2 !! t.
Proof.
  revert c1 c2. induction calls as [|c cs IH]; intros c1 c2 Ht; [done|].
  cbn [run_calls calls_of List.filter].
  case_bool_decide as Hc; cbn [run_calls]; unfold check_and_increment.
  - subst t. rewrite <-Ht.
    match goal with |- context [run_calls (<[_ := ?e]> c1)] => set (en := e) end.
    destruct (IH (<[k_tenant c := en]> c1) (<[k_tenant c := en]> c2)) as [H1 H2];
      [by rewrite !lookup_insert_eq|].
    fold (calls_of (k_tenant c) cs).
    destruct (run_calls (<[k_tenant c := en]> c1) cs) as [r1 e1].
    destruct (run_calls (<[k_tenant c := en]> c2) (calls_of (k_tenant c) cs)) as [r2 e2].
    cbn in *. rewrite bool_decide_true by done. split; [by f_equal|done].
  - match goal with |- context [run_calls (<[_ := ?e]> c1)] => set (en := e) end.
    destruct (IH (<[k_tenant c := en]> c1) c2) as [H1 H2];
      [by rewrite lookup_insert_ne|].
    fold (calls_of t cs).
    destruct (run_calls (<[k_tenant c := en]> c1) cs) as [r1 e1]. cbn in *.
    rewrite bool_decide_false by done. by split.
Qed.

(** C39. Rate limits are per tenant: in any interleaving of the calls of all tenants, a
    tenant gets exactly the answers, and is left with exactly the counter, that its own
    calls alone would have produced. *)
Theorem limiter_tenant_isolation (t : Uuid) (counters : Limiter) (calls : list Call) :
  of_tenant t (run_calls counters calls).1 = (run_calls counters (calls_of t calls)).1
  /\ (run_calls counters calls).2 !! t = (run_calls counters (calls_of t calls)).2 !! t.
Proof. by apply run_calls_isolated. Qed.

(** ** One window *)

Definition burst (t : Uuid) (cfg : RateLimitConfig) (nows : list Instant) : list Call :=
  map (MkCall t cfg) nows.

Lemma burst_lookup (t : Uuid) (cfg : RateLimitConfig) (s n : Z) (nows : list Instant)
    (counters : Limiter) (i : nat) (now : Instant) :
  counters !! t = Some (n, s) -> 0 <= n -> n + Z.of_nat (length nows) <= u64_max ->
  Forall (fun x => s <= x < s + from_secs (window_secs cfg)) nows ->
  nows !! i = Some now ->
  (run_calls counters (burst t cfg nows)).1 !! i
  = Some (t, decide_entry (n + Z.of_nat i + 1) cfg).
Proof.
  revert n counters i. induction nows as [|x nows IH]; intros n counters i He Hn Hlen Hw Hi;
    [done|].
  apply Forall_cons in Hw as [Hx Hw]. cbn [length] in Hlen.
  cbn [burst map run_calls check_and_increment k_tenant k_config k_now].
  assert (Hne : next_entry (counters !! t) (from_secs (window_secs cfg)) x = (n + 1, s)).
  { rewrite He. unfold next_entry, duration_since. cbn [unwrap_or fst snd].
    rewrite (proj2 (Z.leb_gt _ _)) by lia. cbn [fst snd]. by rewrite wadd64_small by lia. }
  unfold check_and_increment. rewrite Hne. cbn [fst snd].
  fold (burst t cfg nows).
  destruct i as [|i]; cbn [lookup list_lookup] in Hi.
  - destruct (run_calls _ _) as [rs e]. cbn. do 3 f_equal. lia.
  - pose proof (IH (n + 1) (<[t := (n + 1, s)]> counters) i ltac:(by rewrite lookup_insert_eq)
                  ltac:(lia) ltac:(lia) Hw Hi) as H.
    destruct (run_calls _ _) as [rs e]. cbn [fst] in *. trans (rs !! i); [done|].
    rewrite H. do 3 f_equal. lia.
Qed.

(** Within one window the limiter admits exactly the first [max_requests] requests of a
    tenant: the i-th request (counting from 0) is admitted when [i < max_requests], with the
    remaining quota [max_requests - 1 - i], and every later one is rejected. *)
Theorem window_admits_first_max (t : Uuid) (cfg : RateLimitConfig) (start : Instant)
    (nows : list Instant) (i : nat) (now : Instant) :
  0 < from_secs (window_secs cfg) ->
  Z.of_nat (length nows) < u64_max ->
  Forall (fun x => start <= x < start + from_secs (window_secs cfg)) nows ->
  (start :: nows) !! i = Some now ->
  (run_calls ∅ (burst t cfg (start :: nows))).1 !! i
  = Some (t, if Z.of_nat i <? max_requests cfg
             then Ok {| rl_limit := max_requests cfg;
                        rl_remaining := max_requests cfg - 1 - Z.of_nat i;
                        rl_reset_secs := window_secs cfg |}
             else Err tt).
Proof.
  intros HW Hlen Hw Hi.
  assert (Hd : decide_entry (Z.of_nat i + 1) cfg
    = if Z.of_nat i <? max_requests cfg
      then Ok {| rl_limit := max_requests cfg;
                 rl_remaining := max_requests cfg - 1 - Z.of_nat i;
                 rl_reset_secs := window_secs cfg |}
      else Err tt).
  { unfold decide_entry, saturating_sub. repeat case_match; try lia; repeat f_equal; lia. }
  rewrite <-Hd.
  cbn [burst map run_calls]. unfold check_and_increment at 1. cbn [k_tenant k_config k_now].
  rewrite lookup_empty.
  assert (Hne : next_entry None (from_secs (window_secs cfg)) start = (1, start)).
  { unfold next_entry, duration_since. cbn [unwrap_or fst snd].
    rewrite (proj2 (Z.leb_gt _ _)) by lia. by cbn. }
  rewrite Hne. cbn [fst snd]. fold (burst t cfg nows).
  destruct i as [|i]; [by destruct (run_calls _ _)|].
  pose proof (burst_lookup t cfg start 1 nows (<[t := (1, start)]> ∅) i now
    ltac:(by rewrite lookup_insert_eq) ltac:(lia) ltac:(lia) Hw Hi) as H.
  destruct (run_calls _ _) as [rs e]. cbn [fst] in *. trans (rs !! i); [done|].
  rewrite H. do 3 f_equal. lia.
Qed.

Lemma window_admits_first_max_witness :
  (run_calls ∅ (burst (uuid_of 1) five_per_minute [0; 1; 2; 3; 4; 5])).1 !! 5%nat
  = Some (uuid_of 1, Err tt).
Proof.
  apply (window_admits_first_max (uuid_of 1) five_per_minute 0 [1; 2; 3; 4; 5] 5%nat 5);
    [by vm_compute|by vm_compute|by repeat constructor|reflexivity].
Defined.

(** ** Any stretch of time *)

Definition admitted (t : Uuid) (a w : Z) (c : Call) (r : result RateLimitInfo unit) : bool :=
  bool_decide (k_tenant c = t) && (a <=? k_now c) && (k_now c <? a + w) && is_ok r.

(** How many requests of [t] were admitted at an instant of [[a, a + w)]. *)
Fixpoint admissions (t : Uuid) (a w : Z) (counters : Limiter) (calls : list Call) : Z :=
  match calls with
  | [] => 0
  | c :: cs =>
      let '(r, counters') := check_and_increment counters (k_tenant c) (k_config c) (k_now c) in
      (if admitted t a w c r then 1 else 0) + admissions t a w counters' cs
  end.

(** The admissions that a tenant's entry still allows within [[a, a + w)]. *)
Definition headroom (max a w : Z) (e : option (Z * Instant)) : Z :=
  match e with
  | None => Z.max 0 (2 * max - 1)
  | Some (n, s) =>
      if a + w <=? s then 0
      else if a <=? s then Z.max 0 (max - n)
      else if a - w <? s then Z.max 0 (max - n) + max
      else Z.max 0 (2 * max - 1)
  end.

Definition entry_ok (e : option (Z * Instant)) (now len : Z) : Prop :=
  match e with
  | None => len <= u64_max
  | Some (n, s) => 0 < n /\ s <= now /\ n + len <= u64_max
  end.

Lemma headroom_step (cfg : RateLimitConfig) (a w : Z) (e : option (Z * Instant)) (now len : Z) :
  w = from_secs (window_secs cfg) -> 0 <= w -> 0 <= max_requests cfg -> 0 <= len ->
  entry_ok e now (len + 1) ->
  let e' := next_entry e w now in
  entry_ok (Some e') now len
  /\ (if (a <=? now) && (now <? a + w) && is_ok (decide_entry e'.1 cfg) then 1 else 0)
     + headroom (max_requests cfg) a w (Some e') <= headroom (max_requests cfg) a w e.
Proof.
  intros Hw Hw0 Hmax Hlen He. unfold next_entry, duration_since, decide_entry.
  set (max := max_requests cfg) in *. clearbody max.
  destruct e as [[n s]|]; cbn [unwrap_or fst snd entry_ok headroom] in *.
  - destruct He as (Hn & Hs & Hnl).
    destruct (Z.leb_spec w (Z.max 0 (now - s))); cbn [fst snd];
      (rewrite wadd64_small; [|lia..]); (split; [lia|]);
      repeat case_match; cbn [is_ok] in *; try discriminate; lia.
  - destruct (Z.leb_spec w (Z.max 0 (now - now))); cbn [fst snd];
      (rewrite wadd64_small; [|unfold u64_max; lia..]); (split; [lia|]);
      repeat case_match; cbn [is_ok] in *; try discriminate; lia.
Qed.

Lemma admissions_headroom (t : Uuid) (cfg : RateLimitConfig) (a : Z) (calls : list Call)
    (counters : Limiter) :
  0 <= window_secs cfg -> 0 <= max_requests cfg ->
  Forall (fun c => k_config c = cfg) calls ->
  StronglySorted Z.le (map k_now calls) ->
  (forall now, now ∈ map k_now calls ->
     entry_ok (counters !! t) now (Z.of_nat (length calls))) ->
  admissions t a (from_secs (window_secs cfg)) counters calls
  <= headroom (max_requests cfg) a (from_secs (window_secs cfg)) (counters !! t).
Proof.
  intros Hw0 Hmax. set (w := from_secs (window_secs cfg)).
  assert (Hw : 0 <= w) by (unfold w, from_secs; lia).
  revert counters. induction calls as [|c cs IH]; intros counters Hcfg Hs He.
  - cbn. unfold headroom. repeat case_match; lia.
  - apply Forall_cons in Hcfg as [Hc Hcfg].
    cbn [map] in Hs. apply StronglySorted_inv in Hs as [Hs Hle].
    pose proof (He (k_now c) ltac:(by apply elem_of_cons; left)) as Hec.
    cbn [length] in Hec. rewrite Nat2Z.inj_succ in Hec.
    cbn [admissions]. unfold check_and_increment. rewrite Hc. fold w.
    destruct (decide (k_tenant c = t)) as [<-|Hne].
    + destruct (headroom_step cfg a w (counters !! k_tenant c) (k_now c)
                  (Z.of_nat (length cs)) eq_refl Hw Hmax ltac:(lia) Hec) as [Hok Hstep].
      unfold admitted. rewrite bool_decide_true by done. cbn [andb].
      set (e' := next_entry _ _ _) in *.
      specialize (IH (<[k_tenant c := e']> counters) Hcfg Hs).
      rewrite lookup_insert_eq in IH. unfold w in *.
      assert (forall now, now ∈ map k_now cs -> entry_ok (Some e') now (Z.of_nat (length cs))).
      { intros now Hin. rewrite Forall_forall in Hle. specialize (Hle now Hin).
        unfold entry_ok in *. destruct e'. lia. }
      specialize (IH H). lia.
    + unfold admitted. rewrite bool_decide_false by done. cbn [andb].
      set (e' := next_entry _ _ _) in *.
      specialize (IH (<[k_tenant c := e']> counters) Hcfg Hs).
      rewrite lookup_insert_ne in IH by done. rewrite Z.add_0_l. apply IH.
      intros now Hin. specialize (He now ltac:(by apply elem_of_cons; right)). unfold entry_ok in *.
      cbn [length] in He. destruct (counters !! t) as [[? ?]|]; lia.
Qed.

(** C33. Over any stretch of time as long as the window, however it is placed, the limiter
    admits at most [2 * max_requests - 1] requests of a tenant (none when the maximum is 0),
    for every non-decreasing sequence of calls of all tenants under one configuration.  The
    witness attains the bound: 3 requests within one second of a window of 60 s with a
    maximum of 2, so this is a fixed window, not the sliding window that the module
    describes. *)
Theorem interval_bound (t : Uuid) (cfg : RateLimitConfig) (a : Z) (calls : list Call) :
  0 <= window_secs cfg -> 0 <= max_requests cfg ->
  Forall (fun c => k_config c = cfg) calls ->
  StronglySorted Z.le (map k_now calls) ->
  Z.of_nat (length calls) <= u64_max ->
  admissions t a (from_secs (window_secs cfg)) ∅ calls <= Z.max 0 (2 * max_requests cfg - 1).
Proof.
  intros Hw Hm Hc Hs Hl.
  pose proof (admissions_headroom t cfg a calls ∅ Hw Hm Hc Hs) as H.
  rewrite lookup_empty in H. by apply H.
Qed.

Definition two_per_minute : RateLimitConfig := {| max_requests := 2; window_secs := 60 |}.

Definition straddling_calls : list Call :=
  burst (uuid_of 1) two_per_minute
    [0; from_secs 59 + 1; from_secs 60; from_secs 60; from_secs 60].

Lemma interval_bound_witness :
  admissions (uuid_of 1) (from_secs 59 + 1) (from_secs 1) ∅ straddling_calls = 3
  /\ admissions (uuid_of 1) (from_secs 59 + 1) (from_secs 60) ∅ straddling_calls <= 3.
Proof.
  split; [by vm_compute|].
  apply (interval_bound (uuid_of 1) two_per_minute (from_secs 59 + 1) straddling_calls);
    [by vm_compute|by vm_compute|by repeat constructor|by repeat constructor|by vm_compute].
Defined.

Lemma next_entry_pos (e : option (Z * Instant)) (window : Z) (now : Instant) :
  (forall n s, e = Some (n, s) -> 0 <= n < u64_max) -> 1 <= (next_entry e window now).1.
Proof.
  intros Hn. unfold next_entry. destruct e as [[n s]|]; cbn [unwrap_or].
  - specialize (Hn n s eq_refl). case_match; cbn [fst]; (rewrite wadd64_small; [|lia..]); lia.
  - by case_match.
Qed.

(** The boundary settings: with [max_requests = 0] every request is rejected, and with
    [window_secs = 0] (reachable through the remote configuration) the count restarts at
    every request, so nothing is ever limited as long as the maximum is not 0. *)
Theorem limiter_boundaries (counters : Limiter) (t : Uuid) (cfg : RateLimitConfig)
    (now : Instant) :
  (max_requests cfg = 0 -> (forall n s, counters !! t = Some (n, s) -> 0 <= n < u64_max) ->
   (check_and_increment counters t cfg now).1 = Err tt)
  /\ (window_secs cfg = 0 -> 1 <= max_requests cfg ->
      (check_and_increment counters t cfg now).1
      = Ok {| rl_limit := max_requests cfg;
              rl_remaining := max_requests cfg - 1;
              rl_reset_secs := 0 |}).
Proof.
  unfold check_and_increment, decide_entry, saturating_sub. cbn [fst]. split.
  - intros -> Hn.
    pose proof (next_entry_pos (counters !! t) (from_secs (window_secs cfg)) now Hn).
    by rewrite (proj2 (Z.ltb_lt _ _)) by lia.
  - intros -> Hm. unfold next_entry, from_secs, duration_since.
    rewrite (proj2 (Z.leb_le _ _)) by lia. cbn [fst snd].
    rewrite wadd64_small by (unfold u64_max; lia).
    rewrite (proj2 (Z.ltb_ge _ _)) by lia. do 2 f_equal. lia.
Qed.

Lemma limiter_boundaries_witness :
  (check_and_increment ∅ (uuid_of 3) {| max_requests := 0; window_secs := 60 |} 5).1 = Err tt
  /\ (check_and_increment {[ uuid_of 3 := (1000000, 4) ]} (uuid_of 3)
        {| max_requests := 1; window_secs := 0 |} 5).1
     = Ok {| rl_limit := 1; rl_remaining := 0; rl_reset_secs := 0 |}.
Proof.
  split.
  - apply (limiter_boundaries ∅ (uuid_of 3) {| max_requests := 0; window_secs := 60 |} 5);
      [reflexivity|]. intros n s H. by vm_compute in H.
  - apply (limiter_boundaries {[ uuid_of 3 := (1000000, 4) ]} (uuid_of 3)
             {| max_requests := 1; window_secs := 0 |} 5); [reflexivity|by vm_compute].
Defined.
