(* ===== verification/Entropy.v ===== *)
(** Shannon entropy of a byte slice ([ffi.rs] and the C routine [entropy.c] it binds) and
    the classification of the value.  The routine is written once over an arithmetic; the
    program's own arithmetic is binary64 with the C library's [log]. *)

From S2P Require Import Prelude Models.
From Stdlib Require Import Permutation.

(** The operations the C routine uses on [double]. *)
Class Arith (F : Type) : Type := {
  f_zero : F;
  f_two : F;
  f_of_u64 : Z -> F;
  f_div : F -> F -> F;
  f_mul : F -> F -> F;
  f_sub : F -> F -> F;
  f_log : F -> F;
}.

Abbreviation byte := Byte.byte.
Definition byte_index (b : byte) : nat := N.to_nat (Byte.to_N b).

(** [unsigned long freq[256] = {0}; for (...) freq[data[i]]++;] *)
Definition bump (freq : list Z) (b : byte) : list Z :=
  alter (fun c => wadd64 c 1) (byte_index b) freq.

Definition count_bytes (data : list byte) : list Z :=
  fold_left bump data (replicate 256 0).

Section routine.
Context `{Arith F}.

(** One iteration of the second loop. *)
Definition entropy_term (len : Z) (log2 : F) (entropy : F) (count : Z) : F :=
  if 0 <? count then
    let p := f_div (f_of_u64 count) (f_of_u64 len) in
    f_sub entropy (f_mul p (f_div (f_log p) log2))
  else entropy.

Definition compute_shannon_entropy (data : list byte) : F :=
  let len := Z.of_nat (length data) in
  if len =? 0 then f_zero
  else
    let freq := count_bytes data in
    let log2 := f_log f_two in
    fold_left (entropy_term len log2) freq f_zero.

Definition shannon_entropy (data : list byte) : F :=
  match data with
  | [] => f_zero
  | _ => compute_shannon_entropy data
  end.
End routine.

(** ** binary64 *)

(** The C library's [log]. *)
Class Libm : Type := { libm_log : f64 -> f64 }.

(** IEEE 754: [log(1)] is [+0], and [log(2)] is a positive number. *)
Class LibmLaws `{Libm} : Prop := {
  libm_log_one : libm_log (S754_finite false 4503599627370496 (-52)) = S754_zero false;
  libm_log_two : exists m e,
    libm_log (S754_finite false 4503599627370496 (-51)) = S754_finite false m e;
}.

#[export] Instance f64_arith `{Libm} : Arith f64 := {|
  f_zero := S754_zero false;
  f_two := S754_finite false 4503599627370496 (-51);
  f_of_u64 z := binary_normalize 53 1024 z 0 false;
  f_div := SFdiv 53 1024;
  f_mul := SFmul 53 1024;
  f_sub := SFsub 53 1024;
  f_log := libm_log;
|}.

(** ** Classification *)

Inductive EntropyLevel : Type := Low | Normal | High | VeryHigh.

#[export] Instance EntropyLevel_eq_dec : EqDecision EntropyLevel.
Proof. solve_decision. Defined.

Definition f64_4_0 : f64 := S754_finite false 4503599627370496 (-50).
Definition f64_6_5 : f64 := S754_finite false 7318349394477056 (-50).
Definition f64_7_5 : f64 := S754_finite false 8444249301319680 (-50).

(** [EntropyLevel::classify] *)
Definition classify (entropy : f64) : EntropyLevel :=
  if f64_lt entropy f64_4_0 then Low
  else if f64_lt entropy f64_6_5 then Normal
  else if f64_lt entropy f64_7_5 then High
  else VeryHigh.

Definition is_suspicious (l : EntropyLevel) : bool :=
  match l with VeryHigh => true | _ => false end.

Example threshold_literals :
  f64_4_0 = binary_normalize 53 1024 4 0 false
  /\ f64_6_5 = binary_normalize 53 1024 13 (-1) false
  /\ f64_7_5 = binary_normalize 53 1024 15 (-1) false.
Proof. by vm_compute. Qed.

(** ** The histogram *)

Definition occurrences (i : nat) (data : list byte) : Z :=
  Z.of_nat (length (List.filter (fun b => Nat.eqb (byte_index b) i) data)).

Definition sum_list (l : list Z) : Z := fold_right Z.add 0 l.

Lemma byte_index_lt (b : byte) : (byte_index b < 256)%nat.
Proof. unfold byte_index. pose proof (Byte.to_N_bounded b). lia. Qed.

Lemma bump_lookup (freq : list Z) (b : byte) (i : nat) (c : Z) :
  freq !! i = Some c ->
  bump freq b !! i = Some (if Nat.eqb (byte_index b) i then wadd64 c 1 else c).
Proof.
  intros Hc. unfold bump. rewrite list_lookup_alter.
  destruct (Nat.eqb_spec (byte_index b) i) as [->|Hne].
  - rewrite decide_True by done. by rewrite Hc.
  - by rewrite decide_False.
Qed.

Lemma fold_bump_lookup (data : list byte) (freq : list Z) (i : nat) (c : Z) :
  freq !! i = Some c -> 0 <= c -> c + Z.of_nat (length data) <= u64_max ->
  fold_left bump data freq !! i = Some (c + occurrences i data).
Proof.
  revert freq c. induction data as [|b data IH]; intros freq c Hc H0 Hlen.
  - unfold occurrences. simpl. by rewrite Z.add_0_r.
  - cbn [fold_left length] in *. pose proof (bump_lookup freq b i c Hc) as Hb.
    unfold occurrences. cbn [List.filter].
    destruct (Nat.eqb (byte_index b) i).
    + rewrite wadd64_small in Hb by lia. rewrite (IH _ _ Hb) by lia.
      cbn [length]. unfold occurrences. f_equal. lia.
    + by rewrite (IH _ _ Hb) by lia.
Qed.

Lemma fold_bump_length (data : list byte) (freq : list Z) :
  length (fold_left bump data freq) = length freq.
Proof.
  revert freq. induction data as [|b data IH]; intros freq; [done|].
  cbn [fold_left]. rewrite IH. apply length_alter.
Qed.

Lemma sum_list_alter (l : list Z) (i : nat) (d : Z) :
  (i < length l)%nat -> sum_list (alter (fun c => c + d) i l) = sum_list l + d.
Proof.
  revert i. induction l as [|x l IH]; intros i Hi; [cbn in Hi; lia|].
  destruct i as [|i].
  - change (x + d + sum_list l = x + sum_list l + d). lia.
  - change (x + sum_list (alter (fun c => c + d) i l) = x + sum_list l + d).
    rewrite IH by (cbn in Hi; lia). lia.
Qed.

Lemma occurrences_nonneg (i : nat) (data : list byte) : 0 <= occurrences i data.
Proof. unfold occurrences. lia. Qed.

(** What the first loop leaves in [freq]. *)
Lemma count_bytes_lookup (data : list byte) (i : nat) :
  (i < 256)%nat -> Z.of_nat (length data) <= u64_max ->
  count_bytes data !! i = Some (occurrences i data).
Proof.
  intros Hi Hlen. unfold count_bytes.
  rewrite (fold_bump_lookup _ _ _ 0); [done| |lia|lia].
  by apply lookup_replicate_2.
Qed.

Lemma count_bytes_length (data : list byte) : length (count_bytes data) = 256%nat.
Proof. unfold count_bytes. by rewrite fold_bump_length, length_replicate. Qed.

Lemma occurrences_perm (i : nat) (d1 d2 : list byte) :
  Permutation d1 d2 -> occurrences i d1 = occurrences i d2.
Proof.
  intros Hp. unfold occurrences. f_equal.
  induction Hp as [|b l1 l2 _ IH|b1 b2 l|l1 l2 l3 _ IH1 _ IH2]; cbn; [done| | |congruence].
  - case_match; cbn; by rewrite IH.
  - by repeat case_match.
Qed.

Lemma count_bytes_perm (d1 d2 : list byte) :
  Permutation d1 d2 -> Z.of_nat (length d1) <= u64_max -> count_bytes d1 = count_bytes d2.
Proof.
  intros Hp Hl. apply list_eq. intros i.
  destruct (decide (i < 256)%nat) as [Hi|Hi].
  - rewrite !count_bytes_lookup; [by rewrite (occurrences_perm i d1 d2)|done| |done|done].
    by rewrite <-(Permutation_length Hp).
  - by rewrite !lookup_ge_None_2; rewrite ?count_bytes_length; try lia.
Qed.

(** The histogram as a function of the data. *)
Definition histogram (data : list byte) : list Z :=
  map (fun i => occurrences i data) (seq 0 256).

Lemma histogram_lookup (data : list byte) (i : nat) :
  (i < 256)%nat -> histogram data !! i = Some (occurrences i data).
Proof.
  intros Hi. unfold histogram. rewrite list_lookup_fmap, lookup_seq_lt by lia. done.
Qed.

Lemma histogram_length (data : list byte) : length (histogram data) = 256%nat.
Proof. unfold histogram. by rewrite length_map, length_seq. Qed.

Lemma count_bytes_histogram (data : list byte) :
  Z.of_nat (length data) <= u64_max -> count_bytes data = histogram data.
Proof.
  intros Hl. apply list_eq. intros i. destruct (decide (i < 256)%nat) as [Hi|Hi].
  - by rewrite count_bytes_lookup, histogram_lookup.
  - by rewrite !lookup_ge_None_2; rewrite ?count_bytes_length, ?histogram_length; try lia.
Qed.

Lemma occurrences_cons (i : nat) (b : byte) (data : list byte) :
  occurrences i (b :: data) =
  occurrences i data + (if Nat.eqb (byte_index b) i then 1 else 0).
Proof. unfold occurrences. cbn [List.filter]. case_match; cbn [length]; lia. Qed.

Lemma histogram_cons (b : byte) (data : list byte) :
  histogram (b :: data) = alter (fun c => c + 1) (byte_index b) (histogram data).
Proof.
  apply list_eq. intros i. destruct (decide (i < 256)%nat) as [Hi|Hi].
  - rewrite list_lookup_alter, histogram_lookup, occurrences_cons by done.
    destruct (Nat.eqb_spec (byte_index b) i) as [<-|Hne].
    + rewrite decide_True by done. by rewrite histogram_lookup.
    + rewrite decide_False, Z.add_0_r by done. by rewrite histogram_lookup.
  - by rewrite !lookup_ge_None_2; rewrite ?length_alter, ?histogram_length; try lia.
Qed.

Lemma sum_histogram (data : list byte) : sum_list (histogram data) = Z.of_nat (length data).
Proof.
  induction data as [|b data IH]; [by vm_compute|].
  rewrite histogram_cons, sum_list_alter by (rewrite histogram_length; apply byte_index_lt).
  cbn [length]. lia.
Qed.

(** The counting loop of [entropy.c] computes the exact histogram: for every slice
    shorter than 2^64 bytes, entry [i] is the number of bytes equal to [i] (no counter
    wraps and no index leaves the 256 entries) and the entries sum up to the length. *)
Theorem histogram_exact (data : list byte) :
  Z.of_nat (length data) <= u64_max ->
  length (count_bytes data) = 256%nat
  /\ (forall i, (i < 256)%nat -> count_bytes data !! i = Some (occurrences i data))
  /\ sum_list (count_bytes data) = Z.of_nat (length data).
Proof.
  intros H. split; [apply count_bytes_length|]. split.
  - intros i Hi. by apply count_bytes_lookup.
  - by rewrite count_bytes_histogram, sum_histogram.
Qed.

Lemma histogram_exact_witness :
  count_bytes (bytes "/a/a/") !! 47%nat = Some 3 /\ sum_list (count_bytes (bytes "/a/a/")) = 5.
Proof.
  destruct (histogram_exact (bytes "/a/a/")) as (_ & H & Hs); [by vm_compute|].
  split; [rewrite (H 47%nat); [reflexivity|lia]|exact Hs].
Defined.

(** The entropy depends only on the multiset of bytes: two slices that are permutations
    of each other get the same value, bit for bit, in every arithmetic. *)
Theorem entropy_permutation {F} `{Arith F} (d1 d2 : list byte) :
  Permutation d1 d2 -> Z.of_nat (length d1) <= u64_max ->
  shannon_entropy d1 = shannon_entropy d2.
Proof.
  intros Hp Hl. pose proof (Permutation_length Hp) as Hlen.
  destruct d1 as [|b1 d1], d2 as [|b2 d2]; cbn in Hlen; try done.
  unfold shannon_entropy, compute_shannon_entropy.
  by rewrite (count_bytes_perm _ _ Hp Hl), (Permutation_length Hp).
Qed.

(** ** A slice of one repeated byte *)

Lemma occurrences_replicate (b : byte) (n : nat) (i : nat) :
  occurrences i (replicate n b) = if Nat.eqb (byte_index b) i then Z.of_nat n else 0.
Proof.
  induction n as [|n IH]; [by case_match|].
  cbn [replicate]. rewrite occurrences_cons, IH. case_match; lia.
Qed.

Lemma fold_zero_terms {F} `{Arith F} (len : Z) (log2 e : F) (l : list Z) :
  Forall (fun c => c = 0) l -> fold_left (entropy_term len log2) l e = e.
Proof. induction 1 as [|c l -> _ IH]; [done|]. cbn. apply IH. Qed.

Lemma histogram_replicate (b : byte) (n : nat) :
  histogram (replicate n b) =
  replicate (byte_index b) 0 ++ [Z.of_nat n] ++ replicate (255 - byte_index b) 0.
Proof.
  pose proof (byte_index_lt b) as Hb. apply list_eq. intros i.
  destruct (decide (i < 256)%nat) as [Hi|Hi].
  - rewrite histogram_lookup, occurrences_replicate by done.
    destruct (Nat.eqb_spec (byte_index b) i) as [<-|Hne].
    + rewrite lookup_app_r by (rewrite length_replicate; lia).
      by rewrite length_replicate, Nat.sub_diag.
    + destruct (decide (i < byte_index b)%nat).
      * rewrite lookup_app_l by (rewrite length_replicate; lia).
        by rewrite lookup_replicate_2.
      * rewrite lookup_app_r, length_replicate by (rewrite length_replicate; lia).
        rewrite lookup_app_r by (cbn; lia). cbn [length].
        by rewrite lookup_replicate_2 by lia.
  - rewrite !lookup_ge_None_2; [done| |by rewrite histogram_length; lia].
    rewrite !length_app, !length_replicate. cbn. lia.
Qed.

(** The synthetic data of a path whose bytes are all equal (such as ["/"]) gets exactly
    [0.0] in binary64, at the two lengths the program uses (4096 in [analyze_backup], 8192
    in the worker) and at the one of its unit test, for any C library whose [log] is exact at 1 and positive at 2. *)
Theorem uniform_entropy_zero `{LibmLaws} (b : byte) (n : nat) :
  Z.of_nat n = 4096 \/ Z.of_nat n = 8192 \/ Z.of_nat n = 1024 ->
  shannon_entropy (replicate n b) = S754_zero false
  /\ classify (shannon_entropy (replicate n b)) = Low.
Proof.
  intros Hn.
  assert (Hz : shannon_entropy (replicate n b) = S754_zero false); [|by rewrite Hz].
  assert (Hu : shannon_entropy (replicate n b) = compute_shannon_entropy (replicate n b))
    by (destruct n; [lia|reflexivity]).
  rewrite Hu. unfold compute_shannon_entropy.
  rewrite count_bytes_histogram, histogram_replicate, length_replicate
    by (rewrite length_replicate; unfold u64_max; lia).
  rewrite (proj2 (Z.eqb_neq _ _)) by lia.
  rewrite !fold_left_app, (fold_zero_terms _ _ _ (replicate (byte_index b) 0))
    by (apply Forall_replicate; done).
  rewrite fold_zero_terms by (apply Forall_replicate; done).
  cbn [fold_left]. unfold entropy_term. rewrite (proj2 (Z.ltb_lt _ _)) by lia.
  assert (Hone : f_div (f_of_u64 (Z.of_nat n)) (f_of_u64 (Z.of_nat n))
                 = S754_finite false 4503599627370496 (-52))
    by (destruct Hn as [->|[->| ->]]; vm_compute; reflexivity).
  rewrite Hone. cbn [f_log f_two f_div f_mul f_sub f_zero f64_arith].
  rewrite libm_log_one. destruct libm_log_two as (m & e & ->). reflexivity.
Qed.

(** A [log] with the two exact points (elsewhere any value: the proof does not use it). *)
Definition sample_libm : Libm :=
  {| libm_log x := if SFeqb x (S754_finite false 4503599627370496 (-52)) then S754_zero false
                   else S754_finite false 6243314768165359 (-53) |}.

Lemma sample_libm_laws : @LibmLaws sample_libm.
Proof. split; [reflexivity|]. exists 6243314768165359%positive, (-53). reflexivity. Qed.

Lemma uniform_entropy_zero_witness :
  classify (@shannon_entropy _ (@f64_arith sample_libm)
              (replicate (Z.to_nat 8192) Byte.x2f)) = Low.
Proof.
  refine (proj2 (@uniform_entropy_zero sample_libm sample_libm_laws Byte.x2f (Z.to_nat 8192) _)).
  by right; left.
Defined.

(** ** The classification *)

Definition level_rank (l : EntropyLevel) : Z :=
  match l with Low => 0 | Normal => 1 | High => 2 | VeryHigh => 3 end.

(** The magnitude order that [SFcompare] uses on finite numbers of one sign. *)
Lemma SFltb_finite (s1 s2 : bool) (m1 m2 : positive) (e1 e2 : Z) :
  SFltb (S754_finite s1 m1 e1) (S754_finite s2 m2 e2) = true <->
  match s1, s2 with
  | true, false => True
  | false, true => False
  | false, false => e1 < e2 \/ (e1 = e2 /\ (m1 < m2)%positive)
  | true, true => e2 < e1 \/ (e1 = e2 /\ (m2 < m1)%positive)
  end.
Proof.
  unfold SFltb, SFcompare. change (Pos.compare_cont Eq m1 m2) with (m1 ?= m2)%positive.
  destruct s1, s2; try done; destruct (Z.compare_spec e1 e2); try (by split; lia);
    destruct (Pos.compare_spec m1 m2); cbn; split; lia.
Qed.

Lemma SFltb_trans (x y z : f64) :
  SFltb x y = true -> SFltb y z = true -> SFltb x z = true.
Proof.
  destruct x as [s1|s1| |s1 m1 e1], y as [s2|s2| |s2 m2 e2], z as [s3|s3| |s3 m3 e3];
    try (by destruct s1, s2, s3); try done; try (by destruct s1, s2); try (by destruct s2, s3);
    try (by destruct s1, s3).
  rewrite !SFltb_finite. destruct s1, s2, s3; lia.
Qed.

(** The classification is monotone in the entropy, the suspicious band is exactly the
    values not below 7.5, and a NaN is classified as the suspicious level. *)
Theorem classify_monotone (x y : f64) :
  (f64_lt x y = true -> level_rank (classify x) <= level_rank (classify y))
  /\ is_suspicious (classify x) = negb (f64_lt x f64_7_5)
  /\ classify S754_nan = VeryHigh.
Proof.
  split; [|split; [|done]].
  - unfold classify, f64_lt. intros Hxy.
    assert (Hd : forall c, SFltb y c = true -> SFltb x c = true)
      by (intros c; by apply SFltb_trans).
    pose proof (Hd f64_4_0). pose proof (Hd f64_6_5). pose proof (Hd f64_7_5).
    destruct (SFltb y f64_4_0), (SFltb y f64_6_5), (SFltb y f64_7_5),
      (SFltb x f64_4_0), (SFltb x f64_6_5), (SFltb x f64_7_5); cbn; lia || naive_solver.
  - unfold classify, f64_lt.
    assert (H1 : SFltb x f64_4_0 = true -> SFltb x f64_7_5 = true)
      by (intros H; by apply (SFltb_trans _ _ _ H)).
    assert (H2 : SFltb x f64_6_5 = true -> SFltb x f64_7_5 = true)
      by (intros H; by apply (SFltb_trans _ _ _ H)).
    destruct (SFltb x f64_4_0), (SFltb x f64_6_5), (SFltb x f64_7_5); naive_solver.
Qed.
