(* ===== verification/EntropyReal.v ===== *)
(** The entropy routine over the real numbers: the same definition as the program's, in
    exact arithmetic.  It lies between 0 and the logarithm of the number of distinct bytes
    (the documented range 0 to 8), so the synthetic data of an ASCII path never reaches the
    suspicious band. *)

From S2P Require Import Prelude Models Entropy.
From Stdlib Require Import Reals Lra.

#[export] Instance real_arith : Arith R := {|
  f_zero := 0%R;
  f_two := 2%R;
  f_of_u64 := IZR;
  f_div := Rdiv;
  f_mul := Rmult;
  f_sub := Rminus;
  f_log := ln;
|}.

(** How many of the 256 byte values occur. *)
Definition distinct (l : list Z) : Z :=
  Z.of_nat (length (List.filter (fun c => 0 <? c) l)).

Local Open Scope R_scope.

Lemma ln2_pos : 0 < ln 2.
Proof. rewrite <-ln_1. apply ln_increasing; lra. Qed.

Lemma ln_le_sub1 (x : R) : 0 < x -> ln x <= x - 1.
Proof.
  intros Hx. pose proof (exp_ineq1_le (ln x)) as H. rewrite exp_ln in H by done. lra.
Qed.

(** The contribution of one byte value, in nats: [- p ln p]. *)
Definition plogp (len count : Z) : R :=
  if (0 <? count)%Z then - (IZR count / IZR len * ln (IZR count / IZR len)) else 0.

Definition sum_plogp (len : Z) (l : list Z) : R := fold_right (fun c acc => plogp len c + acc) 0 l.

Lemma fold_entropy_sum (len : Z) (l : list Z) (e : R) :
  fold_left (entropy_term len (ln 2)) l e = e + sum_plogp len l / ln 2.
Proof.
  pose proof ln2_pos. revert e. induction l as [|c l IH]; intros e.
  - change (e = e + 0 / ln 2). lra.
  - cbn [fold_left]. rewrite IH.
    change (sum_plogp len (c :: l)) with (plogp len c + sum_plogp len l).
    unfold entropy_term, plogp. cbn [f_sub f_mul f_div f_log f_of_u64 real_arith].
    destruct (0 <? c)%Z; unfold Rdiv; lra.
Qed.

Lemma plogp_nonneg (len c : Z) : (0 <= c <= len)%Z -> 0 <= plogp len c.
Proof.
  intros Hc. unfold plogp. destruct (Z.ltb_spec 0 c) as [Hp|]; [|lra].
  assert (Hc0 : 0 < IZR c) by (apply IZR_lt; lia). assert (Hl : IZR c <= IZR len) by (apply IZR_le; lia).
  assert (Hx0 : 0 < IZR c / IZR len) by (apply Rdiv_lt_0_compat; lra).
  assert (Hx1 : IZR c / IZR len <= 1) 
    by (apply (Rmult_le_reg_r (IZR len)); [lra|]; unfold Rdiv; rewrite Rmult_assoc, Rinv_l; lra).
  assert (ln (IZR c / IZR len) <= 0).
  { rewrite <-ln_1. destruct (Req_dec (IZR c / IZR len) 1) as [->|]; [lra|].
    left. apply ln_increasing; lra. }
  nra.
Qed.

(** Gibbs' inequality against the uniform distribution on [k] values. *)
Lemma plogp_gibbs (len c : Z) (k : R) :
  (0 <= c)%Z -> (0 < len)%Z -> 0 < k ->
  plogp len c <= (if (0 <? c)%Z then / k else 0) - IZR c / IZR len + IZR c / IZR len * ln k.
Proof.
  intros Hc Hlen Hk. unfold plogp. destruct (Z.ltb_spec 0 c) as [Hp|].
  - assert (Hc0 : 0 < IZR c) by (apply IZR_lt; lia).
    assert (Hl : 0 < IZR len) by (apply IZR_lt; lia).
    set (x := IZR c / IZR len). assert (Hx : 0 < x) by (apply Rdiv_lt_0_compat; lra).
    pose proof (ln_le_sub1 (/ (k * x)) ltac:(apply Rinv_0_lt_compat; nra)) as H.
    rewrite ln_Rinv, ln_mult in H by nra.
    assert (Hxk : x * (/ (k * x)) = / k) by (field; lra).
    nra.
  - replace c with 0%Z by lia. unfold Rdiv. rewrite !Rmult_0_l. lra.
Qed.

Lemma sum_plogp_gibbs (len : Z) (l : list Z) (k : R) :
  Forall (fun c => (0 <= c)%Z) l -> (0 < len)%Z -> 0 < k ->
  sum_plogp len l <=
    IZR (distinct l) / k - IZR (sum_list l) / IZR len + IZR (sum_list l) / IZR len * ln k.
Proof.
  intros Hl Hlen Hk. assert (0 < IZR len) by (apply IZR_lt; lia).
  induction Hl as [|c l Hc _ IH].
  { change (0 <= 0 / k - 0 / IZR len + 0 / IZR len * ln k).
    unfold Rdiv. rewrite !Rmult_0_l. lra. }
  pose proof (plogp_gibbs len c k Hc Hlen Hk) as Hg.
  assert (Hd : IZR (distinct (c :: l)) / k
               = (if (0 <? c)%Z then / k else 0) + IZR (distinct l) / k).
  { unfold distinct. cbn [List.filter]. destruct (0 <? c)%Z; [|lra].
    cbn [length]. rewrite Nat2Z.inj_succ, succ_IZR. field. lra. }
  assert (Hs : IZR (sum_list (c :: l)) / IZR len = IZR c / IZR len + IZR (sum_list l) / IZR len).
  { change (sum_list (c :: l)) with (c + sum_list l)%Z. rewrite plus_IZR. field. lra. }
  rewrite Hd, Hs. change (sum_plogp len (c :: l)) with (plogp len c + sum_plogp len l). lra.
Qed.

Lemma sum_plogp_nonneg (len : Z) (l : list Z) :
  Forall (fun c => (0 <= c <= len)%Z) l -> 0 <= sum_plogp len l.
Proof.
  induction 1 as [|c l Hc _ IH]; [apply Rle_refl|].
  change (0 <= plogp len c + sum_plogp len l). pose proof (plogp_nonneg len c Hc). lra.
Qed.

Lemma histogram_bounds (data : list byte) :
  Forall (fun c => (0 <= c <= Z.of_nat (length data))%Z) (histogram data).
Proof.
  unfold histogram. apply Forall_fmap, Forall_true. intros i. unfold occurrences. cbn.
  pose proof (List.filter_length_le (fun b => Nat.eqb (byte_index b) i) data). lia.
Qed.

Lemma distinct_pos (l : list Z) :
  Forall (fun c => (0 <= c)%Z) l -> (0 < sum_list l)%Z -> (0 < distinct l)%Z.
Proof.
  unfold distinct. induction 1 as [|c l Hc _ IH]; [done|].
  change (sum_list (c :: l)) with (c + sum_list l)%Z. cbn [List.filter].
  destruct (Z.ltb_spec 0 c); cbn [length]; [lia|]. intros Hs. apply IH. lia.
Qed.

Lemma real_entropy_sum (data : list byte) :
  data <> [] -> (Z.of_nat (length data) <= u64_max)%Z ->
  shannon_entropy data = sum_plogp (Z.of_nat (length data)) (histogram data) / ln 2.
Proof.
  intros Hne Hl. transitivity (compute_shannon_entropy data); [by destruct data|].
  unfold compute_shannon_entropy. rewrite (proj2 (Z.eqb_neq _ _)) by (destruct data; done).
  rewrite count_bytes_histogram by done. cbn [f_log f_two f_zero real_arith].
  rewrite fold_entropy_sum. lra.
Qed.

(** Entropy at most the logarithm of the number of byte values that occur. *)
Lemma real_entropy_le_log (data : list byte) (k : Z) :
  data <> [] -> (Z.of_nat (length data) <= u64_max)%Z ->
  (distinct (histogram data) <= k)%Z ->
  0 <= shannon_entropy data <= ln (IZR k) / ln 2.
Proof.
  intros Hne Hl Hk. rewrite real_entropy_sum by done. pose proof ln2_pos.
  set (len := Z.of_nat (length data)).
  assert (Hlen : (0 < len)%Z) by (destruct data; [done|cbn in *; lia]).
  assert (Hlr : 0 < IZR len) by (apply IZR_lt; lia).
  pose proof (histogram_bounds data) as Hb. fold len in Hb.
  assert (Hpos : Forall (fun c => (0 <= c)%Z) (histogram data))
    by (eapply Forall_impl; [exact Hb|]; cbn; lia).
  assert (Hd : (0 < distinct (histogram data))%Z)
    by (apply distinct_pos; [done|rewrite sum_histogram; fold len; lia]).
  assert (Hdr : 0 < IZR (distinct (histogram data))) by (apply IZR_lt; lia).
  pose proof (sum_plogp_nonneg _ _ Hb) as H0.
  pose proof (sum_plogp_gibbs len (histogram data) _ Hpos Hlen Hdr) as H1.
  rewrite sum_histogram in H1. fold len in H1.
  unfold Rdiv in H1. rewrite !Rinv_r, Rmult_1_l in H1 by lra.
  assert (Hln : ln (IZR (distinct (histogram data))) <= ln (IZR k)).
  { assert (IZR (distinct (histogram data)) <= IZR k) as [Hlt|Heq] by (apply IZR_le; lia);
      [left; by apply ln_increasing|right; by rewrite Heq]. }
  pose proof (Rinv_0_lt_compat _ H). unfold Rdiv. split; [nra|].
  apply Rmult_le_compat_r; lra.
Qed.

Lemma ln_pow2 (n : nat) : ln (IZR (2 ^ Z.of_nat n)) / ln 2 = INR n.
Proof.
  pose proof ln2_pos. rewrite <-pow_IZR, ln_pow by lra. field. lra.
Qed.

Lemma distinct_le_length (l : list Z) : (distinct l <= Z.of_nat (length l))%Z.
Proof. unfold distinct. pose proof (List.filter_length_le (fun c => (0 <? c)%Z) l). lia. Qed.

(** C37. In exact arithmetic the entropy of every slice lies between 0 and 8, the range that
    the wrapper documents, and never exceeds the base-2 logarithm of the number of distinct
    byte values in the slice. *)
Theorem entropy_range (data : list byte) :
  data <> [] -> (Z.of_nat (length data) <= u64_max)%Z ->
  0 <= shannon_entropy data <= 8
  /\ shannon_entropy data <= ln (IZR (distinct (count_bytes data))) / ln 2.
Proof.
  intros Hne Hl. split.
  - replace 8 with (INR 8) by (cbn; lra). rewrite <-ln_pow2. apply real_entropy_le_log; try done.
    etrans; [apply distinct_le_length|]. by rewrite histogram_length.
  - rewrite count_bytes_histogram by done. by apply real_entropy_le_log.
Qed.

Lemma entropy_range_witness : 0 <= shannon_entropy (bytes "/data") <= 8.
Proof. apply (entropy_range (bytes "/data")); [done|by vm_compute]. Defined.

(** ** ASCII paths *)

Definition ascii_only (s : string) : Prop :=
  Forall (fun b => (byte_index b < 128)%nat) (bytes s).

Lemma occurrences_absent (i : nat) (data : list byte) :
  Forall (fun b => byte_index b <> i) data -> occurrences i data = 0%Z.
Proof.
  induction 1 as [|b data Hb _ IH]; [done|].
  rewrite occurrences_cons, IH. by rewrite (proj2 (Nat.eqb_neq _ _)).
Qed.

Lemma ascii_distinct (data : list byte) :
  Forall (fun b => (byte_index b < 128)%nat) data -> (distinct (histogram data) <= 128)%Z.
Proof.
  intros Ha. unfold histogram. change 256%nat with (128 + 128)%nat.
  rewrite List.seq_app, map_app. unfold distinct. rewrite List.filter_app, length_app.
  assert (Hz : List.filter (fun c => (0 <? c)%Z)
                 (map (fun i => occurrences i data) (seq (0 + 128) 128)) = []).
  { assert (Hall : forall i, i ∈ seq (0 + 128) 128 -> occurrences i data = 0%Z).
    { intros i Hi. apply elem_of_seq in Hi. apply occurrences_absent.
      eapply Forall_impl; [exact Ha|]. cbn. lia. }
    revert Hall. generalize (seq (0 + 128) 128). intros js Hall.
    induction js as [|i js IH]; [done|]. cbn [map List.filter].
    rewrite Hall by (by apply elem_of_cons; left). apply IH.
    intros j Hj. apply Hall. by apply elem_of_cons; right. }
  rewrite Hz. pose proof (List.filter_length_le (fun c => (0 <? c)%Z)
    (map (fun i => occurrences i data) (seq 0 128))) as H.
  rewrite length_map, length_seq in H. cbn [length]. lia.
Qed.

(** C38. The entropy check of the analysis and of the worker works on the path repeated to a
    fixed length, not on backup contents: for every non-empty ASCII path and every length,
    the exact entropy of that data is at most 7, below the suspicious band that starts at
    7.5. *)
Theorem ascii_path_not_suspicious (path : string) (n : nat) :
  path <> "" -> ascii_only path -> (0 < n)%nat -> (Z.of_nat n <= u64_max)%Z ->
  0 <= shannon_entropy (cycle_take (bytes path) (bytes path) n) <= 7.
Proof.
  intros Hp Ha Hn Hl.
  assert (Hb : bytes path <> []) by (by destruct path).
  pose proof (cycle_take_length (bytes path) (bytes path) n Hb) as Hlen.
  replace 7 with (INR 7) by (cbn; lra). rewrite <-ln_pow2. apply real_entropy_le_log.
  - intros H0. rewrite H0 in Hlen. cbn in Hlen. lia.
  - by rewrite Hlen.
  - apply ascii_distinct. apply Forall_forall. intros b Hin.
    apply cycle_take_elem in Hin; [|done]. by apply (proj1 (Forall_forall _ _) Ha).
Qed.

Lemma ascii_path_not_suspicious_witness :
  0 <= shannon_entropy (cycle_take (bytes "/data") (bytes "/data") (Z.to_nat 8192)) <= 7.
Proof.
  apply (ascii_path_not_suspicious "/data" (Z.to_nat 8192));
    [done| |by apply Nat.ltb_lt|by vm_compute].
  repeat constructor; apply Nat.ltb_lt; reflexivity.
Defined.
