(* ===== verification/EntropySpec.v ===== *)
(** The entropy routine against the textbook: over the real numbers the C routine with its
    256 counters computes Shannon's formula over the distinct bytes of the slice; what follows
    from the formula (relabelling, repetition) holds of the routine; and comparisons with a
    bound are decided exactly, in integers. *)

From S2P Require Import Prelude Models Entropy EntropyReal.
From Stdlib Require Import Reals Lra Permutation.

Local Open Scope R_scope.

#[export] Instance byte_eq_dec : EqDecision byte := Byte.byte_eq_dec.

(** ** Shannon's formula *)

Definition log2 (x : R) : R := ln x / ln 2.

Definition count_of (b : byte) (data : list byte) : Z :=
  Z.of_nat (length (List.filter (fun c => bool_decide (c = b)) data)).

Definition probability (b : byte) (data : list byte) : R :=
  IZR (count_of b data) / IZR (Z.of_nat (length data)).

Definition sum_over {A} (f : A -> R) (l : list A) : R := fold_right (fun a acc => f a + acc) 0 l.

Definition shannon (data : list byte) : R :=
  - sum_over (fun b => probability b data * log2 (probability b data)) (remove_dups data).

(** ** Sums *)

Lemma sum_over_cons {A} (f : A -> R) (a : A) (l : list A) :
  sum_over f (a :: l) = f a + sum_over f l.
Proof. done. Qed.

Lemma sum_over_perm {A} (f : A -> R) (l1 l2 : list A) :
  Permutation l1 l2 -> sum_over f l1 = sum_over f l2.
Proof. induction 1; rewrite ?sum_over_cons; lra. Qed.

Lemma sum_over_map {A B} (f : B -> R) (g : A -> B) (l : list A) :
  sum_over f (map g l) = sum_over (fun a => f (g a)) l.
Proof. induction l as [|a l IH]; [done|]. cbn [map]. by rewrite !sum_over_cons, IH. Qed.

Lemma sum_over_ext {A} (f g : A -> R) (l : list A) :
  (forall a, a ∈ l -> f a = g a) -> sum_over f l = sum_over g l.
Proof.
  induction l as [|a l IH]; intros Hfg; [done|].
  rewrite !sum_over_cons, Hfg by (by left). rewrite IH; [done|]. intros b Hb. apply Hfg. by right.
Qed.

Lemma sum_over_scale {A} (f : A -> R) (k : R) (l : list A) :
  sum_over (fun a => k * f a) l = k * sum_over f l.
Proof. induction l as [|a l IH]; [cbn [sum_over fold_right]; lra|]. rewrite !sum_over_cons, IH. lra. Qed.

(** Terms that vanish can be left out. *)
Lemma sum_over_filter {A} (f : A -> R) (p : A -> bool) (l : list A) :
  (forall a, p a = false -> f a = 0) -> sum_over f (List.filter p l) = sum_over f l.
Proof.
  intros Hf. induction l as [|a l IH]; [done|]. cbn [List.filter].
  destruct (p a) eqn:Hp; rewrite ?sum_over_cons, IH; [done|]. rewrite Hf by done. lra.
Qed.

(** ** The bytes of a slice and the indices of its counters *)

#[export] Instance byte_index_inj : Inj (=) (=) byte_index.
Proof.
  intros a b Hab. unfold byte_index in Hab. apply N2Nat.inj in Hab.
  pose proof (Byte.of_to_N a) as Ha. pose proof (Byte.of_to_N b) as Hb. congruence.
Qed.

Lemma count_of_occurrences (b : byte) (data : list byte) :
  count_of b data = occurrences (byte_index b) data.
Proof.
  unfold count_of, occurrences. do 2 f_equal. apply List.filter_ext. intros c.
  destruct (Nat.eqb_spec (byte_index c) (byte_index b)) as [He|Hne].
  - apply (inj byte_index) in He as ->. by apply bool_decide_eq_true_2.
  - apply bool_decide_eq_false_2. by intros ->.
Qed.

Lemma occurrences_pos (i : nat) (data : list byte) :
  (0 <? occurrences i data)%Z = true <-> exists b, b ∈ data /\ byte_index b = i.
Proof.
  unfold occurrences. rewrite Z.ltb_lt. split.
  - destruct (List.filter _ data) as [|b l] eqn:Hf; [cbn; lia|]. intros _. exists b.
    assert (Hin : In b (List.filter (fun b => Nat.eqb (byte_index b) i) data)) by (rewrite Hf; by left).
    apply List.filter_In in Hin as [Hin He]. split; [by apply list_elem_of_In|].
    by apply Nat.eqb_eq.
  - intros (b & Hb & <-). apply list_elem_of_In in Hb.
    assert (Hin : In b (List.filter (fun c => Nat.eqb (byte_index c) (byte_index b)) data))
      by (apply List.filter_In; split; [done|by apply Nat.eqb_eq]).
    destruct (List.filter _ data); [done|]. cbn. lia.
Qed.

(** The counters that are not zero are those of the distinct bytes. *)
Lemma used_counters (data : list byte) :
  Permutation (List.filter (fun i => 0 <? occurrences i data)%Z (seq 0 256))
    (map byte_index (remove_dups data)).
Proof.
  apply NoDup_Permutation.
  - apply List.NoDup_filter, List.seq_NoDup.
  - apply NoDup_ListNoDup, NoDup_fmap; [apply _|apply NoDup_remove_dups].
  - intros i. rewrite List.filter_In, occurrences_pos, <-!list_elem_of_In.
    change (map byte_index (remove_dups data)) with (byte_index <$> remove_dups data).
    rewrite list_elem_of_fmap.
    setoid_rewrite elem_of_remove_dups. split.
    + intros [_ (b & Hb & <-)]. by exists b.
    + intros (b & -> & Hb). split; [|by exists b]. apply elem_of_seq.
      pose proof (byte_index_lt b). lia.
Qed.

Lemma sum_plogp_over (len : Z) (data : list byte) :
  sum_plogp len (histogram data) = sum_over (fun b => plogp len (count_of b data)) (remove_dups data).
Proof.
  assert (Hs : forall l, sum_plogp len (map (fun i => occurrences i data) l)
                         = sum_over (fun i => plogp len (occurrences i data)) l).
  { induction l as [|i l IH]; [done|]. rewrite sum_over_cons, <-IH. done. }
  unfold histogram. rewrite Hs.
  rewrite <-(sum_over_filter _ (fun i => 0 <? occurrences i data)%Z)
    by (intros i Hi; unfold plogp; by rewrite Hi).
  rewrite (sum_over_perm _ _ _ (used_counters data)), sum_over_map.
  apply sum_over_ext. intros b _. by rewrite count_of_occurrences.
Qed.

Lemma count_of_pos (b : byte) (data : list byte) : b ∈ data -> (0 < count_of b data)%Z.
Proof.
  intros Hb. rewrite count_of_occurrences. apply Z.ltb_lt, occurrences_pos. by exists b.
Qed.

(** The routine computes the formula. *)
Lemma real_entropy_shannon (data : list byte) :
  (Z.of_nat (length data) <= u64_max)%Z -> shannon_entropy data = shannon data.
Proof.
  intros Hl. destruct (decide (data = [])) as [->|Hne]; [unfold shannon; cbn; lra|].
  rewrite real_entropy_sum, sum_plogp_over by done. unfold shannon.
  transitivity (- 1 * sum_over (fun b => probability b data * log2 (probability b data))
                        (remove_dups data)); [|lra].
  unfold Rdiv at 1. rewrite Rmult_comm, <-!sum_over_scale. apply sum_over_ext.
  intros b Hb. rewrite elem_of_remove_dups in Hb. pose proof (count_of_pos b data Hb) as Hp.
  unfold plogp, log2, probability. rewrite (proj2 (Z.ltb_lt _ _)) by done.
  unfold Rdiv. lra.
Qed.

(** ** What the formula does not see *)

(** Slices with the same distinct bytes, up to renaming, and the same probabilities. *)
Lemma shannon_same (f : byte -> byte) (d1 d2 : list byte) :
  Inj (=) (=) f -> (forall b, b ∈ d2 <-> exists a, b = f a /\ a ∈ d1) ->
  (forall a, a ∈ d1 -> probability (f a) d2 = probability a d1) -> shannon d2 = shannon d1.
Proof.
  intros Hf Hin Hp. unfold shannon. f_equal.
  assert (Hperm : Permutation (remove_dups d2) (map f (remove_dups d1))).
  { apply NoDup_Permutation.
    - apply NoDup_ListNoDup, NoDup_remove_dups.
    - apply NoDup_ListNoDup, NoDup_fmap; [apply _|apply NoDup_remove_dups].
    - intros b. rewrite <-!list_elem_of_In, elem_of_remove_dups, Hin.
      change (map f (remove_dups d1)) with (f <$> remove_dups d1).
      rewrite list_elem_of_fmap. by setoid_rewrite elem_of_remove_dups. }
  rewrite (sum_over_perm _ _ _ Hperm), sum_over_map. apply sum_over_ext.
  intros a Ha. rewrite elem_of_remove_dups in Ha. by rewrite Hp.
Qed.

Lemma count_of_map (f : byte -> byte) (b : byte) (data : list byte) :
  Inj (=) (=) f -> count_of (f b) (map f data) = count_of b data.
Proof.
  intros Hf. unfold count_of. f_equal. induction data as [|c data IH]; [done|].
  cbn [map List.filter].
  assert (Hd : bool_decide (f c = f b) = bool_decide (c = b)).
  { apply bool_decide_ext. split; [apply Hf|by intros ->]. }
  rewrite Hd. destruct (bool_decide (c = b)); cbn [length]; by rewrite IH.
Qed.

(** The slice [k] times over. *)
Definition repeated (k : nat) (data : list byte) : list byte := concat (replicate k data).

Lemma repeated_facts (k : nat) (b : byte) (data : list byte) :
  count_of b (repeated k data) = (Z.of_nat k * count_of b data)%Z
  /\ length (repeated k data) = (k * length data)%nat.
Proof.
  induction k as [|k [IHc IHl]]; [done|]. unfold repeated in *. cbn [replicate concat].
  rewrite length_app, IHl. split; [|lia].
  unfold count_of in *. rewrite List.filter_app, length_app. lia.
Qed.

Lemma repeated_elem (k : nat) (b : byte) (data : list byte) :
  (0 < k)%nat -> b ∈ repeated k data <-> b ∈ data.
Proof.
  intros Hk. unfold repeated. rewrite list_elem_of_In, List.in_concat. split.
  - intros (l & Hl & Hb). apply list_elem_of_In, elem_of_replicate in Hl as [-> _].
    by apply list_elem_of_In.
  - intros Hb. exists data. split; [|by apply list_elem_of_In].
    apply list_elem_of_In, elem_of_replicate. split; [done|lia].
Qed.

(** C36. Over the real numbers the C routine, with its 256 counters and one pass over them,
    computes Shannon's formula for the distinct bytes of the slice: minus the sum of p log2 p
    over their relative frequencies.  So it does not see which bytes they are (a renaming of
    the byte values), in which order they come, or how often the slice is repeated: the
    analysis of a path repeated to whole copies measures the path. *)
Theorem routine_is_shannon_formula (data : list byte) :
  (Z.of_nat (length data) <= u64_max)%Z ->
  shannon_entropy data = shannon data
  /\ (forall f, Inj (=) (=) f -> shannon_entropy (map f data) = shannon_entropy data)
  /\ (forall data', Permutation data data' -> shannon_entropy data' = shannon_entropy data)
  /\ (forall k, (0 < k)%nat -> (Z.of_nat (k * length data) <= u64_max)%Z ->
        shannon_entropy (repeated k data) = shannon_entropy data).
Proof.
  intros Hl. split; [by apply real_entropy_shannon|]. split_and!.
  - intros f Hf. rewrite !real_entropy_shannon by (rewrite ?length_map; done).
    apply (shannon_same f); [done| |].
    + intros b. change (map f data) with (f <$> data). apply list_elem_of_fmap.
    + intros a _. unfold probability. by rewrite count_of_map, length_map.
  - intros data' Hp. symmetry. by apply entropy_permutation.
  - intros k Hk Hkl. pose proof (fun b => repeated_facts k b data) as Hr.
    rewrite !real_entropy_shannon by (try rewrite (proj2 (Hr Byte.x00)); done).
    apply (shannon_same (fun b => b)); [by intros a b| |].
    + intros b. rewrite repeated_elem by done. naive_solver.
    + intros b Hb. unfold probability. destruct (Hr b) as [-> ->].
      rewrite Nat2Z.inj_mul, !mult_IZR. assert (0 < IZR (Z.of_nat k)) by (apply IZR_lt; lia).
      assert (0 < IZR (Z.of_nat (length data))).
      { apply IZR_lt. destruct data; [by apply elem_of_nil in Hb|cbn; lia]. }
      field. lra.
Qed.

(** ** Deciding a bound exactly *)

(** The product of [c ^ (q c)] over the counters. *)
Definition self_powers (q : Z) (l : list Z) : Z := fold_right (fun c acc => c ^ (q * c) * acc)%Z 1%Z l.

(** Whether the entropy is below, at or above [p / q], in integers. *)
Definition entropy_vs (p q : Z) (data : list byte) : comparison :=
  let n := Z.of_nat (length data) in
  (n ^ (q * n) ?= 2 ^ (p * n) * self_powers q (histogram data))%Z.

(** [c ln c], which is 0 for a counter that is 0. *)
Definition clogc (c : Z) : R := if (0 <? c)%Z then IZR c * ln (IZR c) else 0.

Lemma ln_zpow (b e : Z) : (0 < b)%Z -> (0 <= e)%Z -> ln (IZR (b ^ e)) = IZR e * ln (IZR b).
Proof.
  intros Hb He. rewrite <-(Z2Nat.id e) at 1 by done. rewrite <-pow_IZR, ln_pow by (by apply IZR_lt).
  by rewrite INR_IZR_INZ, Z2Nat.id.
Qed.

Lemma self_powers_ln (q : Z) (l : list Z) :
  (0 < q)%Z -> Forall (fun c => (0 <= c)%Z) l ->
  (0 < self_powers q l)%Z /\ ln (IZR (self_powers q l)) = IZR q * sum_over clogc l.
Proof.
  intros Hq. induction 1 as [|c l Hc _ [IHp IHl]].
  { split; [done|]. change (ln (IZR 1) = IZR q * 0). rewrite ln_1. lra. }
  change (self_powers q (c :: l)) with (c ^ (q * c) * self_powers q l)%Z.
  rewrite sum_over_cons. unfold clogc at 1. destruct (Z.ltb_spec 0 c) as [Hp|].
  - pose proof (Z.pow_pos_nonneg c (q * c) Hp ltac:(lia)) as Hcc. split; [lia|].
    rewrite mult_IZR, ln_mult by (apply IZR_lt; lia).
    rewrite ln_zpow, IHl, mult_IZR by lia. lra.
  - replace c with 0%Z by lia. rewrite Z.mul_0_r, Z.pow_0_r, Z.mul_1_l. split; [done|].
    rewrite IHl. lra.
Qed.

Lemma sum_plogp_clogc (len : Z) (l : list Z) :
  (0 < len)%Z -> Forall (fun c => (0 <= c)%Z) l ->
  IZR len * sum_plogp len l = IZR (sum_list l) * ln (IZR len) - sum_over clogc l.
Proof.
  intros Hlen. assert (Hl : 0 < IZR len) by (by apply IZR_lt).
  induction 1 as [|c l Hc _ IH].
  { change (IZR len * 0 = IZR 0 * ln (IZR len) - 0). lra. }
  change (sum_plogp len (c :: l)) with (plogp len c + sum_plogp len l).
  change (sum_list (c :: l)) with (c + sum_list l)%Z.
  rewrite sum_over_cons, plus_IZR, Rmult_plus_distr_l, IH. unfold plogp, clogc.
  destruct (Z.ltb_spec 0 c) as [Hp|].
  - assert (Hcr : 0 < IZR c) by (by apply IZR_lt). unfold Rdiv at 2.
    rewrite ln_mult, ln_Rinv by (try apply Rinv_0_lt_compat; lra). field. lra.
  - replace c with 0%Z by lia. lra.
Qed.

(** The comparison of the integers is the comparison of the entropy. *)
Lemma entropy_vs_spec (p q : Z) (data : list byte) :
  data <> [] -> (Z.of_nat (length data) <= u64_max)%Z -> (0 <= p)%Z -> (0 < q)%Z ->
  match entropy_vs p q data with
  | Lt => shannon_entropy data < IZR p / IZR q
  | Eq => shannon_entropy data = IZR p / IZR q
  | Gt => IZR p / IZR q < shannon_entropy data
  end.
Proof.
  intros Hne Hl Hp Hq. unfold entropy_vs. set (n := Z.of_nat (length data)).
  assert (Hn : (0 < n)%Z) by (subst n; destruct data; [done|cbn; lia]).
  assert (Hnr : 0 < IZR n) by (by apply IZR_lt). assert (Hqr : 0 < IZR q) by (by apply IZR_lt).
  pose proof ln2_pos as H2.
  assert (Hpos : Forall (fun c => (0 <= c)%Z) (histogram data))
    by (eapply Forall_impl; [apply histogram_bounds|]; cbn; lia).
  destruct (self_powers_ln q (histogram data) Hq Hpos) as [Hsp Hsl].
  pose proof (sum_plogp_clogc n (histogram data) Hn Hpos) as Hs.
  rewrite sum_histogram in Hs. fold n in Hs.
  assert (Hh : IZR q * IZR n * ln 2 * (shannon_entropy data - IZR p / IZR q)
    = ln (IZR (n ^ (q * n))) - ln (IZR (2 ^ (p * n) * self_powers q (histogram data)))).
  { rewrite mult_IZR, ln_mult by (apply IZR_lt; first [exact Hsp|apply Z.pow_pos_nonneg; lia]).
    rewrite !ln_zpow, Hsl, !mult_IZR by lia.
    rewrite real_entropy_sum by done. fold n.
    transitivity (IZR q * (IZR n * sum_plogp n (histogram data)) - IZR p * IZR n * ln 2);
      [field; lra|]. rewrite Hs. ring. }
  assert (Hk : 0 < IZR q * IZR n * ln 2) by (repeat apply Rmult_lt_0_compat; lra).
  assert (Hln : forall a b, (0 < a)%Z -> (a < b)%Z -> ln (IZR a) < ln (IZR b))
    by (intros a b Ha Hab; apply ln_increasing; by apply IZR_lt).
  pose proof (Z.pow_pos_nonneg n (q * n) Hn ltac:(lia)) as H0.
  pose proof (Z.pow_pos_nonneg 2 (p * n) ltac:(lia) ltac:(lia)) as H3.
  destruct (Z.compare_spec (n ^ (q * n)) (2 ^ (p * n) * self_powers q (histogram data)))
    as [He|Hlt|Hgt].
  - rewrite He in Hh. nra.
  - specialize (Hln _ _ H0 Hlt). nra.
  - assert (0 < 2 ^ (p * n) * self_powers q (histogram data))%Z as Hrp by lia.
    specialize (Hln _ _ Hrp Hgt). nra.
Qed.

(** ** Witness *)

Lemma routine_is_shannon_formula_witness :
  shannon_entropy (repeated 3 (bytes "/data")) = shannon (bytes "/data").
Proof.
  destruct (routine_is_shannon_formula (bytes "/data")) as (Hs & _ & _ & Hr); [by vm_compute|].
  rewrite (Hr 3%nat); [exact Hs|lia|by vm_compute].
Defined.
