(* ===== verification/Db.v ===== *)
(** The [backups] table ([migrations/001_create_backups.sql]) and the SQL statements that
    the handlers and the gRPC service execute: one constructor of [Stmt] per statement of
    the source, one definition per statement for what it does to the table.  What is not
    written in the source is a parameter: the identifiers [gen_random_uuid()] draws, the
    order PostgreSQL gives to rows with equal [created_at], the clock and the failures of
    the connection.  Bound texts are taken without a NUL character: the server refuses one
    with an error, here it is stored. *)

From S2P Require Import Prelude Models Errors.
From Stdlib Require Import Permutation Sorting.Sorted.

(** ** The server *)

(** Draws and row orders may differ at every execution (numbered by the first argument); a
    draw fails when the server has no random values ([None]). *)
Class Postgres : Type := {
  gen_random_uuid : nat -> option Uuid;
  order_desc : nat -> list Backup -> list Backup;
}.

(** [ORDER BY created_at DESC]: the same rows, newest first, ties in any order. *)
Class PostgresLaws `{Postgres} : Prop := {
  order_desc_perm : forall n l, Permutation (order_desc n l) l;
  order_desc_sorted : forall n l,
    StronglySorted (fun a b => b_created_at b <= b_created_at a) (order_desc n l);
}.

(** A statement may fail without being executed (no connection in time), or be executed
    and the answer be lost. *)
Inductive DbFault : Type :=
  | FaultBefore (e : SqlxError)
  | FaultAfter (e : SqlxError).

Record Pg : Type := MkPg {
  backups : gmap Uuid Backup;
  pg_clock : DateTime;
  pg_execs : nat;
  pg_faults : list (option DbFault);
}.

Definition with_backups (m : gmap Uuid Backup) (db : Pg) : Pg :=
  {| backups := m; pg_clock := pg_clock db; pg_execs := pg_execs db; pg_faults := pg_faults db |}.

(** [CHECK (status IN ('pending', 'running', 'completed', 'failed'))] *)
Definition status_check (s : string) : bool :=
  existsb (String.eqb s) ["pending"; "running"; "completed"; "failed"].

Definition check_violation : SqlxError :=
  {| sqlx_kind := CheckViolation;
     sqlx_msg := "new row for relation backups violates check constraint" |}.
Definition unique_violation : SqlxError :=
  {| sqlx_kind := UniqueViolation;
     sqlx_msg := "duplicate key value violates unique constraint backups_pkey" |}.
Definition no_random_values : SqlxError :=
  {| sqlx_kind := Unavailable; sqlx_msg := "could not generate random values" |}.
Definition invalid_limit : SqlxError :=
  {| sqlx_kind := InvalidLimit; sqlx_msg := "LIMIT and OFFSET must not be negative" |}.

(** ** The statements of [handlers/backups.rs] *)

Section statements.
Context `{Postgres}.

(** [INSERT INTO backups (tenant_id, source_path, encryption_enabled) ... RETURNING ...],
    with the column defaults of the migration. *)
Definition insert_backup (tenant : Uuid) (path : string) (enc : bool) (db : Pg)
    : result Backup SqlxError * Pg :=
  match gen_random_uuid (pg_execs db) with
  | None => (Err no_random_values, db)
  | Some id =>
      let row := {| b_id := id;
                    b_tenant_id := tenant;
                    b_source_path := path;
                    b_size_bytes := 0;
                    b_status := "pending";
                    b_encryption_enabled := enc;
                    b_created_at := pg_clock db;
                    b_updated_at := pg_clock db |} in
      match backups db !! id with
      | Some _ => (Err unique_violation, db)
      | None => (Ok row, with_backups (<[id := row]> (backups db)) db)
      end
  end.

(** [SELECT ... WHERE id = $1 AND tenant_id = $2] *)
Definition select_backup (id tenant : Uuid) (db : Pg) : option Backup :=
  match backups db !! id with
  | Some b => if bool_decide (b_tenant_id b = tenant) then Some b else None
  | None => None
  end.

(** The rows of a [WHERE] clause. *)
Definition rows_where (p : Backup -> bool) (db : Pg) : list Backup :=
  List.filter p (map snd (map_to_list (backups db))).

Definition of_tenant (tenant : Uuid) (b : Backup) : bool :=
  bool_decide (b_tenant_id b = tenant).
Definition of_tenant_status (tenant : Uuid) (st : string) (b : Backup) : bool :=
  of_tenant tenant b && String.eqb (b_status b) st.

(** [... ORDER BY created_at DESC LIMIT $3 OFFSET $4] *)
Definition select_page (p : Backup -> bool) (limit offset : Z) (db : Pg)
    : result (list Backup) SqlxError :=
  if (limit <? 0) || (offset <? 0) then Err invalid_limit
  else Ok (take (Z.to_nat limit)
             (drop (Z.to_nat offset) (order_desc (pg_execs db) (rows_where p db)))).

(** [SELECT COUNT( * )::bigint FROM backups WHERE ...] *)
Definition count_rows (p : Backup -> bool) (db : Pg) : Z :=
  Z.of_nat (length (rows_where p db)).

(** The row with the [SET] columns replaced; [None] leaves a column as it is. *)
Definition set_columns (st : option string) (size : option Z) (now : DateTime) (b : Backup)
    : Backup :=
  {| b_id := b_id b;
     b_tenant_id := b_tenant_id b;
     b_source_path := b_source_path b;
     b_size_bytes := unwrap_or size (b_size_bytes b);
     b_status := unwrap_or st (b_status b);
     b_encryption_enabled := b_encryption_enabled b;
     b_created_at := b_created_at b;
     b_updated_at := now |}.

(** Replacing a row, under the table's [CHECK]. *)
Definition replace_row (b' : Backup) (db : Pg) : result Backup SqlxError * Pg :=
  if status_check (b_status b') then (Ok b', with_backups (<[b_id b' := b']> (backups db)) db)
  else (Err check_violation, db).

(** [UPDATE backups SET status = COALESCE($3, status),
    size_bytes = COALESCE($4, size_bytes), updated_at = now()
    WHERE id = $1 AND tenant_id = $2 RETURNING ...] *)
Definition update_backup_row (id tenant : Uuid) (st : option string) (size : option Z) (db : Pg)
    : result (option Backup) SqlxError * Pg :=
  match select_backup id tenant db with
  | None => (Ok None, db)
  | Some b =>
      match replace_row (set_columns st size (pg_clock db) b) db with
      | (Ok b', db') => (Ok (Some b'), db')
      | (Err e, db') => (Err e, db')
      end
  end.

(** [DELETE FROM backups WHERE id = $1 AND tenant_id = $2]: the rows affected. *)
Definition delete_backup_row (id tenant : Uuid) (db : Pg) : Z * Pg :=
  match select_backup id tenant db with
  | None => (0, db)
  | Some _ => (1, with_backups (delete id (backups db)) db)
  end.

(** ** The statements of [grpc.rs] (no tenant condition) *)

Definition update_by_id (id : Uuid) (st : string) (size : option Z) (db : Pg)
    : result Z SqlxError * Pg :=
  match backups db !! id with
  | None => (Ok 0, db)
  | Some b =>
      match replace_row (set_columns (Some st) size (pg_clock db) b) db with
      | (Ok _, db') => (Ok 1, db')
      | (Err e, db') => (Err e, db')
      end
  end.

(** [UPDATE backups SET status = $2, updated_at = now() WHERE id = $1] *)
Definition update_status_row (id : Uuid) (st : string) : Pg -> result Z SqlxError * Pg :=
  update_by_id id st None.

(** [UPDATE backups SET status = 'completed', size_bytes = $2, updated_at = now() WHERE id = $1] *)
Definition complete_row (id : Uuid) (size : Z) : Pg -> result Z SqlxError * Pg :=
  update_by_id id "completed" (Some size).

(** [UPDATE backups SET status = 'failed', updated_at = now() WHERE id = $1] *)
Definition fail_row (id : Uuid) : Pg -> result Z SqlxError * Pg :=
  update_by_id id "failed" None.
End statements.

(** ** Statements as values *)

(** The statements of the source, with the type of what [fetch_one], [fetch_optional],
    [fetch_all] or [execute] returns. *)
Inductive Stmt : Type -> Type :=
  | InsertBackup (tenant : Uuid) (path : string) (enc : bool) : Stmt Backup
  | SelectBackup (id tenant : Uuid) : Stmt (option Backup)
  | ListByStatus (tenant : Uuid) (st : string) (limit offset : Z) : Stmt (list Backup)
  | CountByStatus (tenant : Uuid) (st : string) : Stmt Z
  | ListAll (tenant : Uuid) (limit offset : Z) : Stmt (list Backup)
  | CountAll (tenant : Uuid) : Stmt Z
  | UpdateBackup (id tenant : Uuid) (st : option string) (size : option Z)
      : Stmt (option Backup)
  | DeleteBackup (id tenant : Uuid) : Stmt Z
  | SelectOne : Stmt unit
  | UpdateStatus (id : Uuid) (st : string) : Stmt Z
  | CompleteBackup (id : Uuid) (size : Z) : Stmt Z
  | FailBackup (id : Uuid) : Stmt Z.

Section exec.
Context `{Postgres}.

Definition exec_stmt {R} (q : Stmt R) (db : Pg) : result R SqlxError * Pg :=
  match q in Stmt R return result R SqlxError * Pg with
  | InsertBackup t p e => insert_backup t p e db
  | SelectBackup id t => (Ok (select_backup id t db), db)
  | ListByStatus t st l o => (select_page (of_tenant_status t st) l o db, db)
  | CountByStatus t st => (Ok (count_rows (of_tenant_status t st) db), db)
  | ListAll t l o => (select_page (of_tenant t) l o db, db)
  | CountAll t => (Ok (count_rows (of_tenant t) db), db)
  | UpdateBackup id t st sz => update_backup_row id t st sz db
  | DeleteBackup id t => let '(n, db') := delete_backup_row id t db in (Ok n, db')
  | SelectOne => (Ok tt, db)
  | UpdateStatus id st => update_status_row id st db
  | CompleteBackup id sz => complete_row id sz db
  | FailBackup id => fail_row id db
  end.

(** The next execution: its number is used up, and so is the fault scheduled for it. *)
Definition begin_exec (db : Pg) : option DbFault * Pg :=
  (match pg_faults db with f :: _ => f | [] => None end,
   {| backups := backups db; pg_clock := pg_clock db; pg_execs := S (pg_execs db);
      pg_faults := tail (pg_faults db) |}).

Definition exec {R} (q : Stmt R) (db : Pg) : result R SqlxError * Pg :=
  let '(fault, db1) := begin_exec db in
  match fault with
  | None => exec_stmt q db1
  | Some (FaultBefore e) => (Err e, db1)
  | Some (FaultAfter e) => (Err e, (exec_stmt q db1).2)
  end.
End exec.

(** ** Well-formed tables *)

(** The primary key is the row's [id] and the status satisfies the [CHECK]. *)
Definition row_ok (id : Uuid) (b : Backup) : Prop :=
  b_id b = id /\ status_check (b_status b) = true.

Definition table_ok (db : Pg) : Prop := map_Forall row_ok (backups db).

(** The columns that no statement changes. *)
Definition identity_columns (b : Backup) :=
  (b_id b, b_tenant_id b, b_source_path b, b_encryption_enabled b, b_created_at b).

Lemma select_backup_spec (id tenant : Uuid) (db : Pg) (b : Backup) :
  select_backup id tenant db = Some b <-> backups db !! id = Some b /\ b_tenant_id b = tenant.
Proof.
  unfold select_backup. destruct (backups db !! id) as [b'|]; [|naive_solver].
  case_bool_decide; naive_solver.
Qed.

Lemma select_backup_none (id tenant : Uuid) (db : Pg) :
  select_backup id tenant db = None <->
  forall b, backups db !! id = Some b -> b_tenant_id b <> tenant.
Proof.
  unfold select_backup. destruct (backups db !! id) as [b'|]; [|naive_solver].
  case_bool_decide; naive_solver.
Qed.

Lemma rows_where_elem (p : Backup -> bool) (db : Pg) (b : Backup) :
  b ∈ rows_where p db <-> p b = true /\ exists id, backups db !! id = Some b.
Proof.
  unfold rows_where. rewrite list_elem_of_In, List.filter_In, in_map_iff. split.
  - intros [([id b'] & <- & Hin) Hp]. split; [done|]. exists id.
    by apply elem_of_map_to_list, list_elem_of_In.
  - intros [Hp [id Hid]]. split; [|done]. exists (id, b). split; [done|].
    by apply list_elem_of_In, elem_of_map_to_list.
Qed.

Lemma status_check_to_string (s : BackupStatus) : status_check (status_to_string s) = true.
Proof. by destruct s. Qed.

Lemma status_check_from_string (s : string) :
  status_check s = true <-> exists st, status_from_string s = Some st.
Proof.
  unfold status_check, status_from_string. cbn [existsb].
  destruct (String.eqb s "pending"), (String.eqb s "running"), (String.eqb s "completed"),
    (String.eqb s "failed"); naive_solver.
Qed.

Section table.
Context `{Postgres}.

(** How one statement may change the row of one identifier: not at all, a new pending row,
    a deletion, or new mutable columns with the same identity. *)
Inductive row_change (now : DateTime) (id : Uuid) : option Backup -> option Backup -> Prop :=
  | row_same o : row_change now id o o
  | row_inserted b : b_id b = id -> b_status b = "pending" -> b_size_bytes b = 0 ->
      b_created_at b = now -> row_change now id None (Some b)
  | row_deleted b : row_change now id (Some b) None
  | row_updated b st sz : status_check (unwrap_or st (b_status b)) = true ->
      row_change now id (Some b) (Some (set_columns st sz now b)).

Lemma replace_row_change (id : Uuid) (b : Backup) (st : option string) (sz : option Z) (db : Pg)
    (id' : Uuid) :
  table_ok db -> backups db !! id = Some b ->
  row_change (pg_clock db) id' (backups db !! id')
    (backups (replace_row (set_columns st sz (pg_clock db) b) db).2 !! id').
Proof using Type.
  intros Hok Hb. destruct (Hok id b Hb) as [Hid Hst].
  unfold replace_row. case_match eqn:Ec; [|constructor].
  cbn [snd with_backups backups set_columns b_id] in *. rewrite Hid.
  destruct (decide (id' = id)) as [->|Hne].
  - rewrite lookup_insert_eq, Hb. by constructor.
  - rewrite lookup_insert_ne by done. constructor.
Qed.

Lemma update_by_id_change (id : Uuid) (st : string) (sz : option Z) (db : Pg) (id' : Uuid) :
  table_ok db ->
  row_change (pg_clock db) id' (backups db !! id') (backups (update_by_id id st sz db).2 !! id').
Proof using Type.
  intros Hok. unfold update_by_id. destruct (backups db !! id) as [b|] eqn:Hb; [|constructor].
  pose proof (replace_row_change id b (Some st) sz db id' Hok Hb) as Hc.
  by destruct (replace_row _ db) as [[?|?] ?].
Qed.

Lemma exec_stmt_change {R} (q : Stmt R) (db : Pg) (id : Uuid) :
  table_ok db ->
  row_change (pg_clock db) id (backups db !! id) (backups (exec_stmt q db).2 !! id).
Proof using Type.
  intros Hok. destruct q as [t p e|i t|t s l o|t s|t l o|t|i t s z|i t| |i s|i z|i];
    cbn [exec_stmt snd]; try (by constructor); try by apply update_by_id_change.
  - unfold insert_backup. destruct (gen_random_uuid (pg_execs db)) as [i|]; [|constructor].
    destruct (backups db !! i) as [b|] eqn:Hb; [constructor|].
    cbn [snd with_backups backups]. destruct (decide (id = i)) as [->|].
    + rewrite lookup_insert_eq, Hb. by constructor.
    + rewrite lookup_insert_ne by done. constructor.
  - unfold update_backup_row. destruct (select_backup i t db) as [b|] eqn:Hs; [|constructor].
    apply select_backup_spec in Hs as [Hb _].
    pose proof (replace_row_change i b s z db id Hok Hb) as Hc.
    by destruct (replace_row _ db) as [[?|?] ?].
  - unfold delete_backup_row. destruct (select_backup i t db) as [b|] eqn:Hs; [|constructor].
    apply select_backup_spec in Hs as [Hb _]. cbn [snd with_backups backups].
    destruct (decide (id = i)) as [->|].
    + rewrite lookup_delete_eq, Hb. constructor.
    + rewrite lookup_delete_ne by done. constructor.
Qed.

Lemma begin_exec_table (db : Pg) :
  backups (begin_exec db).2 = backups db /\ pg_clock (begin_exec db).2 = pg_clock db.
Proof using Type. done. Qed.

Lemma exec_change {R} (q : Stmt R) (db : Pg) (id : Uuid) :
  table_ok db -> row_change (pg_clock db) id (backups db !! id) (backups (exec q db).2 !! id).
Proof using Type.
  intros Hok. unfold exec. destruct (begin_exec db) as [f db1] eqn:E.
  destruct (begin_exec_table db) as [Hb Hc]. rewrite E in Hb, Hc. cbn [snd] in Hb, Hc.
  assert (Hok1 : table_ok db1) by (unfold table_ok; by rewrite Hb).
  destruct f as [[e|e]|]; cbn [snd].
  - rewrite Hb. constructor.
  - rewrite <-Hb, <-Hc. by apply exec_stmt_change.
  - rewrite <-Hb, <-Hc. by apply exec_stmt_change.
Qed.

Lemma row_change_ok (now : DateTime) (id : Uuid) (o : option Backup) (b' : Backup) :
  row_change now id o (Some b') -> (forall b, o = Some b -> row_ok id b) -> row_ok id b'.
Proof using Type.
  intros Hc Ho. inversion Hc as [o' Ho'|b0 Hid Hst Hsz Hcr|b0|b0 st sz Hst]; subst.
  - by apply Ho.
  - split; [done|]. by rewrite Hst.
  - split; [|done]. by apply (Ho b0).
Qed.

Lemma exec_table_ok {R} (q : Stmt R) (db : Pg) : table_ok db -> table_ok (exec q db).2.
Proof using Type.
  intros Hok id b' Hb'. pose proof (exec_change q db id Hok) as Hc. rewrite Hb' in Hc.
  apply (row_change_ok _ _ _ _ Hc). intros b Hb. by apply Hok.
Qed.

(** C31. No statement, executed or failing, breaks the table or rewrites history: the
    primary keys and the status [CHECK] hold afterwards, and a row that exists before and
    after keeps its id, tenant, path, encryption flag and creation time. *)
Theorem exec_preserves_table {R} (q : Stmt R) (db : Pg) :
  table_ok db ->
  table_ok (exec q db).2
  /\ forall id b b', backups db !! id = Some b -> backups (exec q db).2 !! id = Some b' ->
       identity_columns b' = identity_columns b.
Proof using Type.
  intros Hok. split; [by apply exec_table_ok|]. intros id b b' Hb Hb'.
  pose proof (exec_change q db id Hok) as Hc. rewrite Hb, Hb' in Hc.
  by inversion Hc.
Qed.

(** ** Lists *)

Lemma select_page_elem (p : Backup -> bool) (limit offset : Z) (db : Pg) (l : list Backup)
    (b : Backup) `{!PostgresLaws} :
  select_page p limit offset db = Ok l -> b ∈ l ->
  p b = true /\ exists id, backups db !! id = Some b.
Proof using Type.
  unfold select_page. case_match; [done|]. intros [= <-] Hin.
  apply rows_where_elem. rewrite <-(order_desc_perm (pg_execs db) (rows_where p db)).
  eapply subseteq_drop, subseteq_take, Hin.
Qed.
End table.

(** ** A reference server *)

Module ReferenceDb.
(** Insertion sort by descending creation time. *)
Fixpoint insert_desc (b : Backup) (l : list Backup) : list Backup :=
  match l with
  | [] => [b]
  | c :: l' => if b_created_at c <=? b_created_at b then b :: l else c :: insert_desc b l'
  end.

Definition sort_desc (l : list Backup) : list Backup := fold_right insert_desc [] l.

Lemma insert_desc_perm (b : Backup) (l : list Backup) : Permutation (insert_desc b l) (b :: l).
Proof.
  induction l as [|c l IH]; [done|]. cbn. case_match; [done|].
  rewrite IH. constructor.
Qed.

Lemma insert_desc_sorted (b : Backup) (l : list Backup) :
  StronglySorted (fun a b => b_created_at b <= b_created_at a) l ->
  StronglySorted (fun a b => b_created_at b <= b_created_at a) (insert_desc b l).
Proof.
  induction 1 as [|c l Hs IH Hc]; [by repeat constructor|]. cbn.
  destruct (Z.leb_spec (b_created_at c) (b_created_at b)) as [Hle|Hlt].
  - repeat constructor; [done|done|done|]. eapply Forall_impl; [exact Hc|]. cbn. lia.
  - constructor; [done|]. rewrite (insert_desc_perm b l). constructor; [lia|done].
Qed.

Definition server : Postgres :=
  {| gen_random_uuid n :=
       if (N.of_nat n <? 2 ^ 64)%N then Some (uuid_of (N.of_nat n + 1000)) else None;
     order_desc _ l := sort_desc l |}.

Lemma pg_server_laws : @PostgresLaws server.
Proof.
  split; cbn; intros _ l.
  - induction l as [|b l IH]; [done|]. cbn. by rewrite insert_desc_perm, IH.
  - induction l as [|b l IH]; [constructor|]. by apply insert_desc_sorted.
Qed.

Lemma uuid_of_inj (a b : N) :
  (a < 2 ^ 128)%N -> (b < 2 ^ 128)%N -> uuid_of a = uuid_of b -> a = b.
Proof.
  intros Ha Hb Hab. apply (f_equal uuid_bits) in Hab. cbn [uuid_bits uuid_of] in Hab.
  by rewrite !N.mod_small in Hab by done.
Qed.

Lemma draw_spec (n : nat) (id : Uuid) :
  @gen_random_uuid server n = Some id ->
  (N.of_nat n < 2 ^ 64)%N /\ id = uuid_of (N.of_nat n + 1000).
Proof.
  cbn [gen_random_uuid server]. destruct (N.ltb_spec (N.of_nat n) (2 ^ 64)); [|done].
  by intros [= <-].
Qed.

Lemma draws_differ (n m : nat) (id : Uuid) :
  @gen_random_uuid server n = Some id -> @gen_random_uuid server m = Some id -> n = m.
Proof.
  intros [Hn ->]%draw_spec [Hm Heq]%draw_spec. apply uuid_of_inj in Heq; lia.
Qed.

(** A server holding the given rows, with no failures ahead. *)
Definition pg_of (rows : list Backup) (now : DateTime) : Pg :=
  {| backups := list_to_map (map (fun b => (b_id b, b)) rows);
     pg_clock := now; pg_execs := 0; pg_faults := [] |}.
End ReferenceDb.

Definition sample_row (n tenant : N) (st : string) (t : DateTime) : Backup :=
  {| b_id := uuid_of n; b_tenant_id := uuid_of tenant; b_source_path := "/data";
     b_size_bytes := 0; b_status := st; b_encryption_enabled := false;
     b_created_at := t; b_updated_at := t |}.

Lemma table_ok_of_rows (m : gmap Uuid Backup) (now : DateTime) (n : nat)
    (fs : list (option DbFault)) :
  forallb (fun kv => bool_decide (b_id kv.2 = kv.1) && status_check (b_status kv.2))
    (map_to_list m) = true ->
  table_ok (MkPg m now n fs).
Proof.
  intros H id b Hb. cbn in Hb. apply elem_of_map_to_list in Hb.
  apply list_elem_of_In in Hb. apply (proj1 (forallb_forall _ _) H) in Hb. cbn in Hb.
  apply andb_true_iff in Hb as [H1 H2]. split; [by apply bool_decide_eq_true in H1|done].
Qed.

Lemma exec_preserves_table_witness :
  let db := ReferenceDb.pg_of [sample_row 1 7 "pending" 10] 20 in
  table_ok (@exec ReferenceDb.server _ (UpdateStatus (uuid_of 1) "running") db).2.
Proof.
  apply (@exec_preserves_table ReferenceDb.server _ (UpdateStatus (uuid_of 1) "running")).
  apply table_ok_of_rows. vm_compute. reflexivity.
Defined.

(** ** No failure ahead *)

Definition pg_quiet (db : Pg) : Prop := pg_faults db = [].

Lemma exec_quiet `{Postgres} {R} (q : Stmt R) (db : Pg) :
  pg_quiet db -> exec q db = exec_stmt q (begin_exec db).2.
Proof. intros Hq. unfold exec, begin_exec. by rewrite Hq. Qed.

(** What happens to the next execution. *)
Definition fault_now (db : Pg) : option DbFault := (begin_exec db).1.

Lemma quiet_fault_now (db : Pg) : pg_quiet db -> fault_now db = None.
Proof. unfold pg_quiet, fault_now. intros Hq. cbn. by rewrite Hq. Qed.

Lemma exec_fault_now `{Postgres} {R} (q : Stmt R) (db : Pg) :
  exec q db =
  match fault_now db with
  | None => exec_stmt q (begin_exec db).2
  | Some (FaultBefore e) => (Err e, (begin_exec db).2)
  | Some (FaultAfter e) => (Err e, (exec_stmt q (begin_exec db).2).2)
  end.
Proof. done. Qed.

Lemma exec_no_fault `{Postgres} {R} (q : Stmt R) (db : Pg) :
  fault_now db = None -> exec q db = exec_stmt q (begin_exec db).2.
Proof. intros Hf. by rewrite exec_fault_now, Hf. Qed.

Lemma begin_exec_quiet (db : Pg) : pg_quiet db -> pg_quiet (begin_exec db).2.
Proof. unfold pg_quiet. intros Hq. cbn. by rewrite Hq. Qed.

(** A statement uses no fault but the one scheduled for it. *)
Lemma exec_stmt_faults `{Postgres} {R} (q : Stmt R) (db : Pg) :
  pg_faults (exec_stmt q db).2 = pg_faults db.
Proof.
  destruct q; cbn [exec_stmt]; try done;
    unfold insert_backup, update_backup_row, delete_backup_row, update_status_row, complete_row,
      fail_row, update_by_id, replace_row; by repeat case_match; simplify_eq/=.
Qed.

Lemma exec_stmt_quiet `{Postgres} {R} (q : Stmt R) (db : Pg) :
  pg_quiet db -> pg_quiet (exec_stmt q db).2.
Proof. unfold pg_quiet. by rewrite exec_stmt_faults. Qed.
