(* ===== verification/State.v ===== *)
(** The shared state of the service ([state.rs]) and the calls its handlers await.  A call
    is a constructor of [SEff]; [service] says what it answers and how it changes the
    [World].  Redis and RabbitMQ are classes: the service only knows what their interface
    promises. *)

From S2P Require Import Prelude Prog Models Errors SocketAddr Config Merge RateLimit Db.

(** ** The services behind the clients *)

(** Redis, as the [redis] crate's typed commands see it.  [redis_holds s k v]: the live
    value of key [k] is [v].  A command that fails may or may not have been executed. *)
Class RedisServer : Type := {
  RedisState : Type;
  redis_get : string -> RedisState -> result string RedisError * RedisState;
  redis_set_ex : string -> string -> Z -> RedisState -> result unit RedisError * RedisState;
  redis_del : string -> RedisState -> result unit RedisError * RedisState;
  redis_ping : RedisState -> result string RedisError * RedisState;
  redis_holds : RedisState -> string -> string -> Prop;
}.

(** Values disappear on their own (expiry, eviction) but never appear. *)
Definition redis_shrinks `{RedisServer} (s s' : RedisState) : Prop :=
  forall k v, redis_holds s' k v -> redis_holds s k v.

#[export] Instance redis_shrinks_preorder `{RedisServer} : PreOrder redis_shrinks.
Proof. split; [by intros s k v|]. intros s1 s2 s3 H12 H23 k v Hv. by apply H12, H23. Qed.

Class RedisLaws `{RedisServer} : Prop := {
  redis_get_holds : forall k s v, (redis_get k s).1 = Ok v -> redis_holds s k v;
  redis_get_shrinks : forall k s, redis_shrinks s (redis_get k s).2;
  redis_set_ex_holds : forall k v ttl s k' v',
    redis_holds (redis_set_ex k v ttl s).2 k' v' -> redis_holds s k' v' \/ (k' = k /\ v' = v);
  redis_set_ex_ok : forall k v ttl s v',
    (redis_set_ex k v ttl s).1 = Ok tt -> redis_holds (redis_set_ex k v ttl s).2 k v' -> v' = v;
  redis_set_ex_zero : forall k v s,
    is_ok (redis_set_ex k v 0 s).1 = false /\ redis_shrinks s (redis_set_ex k v 0 s).2;
  redis_del_shrinks : forall k s, redis_shrinks s (redis_del k s).2;
  redis_del_ok : forall k s v, (redis_del k s).1 = Ok tt -> ~ redis_holds (redis_del k s).2 k v;
  redis_ping_shrinks : forall s, redis_shrinks s (redis_ping s).2;
}.

(** [redis_up s]: the connection is up, and every [DEL] is executed and acknowledged. *)
Class RedisUp `{RedisServer} : Type := {
  redis_up : RedisState -> Prop;
  up_get : forall k s, redis_up s -> redis_up (redis_get k s).2;
  up_set_ex : forall k v ttl s, redis_up s -> redis_up (redis_set_ex k v ttl s).2;
  up_del : forall k s, redis_up s -> (redis_del k s).1 = Ok tt /\ redis_up (redis_del k s).2;
  up_ping : forall s, redis_up s -> redis_up (redis_ping s).2;
}.

(** One [basic_publish]. *)
Record Publication : Type := MkPublication {
  p_exchange : string;
  p_routing_key : string;
  p_payload : string;
  p_content_type : string;
  p_delivery_mode : Z;
}.

Record LapinError : Type := MkLapinError { lapin_msg : string }.

(** RabbitMQ: what a publication and its confirmation do. *)
Class Broker : Type := {
  BrokerState : Type;
  amqp_publish : Publication -> BrokerState -> result unit LapinError * BrokerState;
}.

Record JoinError : Type := MkJoinError { join_msg : string }.
Record HttpResponse : Type := MkHttpResponse { http_status : Z; http_body : string }.
Record ReqwestError : Type := MkReqwestError { reqwest_msg : string }.

(** One [increment(1)] of a counter with its [status] label. *)
Record Counter : Type := MkCounter { counter_name : string; counter_status : string }.

(** ** Handles *)

(** The clones of the connection manager, of the channel and of the configuration's [Arc]
    that the state carries all point to the one server, broker and configuration. *)
Inductive ConnectionManager : Type := RedisConnection.
Inductive Channel : Type := AmqpChannel.
Inductive ConfigArc : Type := SharedConfig.

Record CacheLayer : Type := MkCacheLayer {
  cl_redis : option ConnectionManager;
  cl_config : option ConfigArc;
}.

Record AppState : Type := MkAppState {
  cache : CacheLayer;
  amqp_channel : option Channel;
}.

(** ** The world *)

Section world.
Context `{RedisServer} `{Broker}.

(** What the handlers of one process share, and what the environment will answer next. *)
Record World : Type := MkWorld {
  w_pg : Pg;
  w_redis : RedisState;
  w_config : AppConfig;
  w_limiter : Limiter;
  w_broker : BrokerState;
  w_utc : DateTime;
  w_instant : Instant;
  w_joins : list (option JoinError);
  w_http : list (result HttpResponse ReqwestError);
  w_counted : list Counter;
}.

Definition with_pg (x : Pg) (w : World) : World :=
  MkWorld x (w_redis w) (w_config w) (w_limiter w) (w_broker w) (w_utc w) (w_instant w)
    (w_joins w) (w_http w) (w_counted w).
Definition with_redis (x : RedisState) (w : World) : World :=
  MkWorld (w_pg w) x (w_config w) (w_limiter w) (w_broker w) (w_utc w) (w_instant w)
    (w_joins w) (w_http w) (w_counted w).
Definition with_config (x : AppConfig) (w : World) : World :=
  MkWorld (w_pg w) (w_redis w) x (w_limiter w) (w_broker w) (w_utc w) (w_instant w)
    (w_joins w) (w_http w) (w_counted w).
Definition with_limiter (x : Limiter) (w : World) : World :=
  MkWorld (w_pg w) (w_redis w) (w_config w) x (w_broker w) (w_utc w) (w_instant w)
    (w_joins w) (w_http w) (w_counted w).
Definition with_broker (x : BrokerState) (w : World) : World :=
  MkWorld (w_pg w) (w_redis w) (w_config w) (w_limiter w) x (w_utc w) (w_instant w)
    (w_joins w) (w_http w) (w_counted w).
Definition with_joins (x : list (option JoinError)) (w : World) : World :=
  MkWorld (w_pg w) (w_redis w) (w_config w) (w_limiter w) (w_broker w) (w_utc w)
    (w_instant w) x (w_http w) (w_counted w).
Definition with_http (x : list (result HttpResponse ReqwestError)) (w : World) : World :=
  MkWorld (w_pg w) (w_redis w) (w_config w) (w_limiter w) (w_broker w) (w_utc w)
    (w_instant w) (w_joins w) x (w_counted w).
Definition with_counted (x : list Counter) (w : World) : World :=
  MkWorld (w_pg w) (w_redis w) (w_config w) (w_limiter w) (w_broker w) (w_utc w)
    (w_instant w) (w_joins w) (w_http w) x.
End world.

(** ** The awaited calls *)

Inductive SEff : Type -> Type :=
  | Sql {R} (q : Stmt R) : SEff (result R SqlxError)
  | RedisGet (k : string) : SEff (result string RedisError)
  | RedisSetEx (k v : string) (ttl : Z) : SEff (result unit RedisError)
  | RedisDel (k : string) : SEff (result unit RedisError)
  | RedisPing : SEff (result string RedisError)
  | ReadConfig : SEff AppConfig
  | WriteConfig (f : AppConfig -> AppConfig) : SEff unit
  | RateCheck (tenant : Uuid) (c : RateLimitConfig) : SEff (result RateLimitInfo unit)
  | UtcNow : SEff DateTime
  | Publish (p : Publication) : SEff (result unit LapinError)
  | SpawnBlocking {R} (f : unit -> R) : SEff (result R JoinError)
  | HttpGet (url : string) : SEff (result HttpResponse ReqwestError)
  | IntervalTick (period : Z) : SEff unit
  | Increment (c : Counter) : SEff unit.

(** [state.config()]: a read guard on the shared configuration. *)
Definition config : Prog SEff AppConfig := perform ReadConfig.

(** [state.with_config_mut(f)] *)
Definition with_config_mut (f : AppConfig -> AppConfig) : Prog SEff unit :=
  perform (WriteConfig f).

(** [sqlx::query(..).fetch_one / fetch_optional / fetch_all / execute], with [?] turning
    the error into an [AppError]. *)
Definition query {R} (q : Stmt R) : Prog SEff (result R AppError) :=
  bind (perform (Sql q)) (fun r => Ret (map_err Database r)).

Section service.
Context `{Postgres} `{RedisServer} `{Broker}.

Definition service : Handler SEff World := fun X e w =>
  match e in SEff X return X * World with
  | Sql q => let '(r, db) := exec q (w_pg w) in (r, with_pg db w)
  | RedisGet k => let '(r, s) := redis_get k (w_redis w) in (r, with_redis s w)
  | RedisSetEx k v ttl =>
      let '(r, s) := redis_set_ex k v ttl (w_redis w) in (r, with_redis s w)
  | RedisDel k => let '(r, s) := redis_del k (w_redis w) in (r, with_redis s w)
  | RedisPing => let '(r, s) := redis_ping (w_redis w) in (r, with_redis s w)
  | ReadConfig => (w_config w, w)
  | WriteConfig f => (tt, with_config (f (w_config w)) w)
  | RateCheck t c =>
      let '(r, l) := check_and_increment (w_limiter w) t c (w_instant w) in
      (r, with_limiter l w)
  | UtcNow => (w_utc w, w)
  | Publish p => let '(r, b) := amqp_publish p (w_broker w) in (r, with_broker b w)
  | SpawnBlocking f =>
      (match w_joins w with Some e :: _ => Err e | _ => Ok (f tt) end,
       with_joins (tail (w_joins w)) w)
  | HttpGet _ =>
      (match w_http w with r :: _ => r | [] => Err {| reqwest_msg := "timeout" |} end,
       with_http (tail (w_http w)) w)
  | IntervalTick _ => (tt, w)
  | Increment c => (tt, with_counted (w_counted w ++ [c]) w)
  end.

(** A request served with no other request in flight. *)
Definition serve_alone {A} (p : Prog SEff A) (w : World) : A * World := run service p w.
End service.

(** ** Running one call *)

Section run.
Context `{Postgres} `{RedisServer} `{Broker}.

Lemma run_config (w : World) : run service config w = (w_config w, w).
Proof using Type. done. Qed.

Lemma run_query {R} (q : Stmt R) (w : World) :
  run service (query q) w =
  let '(r, db) := exec q (w_pg w) in (map_err Database r, with_pg db w).
Proof using Type.
  unfold query. rewrite run_bind, run_perform. cbn [service].
  by destruct (exec q (w_pg w)).
Qed.
End run.

#[export] Hint Rewrite @run_config @run_query : prog.

(** ** Reference servers *)

(** Redis as a map from keys to values with a deadline, a clock in seconds, and a schedule
    of commands that will fail ([true]: without being executed). *)
Module ReferenceRedis.
Record Store : Type := MkStore {
  entries : gmap string (string * Z);
  clock : Z;
  failing : list bool;
}.

Definition begin (s : Store) : bool * Store :=
  (match failing s with b :: _ => b | [] => false end,
   MkStore (entries s) (clock s) (tail (failing s))).

Definition live (s : Store) (k : string) : option string :=
  match entries s !! k with
  | Some (v, deadline) => if clock s <? deadline then Some v else None
  | None => None
  end.

Definition io_error : RedisError := {| redis_msg := "broken pipe" |}.
Definition nil_error : RedisError := {| redis_msg := "response type not string compatible" |}.
Definition expire_error : RedisError := {| redis_msg := "invalid expire time" |}.

Definition with_entries (m : gmap string (string * Z)) (s : Store) : Store :=
  MkStore m (clock s) (failing s).

Definition server : RedisServer := {|
  RedisState := Store;
  redis_get k s :=
    let '(f, s) := begin s in
    (if f then Err io_error else ok_or (live s k) nil_error, s);
  redis_set_ex k v ttl s :=
    let '(f, s) := begin s in
    if f then (Err io_error, s)
    else if ttl <=? 0 then (Err expire_error, s)
    else (Ok tt, with_entries (<[k := (v, clock s + ttl)]> (entries s)) s);
  redis_del k s :=
    let '(f, s) := begin s in
    if f then (Err io_error, s) else (Ok tt, with_entries (delete k (entries s)) s);
  redis_ping s := let '(f, s) := begin s in (if f then Err io_error else Ok "PONG", s);
  redis_holds s k v := live s k = Some v;
|}.

Lemma begin_live (s : Store) (k : string) : live (begin s).2 k = live s k.
Proof. done. Qed.

Lemma redis_server_laws : @RedisLaws server.
Proof.
  split; unfold redis_shrinks; cbn.
  - intros k s v. destruct (failing s) as [|[] ?]; cbn; [|done|];
      unfold ok_or; case_match; naive_solver.
  - done.
  - intros k v ttl s k' v'. unfold begin. cbn.
    destruct (match failing s with b :: _ => b | [] => false end); [auto|].
    destruct (Z.leb_spec ttl 0); [auto|]. cbn. unfold live. cbn.
    destruct (decide (k = k')) as [->|Hne]; [rewrite lookup_insert_eq|rewrite lookup_insert_ne by done; auto].
    rewrite (proj2 (Z.ltb_lt _ _)) by lia. naive_solver.
  - intros k v ttl s v'. unfold begin. cbn.
    destruct (match failing s with b :: _ => b | [] => false end); [done|].
    destruct (Z.leb_spec ttl 0); [done|]. cbn. intros _. unfold live. cbn.
    rewrite lookup_insert_eq. rewrite (proj2 (Z.ltb_lt _ _)) by lia. naive_solver.
  - intros k v s. unfold begin. cbn.
    by destruct (match failing s with b :: _ => b | [] => false end).
  - intros k s k' v'. unfold begin. cbn.
    destruct (match failing s with b :: _ => b | [] => false end); [done|]. cbn.
    unfold live. cbn. destruct (decide (k = k')) as [->|Hne].
    + by rewrite lookup_delete_eq.
    + by rewrite lookup_delete_ne.
  - intros k s v. unfold begin. cbn.
    destruct (match failing s with b :: _ => b | [] => false end); [done|]. cbn.
    intros _. unfold live. cbn. by rewrite lookup_delete_eq.
  - done.
Qed.

Definition empty : Store := MkStore ∅ 0 [].

(** No failure is scheduled. *)
Definition up : @RedisUp server.
Proof.
  refine {| redis_up (s : @RedisState server) := failing s = [] |}; cbn.
  - by intros k s ->.
  - intros k v ttl s Hs. unfold begin. rewrite Hs. by destruct (ttl <=? 0).
  - intros k s Hs. unfold begin. by rewrite Hs.
  - intros s Hs. unfold begin. by rewrite Hs.
Defined.
End ReferenceRedis.

(** A broker that keeps what it confirmed, and refuses while it is down. *)
Module ReferenceBroker.
Record Queue : Type := MkQueue { published : list Publication; up : bool }.
Definition broker : Broker := {|
  BrokerState := Queue;
  amqp_publish p q :=
    if up q then (Ok tt, MkQueue (published q ++ [p]) true)
    else (Err {| lapin_msg := "channel closed" |}, q);
|}.
End ReferenceBroker.

(** A world of reference servers: the given rows and cache, the sample configuration, no
    failures ahead, and both clocks at [now] microseconds. *)
Definition ref_world (rows : list Backup) (store : ReferenceRedis.Store) (now : DateTime)
    : @World ReferenceRedis.server ReferenceBroker.broker :=
  @MkWorld ReferenceRedis.server ReferenceBroker.broker
    (ReferenceDb.pg_of rows now) store sample_config ∅
    (ReferenceBroker.MkQueue [] true) now (now * 1000) [] [] [].

(** The state of a process that reached Redis and RabbitMQ at startup. *)
Definition ref_state : AppState :=
  {| cache := {| cl_redis := Some RedisConnection; cl_config := Some SharedConfig |};
     amqp_channel := Some AmqpChannel |}.
