(* ===== verification/Cache.v ===== *)
(** The Redis-backed cache ([cache.rs]): typed get, set and invalidate operations that
    degrade to doing nothing when Redis is not available. *)

From S2P Require Import Prelude Prog Models Errors SocketAddr Config RateLimit Db State.
Local Open Scope prog_scope.

Definition DEFAULT_CACHE_TTL_SECS : Z := 300.

(** The connection steps of [CacheLayer::new]: opening the client, getting a connection. *)
Definition new (opened connected : result unit RedisError) : CacheLayer :=
  {| cl_redis := match opened with
                 | Ok _ => match connected with Ok _ => Some RedisConnection | Err _ => None end
                 | Err _ => None
                 end;
     cl_config := Some SharedConfig |}.

Definition noop : CacheLayer := {| cl_redis := None; cl_config := None |}.

(** [fn cache_ttl_secs(&self)]: the configured TTL now, or the default without a config. *)
Definition ttl_secs (self : CacheLayer) : Prog SEff Z :=
  match cl_config self with
  | Some _ => c <- config ;; Ret (Config.cache_ttl_secs c)
  | None => Ret DEFAULT_CACHE_TTL_SECS
  end.

Definition ping (self : CacheLayer) : Prog SEff bool :=
  match cl_redis self with
  | None => Ret false
  | Some _ => r <- perform RedisPing ;; Ret (is_ok r)
  end.

Section operations.
Context `{UuidCrate} `{SerdeJson}.

(** The keys: [format!("backup:{id}")] and [format!("tenant_backups:{tenant_id}")]. *)
Definition backup_key (id : Uuid) : string := "backup:" +:+ uuid_to_string id.
Definition tenant_key (tenant : Uuid) : string := "tenant_backups:" +:+ uuid_to_string tenant.

Definition get_backup (self : CacheLayer) (id : Uuid) : Prog SEff (option Backup) :=
  match cl_redis self with
  | None => Ret None
  | Some _ =>
      r <- perform (RedisGet (backup_key id)) ;;
      Ret (json ← ok r; ok (backup_from_json json))
  end.

Definition set_backup (self : CacheLayer) (b : Backup) : Prog SEff unit :=
  match cl_redis self with
  | None => Ret tt
  | Some _ =>
      ttl <- ttl_secs self ;;
      match backup_to_json b with
      | Ok json => perform (RedisSetEx (backup_key (b_id b)) json ttl) ;;; Ret tt
      | Err _ => Ret tt
      end
  end.

Definition invalidate_backup (self : CacheLayer) (id : Uuid) : Prog SEff unit :=
  match cl_redis self with
  | None => Ret tt
  | Some _ => perform (RedisDel (backup_key id)) ;;; Ret tt
  end.

Definition get_tenant_backups (self : CacheLayer) (tenant : Uuid)
    : Prog SEff (option (list Backup * Z)) :=
  match cl_redis self with
  | None => Ret None
  | Some _ =>
      r <- perform (RedisGet (tenant_key tenant)) ;;
      Ret (json ← ok r; ok (page_from_json json))
  end.

Definition set_tenant_backups (self : CacheLayer) (tenant : Uuid) (items : list Backup)
    (total : Z) : Prog SEff unit :=
  match cl_redis self with
  | None => Ret tt
  | Some _ =>
      ttl <- ttl_secs self ;;
      match page_to_json (items, total) with
      | Ok json => perform (RedisSetEx (tenant_key tenant) json ttl) ;;; Ret tt
      | Err _ => Ret tt
      end
  end.

Definition invalidate_tenant_backups (self : CacheLayer) (tenant : Uuid) : Prog SEff unit :=
  match cl_redis self with
  | None => Ret tt
  | Some _ => perform (RedisDel (tenant_key tenant)) ;;; Ret tt
  end.

(** ** Keys *)

Lemma backup_key_inj `{!UuidLaws} (a b : Uuid) : backup_key a = backup_key b -> a = b.
Proof using Type. unfold backup_key. intros [= Hab]. by apply (inj uuid_to_string). Qed.

Lemma tenant_key_inj `{!UuidLaws} (a b : Uuid) : tenant_key a = tenant_key b -> a = b.
Proof using Type. unfold tenant_key. intros [= Hab]. by apply (inj uuid_to_string). Qed.

Lemma keys_disjoint (a b : Uuid) : backup_key a <> tenant_key b.
Proof using Type. done. Qed.
End operations.

Create Rewrite HintDb world.

(** ** What the operations do to the world *)

Section run.
Context `{UuidCrate} `{SerdeJson} `{Postgres} `{RedisServer} `{Broker}.

(** The TTL an operation uses. *)
Definition ttl_now (self : CacheLayer) (w : World) : Z :=
  match cl_config self with
  | Some _ => Config.cache_ttl_secs (w_config w)
  | None => DEFAULT_CACHE_TTL_SECS
  end.

(** A [DEL] when Redis is there. *)
Definition del_effect (self : CacheLayer) (k : string) (w : World) : World :=
  match cl_redis self with
  | Some _ => with_redis (redis_del k (w_redis w)).2 w
  | None => w
  end.

(** A [SET EX] of a serialized value when Redis is there. *)
Definition set_effect (self : CacheLayer) (k : string) (json : result string SerdeError)
    (w : World) : World :=
  match cl_redis self, json with
  | Some _, Ok v => with_redis (redis_set_ex k v (ttl_now self w) (w_redis w)).2 w
  | _, _ => w
  end.

Lemma run_ttl_secs (self : CacheLayer) (w : World) :
  run service (ttl_secs self) w = (ttl_now self w, w).
Proof using Type. unfold ttl_secs, ttl_now. by destruct (cl_config self). Qed.

Lemma run_get_backup (self : CacheLayer) (id : Uuid) (w : World) :
  run service (get_backup self id) w =
  match cl_redis self with
  | None => (None, w)
  | Some _ =>
      let '(r, s) := redis_get (backup_key id) (w_redis w) in
      ((json ← ok r; ok (backup_from_json json)), with_redis s w)
  end.
Proof using Type.
  unfold get_backup. destruct (cl_redis self); [|done].
  rewrite run_bind, run_perform. cbn [service]. by destruct (redis_get _ _).
Qed.

Lemma run_get_tenant_backups (self : CacheLayer) (t : Uuid) (w : World) :
  run service (get_tenant_backups self t) w =
  match cl_redis self with
  | None => (None, w)
  | Some _ =>
      let '(r, s) := redis_get (tenant_key t) (w_redis w) in
      ((json ← ok r; ok (page_from_json json)), with_redis s w)
  end.
Proof using Type.
  unfold get_tenant_backups. destruct (cl_redis self); [|done].
  rewrite run_bind, run_perform. cbn [service]. by destruct (redis_get _ _).
Qed.

Lemma run_set_backup (self : CacheLayer) (b : Backup) (w : World) :
  run service (set_backup self b) w =
  (tt, set_effect self (backup_key (b_id b)) (backup_to_json b) w).
Proof using Type.
  unfold set_backup, set_effect. destruct (cl_redis self); [|done].
  rewrite run_bind, run_ttl_secs. destruct (backup_to_json b); [|done].
  rewrite run_bind, run_perform. cbn [service]. by destruct (redis_set_ex _ _ _ _).
Qed.

Lemma run_set_tenant_backups (self : CacheLayer) (t : Uuid) (l : list Backup) (n : Z)
    (w : World) :
  run service (set_tenant_backups self t l n) w =
  (tt, set_effect self (tenant_key t) (page_to_json (l, n)) w).
Proof using Type.
  unfold set_tenant_backups, set_effect. destruct (cl_redis self); [|done].
  rewrite run_bind, run_ttl_secs. destruct (page_to_json (l, n)); [|done].
  rewrite run_bind, run_perform. cbn [service]. by destruct (redis_set_ex _ _ _ _).
Qed.

Lemma run_invalidate_backup (self : CacheLayer) (id : Uuid) (w : World) :
  run service (invalidate_backup self id) w = (tt, del_effect self (backup_key id) w).
Proof using Type.
  unfold invalidate_backup, del_effect. destruct (cl_redis self); [|done].
  rewrite run_bind, run_perform. cbn [service]. by destruct (redis_del _ _).
Qed.

Lemma run_invalidate_tenant_backups (self : CacheLayer) (t : Uuid) (w : World) :
  run service (invalidate_tenant_backups self t) w = (tt, del_effect self (tenant_key t) w).
Proof using Type.
  unfold invalidate_tenant_backups, del_effect. destruct (cl_redis self); [|done].
  rewrite run_bind, run_perform. cbn [service]. by destruct (redis_del _ _).
Qed.

Lemma del_effect_pg (self : CacheLayer) (k : string) (w : World) :
  w_pg (del_effect self k w) = w_pg w.
Proof using Type. unfold del_effect. by destruct (cl_redis self). Qed.

Lemma set_effect_pg (self : CacheLayer) (k : string) (j : result string SerdeError) (w : World) :
  w_pg (set_effect self k j w) = w_pg w.
Proof using Type. unfold set_effect. by destruct (cl_redis self), j. Qed.

Lemma del_effect_config (self : CacheLayer) (k : string) (w : World) :
  w_config (del_effect self k w) = w_config w.
Proof using Type. unfold del_effect. by destruct (cl_redis self). Qed.

Lemma set_effect_config (self : CacheLayer) (k : string) (j : result string SerdeError)
    (w : World) : w_config (set_effect self k j w) = w_config w.
Proof using Type. unfold set_effect. by destruct (cl_redis self), j. Qed.

(** A Redis command that changes nothing but its own key's value. *)
Lemma del_effect_shrinks `{!RedisLaws} (self : CacheLayer) (k : string) (w : World) :
  redis_shrinks (w_redis w) (w_redis (del_effect self k w)).
Proof using Type.
  unfold del_effect. destruct (cl_redis self); [apply redis_del_shrinks|by intros k' v].
Qed.
End run.

#[export] Hint Rewrite @run_ttl_secs @run_get_backup @run_get_tenant_backups @run_set_backup
  @run_set_tenant_backups @run_invalidate_backup @run_invalidate_tenant_backups : prog.
#[export] Hint Rewrite @del_effect_pg @set_effect_pg @del_effect_config @set_effect_config
  : world.
