(* ===== verification/Auth.v ===== *)
(** Tokens ([middleware/auth.rs]) and login ([handlers/auth.rs]): creation and verification
    of a JWT, the middleware that admits a request with a valid bearer token, and the
    demonstration login. *)

From S2P Require Import Prelude Codec Prog Models Errors SocketAddr Config RateLimit Db State.
Local Open Scope prog_scope.

(** ** The crates *)

(** [jsonwebtoken]: [encode] with the default header, and [decode] with the default
    validation at a time given in seconds. *)
Class JsonWebToken : Type := {
  jwt_encode : Claims -> string -> result string JwtError;
  jwt_decode : string -> string -> Z -> result Claims JwtError;
}.

(** The default validation's tolerance on [exp], in seconds. *)
Definition leeway : Z := 60.

(** A token made with a secret is accepted under that secret until [exp] plus the leeway,
    with its claims, and refused after that. *)
Class JwtLaws `{JsonWebToken} : Prop := {
  jwt_roundtrip : forall c secret t now,
    jwt_encode c secret = Ok t -> now - leeway <= c_exp c -> jwt_decode t secret now = Ok c;
  jwt_expired : forall c secret t now,
    jwt_encode c secret = Ok t -> c_exp c < now - leeway ->
    is_ok (jwt_decode t secret now) = false;
}.

(** [HeaderValue::to_str] of the [http] crate. *)
Class HeaderValues : Type := { header_to_str : string -> option string }.

(** ** Requests *)

Inductive Method : Type := GET | POST | PATCH | DELETE | HEAD | OPTIONS | OtherMethod (name : string).

(** The registered paths, with the text of their parameter, and the other paths. *)
Inductive Route : Type :=
  | BackupsRoute
  | BackupRoute (id : string)
  | AnalyzeRoute (id : string)
  | ProcessRoute (id : string)
  | HealthRoute
  | ReadyRoute
  | LoginRoute
  | OtherRoute (path : string).

Record Request : Type := MkRequest {
  rq_method : Method;
  rq_route : Route;
  rq_headers : list (string * string);
  rq_query : string;
  rq_body : string;
  rq_claims : option Claims;
}.

(** [request.extensions_mut().insert(claims)] *)
Definition insert_claims (c : Claims) (r : Request) : Request :=
  {| rq_method := rq_method r; rq_route := rq_route r; rq_headers := rq_headers r;
     rq_query := rq_query r; rq_body := rq_body r; rq_claims := Some c |}.

(** ** Tokens *)

(** [DateTime::timestamp]: whole seconds since the epoch. *)
Definition timestamp (t : DateTime) : Z := t / 1000000.

(** [Duration::hours] *)
Definition hours (n : Z) : Z := n * 3600 * 1000000.

(** [as usize] on an [i64] *)
Definition as_usize (z : Z) : Z := z mod 2 ^ 64.

Section tokens.
Context `{JsonWebToken}.

Definition claims_at (now : DateTime) (user_id : string) (tenant : Uuid) (roles : list string)
    : Claims :=
  {| c_sub := user_id;
     c_tenant_id := tenant;
     c_roles := roles;
     c_exp := as_usize (timestamp (now + hours 24));
     c_iat := as_usize (timestamp now) |}.

Definition create_token (user_id : string) (tenant : Uuid) (roles : list string)
    (secret : string) : Prog SEff (result string AppError) :=
  now <- perform UtcNow ;;
  Ret (map_err Jwt (jwt_encode (claims_at now user_id tenant roles) secret)).

Definition verify_token (token secret : string) : Prog SEff (result Claims AppError) :=
  now <- perform UtcNow ;;
  Ret (map_err Jwt (jwt_decode token secret (timestamp now))).
End tokens.

(** ** Middleware *)

Section middleware.
Context `{JsonWebToken} `{HeaderValues}.

(** The text after ["Bearer "] in the [Authorization] header. *)
Definition bearer_token (r : Request) : option string :=
  v ← assoc "Authorization" (rq_headers r); s ← header_to_str v; strip_prefix "Bearer " s.

Definition auth_middleware (request : Request)
    (next : Request -> Prog SEff Response) : Prog SEff (result Response AppError) :=
  cfg <- config ;;
  let secret := jwt_secret cfg in
  token <-! ok_or (bearer_token request)
              (Unauthorized "missing or invalid Authorization header") ;;
  claims <-? verify_token token secret ;;
  resp <- next (insert_claims claims request) ;;
  Ret (Ok resp).
End middleware.

(** ** Login *)

Record LoginRequest : Type := MkLoginRequest { username : string; password : string }.

(** [uuid::Uuid::parse_str("00000000-0000-0000-0000-000000000001").unwrap()] *)
Definition demo_tenant : Uuid := uuid_of 1.

(** The [match] on the credentials. *)
Definition credentials (user pass : string) : option (Uuid * list string) :=
  if String.eqb user "admin" && String.eqb pass "admin" then
    Some (demo_tenant, ["admin"; "user"])
  else if String.eqb user "user" && String.eqb pass "user" then
    Some (demo_tenant, ["user"])
  else None.

Section login.
Context `{JsonWebToken}.

Definition login (req : LoginRequest) : Prog SEff (result LoginResponse AppError) :=
  tr <-! ok_or (credentials (username req) (password req))
           (Unauthorized "invalid credentials") ;;
  let '(tenant, roles) := tr in
  cfg <- config ;;
  token <-? create_token (username req) tenant roles (jwt_secret cfg) ;;
  Ret (Ok {| token := token; token_type := "Bearer"; expires_in := 86400 |}).
End login.

(** ** What the middleware guarantees *)

Section auth_properties.
Context `{Postgres} `{RedisServer} `{Broker} `{JsonWebToken} `{HeaderValues}.

(** The claims the middleware accepts in a world: the bearer token's, when it decodes under
    the configured secret at the current time. *)
Definition accepted_claims (w : World) (r : Request) : option Claims :=
  t ← bearer_token r; ok (jwt_decode t (jwt_secret (w_config w)) (timestamp (w_utc w))).

Lemma auth_middleware_run (w : World) (r : Request) (next : Request -> Prog SEff Response) :
  run service (auth_middleware r next) w =
  match bearer_token r with
  | None => (Err (Unauthorized "missing or invalid Authorization header"), w)
  | Some t =>
      match jwt_decode t (jwt_secret (w_config w)) (timestamp (w_utc w)) with
      | Err e => (Err (Jwt e), w)
      | Ok c => let '(resp, w') := run service (next (insert_claims c r)) w in (Ok resp, w')
      end
  end.
Proof using Type.
  unfold auth_middleware, config, perform. cbn [bind run service].
  destruct (bearer_token r) as [t|]; [|done]. cbn [ok_or try_pure].
  unfold verify_token, perform, try_bind. cbn [bind run service].
  destruct (jwt_decode _ _ _) as [c|e]; [|done]. cbn [map_err]. rewrite run_bind.
  by destruct (run service (next _) w).
Qed.

(** The authentication middleware runs the rest of the stack exactly when the request
    carries a bearer token that decodes under the current secret at the current time, and
    then with that token's claims attached; every other request is answered 401 and
    changes nothing. *)
Theorem auth_gate (w : World) (r : Request) (next : Request -> Prog SEff Response) :
  match accepted_claims w r with
  | Some c =>
      run service (auth_middleware r next) w =
      let '(resp, w') := run service (next (insert_claims c r)) w in (Ok resp, w')
  | None =>
      exists e, run service (auth_middleware r next) w = (Err e, w)
                /\ status (into_response e) = UNAUTHORIZED
  end.
Proof using Type.
  rewrite auth_middleware_run. unfold accepted_claims.
  destruct (bearer_token r) as [t|]; cbn; [|by eexists].
  destruct (jwt_decode _ _ _) as [c|e]; cbn; [done|by eexists].
Qed.

Lemma timestamp_24h (t : DateTime) : timestamp (t + hours 24) = timestamp t + 86400.
Proof using Type.
  unfold timestamp, hours. replace (24 * 3600 * 1000000) with (86400 * 1000000) by lia.
  by rewrite Z.div_add by lia.
Qed.

(** The clock of a machine whose dates fit chrono's seconds. *)
Definition clock_ok (t : DateTime) : Prop := 0 <= timestamp t /\ timestamp t + 86400 <= i64_max.

Lemma claims_at_times (now : DateTime) (u : string) (t : Uuid) (roles : list string) :
  clock_ok now ->
  c_iat (claims_at now u t roles) = timestamp now
  /\ c_exp (claims_at now u t roles) = timestamp now + 86400.
Proof using Type.
  unfold clock_ok, i64_max. intros [Hlo Hhi]. cbn [c_iat c_exp claims_at].
  rewrite timestamp_24h. unfold as_usize. by rewrite !Z.mod_small by lia.
Qed.

Lemma login_run (w : World) (req : LoginRequest) :
  run service (login req) w =
  (match credentials (username req) (password req) with
   | None => Err (Unauthorized "invalid credentials")
   | Some (tenant, roles) =>
       match jwt_encode (claims_at (w_utc w) (username req) tenant roles)
               (jwt_secret (w_config w)) with
       | Ok t => Ok {| token := t; token_type := "Bearer"; expires_in := 86400 |}
       | Err e => Err (Jwt e)
       end
   end, w).
Proof using Type.
  unfold login. destruct (credentials _ _) as [[tenant roles]|]; [|done].
  cbn [ok_or try_pure]. unfold config, create_token, perform, try_bind.
  cbn [bind run service]. by destruct (jwt_encode _ _).
Qed.

Lemma verify_token_run (t secret : string) (w : World) :
  run service (verify_token t secret) w =
  (map_err Jwt (jwt_decode t secret (timestamp (w_utc w))), w).
Proof using Type. done. Qed.

(** The accounts of the demonstration, with their roles. *)
Inductive account : string -> string -> list string -> Prop :=
  | admin_account : account "admin" "admin" ["admin"; "user"]
  | user_account : account "user" "user" ["user"].

Lemma credentials_account (user pass : string) :
  match credentials user pass with
  | Some (tenant, roles) => tenant = demo_tenant /\ account user pass roles
  | None => forall roles, ~ account user pass roles
  end.
Proof using Type.
  unfold credentials.
  destruct (String.eqb_spec user "admin"), (String.eqb_spec pass "admin"),
    (String.eqb_spec user "user"), (String.eqb_spec pass "user"); subst; cbn [andb];
    first [done | by split; [done|apply admin_account] | by split; [done|apply user_account]
          | by inversion 1].
Qed.

(** The request presents the token as its bearer token. *)
Definition presents (r : Request) (token : string) : Prop :=
  exists v, assoc "Authorization" (rq_headers r) = Some v
            /\ header_to_str v = Some ("Bearer " +:+ token).

Lemma presents_bearer (r : Request) (t : string) : presents r t -> bearer_token r = Some t.
Proof using Type.
  intros (v & Hv & Hs). unfold bearer_token. rewrite Hv. cbn [mbind option_bind].
  rewrite Hs. cbn [mbind option_bind]. by apply strip_prefix_spec.
Qed.

(** C28. Login and the verification of tokens fit together.  Login answers with a token
    exactly for the accounts of the demonstration (unless the library fails to encode), and
    changes no state.  The token says who logged in, with the account's tenant and roles, the
    time of the login and the promised 24 hours; presented as a bearer token under the same
    secret, it is verified to exactly these claims, and the middleware runs the rest of the
    stack with them, up to [expires_in] plus the library's leeway later; after that the
    verification fails and the middleware answers 401 without running the rest. *)
Theorem login_token_lifetime `{!JwtLaws} (w w2 : World) (req : LoginRequest) (r : Request)
    (next : Request -> Prog SEff Response) :
  clock_ok (w_utc w) -> jwt_secret (w_config w2) = jwt_secret (w_config w) ->
  let '(res, w1) := run service (login req) w in
  w1 = w
  /\ match res with
     | Err e =>
         status (into_response e) = UNAUTHORIZED
         /\ ((exists je, e = Jwt je) \/ forall roles, ~ account (username req) (password req) roles)
     | Ok l =>
         exists roles, account (username req) (password req) roles
         /\ token_type l = "Bearer" /\ expires_in l = 24 * 3600
         /\ let now := timestamp (w_utc w) in
            let c := MkClaims (username req) demo_tenant roles (now + expires_in l) now in
            let verified := run service (verify_token (token l) (jwt_secret (w_config w2))) w2 in
            let answered := run service (auth_middleware r next) w2 in
            if timestamp (w_utc w2) - leeway <=? now + expires_in l
            then verified = (Ok c, w2)
                 /\ (presents r (token l) ->
                     answered = let '(resp, w3) := run service (next (insert_claims c r)) w2 in
                                (Ok resp, w3))
            else exists e, verified = (Err e, w2) /\ status (into_response e) = UNAUTHORIZED
                 /\ (presents r (token l) -> answered = (Err e, w2))
     end.
Proof using Type.
  intros Hclock Hs. rewrite login_run. split; [done|].
  pose proof (credentials_account (username req) (password req)) as Hacc.
  destruct (credentials _ _) as [[tenant roles]|]; [|by split; [|right]].
  destruct Hacc as [-> Hacc]. destruct (jwt_encode _ _) as [t|e] eqn:Ej; [|by split; [|left; exists e]].
  exists roles. split; [done|]. split; [done|]. split; [done|]. cbv zeta. cbn [token expires_in].
  destruct (claims_at_times (w_utc w) (username req) demo_tenant roles Hclock) as [Hiat Hexp].
  assert (Hc : claims_at (w_utc w) (username req) demo_tenant roles
    = MkClaims (username req) demo_tenant roles (timestamp (w_utc w) + 86400) (timestamp (w_utc w)))
    by (rewrite <-Hexp, <-Hiat at 1; done).
  rewrite Hc in Ej. rewrite verify_token_run, auth_middleware_run, Hs.
  destruct (Z.leb_spec (timestamp (w_utc w2) - leeway) (timestamp (w_utc w) + 86400)) as [Hle|Hlt].
  - rewrite (jwt_roundtrip _ _ _ (timestamp (w_utc w2)) Ej) by (cbn; lia). split; [done|].
    intros Hb%presents_bearer. rewrite Hb.
    by rewrite (jwt_roundtrip _ _ _ (timestamp (w_utc w2)) Ej) by (cbn; lia).
  - pose proof (jwt_expired _ _ _ (timestamp (w_utc w2)) Ej ltac:(cbn; lia)) as Hx.
    destruct (jwt_decode t _ _) as [c'|je] eqn:Ed; [done|]. exists (Jwt je).
    split; [done|]. split; [done|]. intros Hb%presents_bearer. by rewrite Hb, Ed.
Qed.
End auth_properties.

(** ** A reference token library *)

Module ReferenceJwt.
Definition expired : JwtError := {| jwt_msg := "ExpiredSignature" |}.
Definition invalid : JwtError := {| jwt_msg := "InvalidToken" |}.

(** The token is the claims sealed with the secret. *)
Definition library : JsonWebToken := {|
  jwt_encode c secret := Ok (encode_text (c, secret));
  jwt_decode t secret now :=
    match decode_text t with
    | Some (c, s) =>
        if negb (String.eqb s secret) then Err invalid
        else if c_exp c <? now - leeway then Err expired
        else Ok c
    | None => Err invalid
    end;
|}.

Lemma library_laws : @JwtLaws library.
Proof.
  split; cbn; intros c secret t now [= <-] Hexp; rewrite decode_encode_text, String.eqb_refl;
    cbn [negb].
  - by rewrite (proj2 (Z.ltb_ge _ _)) by lia.
  - by rewrite (proj2 (Z.ltb_lt _ _)) by lia.
Qed.

(** Header values that are plain text. *)
Definition headers : HeaderValues := {| header_to_str v := Some v |}.
End ReferenceJwt.

Definition bearer_request (t : string) : Request :=
  {| rq_method := GET; rq_route := BackupsRoute;
     rq_headers := [("Authorization", "Bearer " +:+ t)];
     rq_query := ""; rq_body := ""; rq_claims := None |}.

#[local] Existing Instance ReferenceDb.server.
#[local] Existing Instance ReferenceJwt.library.
#[local] Existing Instance ReferenceJwt.library_laws.
#[local] Existing Instance ReferenceJwt.headers.

(** Logged in at second 1000, used one day and one minute later, and one second after that. *)
Lemma login_token_lifetime_witness :
  let at_second n := ref_world [] ReferenceRedis.empty (n * 1000000) in
  let '(res, _) := run service (login (MkLoginRequest "user" "user")) (at_second 1000) in
  exists l, res = Ok l
    /\ (run service (verify_token (token l) "secret") (at_second 87460)).1
       = Ok (MkClaims "user" demo_tenant ["user"] 87400 1000)
    /\ is_ok (run service (auth_middleware (bearer_request (token l))
                 (fun _ => Ret (MkResponse 200 [] NoBody))) (at_second 87461)).1 = false.
Proof.
  intros at_second.
  set (next := fun _ : Request => Ret (MkResponse 200 [] NoBody) : Prog SEff Response).
  set (t := encode_text (MkClaims "user" demo_tenant ["user"] 87400 1000, "secret")).
  assert (Hc : clock_ok (w_utc (at_second 1000))) by (by vm_compute).
  pose proof (login_token_lifetime (at_second 1000) (at_second 87460)
    (MkLoginRequest "user" "user") (bearer_request t) next Hc eq_refl) as H1.
  pose proof (login_token_lifetime (at_second 1000) (at_second 87461)
    (MkLoginRequest "user" "user") (bearer_request t) next Hc eq_refl) as H2.
  assert (E : run service (login (MkLoginRequest "user" "user")) (at_second 1000)
              = (Ok (MkLoginResponse t "Bearer" 86400), at_second 1000))
    by (rewrite login_run; reflexivity).
  rewrite E in *. destruct H1 as (_ & roles & Hr & _ & _ & H1), H2 as (_ & roles' & _ & _ & _ & H2).
  exists (MkLoginResponse t "Bearer" 86400). split; [reflexivity|]. split.
  - inversion Hr; subst. destruct H1 as [H1 _]. exact (f_equal fst H1).
  - destruct H2 as (e & _ & _ & H2). cbv zeta in H2. fold next. cbn [token] in *. rewrite H2; [reflexivity|].
    by exists ("Bearer " +:+ t).
Defined.
