(* ===== verification/Jobs.v ===== *)
(** The RabbitMQ side shared by both binaries ([backup-common/src/worker.rs]): the job
    message, the topology declared on connection, and the publication of a job. *)

From S2P Require Import Prelude Codec Prog Models Errors State.
Local Open Scope prog_scope.

Definition EXCHANGE_NAME : string := "backup_events".
Definition QUEUE_NAME : string := "backup_jobs".
Definition ROUTING_KEY : string := "backup.process".

Record BackupJob : Type := MkBackupJob {
  j_backup_id : Uuid;
  j_tenant_id : Uuid;
  j_source_path : string;
  j_encryption_enabled : bool;
}.

(** [serde_json] on jobs.  Serialization cannot fail on this type (strings, a boolean and
    identifiers), which the source states with [expect]. *)
Class JobJson : Type := {
  job_to_json : BackupJob -> string;
  job_from_json : string -> result BackupJob SerdeError;
}.
Class JobJsonLaws `{JobJson} : Prop := {
  job_json_roundtrip : forall j, job_from_json (job_to_json j) = Ok j;
}.

(** ** Connecting *)

(** [lapin::ExchangeKind] *)
Inductive ExchangeKind : Type := Direct | Fanout | Headers | Topic | CustomKind (name : string).

(** The calls of [connect_rabbitmq] on the client library. *)
Inductive AmqpEff : Type -> Type :=
  | Connect (url : string) : AmqpEff (result unit LapinError)
  | CreateChannel : AmqpEff (result Channel LapinError)
  | ExchangeDeclare (name : string) (kind : ExchangeKind) (durable : bool)
      : AmqpEff (result unit LapinError)
  | QueueDeclare (name : string) (durable : bool) : AmqpEff (result unit LapinError)
  | QueueBind (queue exchange routing_key : string) : AmqpEff (result unit LapinError).

Definition connect_rabbitmq (amqp_url : string) : Prog AmqpEff (result Channel LapinError) :=
  _ <-? perform (Connect amqp_url) ;;
  channel <-? perform CreateChannel ;;
  _ <-? perform (ExchangeDeclare EXCHANGE_NAME Direct true) ;;
  _ <-? perform (QueueDeclare QUEUE_NAME true) ;;
  _ <-? perform (QueueBind QUEUE_NAME EXCHANGE_NAME ROUTING_KEY) ;;
  Ret (Ok channel).

Definition create_channel : Prog AmqpEff (result Channel LapinError) := perform CreateChannel.

(** ** Publishing *)

Definition job_publication `{JobJson} (job : BackupJob) : Publication :=
  {| p_exchange := EXCHANGE_NAME;
     p_routing_key := ROUTING_KEY;
     p_payload := job_to_json job;
     p_content_type := "application/json";
     p_delivery_mode := 2 |}.

Definition publish_job `{JobJson} (channel : Channel) (job : BackupJob)
    : Prog SEff (result unit LapinError) :=
  _ <-? perform (Publish (job_publication job)) ;;
  Ret (Ok tt).

(** ** The broker

    What RabbitMQ makes of the declarations and of a publication, in any state and with any
    failures: its exchanges with their kind and durability, its queues with their durability,
    the bindings, and the queues to which it delivers a message of an exchange and a key. *)

Class AmqpServer : Type := {
  AmqpState : Type;
  amqp_call : Handler AmqpEff AmqpState;
  exchange_of : AmqpState -> string -> option (ExchangeKind * bool);
  queue_of : AmqpState -> string -> option bool;
  bound : AmqpState -> string -> string -> string -> Prop;
  delivers : AmqpState -> string -> string -> list string;
}.

(** Nothing that is declared or bound goes away. *)
Definition amqp_keeps `{AmqpServer} (s s' : AmqpState) : Prop :=
  (forall n x, exchange_of s n = Some x -> exchange_of s' n = Some x)
  /\ (forall n d, queue_of s n = Some d -> queue_of s' n = Some d)
  /\ (forall q e k, bound s q e k -> bound s' q e k).

(** AMQP 0-9-1: a declaration that is answered with OK leaves an exchange or a queue with the
    declared properties (one that exists with others is a channel error), a binding is there
    after its OK, only [queue.bind] makes bindings, and a direct exchange delivers a message
    once to each queue bound with its key. *)
Class AmqpLaws `{AmqpServer} : Prop := {
  amqp_call_keeps : forall X (e : AmqpEff X) s, amqp_keeps s (amqp_call X e s).2;
  exchange_declare_ok : forall n k d s,
    (amqp_call _ (ExchangeDeclare n k d) s).1 = Ok tt ->
    exchange_of (amqp_call _ (ExchangeDeclare n k d) s).2 n = Some (k, d);
  queue_declare_ok : forall n d s,
    (amqp_call _ (QueueDeclare n d) s).1 = Ok tt ->
    queue_of (amqp_call _ (QueueDeclare n d) s).2 n = Some d;
  queue_bind_ok : forall q e k s,
    (amqp_call _ (QueueBind q e k) s).1 = Ok tt -> bound (amqp_call _ (QueueBind q e k) s).2 q e k;
  bindings_made : forall X (c : AmqpEff X) s q e k,
    bound (amqp_call X c s).2 q e k ->
    bound s q e k \/ match c with QueueBind q' e' k' => (q', e', k') = (q, e, k) | _ => False end;
  direct_delivers : forall s e d k q,
    exchange_of s e = Some (Direct, d) -> q ∈ delivers s e k <-> bound s q e k;
  delivers_once : forall s e k, NoDup (delivers s e k);
}.

Section broker.
Context `{AmqpServer} `{!AmqpLaws}.

#[global] Instance amqp_keeps_preorder : PreOrder amqp_keeps.
Proof using Type.
  split; [intros s; unfold amqp_keeps; by split_and!|]. intros s1 s2 s3 (H1 & H2 & H3) (H1' & H2' & H3').
  split_and!; eauto.
Qed.

Lemma run_amqp_keeps {A} (p : Prog AmqpEff A) (s : AmqpState) :
  amqp_keeps s (run amqp_call p s).2.
Proof using Type*.
  revert s. induction p as [a|X e k IH]; intros s; cbn [run]; [done|].
  pose proof (amqp_call_keeps X e s) as Hk. destruct (amqp_call X e s) as [x s1].
  etrans; [exact Hk|apply IH].
Qed.

(** What [connect_rabbitmq] declares. *)
Definition topology_declared (s : AmqpState) : Prop :=
  exchange_of s EXCHANGE_NAME = Some (Direct, true)
  /\ queue_of s QUEUE_NAME = Some true
  /\ bound s QUEUE_NAME EXCHANGE_NAME ROUTING_KEY.

Lemma topology_kept (s s' : AmqpState) :
  amqp_keeps s s' -> topology_declared s -> topology_declared s'.
Proof using Type. intros (He & Hq & Hb) (? & ? & ?). split_and!; auto. Qed.

(** The bindings of the exchange under the key, besides the one of the queue. *)
Definition only_job_binding (s s' : AmqpState) : Prop :=
  forall q, bound s' q EXCHANGE_NAME ROUTING_KEY ->
  bound s q EXCHANGE_NAME ROUTING_KEY \/ q = QUEUE_NAME.

(** A program that makes no binding but the one of the queue. *)
Fixpoint binds_job_queue {A} (p : Prog AmqpEff A) : Prop :=
  match p with
  | Ret _ => True
  | Vis c k =>
      match c with
      | QueueBind q e key => (q, e, key) = (QUEUE_NAME, EXCHANGE_NAME, ROUTING_KEY)
      | _ => True
      end /\ forall x, binds_job_queue (k x)
  end.

Lemma binds_job_queue_run {A} (p : Prog AmqpEff A) (s : AmqpState) :
  binds_job_queue p -> only_job_binding s (run amqp_call p s).2.
Proof using Type*.
  revert s. induction p as [a|X c k IH]; intros s Hp q Hq; cbn [run] in Hq; [by left|].
  destruct Hp as [Hc Hk]. pose proof (bindings_made X c s q EXCHANGE_NAME ROUTING_KEY) as Hm.
  destruct (amqp_call X c s) as [x s1]. cbn [snd] in Hm.
  destruct (IH x s1 (Hk x) q Hq) as [Hb|?]; [|by right].
  destruct (Hm Hb) as [?|Hn]; [by left|]. destruct c; try done. right. congruence.
Qed.

Lemma connect_binds (url : string) : binds_job_queue (connect_rabbitmq url).
Proof using Type.
  unfold connect_rabbitmq, perform, try_bind. cbn [bind].
  by repeat first [split; [done|intros [?|?]; cbn [bind]]|done].
Qed.

Lemma connect_declares (url : string) (s : AmqpState) :
  let '(r, s') := run amqp_call (connect_rabbitmq url) s in
  amqp_keeps s s' /\ only_job_binding s s' /\ (is_ok r = true -> topology_declared s').
Proof using Type*.
  pose proof (run_amqp_keeps (connect_rabbitmq url) s) as Hkeeps.
  pose proof (binds_job_queue_run _ s (connect_binds url)) as Hbind.
  destruct (run amqp_call (connect_rabbitmq url) s) as [r s'] eqn:Hrun.
  split; [done|]. split; [done|]. clear Hkeeps Hbind. revert Hrun.
  unfold connect_rabbitmq, perform, try_bind. cbn [bind run].
  destruct (amqp_call _ (Connect url) s) as [[[]|e] s1]; cbn [bind run]; [|by intros [= <- _]].
  destruct (amqp_call _ CreateChannel s1) as [[ch|e] s2]; cbn [bind run]; [|by intros [= <- _]].
  pose proof (exchange_declare_ok EXCHANGE_NAME Direct true s2) as He.
  destruct (amqp_call _ (ExchangeDeclare _ _ _) s2) as [[[]|e] s3]; cbn [bind run];
    [|by intros [= <- _]].
  pose proof (queue_declare_ok QUEUE_NAME true s3) as Hq.
  pose proof (amqp_call_keeps _ (QueueDeclare QUEUE_NAME true) s3) as Hk3.
  destruct (amqp_call _ (QueueDeclare _ _) s3) as [[[]|e] s4]; cbn [bind run];
    [|by intros [= <- _]].
  pose proof (queue_bind_ok QUEUE_NAME EXCHANGE_NAME ROUTING_KEY s4) as Hb.
  pose proof (amqp_call_keeps _ (QueueBind QUEUE_NAME EXCHANGE_NAME ROUTING_KEY) s4) as Hk4.
  destruct (amqp_call _ (QueueBind _ _ _) s4) as [[[]|e] s5]; cbn [bind run];
    [|by intros [= <- _]].
  cbn [fst snd] in *. intros [= <- <-] _. split_and!; [|by apply Hk4, Hq|by apply Hb].
  by apply Hk4, Hk3, He.
Qed.

Lemma topology_delivers (s : AmqpState) :
  topology_declared s -> QUEUE_NAME ∈ delivers s EXCHANGE_NAME ROUTING_KEY.
Proof using Type*. intros (He & _ & Hb). by eapply direct_delivers. Qed.
End broker.

(** ** A reference codec *)

#[export] Instance BackupJob_eq_dec : EqDecision BackupJob.
Proof. solve_decision. Defined.

#[export] Instance BackupJob_countable : Countable BackupJob.
Proof.
  apply (inj_countable'
    (fun j => (j_backup_id j, j_tenant_id j, j_source_path j, j_encryption_enabled j))
    (fun '(a, b, c, d) => MkBackupJob a b c d)).
  by intros [].
Defined.

Module ReferenceJobs.
Definition json : JobJson :=
  {| job_to_json j := encode_text j;
     job_from_json s := ok_or (decode_text s) (MkSerdeError "invalid JSON") |}.

Lemma job_json_laws : @JobJsonLaws json.
Proof.
  split. intros j. change (ok_or (decode_text (encode_text j)) (MkSerdeError "invalid JSON") = Ok j).
  by rewrite decode_encode_text.
Qed.
End ReferenceJobs.

(** A broker with its failures ahead: a call is lost before it is executed, or its answer is. *)
Module ReferenceAmqp.
Inductive Fault : Type := LostRequest (e : LapinError) | LostReply (e : LapinError).

Record Server : Type := MkServer {
  exchanges : gmap string (ExchangeKind * bool);
  queues : gmap string bool;
  bindings : list (string * string * string);
  failing : list (option Fault);
}.

Definition empty : Server := MkServer ∅ ∅ [] [].

#[export] Instance kind_eq_dec : EqDecision ExchangeKind.
Proof. solve_decision. Defined.

Definition refused (e : string) : result unit LapinError := Err (MkLapinError e).

Definition execute : Handler AmqpEff Server := fun X e s =>
  match e in AmqpEff X return X * Server with
  | Connect _ => (Ok tt, s)
  | CreateChannel => (Ok AmqpChannel, s)
  | ExchangeDeclare n k d =>
      match exchanges s !! n with
      | Some x => (if decide (x = (k, d)) then Ok tt else refused "PRECONDITION_FAILED", s)
      | None => (Ok tt, MkServer (<[n := (k, d)]> (exchanges s)) (queues s) (bindings s) (failing s))
      end
  | QueueDeclare n d =>
      match queues s !! n with
      | Some x => (if decide (x = d) then Ok tt else refused "PRECONDITION_FAILED", s)
      | None => (Ok tt, MkServer (exchanges s) (<[n := d]> (queues s)) (bindings s) (failing s))
      end
  | QueueBind q e k =>
      if bool_decide (is_Some (exchanges s !! e) /\ is_Some (queues s !! q))
      then (Ok tt, MkServer (exchanges s) (queues s) (bindings s ++ [(q, e, k)]) (failing s))
      else (refused "NOT_FOUND", s)
  end.

Definition lost {X} (e : AmqpEff X) (err : LapinError) : X :=
  match e in AmqpEff X return X with
  | Connect _ | ExchangeDeclare _ _ _ | QueueDeclare _ _ | QueueBind _ _ _ => Err err
  | CreateChannel => Err err
  end.

Definition call : Handler AmqpEff Server := fun X e s =>
  let '(f, s) := (head (failing s), MkServer (exchanges s) (queues s) (bindings s) (tail (failing s))) in
  match f with
  | Some (Some (LostRequest err)) => (lost e err, s)
  | Some (Some (LostReply err)) => (lost e err, (execute X e s).2)
  | _ => execute X e s
  end.

(** Whether a binding's key lets a message through: always in a fanout exchange. *)
Definition lets_through (kind : ExchangeKind) (binding_key key : string) : bool :=
  match kind with Fanout => true | _ => String.eqb binding_key key end.

Definition server : AmqpServer := {|
  AmqpState := Server;
  amqp_call := call;
  exchange_of s n := exchanges s !! n;
  queue_of s n := queues s !! n;
  bound s q e k := (q, e, k) ∈ bindings s;
  delivers s e k :=
    match exchanges s !! e with
    | None => []
    | Some (kind, _) =>
        remove_dups (map (fun b => b.1.1)
          (List.filter (fun b => String.eqb b.1.2 e && lets_through kind b.2 k) (bindings s)))
    end;
|}.

Lemma execute_keeps X (e : AmqpEff X) (s : Server) :
  @amqp_keeps server s (execute X e s).2.
Proof.
  destruct e as [u| |n k d|n d|q e k]; cbn [execute]; try done.
  - destruct (exchanges s !! n) as [x|] eqn:E; [done|]. split_and!; cbn; [|done|done].
    intros n' x Hx. rewrite lookup_insert_ne; [done|]. intros ->. congruence.
  - destruct (queues s !! n) as [x|] eqn:E; [done|]. split_and!; cbn; [done| |done].
    intros n' x Hx. rewrite lookup_insert_ne; [done|]. intros ->. congruence.
  - case_bool_decide; [|done]. split_and!; cbn; [done|done|]. set_solver.
Qed.

Lemma laws : @AmqpLaws server.
Proof.
  split.
  - intros X e s. cbn. unfold call. destruct (head (failing s)) as [[[err|err]|]|];
      [done|apply (execute_keeps X e (MkServer _ _ _ _))..].
  - intros n k d s. cbn. unfold call. destruct (head (failing s)) as [[[err|err]|]|]; try done;
      cbn; destruct (exchanges s !! n) as [x|] eqn:E; cbn; rewrite ?lookup_insert_eq; try done;
      by case_decide; subst.
  - intros n d s. cbn. unfold call. destruct (head (failing s)) as [[[err|err]|]|]; try done;
      cbn; destruct (queues s !! n) as [x|] eqn:E; cbn; rewrite ?lookup_insert_eq; try done;
      by case_decide; subst.
  - intros q e k s. cbn. unfold call. destruct (head (failing s)) as [[[err|err]|]|]; try done;
      cbn; case_bool_decide; cbn; try done; set_solver.
  - intros X c s q e k. cbn. unfold call.
    assert (He : forall s, (q, e, k) ∈ bindings (execute X c s).2 -> (q, e, k) ∈ bindings s
      \/ match c with QueueBind q' e' k' => (q', e', k') = (q, e, k) | _ => False end).
    { clear. intros s. destruct c as [u| |n k' d|n d|q' e' k']; cbn; try (by left).
      - destruct (exchanges s !! n); by left.
      - destruct (queues s !! n); by left.
      - case_bool_decide; cbn; [|by left]. set_solver. }
    destruct (head (failing s)) as [[[err|err]|]|]; [by left|..];
      intros Hb; by destruct (He _ Hb) as [?|?]; [left|right].
  - intros s e d k q Hx. cbn in *. rewrite Hx. rewrite elem_of_remove_dups.
    rewrite list_elem_of_In, in_map_iff. split.
    + intros ([[q' e'] k'] & <- & Hin). apply filter_In in Hin as [Hin Hb]. cbn in *.
      apply andb_true_iff in Hb as [->%String.eqb_eq ->%String.eqb_eq].
      by apply list_elem_of_In.
    + intros Hin. exists (q, e, k). split; [done|]. apply filter_In.
      split; [by apply list_elem_of_In|]. cbn. by rewrite !String.eqb_refl.
  - intros s e k. cbn. destruct (exchanges s !! e) as [[? ?]|]; [apply NoDup_remove_dups|constructor].
Qed.
End ReferenceAmqp.
