(* ===== verification/Backups.v ===== *)
(** The backup handlers ([handlers/backups.rs]), one definition per handler, and the
    validation of a source path.  Each handler takes the state, the authenticated claims and
    its extracted arguments. *)

From S2P Require Import Prelude Codec Prog Models Errors SocketAddr Config Merge RateLimit.
From S2P Require Import Entropy Db State Cache Jobs.
Local Open Scope prog_scope.

(** ** Validation *)

Definition validate_source_path (path : string) : result unit AppError :=
  if String.eqb path "" then Err (Validation "source_path cannot be empty")
  else if negb (starts_with "/" path) then Err (Validation "source_path must be absolute")
  else if contains ".." path then Err (Validation "path traversal not allowed")
  else Ok tt.

Section handlers.
Context `{UuidCrate} `{SerdeJson} `{JobJson} `{Libm}.

(** [AppError::NotFound(format!("backup {id}"))] *)
Definition backup_not_found (id : Uuid) : AppError :=
  NotFound ("backup " +:+ uuid_to_string id).

(** POST /api/v1/backups *)
Definition create_backup (state : AppState) (claims : Claims) (req : CreateBackupRequest)
    : Prog SEff (result (StatusCode * BackupResponse) AppError) :=
  _ <-! validate_source_path (req_source_path req) ;;
  backup <-? query (InsertBackup (c_tenant_id claims) (req_source_path req)
                      (req_encryption_enabled req)) ;;
  invalidate_tenant_backups (cache state) (c_tenant_id claims) ;;;
  Ret (Ok (CREATED, response_of backup)).

(** [SELECT ... .fetch_optional(..).await?.ok_or_else(|| NotFound(..))?] *)
Definition fetch_backup (claims : Claims) (id : Uuid) : Prog SEff (result Backup AppError) :=
  o <-? query (SelectBackup id (c_tenant_id claims)) ;;
  Ret (ok_or o (backup_not_found id)).

(** GET /api/v1/backups/:id *)
Definition get_backup (state : AppState) (claims : Claims) (id : Uuid)
    : Prog SEff (result BackupResponse AppError) :=
  cached <- Cache.get_backup (cache state) id ;;
  match (b ← cached; if bool_decide (b_tenant_id b = c_tenant_id claims) then Some b else None)
  with
  | Some b => Ret (Ok (response_of b))
  | None =>
      backup <-? fetch_backup claims id ;;
      set_backup (cache state) backup ;;;
      Ret (Ok (response_of backup))
  end.

(** The items and the total of one listing, from the table. *)
Definition list_from_db (tenant : Uuid) (st : option string) (limit offset : Z)
    : Prog SEff (result (list Backup * Z) AppError) :=
  match st with
  | Some s =>
      items <-? query (ListByStatus tenant s limit offset) ;;
      count <-? query (CountByStatus tenant s) ;;
      Ret (Ok (items, count))
  | None =>
      items <-? query (ListAll tenant limit offset) ;;
      count <-? query (CountAll tenant) ;;
      Ret (Ok (items, count))
  end.

Definition list_response (p : list Backup * Z) (limit offset : Z)
    : ListResponse BackupResponse :=
  {| items := map response_of p.1; total := p.2; lr_offset := offset; lr_limit := limit |}.

(** GET /api/v1/backups *)
Definition list_backups (state : AppState) (claims : Claims) (params : ListParams)
    : Prog SEff (result (ListResponse BackupResponse) AppError) :=
  let limit := clamp (lp_limit params) 1 100 in
  let offset := Z.max (lp_offset params) 0 in
  cfg <- config ;;
  let use_list_cache :=
    match lp_status params with None => true | Some _ => false end
    && (offset =? cached_list_offset cfg) && (limit =? cached_list_limit cfg) in
  cached <- (if use_list_cache then get_tenant_backups (cache state) (c_tenant_id claims)
             else Ret None) ;;
  match cached with
  | Some p => Ret (Ok (list_response p limit offset))
  | None =>
      p <-? list_from_db (c_tenant_id claims) (lp_status params) limit offset ;;
      (if use_list_cache then set_tenant_backups (cache state) (c_tenant_id claims) p.1 p.2
       else Ret tt) ;;;
      Ret (Ok (list_response p limit offset))
  end.

(** PATCH /api/v1/backups/:id *)
Definition update_backup (state : AppState) (claims : Claims) (id : Uuid)
    (req : UpdateBackupRequest) : Prog SEff (result BackupResponse AppError) :=
  let status := option_map status_to_string (req_status req) in
  o <-? query (UpdateBackup id (c_tenant_id claims) status (req_size_bytes req)) ;;
  backup <-! ok_or o (backup_not_found id) ;;
  invalidate_backup (cache state) id ;;;
  invalidate_tenant_backups (cache state) (c_tenant_id claims) ;;;
  Ret (Ok (response_of backup)).

(** DELETE /api/v1/backups/:id *)
Definition delete_backup (state : AppState) (claims : Claims) (id : Uuid)
    : Prog SEff (result StatusCode AppError) :=
  affected <-? query (DeleteBackup id (c_tenant_id claims)) ;;
  if affected =? 0 then Ret (Err (backup_not_found id))
  else
    invalidate_backup (cache state) id ;;;
    invalidate_tenant_backups (cache state) (c_tenant_id claims) ;;;
    Ret (Ok NO_CONTENT).

(** [source_path.bytes().cycle().take(4096).collect()] *)
Definition synthetic_data (path : string) (n : Z) : list byte :=
  cycle_take (bytes path) (bytes path) (Z.to_nat n).

(** POST /api/v1/backups/:id/analyze *)
Definition analyze_backup (state : AppState) (claims : Claims) (id : Uuid)
    : Prog SEff (result BackupResponse AppError) :=
  backup <-? fetch_backup claims id ;;
  let data := synthetic_data (b_source_path backup) 4096 in
  r <- perform (SpawnBlocking (fun _ => shannon_entropy data)) ;;
  entropy <-! map_err (fun e => Internal (MkAnyhowError ("task join error: " +:+ join_msg e))) r ;;
  Ret (Ok (with_entropy (response_of backup) entropy)).

Definition job_of (b : Backup) : BackupJob :=
  {| j_backup_id := b_id b;
     j_tenant_id := b_tenant_id b;
     j_source_path := b_source_path b;
     j_encryption_enabled := b_encryption_enabled b |}.

(** POST /api/v1/backups/:id/process *)
Definition enqueue_backup (state : AppState) (claims : Claims) (id : Uuid)
    : Prog SEff (result (StatusCode * Json) AppError) :=
  backup <-? fetch_backup claims id ;;
  channel <-! ok_or (amqp_channel state) (Internal (MkAnyhowError "RabbitMQ not configured")) ;;
  r <- publish_job channel (job_of backup) ;;
  _ <-! map_err (fun e => Internal (MkAnyhowError
                   ("failed to enqueue job: " +:+ lapin_msg e))) r ;;
  Ret (Ok (ACCEPTED, JObj [("message", JStr "backup job enqueued");
                           ("backup_id", JStr (uuid_to_string id))])).
End handlers.

(** ** Validation: what an accepted path is *)

(** The components between the slashes. *)
Fixpoint components (cur : string) (s : string) : list string :=
  match s with
  | EmptyString => [cur]
  | String c s' =>
      if Ascii.eqb c "/"%char then cur :: components EmptyString s'
      else components (cur +:+ String c EmptyString) s'
  end.

Lemma string_app_assoc (a b c : string) : (a +:+ b) +:+ c = a +:+ (b +:+ c).
Proof.
  induction a as [|x a IH]; [done|].
  change (String x ((a +:+ b) +:+ c) = String x (a +:+ (b +:+ c))). by rewrite IH.
Qed.

Lemma string_app_nil (a : string) : a +:+ "" = a.
Proof.
  induction a as [|x a IH]; [done|]. change (String x (a +:+ "") = String x a).
  by rewrite IH.
Qed.

Lemma component_is_substring (cur s c : string) :
  c ∈ components cur s -> exists a b, cur +:+ s = a +:+ c +:+ b.
Proof.
  revert cur. induction s as [|x s IH]; intros cur; cbn.
  - intros ->%list_elem_of_singleton. exists "", "". by rewrite !string_app_nil.
  - destruct (Ascii.eqb_spec x "/"%char) as [->|Hne].
    + intros [->|Hin]%elem_of_cons; [by exists "", (String "/"%char s)|].
      destruct (IH "" Hin) as (a & b & Hab). change (s = a +:+ c +:+ b) in Hab.
      exists (cur +:+ String "/"%char a), b. rewrite Hab. by rewrite string_app_assoc.
    + intros Hin. destruct (IH _ Hin) as (a & b & Hab). exists a, b.
      rewrite <-Hab. by rewrite string_app_assoc.
Qed.

(** C32. Path validation, on every text.  It accepts exactly the texts that start with a slash
    and contain two dots in a row nowhere, and answers every other one with the error of the
    first rule that fails.  An accepted path therefore has no parent-directory component
    anywhere between its slashes, so it cannot leave the tree it names; the rule is stricter
    than that and refuses names such as [a..b] as well. *)
Theorem validate_source_path_spec (path : string) :
  match validate_source_path path with
  | Ok _ => (exists rest, path = "/" +:+ rest)
            /\ (~ exists a b, path = a +:+ ".." +:+ b)
            /\ ".." ∉ components "" path
  | Err e =>
      (path = "" /\ e = Validation "source_path cannot be empty")
      \/ (path <> "" /\ (~ exists rest, path = "/" +:+ rest)
          /\ e = Validation "source_path must be absolute")
      \/ ((exists rest, path = "/" +:+ rest) /\ (exists a b, path = a +:+ ".." +:+ b)
          /\ e = Validation "path traversal not allowed")
  end.
Proof.
  unfold validate_source_path, starts_with.
  destruct (String.eqb_spec path "") as [->|Hne]; [by left|].
  pose proof (prefix_spec "/" path) as Hp. pose proof (contains_spec ".." path) as Hc.
  destruct (String.prefix "/" path) eqn:Ep; cbn [negb].
  - destruct (contains ".." path) eqn:Ec.
    + right; right. naive_solver.
    + assert (Hn : ~ exists a b, path = a +:+ ".." +:+ b) by (intros H; by apply Hc in H).
      split; [by apply Hp|]. split; [done|]. intros Hin. apply Hn.
      destruct (component_is_substring "" path ".." Hin) as (a & b & Hab). by exists a, b.
  - right; left. split; [done|]. split; [|done]. intros H. by apply Hp in H.
Qed.

(** A name with two dots is refused although no component is the parent directory. *)
Example dotted_name_refused :
  validate_source_path "/data/a..b" = Err (Validation "path traversal not allowed")
  /\ ".." ∉ components "" "/data/a..b".
Proof. split; [by vm_compute|]. cbn. intros H.
  repeat (apply elem_of_cons in H as [H|H]; [discriminate H|]). by inversion H.
Qed.
