(* ===== verification/BackupsSpec.v ===== *)
(** What each backup handler does, on every branch, when it runs with no other request in
    flight and no database failure ahead: the response, the table afterwards and the cache
    commands issued. *)

From S2P Require Import Prelude Codec Prog Models Errors SocketAddr Config Merge RateLimit.
From S2P Require Import Entropy Db State Cache Jobs Backups.
From Stdlib Require Import Permutation Sorting.Sorted.

(** One more statement was executed; the table is as before. *)
Definition tick `{RedisServer} `{Broker} (w : World) : World :=
  with_pg (begin_exec (w_pg w)).2 w.

(** The world with other rows, one statement later. *)
Definition with_rows `{RedisServer} `{Broker} (m : gmap Uuid Backup) (w : World) : World :=
  with_pg (with_backups m (begin_exec (w_pg w)).2) w.

Ltac run_simpl := autorewrite with prog; unfold tick.

Section spec.
Context `{UuidCrate} `{SerdeJson} `{JobJson} `{Libm}.
Context `{Postgres} `{RedisServer} `{Broker}.

Definition quiet (w : World) : Prop := pg_quiet (w_pg w).

(** The row of [id] when the claims' tenant owns it. *)
Definition own_row (claims : Claims) (id : Uuid) (w : World) : option Backup :=
  select_backup id (c_tenant_id claims) (w_pg w).

Lemma run_fetch_backup (claims : Claims) (id : Uuid) (w : World) :
  quiet w ->
  run service (fetch_backup claims id) w =
  (ok_or (own_row claims id w) (backup_not_found id), tick w).
Proof using Type.
  intros Hq. unfold fetch_backup. rewrite run_try, run_query, exec_quiet by done.
  by cbn [exec_stmt map_err run].
Qed.

Lemma run_create_backup (state : AppState) (claims : Claims) (req : CreateBackupRequest)
    (w : World) :
  quiet w -> validate_source_path (req_source_path req) = Ok tt ->
  run service (create_backup state claims req) w =
  match gen_random_uuid (S (pg_execs (w_pg w))) with
  | None => (Err (Database no_random_values), tick w)
  | Some id =>
      let row := {| b_id := id; b_tenant_id := c_tenant_id claims;
                    b_source_path := req_source_path req; b_size_bytes := 0;
                    b_status := "pending"; b_encryption_enabled := req_encryption_enabled req;
                    b_created_at := pg_clock (w_pg w); b_updated_at := pg_clock (w_pg w) |} in
      match backups (w_pg w) !! id with
      | Some _ => (Err (Database unique_violation), tick w)
      | None =>
          (Ok (CREATED, response_of row),
           del_effect (cache state) (tenant_key (c_tenant_id claims))
             (with_rows (<[id := row]> (backups (w_pg w))) w))
      end
  end.
Proof using Type.
  intros Hq Hv. unfold create_backup. rewrite Hv. cbn [try_pure].
  rewrite run_try, run_query, exec_quiet by done. cbn [exec_stmt]. unfold insert_backup.
  cbn [begin_exec snd backups pg_execs].
  destruct (gen_random_uuid (S (pg_execs (w_pg w)))) as [id|]; [|done].
  destruct (backups (w_pg w) !! id); [done|]. cbn [map_err].
  by rewrite run_bind, run_invalidate_tenant_backups.
Qed.

Lemma run_update_backup (state : AppState) (claims : Claims) (id : Uuid)
    (req : UpdateBackupRequest) (w : World) :
  fault_now (w_pg w) = None -> table_ok (w_pg w) ->
  run service (update_backup state claims id req) w =
  match own_row claims id w with
  | None => (Err (backup_not_found id), tick w)
  | Some b =>
      let b' := set_columns (option_map status_to_string (req_status req))
                  (req_size_bytes req) (pg_clock (w_pg w)) b in
      (Ok (response_of b'),
       del_effect (cache state) (tenant_key (c_tenant_id claims))
         (del_effect (cache state) (backup_key id)
            (with_rows (<[id := b']> (backups (w_pg w))) w)))
  end.
Proof using Type.
  intros Hq Hok. unfold update_backup. rewrite run_try, run_query, exec_no_fault by done.
  cbn [exec_stmt]. unfold update_backup_row.
  change (select_backup id (c_tenant_id claims) (begin_exec (w_pg w)).2)
    with (own_row claims id w).
  destruct (own_row claims id w) as [b|] eqn:Hb; [|done].
  apply select_backup_spec in Hb as [Hb _]. destruct (Hok id b Hb) as [Hid Hst].
  unfold replace_row.
  assert (Hc : status_check (b_status (set_columns
      (option_map status_to_string (req_status req)) (req_size_bytes req)
      (pg_clock (begin_exec (w_pg w)).2) b)) = true).
  { cbn. destruct (req_status req) as [s|]; [apply status_check_to_string|done]. }
  rewrite Hc. cbn [map_err ok_or try_pure].
  rewrite run_bind, run_invalidate_backup, run_bind, run_invalidate_tenant_backups.
  cbn [run b_id set_columns]. by rewrite Hid.
Qed.

Lemma run_delete_backup (state : AppState) (claims : Claims) (id : Uuid) (w : World) :
  fault_now (w_pg w) = None ->
  run service (delete_backup state claims id) w =
  match own_row claims id w with
  | None => (Err (backup_not_found id), tick w)
  | Some _ =>
      (Ok NO_CONTENT,
       del_effect (cache state) (tenant_key (c_tenant_id claims))
         (del_effect (cache state) (backup_key id)
            (with_rows (delete id (backups (w_pg w))) w)))
  end.
Proof using Type.
  intros Hq. unfold delete_backup. rewrite run_try, run_query, exec_no_fault by done.
  cbn [exec_stmt]. unfold delete_backup_row.
  change (select_backup id (c_tenant_id claims) (begin_exec (w_pg w)).2)
    with (own_row claims id w).
  destruct (own_row claims id w) as [b|]; [|done]. cbn [map_err Z.eqb].
  by rewrite run_bind, run_invalidate_backup, run_bind, run_invalidate_tenant_backups.
Qed.

(** The answer of the cache to the row of [id], kept only for its own tenant. *)
Definition cached_own (state : AppState) (claims : Claims) (id : Uuid) (w : World)
    : option Backup :=
  match cl_redis (cache state) with
  | None => None
  | Some _ =>
      json ← ok (redis_get (backup_key id) (w_redis w)).1;
      b ← ok (backup_from_json json);
      if bool_decide (b_tenant_id b = c_tenant_id claims) then Some b else None
  end.

(** The [GET] when Redis is there. *)
Definition get_effect (state : AppState) (k : string) (w : World) : World :=
  match cl_redis (cache state) with
  | None => w
  | Some _ => with_redis (redis_get k (w_redis w)).2 w
  end.

Lemma run_get_backup_handler (state : AppState) (claims : Claims) (id : Uuid) (w : World) :
  quiet w ->
  run service (get_backup state claims id) w =
  let w1 := get_effect state (backup_key id) w in
  match cached_own state claims id w with
  | Some b => (Ok (response_of b), w1)
  | None =>
      match own_row claims id w with
      | None => (Err (backup_not_found id), tick w1)
      | Some b =>
          (Ok (response_of b),
           set_effect (cache state) (backup_key (b_id b)) (backup_to_json b) (tick w1))
      end
  end.
Proof using Type.
  intros Hq. unfold get_backup. rewrite run_bind, run_get_backup.
  unfold cached_own, get_effect.
  assert (Hdb : forall w1, w_pg w1 = w_pg w ->
    run service (try_bind (fetch_backup claims id) (fun backup =>
      bind (set_backup (cache state) backup) (fun _ => Ret (Ok (response_of backup))))) w1
    = match own_row claims id w with
      | None => (Err (backup_not_found id), tick w1)
      | Some b => (Ok (response_of b),
          set_effect (cache state) (backup_key (b_id b)) (backup_to_json b) (tick w1))
      end).
  { intros w1 Hw1. rewrite run_try, run_fetch_backup by (unfold quiet; by rewrite Hw1).
    unfold own_row. rewrite Hw1. destruct (select_backup _ _ _) as [b|]; [|done].
    cbn [ok_or]. by rewrite run_bind, run_set_backup. }
  destruct (cl_redis (cache state)) as [c|]; [|by apply Hdb].
  destruct (redis_get (backup_key id) (w_redis w)) as [r s]. cbn [fst snd].
  destruct r as [json|err]; [|by apply Hdb]. cbn [ok mbind option_bind].
  destruct (backup_from_json json) as [b|e]; [|by apply Hdb]. cbn [ok mbind option_bind].
  case_bool_decide; [done|by apply Hdb].
Qed.

(** The [WHERE] clause of a listing. *)
Definition list_filter (tenant : Uuid) (st : option string) : Backup -> bool :=
  match st with Some s => of_tenant_status tenant s | None => of_tenant tenant end.

(** A page of the rows selected by [p], in the order of execution [n]. *)
Definition page_of (n : nat) (p : Backup -> bool) (limit offset : Z) (db : Pg) : list Backup :=
  take (Z.to_nat limit) (drop (Z.to_nat offset) (order_desc n (rows_where p db))).

Lemma run_list_from_db (tenant : Uuid) (st : option string) (limit offset : Z) (w : World) :
  quiet w -> 0 <= limit -> 0 <= offset ->
  run service (list_from_db tenant st limit offset) w =
  (Ok (page_of (S (pg_execs (w_pg w))) (list_filter tenant st) limit offset (w_pg w),
       count_rows (list_filter tenant st) (w_pg w)),
   tick (tick w)).
Proof using Type.
  intros Hq Hl Ho.
  assert (Hp : forall p, select_page p limit offset (begin_exec (w_pg w)).2 =
                 Ok (page_of (S (pg_execs (w_pg w))) p limit offset (w_pg w))).
  { intros p. unfold select_page. rewrite (proj2 (Z.ltb_ge _ _)), (proj2 (Z.ltb_ge _ _)) by done.
    done. }
  unfold list_from_db, list_filter. destruct st as [s|];
    rewrite run_try, run_query, exec_quiet by done; cbn [exec_stmt]; rewrite Hp; cbn [map_err];
    rewrite run_try, run_query, exec_quiet by (by apply begin_exec_quiet); done.
Qed.

Definition use_list_cache (params : ListParams) (c : AppConfig) : bool :=
  match lp_status params with None => true | Some _ => false end
  && (Z.max (lp_offset params) 0 =? cached_list_offset c)
  && (clamp (lp_limit params) 1 100 =? cached_list_limit c).

(** The cached page that answers a listing. *)
Definition cached_page (state : AppState) (tenant : Uuid) (params : ListParams) (w : World)
    : option (list Backup * Z) :=
  if use_list_cache params (w_config w) then
    match cl_redis (cache state) with
    | None => None
    | Some _ =>
        json ← ok (redis_get (tenant_key tenant) (w_redis w)).1; ok (page_from_json json)
    end
  else None.

Lemma run_list_backups (state : AppState) (claims : Claims) (params : ListParams) (w : World) :
  quiet w ->
  let tenant := c_tenant_id claims in
  let limit := clamp (lp_limit params) 1 100 in
  let offset := Z.max (lp_offset params) 0 in
  let w1 := if use_list_cache params (w_config w) then get_effect state (tenant_key tenant) w
            else w in
  let p := (page_of (S (pg_execs (w_pg w))) (list_filter tenant (lp_status params)) limit offset
              (w_pg w),
            count_rows (list_filter tenant (lp_status params)) (w_pg w)) in
  run service (list_backups state claims params) w =
  match cached_page state tenant params w with
  | Some c => (Ok (list_response c limit offset), w1)
  | None =>
      (Ok (list_response p limit offset),
       if use_list_cache params (w_config w)
       then set_effect (cache state) (tenant_key tenant) (page_to_json p) (tick (tick w1))
       else tick (tick w1))
  end.
Proof using Type.
  intros Hq tenant limit offset w1 p. unfold list_backups.
  rewrite run_bind, run_config. fold limit offset.
  change (match lp_status params with None => true | Some _ => false end
          && (offset =? cached_list_offset (w_config w))
          && (limit =? cached_list_limit (w_config w)))
    with (use_list_cache params (w_config w)).
  assert (Hdb : forall w1, w_pg w1 = w_pg w ->
    run service (try_bind (list_from_db (c_tenant_id claims) (lp_status params) limit offset)
      (fun q => bind (if use_list_cache params (w_config w)
                      then set_tenant_backups (cache state) (c_tenant_id claims) q.1 q.2
                      else Ret tt)
                  (fun _ => Ret (Ok (list_response q limit offset))))) w1
    = (Ok (list_response p limit offset),
       if use_list_cache params (w_config w)
       then set_effect (cache state) (tenant_key tenant) (page_to_json p) (tick (tick w1))
       else tick (tick w1))).
  { intros w' Hw'. pose proof (clamp_bounds (lp_limit params) 1 100 ltac:(lia)).
    rewrite run_try, run_list_from_db; [|unfold quiet; by rewrite Hw'| |];
      [|subst limit; lia|subst offset; lia].
    rewrite Hw'. fold tenant. fold p. rewrite run_bind.
    destruct (use_list_cache _ _); [rewrite run_set_tenant_backups|]; by destruct p. }
  unfold w1, cached_page. rewrite run_bind.
  destruct (use_list_cache params (w_config w)); [|by apply Hdb].
  rewrite run_get_tenant_backups. unfold get_effect.
  destruct (cl_redis (cache state)); [|by apply Hdb]. fold tenant.
  destruct (redis_get (tenant_key tenant) (w_redis w)) as [r s]. cbn [fst snd].
  destruct r as [json|err]; [|by apply Hdb]. cbn [ok mbind option_bind].
  destruct (page_from_json json) as [pg|err]; [done|by apply Hdb].
Qed.

(** The answer of the blocking thread pool, and the next one. *)
Definition joined (w : World) : option JoinError :=
  match w_joins w with Some e :: _ => Some e | _ => None end.
Definition next_join (w : World) : World := with_joins (tail (w_joins w)) w.

Lemma run_analyze_backup (state : AppState) (claims : Claims) (id : Uuid) (w : World) :
  quiet w ->
  run service (analyze_backup state claims id) w =
  match own_row claims id w with
  | None => (Err (backup_not_found id), tick w)
  | Some b =>
      (match joined w with
       | Some e => Err (Internal (MkAnyhowError ("task join error: " +:+ join_msg e)))
       | None => Ok (with_entropy (response_of b)
                       (shannon_entropy (synthetic_data (b_source_path b) 4096)))
       end, next_join (tick w))
  end.
Proof using Type.
  intros Hq. unfold analyze_backup. rewrite run_try, run_fetch_backup by done.
  destruct (own_row claims id w) as [b|]; [|done]. cbn [ok_or].
  rewrite run_bind, run_perform. cbn [service].
  change (w_joins (tick w)) with (w_joins w). unfold joined, next_join.
  change (w_joins (tick w)) with (w_joins w).
  by destruct (w_joins w) as [|[e|] ?].
Qed.

Definition not_configured : AppError := Internal (MkAnyhowError "RabbitMQ not configured").
Definition not_enqueued (e : LapinError) : AppError :=
  Internal (MkAnyhowError ("failed to enqueue job: " +:+ lapin_msg e)).
Definition enqueued (id : Uuid) : Json :=
  JObj [("message", JStr "backup job enqueued"); ("backup_id", JStr (uuid_to_string id))].

Lemma run_enqueue_backup (state : AppState) (claims : Claims) (id : Uuid) (w : World) :
  quiet w ->
  run service (enqueue_backup state claims id) w =
  match own_row claims id w, amqp_channel state with
  | None, _ => (Err (backup_not_found id), tick w)
  | Some _, None => (Err not_configured, tick w)
  | Some b, Some _ =>
      let '(r, q) := amqp_publish (job_publication (job_of b)) (w_broker w) in
      (match r with Ok _ => Ok (ACCEPTED, enqueued id) | Err e => Err (not_enqueued e) end,
       with_broker q (tick w))
  end.
Proof using Type.
  intros Hq. unfold enqueue_backup. rewrite run_try, run_fetch_backup by done.
  destruct (own_row claims id w) as [b|]; [|done]. cbn [ok_or].
  destruct (amqp_channel state) as [ch|]; [|done]. cbn [ok_or try_pure].
  unfold publish_job. rewrite run_bind, run_try, run_perform. cbn [service].
  change (w_broker (tick w)) with (w_broker w).
  by destruct (amqp_publish _ (w_broker w)) as [[[]|e] q].
Qed.
End spec.
