(* ===== verification/BackupsProps.v ===== *)
(** What the backup endpoints promise to one caller at a time: the functional behaviour of
    every handler of [handlers/backups.rs] on every branch, with the cache entries each of
    them evicts. *)

From S2P Require Import Prelude Codec Prog Models Errors SocketAddr Config Merge RateLimit.
From S2P Require Import Entropy Db State Cache Jobs Backups BackupsSpec.
From Stdlib Require Import Permutation Sorting.Sorted.

Section props.
Context `{UuidCrate} `{SerdeJson} `{JobJson} `{Libm}.
Context `{Postgres} `{RedisServer} `{Broker}.

(** Redis holds no value for the key, or there is no Redis to read it from. *)
Definition evicted (state : AppState) (k : string) (w : World) : Prop :=
  cl_redis (cache state) = None \/ forall v, ~ redis_holds (w_redis w) k v.

Lemma evicted_shrinks (state : AppState) (k : string) (w w' : World) :
  redis_shrinks (w_redis w) (w_redis w') -> evicted state k w -> evicted state k w'.
Proof using Type. intros Hs [?|Hn]; [by left|right]. intros v Hv. by eapply Hn, Hs. Qed.

Lemma evicted_no_cached_own `{!RedisLaws} (state : AppState) (claims : Claims) (id : Uuid)
    (w : World) : evicted state (backup_key id) w -> cached_own state claims id w = None.
Proof using Type.
  unfold cached_own. intros [->|Hn]; [done|]. destruct (cl_redis _); [|done].
  destruct (redis_get (backup_key id) (w_redis w)) as [[json|e] s] eqn:E; [|done].
  exfalso. apply (Hn json), (redis_get_holds (backup_key id)). by rewrite E.
Qed.

Section evictions.
Context `{!RedisLaws} `{!RedisUp}.

Lemma del_effect_evicts (state : AppState) (k : string) (w : World) :
  redis_up (w_redis w) ->
  evicted state k (del_effect (cache state) k w)
  /\ redis_up (w_redis (del_effect (cache state) k w)).
Proof using Type*.
  unfold evicted, del_effect. intros Hup. destruct (cl_redis _); [|by auto].
  destruct (up_del k _ Hup) as [Hok Hup']. split; [right|done].
  intros v. by apply redis_del_ok.
Qed.

(** The two commands of an update or a deletion. *)
Lemma two_dels_evict (state : AppState) (k1 k2 : string) (w : World) :
  redis_up (w_redis w) ->
  let w' := del_effect (cache state) k2 (del_effect (cache state) k1 w) in
  evicted state k1 w' /\ evicted state k2 w' /\ redis_up (w_redis w').
Proof using Type*.
  intros Hup w'. destruct (del_effect_evicts state k1 w Hup) as [Hk1 Hup1].
  destruct (del_effect_evicts state k2 _ Hup1) as [Hk2 Hup2]. split; [|done].
  eapply evicted_shrinks; [apply del_effect_shrinks|exact Hk1].
Qed.
End evictions.

(** The row that [create_backup] promises. *)
Definition fresh_row (claims : Claims) (req : CreateBackupRequest) (now : DateTime)
    (b : Backup) : Prop :=
  b_tenant_id b = c_tenant_id claims /\ b_source_path b = req_source_path req
  /\ b_encryption_enabled b = req_encryption_enabled req /\ b_size_bytes b = 0
  /\ status_from_string (b_status b) = Some Pending
  /\ b_created_at b = now /\ b_updated_at b = now.

(** C11. Creating a backup: an invalid path is refused before anything is executed; a valid
    one inserts exactly one new row, pending, empty and owned by the caller's tenant,
    answers 201 with it and evicts the tenant's cached list.  The only other outcomes are a
    draw that fails or collides with an existing row, a 500 that changes nothing. *)
Theorem create_backup_correct `{!RedisLaws} `{!RedisUp} (state : AppState) (claims : Claims)
    (req : CreateBackupRequest) (w : World) :
  quiet w -> redis_up (w_redis w) ->
  let '(r, w') := run service (create_backup state claims req) w in
  match validate_source_path (req_source_path req) with
  | Err e => r = Err e /\ w' = w
  | Ok _ =>
      (exists row,
          r = Ok (CREATED, response_of row)
          /\ backups (w_pg w) !! b_id row = None
          /\ backups (w_pg w') = <[b_id row := row]> (backups (w_pg w))
          /\ fresh_row claims req (pg_clock (w_pg w)) row
          /\ evicted state (tenant_key (c_tenant_id claims)) w')
      \/ ((forall id, gen_random_uuid (S (pg_execs (w_pg w))) = Some id ->
             is_Some (backups (w_pg w) !! id))
          /\ (exists e, r = Err (Database e))
          /\ backups (w_pg w') = backups (w_pg w) /\ w_redis w' = w_redis w)
  end.
Proof using Type.
  intros Hq Hup. destruct (validate_source_path _) as [[]|e] eqn:Hv;
    [|unfold create_backup; rewrite Hv; done].
  rewrite run_create_backup by done.
  destruct (gen_random_uuid _) as [id|]; [|right; split; [done|]; by split; [eexists|]].
  destruct (backups (w_pg w) !! id) as [b|] eqn:Hid.
  { right. split; [intros i [= <-]; by eexists|]. by split; [eexists|]. }
  left. eexists. split; [done|]. cbn [b_id]. split; [done|]. autorewrite with world.
  split; [done|]. split; [done|]. by apply del_effect_evicts.
Qed.

(** What an update makes of a row: the columns that were sent, the others as they were. *)
Definition patched (req : UpdateBackupRequest) (now : DateTime) (b b' : Backup) : Prop :=
  identity_columns b' = identity_columns b
  /\ b_status b' = match req_status req with
                   | Some s => status_to_string s | None => b_status b end
  /\ b_size_bytes b' = unwrap_or (req_size_bytes req) (b_size_bytes b)
  /\ b_updated_at b' = now.

(** The table and Redis are as before. *)
Definition nothing_stored (w w' : World) : Prop :=
  backups (w_pg w') = backups (w_pg w) /\ w_redis w' = w_redis w.

(** The row of [id] in the table after the statement of an update. *)
Lemma update_statement (id tenant : Uuid) (req : UpdateBackupRequest) (db : Pg) :
  table_ok db ->
  backups (exec_stmt (UpdateBackup id tenant (option_map status_to_string (req_status req))
             (req_size_bytes req)) db).2 =
  match select_backup id tenant db with
  | None => backups db
  | Some b => <[id := set_columns (option_map status_to_string (req_status req))
                        (req_size_bytes req) (pg_clock db) b]> (backups db)
  end.
Proof using Type.
  intros Hok. cbn [exec_stmt]. unfold update_backup_row.
  destruct (select_backup id tenant db) as [b|] eqn:Hb; [|done].
  apply select_backup_spec in Hb as [Hb _]. destruct (Hok id b Hb) as [Hid Hst].
  unfold replace_row. cbn [b_status set_columns b_id]. rewrite Hid.
  destruct (req_status req) as [s|]; cbn [option_map unwrap_or].
  - by rewrite status_check_to_string.
  - by rewrite Hst.
Qed.

Lemma patched_set_columns (req : UpdateBackupRequest) (now : DateTime) (b : Backup) :
  patched req now b (set_columns (option_map status_to_string (req_status req))
                       (req_size_bytes req) now b).
Proof using Type. by split_and!; [|destruct (req_status req)|..]. Qed.

(** C12. Updating a backup, whatever happens to the statement and whatever Redis does.  When the
    statement is executed and answered: another tenant's or an unknown identifier is answered
    404 and nothing changes; otherwise exactly that row changes, the absent fields keep their
    value, the identity columns keep theirs whatever is sent, the new row is returned, and, if
    Redis is up, neither the row nor the tenant's list is cached any more.  When the statement
    fails, the answer is that database error and no cache entry is evicted; the table is as
    before, unless the statement was executed and only its answer was lost. *)
Theorem update_backup_correct `{!RedisLaws} `{!RedisUp} (state : AppState) (claims : Claims)
    (id : Uuid) (req : UpdateBackupRequest) (w : World) :
  table_ok (w_pg w) ->
  let '(r, w') := run service (update_backup state claims id req) w in
  match fault_now (w_pg w), own_row claims id w with
  | Some (FaultBefore e), _ | Some (FaultAfter e), None =>
      r = Err (Database e) /\ nothing_stored w w'
  | Some (FaultAfter e), Some b =>
      r = Err (Database e) /\ w_redis w' = w_redis w
      /\ exists b', patched req (pg_clock (w_pg w)) b b'
                    /\ backups (w_pg w') = <[id := b']> (backups (w_pg w))
  | None, None => r = Err (backup_not_found id) /\ nothing_stored w w'
  | None, Some b =>
      exists b',
        r = Ok (response_of b')
        /\ patched req (pg_clock (w_pg w)) b b'
        /\ backups (w_pg w') = <[id := b']> (backups (w_pg w))
        /\ (redis_up (w_redis w) ->
            evicted state (backup_key id) w'
            /\ evicted state (tenant_key (c_tenant_id claims)) w')
  end.
Proof using Type.
  intros Hok. destruct (fault_now (w_pg w)) as [f|] eqn:Hf.
  - unfold update_backup. rewrite run_try, run_query, exec_fault_now, Hf.
    pose proof (update_statement id (c_tenant_id claims) req (begin_exec (w_pg w)).2 Hok) as Hu.
    destruct f as [e|e]; cbn [map_err]; [done|].
    change (select_backup id (c_tenant_id claims) (begin_exec (w_pg w)).2)
      with (own_row claims id w) in Hu.
    destruct (own_row claims id w) as [b|]; [|done]. split; [done|]. split; [done|].
    eexists. split; [apply patched_set_columns|exact Hu].
  - rewrite run_update_backup by done. destruct (own_row claims id w) as [b|]; [|done].
    eexists. split; [done|]. split; [apply patched_set_columns|].
    autorewrite with world. split; [done|]. intros Hup.
    edestruct two_dels_evict as (? & ? & ?); [|by split]. exact Hup.
Qed.

(** C13. Deleting a backup, whatever happens to the statement and whatever Redis does.  When the
    statement is executed and answered: another tenant's or an unknown identifier is answered
    404 and nothing changes; otherwise exactly that row is removed and the answer is 204; and,
    if Redis is up, its cache entries are gone and a read of the identifier by anyone
    afterwards that reaches the database is a 404.  When the statement fails, the answer is
    that database error and no cache entry is evicted; the table is as before, unless the
    statement was executed and only its answer was lost. *)
Theorem delete_backup_correct `{!RedisLaws} `{!RedisUp} (state : AppState) (claims : Claims)
    (id : Uuid) (w : World) :
  let '(r, w') := run service (delete_backup state claims id) w in
  match fault_now (w_pg w), own_row claims id w with
  | Some (FaultBefore e), _ | Some (FaultAfter e), None =>
      r = Err (Database e) /\ nothing_stored w w'
  | Some (FaultAfter e), Some _ =>
      r = Err (Database e) /\ w_redis w' = w_redis w
      /\ backups (w_pg w') = delete id (backups (w_pg w))
  | None, None => r = Err (backup_not_found id) /\ nothing_stored w w'
  | None, Some _ =>
      r = Ok NO_CONTENT
      /\ backups (w_pg w') = delete id (backups (w_pg w))
      /\ (redis_up (w_redis w) ->
          evicted state (backup_key id) w'
          /\ evicted state (tenant_key (c_tenant_id claims)) w'
          /\ forall claims', quiet w' ->
               (run service (get_backup state claims' id) w').1 = Err (backup_not_found id))
  end.
Proof using Type.
  destruct (fault_now (w_pg w)) as [f|] eqn:Hf.
  - unfold delete_backup. rewrite run_try, run_query, exec_fault_now, Hf. cbn [exec_stmt].
    unfold delete_backup_row.
    change (select_backup id (c_tenant_id claims) (begin_exec (w_pg w)).2)
      with (own_row claims id w).
    destruct f as [e|e]; cbn [map_err]; [done|]. by destruct (own_row claims id w).
  - rewrite run_delete_backup by done. destruct (own_row claims id w) as [b|]; [|done].
    split; [done|]. autorewrite with world. split; [done|]. intros Hup.
    edestruct (two_dels_evict state (backup_key id) (tenant_key (c_tenant_id claims)))
      as (Hid & Ht & _); [|split; [exact Hid|split; [exact Ht|]]]; [exact Hup|].
    intros claims' Hq. rewrite run_get_backup_handler by exact Hq.
    rewrite evicted_no_cached_own by exact Hid.
    unfold own_row, select_backup. autorewrite with world.
    cbn [with_rows w_pg with_pg with_backups backups]. by rewrite lookup_delete_eq.
Qed.

Lemma rows_where_NoDup (p : Backup -> bool) (db : Pg) :
  table_ok db -> NoDup (map b_id (rows_where p db)).
Proof using Type.
  intros Hok. apply NoDup_map_filter. rewrite map_map.
  rewrite (map_ext_in _ fst); [apply NoDup_fst_map_to_list|].
  intros [id b] Hin. apply list_elem_of_In, elem_of_map_to_list in Hin.
  by apply (Hok id b).
Qed.

Definition newest_first : relation Backup := fun a b => b_created_at b <= b_created_at a.

(** The rows selected by [p], newest first, from [offset] on, [limit] of them at most. *)
Definition is_page (p : Backup -> bool) (limit offset : Z) (db : Pg) (l : list Backup) : Prop :=
  exists o, Permutation o (rows_where p db) /\ StronglySorted newest_first o
            /\ l = take (Z.to_nat limit) (drop (Z.to_nat offset) o).

Lemma page_of_is_page `{!PostgresLaws} (n : nat) (p : Backup -> bool) (limit offset : Z)
    (db : Pg) : is_page p limit offset db (page_of n p limit offset db).
Proof using Type.
  eexists. split; [apply order_desc_perm|]. split; [apply order_desc_sorted|done].
Qed.

(** How many rows a page has, which, and in which order. *)
Lemma is_page_facts (p : Backup -> bool) (limit offset : Z) (db : Pg) (l : list Backup) :
  table_ok db -> 0 <= limit -> 0 <= offset -> is_page p limit offset db l ->
  Z.of_nat (length l) = Z.min limit (Z.max 0 (count_rows p db - offset))
  /\ (forall b, b ∈ l -> p b = true /\ backups db !! b_id b = Some b)
  /\ NoDup (map b_id l)
  /\ StronglySorted newest_first l.
Proof using Type.
  intros Hok Hl Ho (o & Hperm & Hsort & ->).
  assert (Hsub : take (Z.to_nat limit) (drop (Z.to_nat offset) o) `sublist_of` o)
    by (etrans; [apply sublist_take|apply sublist_drop]).
  split_and!.
  - rewrite length_take, length_drop, (Permutation_length Hperm). unfold count_rows. lia.
  - intros b Hb. apply (elem_of_sublist _ _ _ Hb) in Hsub. rewrite Hperm in Hsub.
    apply rows_where_elem in Hsub as [Hp [id Hid]]. split; [done|].
    by destruct (Hok id b Hid) as [<- _].
  - eapply sublist_NoDup; [|by apply sublist_map].
    rewrite (Permutation_map b_id Hperm). by apply rows_where_NoDup.
  - by eapply StronglySorted_sublist.
Qed.

Lemma list_filter_tenant (t : Uuid) (st : option string) (b : Backup) :
  list_filter t st b = true -> b_tenant_id b = t.
Proof using Type.
  destruct st; cbn; unfold of_tenant_status, of_tenant;
    rewrite ?andb_true_iff, bool_decide_eq_true; naive_solver.
Qed.

(** C14. Listing: whatever limit and offset are sent, the answer is a page with a limit
    between 1 and 100 and a non-negative offset (the sent ones when they are in range).
    When the cache does not answer, the page is the asked section of the caller's rows of
    the asked status, newest first: each once, as many as the limit, the offset and the
    total leave; and the total counts all matching rows.  A cached page is passed on. *)
Theorem list_backups_correct `{!PostgresLaws} (state : AppState) (claims : Claims)
    (params : ListParams) (w : World) :
  quiet w -> table_ok (w_pg w) ->
  exists l w',
    run service (list_backups state claims params) w = (Ok l, w')
    /\ backups (w_pg w') = backups (w_pg w)
    /\ 1 <= lr_limit l <= 100 /\ 0 <= lr_offset l
    /\ (1 <= lp_limit params <= 100 -> lr_limit l = lp_limit params)
    /\ (0 <= lp_offset params -> lr_offset l = lp_offset params)
    /\ let p := list_filter (c_tenant_id claims) (lp_status params) in
       match cached_page state (c_tenant_id claims) params w with
       | Some c => items l = map response_of c.1 /\ total l = c.2
       | None => total l = count_rows p (w_pg w)
                 /\ exists rows, items l = map response_of rows
                      /\ is_page p (lr_limit l) (lr_offset l) (w_pg w) rows
                      /\ Z.of_nat (length (items l))
                         = Z.min (lr_limit l) (Z.max 0 (total l - lr_offset l))
                      /\ NoDup (map r_id (items l))
                      /\ forall b, b ∈ rows -> own_row claims (b_id b) w = Some b
       end.
Proof using Type.
  intros Hq Hok. rewrite run_list_backups by done.
  pose proof (clamp_bounds (lp_limit params) 1 100 ltac:(lia)).
  assert (Hg : forall k w0, w_pg (get_effect state k w0) = w_pg w0)
    by (intros; unfold get_effect; by destruct (cl_redis _)).
  destruct (cached_page _ _ _ _) as [c|]; eexists _, _; (split; [reflexivity|]).
  - split; [case_match; by rewrite ?Hg|]. cbn [list_response lr_limit lr_offset items total].
    split_and!; try done; try lia. by apply clamp_id.
  - split; [repeat case_match; autorewrite with world; cbn; by rewrite ?Hg|].
    cbn [list_response lr_limit lr_offset items total fst snd].
    split_and!; try done; try lia; [by apply clamp_id|]. eexists. split; [done|].
    pose proof (page_of_is_page (S (pg_execs (w_pg w)))
      (list_filter (c_tenant_id claims) (lp_status params)) (clamp (lp_limit params) 1 100)
      (Z.max (lp_offset params) 0) (w_pg w)) as Hp.
    pose proof Hp as (Hlen & Hin & Hnd & _)%is_page_facts; [|done|lia|lia].
    rewrite map_map, length_map. split_and!; [done|done|exact Hnd|]. intros b [Hb Hid]%Hin.
    apply select_backup_spec. split; [done|]. by apply list_filter_tenant in Hb.
Qed.

(** The payload is the job of the row, for the caller's tenant. *)
Definition carries_job (claims : Claims) (b : Backup) (payload : string) : Prop :=
  job_from_json payload =
  Ok (MkBackupJob (b_id b) (c_tenant_id claims) (b_source_path b) (b_encryption_enabled b)).

(** C16. Enqueueing: the job that goes to the broker is the one of the stored row (its id,
    tenant, path and encryption flag, as the worker will read them), it is published once,
    and the answer is 202 only when the publication succeeded; for an unknown or another
    tenant's backup, or without a channel, nothing is published.  The table and the cache
    never change. *)
Theorem enqueue_backup_correct `{!JobJsonLaws} (state : AppState) (claims : Claims)
    (id : Uuid) (w : World) :
  quiet w ->
  let '(r, w') := run service (enqueue_backup state claims id) w in
  backups (w_pg w') = backups (w_pg w) /\ w_redis w' = w_redis w
  /\ match own_row claims id w, amqp_channel state with
     | None, _ => r = Err (backup_not_found id) /\ w_broker w' = w_broker w
     | Some _, None => r = Err not_configured /\ w_broker w' = w_broker w
     | Some b, Some _ =>
         exists p answer,
           amqp_publish p (w_broker w) = (answer, w_broker w')
           /\ carries_job claims b (p_payload p)
           /\ r = match answer with
                  | Ok _ => Ok (ACCEPTED, enqueued id)
                  | Err e => Err (not_enqueued e)
                  end
     end.
Proof using Type.
  intros Hq. rewrite run_enqueue_backup by done.
  destruct (own_row claims id w) as [b|] eqn:Hb; [|done].
  destruct (amqp_channel state); [|done].
  destruct (amqp_publish _ _) as [answer q] eqn:E. split_and!; [done|done|].
  exists (job_publication (job_of b)), answer. split; [done|]. split; [|done].
  unfold carries_job. cbn [job_publication p_payload]. rewrite job_json_roundtrip.
  apply select_backup_spec in Hb as [_ <-]. done.
Qed.
End props.

(** ** Witnesses *)

#[local] Existing Instance Reference.uuids.
#[local] Existing Instance Reference.json.
#[local] Existing Instance ReferenceJobs.json.
#[local] Existing Instance ReferenceJobs.job_json_laws.
#[local] Existing Instance ReferenceDb.server.
#[local] Existing Instance ReferenceDb.pg_server_laws.
#[local] Existing Instance ReferenceRedis.server.
#[local] Existing Instance ReferenceRedis.redis_server_laws.
#[local] Existing Instance ReferenceRedis.up.
#[local] Existing Instance ReferenceBroker.broker.

(** Two rows of tenant 7 and one of tenant 8. *)
Definition sample_world : World :=
  ref_world [sample_row 1 7 "pending" 10; sample_row 2 7 "running" 12; sample_row 3 8 "failed" 11]
    ReferenceRedis.empty 20.

Definition sample_claims (tenant : N) : Claims :=
  {| c_sub := "admin"; c_tenant_id := uuid_of tenant; c_roles := ["user"]; c_exp := 0; c_iat := 0 |}.

Lemma sample_world_ok : table_ok (w_pg sample_world).
Proof. apply table_ok_of_rows. vm_compute. reflexivity. Qed.

Lemma create_backup_correct_witness :
  exists row,
    backups (w_pg (run service (create_backup ref_state (sample_claims 8)
                     (MkCreateBackupRequest "/data" true)) sample_world).2)
    = <[b_id row := row]> (backups (w_pg sample_world))
    /\ b_tenant_id row = uuid_of 8.
Proof.
  pose proof (create_backup_correct ref_state (sample_claims 8)
                (MkCreateBackupRequest "/data" true) sample_world eq_refl eq_refl) as Hc.
  destruct (run _ _ _) as [r w']. cbn in Hc.
  destruct Hc as [(row & _ & _ & Hm & Hrow & _)|[Hb _]]; [|].
  2: { destruct (Hb (uuid_of 1001) eq_refl) as [b Hx]. vm_compute in Hx. done. }
  exists row. split; [exact Hm|apply Hrow].
Defined.

Lemma update_backup_correct_witness :
  exists b',
    (run service (update_backup ref_state (sample_claims 7) (uuid_of 1)
       (MkUpdateBackupRequest (Some Completed) None)) sample_world).1 = Ok (response_of b')
    /\ b_status b' = "completed" /\ b_size_bytes b' = 0 /\ b_updated_at b' = 20.
Proof.
  pose proof (update_backup_correct ref_state (sample_claims 7) (uuid_of 1)
    (MkUpdateBackupRequest (Some Completed) None) sample_world sample_world_ok) as Hu.
  change (fault_now (w_pg sample_world)) with (@None DbFault) in Hu.
  assert (Hb : own_row (sample_claims 7) (uuid_of 1) sample_world = Some (sample_row 1 7 "pending" 10))
    by (vm_compute; reflexivity).
  rewrite Hb in Hu. destruct (run _ _ _) as [r w'].
  destruct Hu as (b' & Hr & (_ & Hst & Hsz & Hu) & _). exists b'. split; [exact Hr|].
  split; [exact Hst|]. split; [exact Hsz|exact Hu].
Defined.

(** The owner deletes the row; tenant 8 could not. *)
Lemma delete_backup_correct_witness :
  (run service (delete_backup ref_state (sample_claims 7) (uuid_of 1)) sample_world).1
  = Ok NO_CONTENT
  /\ (run service (delete_backup ref_state (sample_claims 8) (uuid_of 1)) sample_world).1
     = Err (backup_not_found (uuid_of 1)).
Proof.
  split.
  - pose proof (delete_backup_correct ref_state (sample_claims 7) (uuid_of 1) sample_world) as Hd.
    change (fault_now (w_pg sample_world)) with (@None DbFault) in Hd.
    assert (Hb : own_row (sample_claims 7) (uuid_of 1) sample_world
                 = Some (sample_row 1 7 "pending" 10)) by (vm_compute; reflexivity).
    rewrite Hb in Hd. destruct (run _ _ _) as [r w']. exact (proj1 Hd).
  - pose proof (delete_backup_correct ref_state (sample_claims 8) (uuid_of 1) sample_world) as Hd.
    change (fault_now (w_pg sample_world)) with (@None DbFault) in Hd.
    assert (Hb : own_row (sample_claims 8) (uuid_of 1) sample_world = None)
      by (vm_compute; reflexivity).
    rewrite Hb in Hd. destruct (run _ _ _) as [r w']. exact (proj1 Hd).
Defined.

(** A limit of 500 and an offset of -3: a page of at most 100 rows from 0. *)
Lemma list_backups_correct_witness :
  exists l w',
    run service (list_backups ref_state (sample_claims 7) (MkListParams (-3) 500 None))
      sample_world = (Ok l, w')
    /\ lr_limit l <= 100 /\ 0 <= lr_offset l /\ total l = 2.
Proof.
  destruct (list_backups_correct ref_state (sample_claims 7) (MkListParams (-3) 500 None)
    sample_world eq_refl sample_world_ok) as (l & w' & Hr & _ & Hl & Ho & _ & _ & Hp).
  exists l, w'. split; [exact Hr|]. split; [apply Hl|]. split; [exact Ho|].
  assert (Hc : cached_page ref_state (c_tenant_id (sample_claims 7)) (MkListParams (-3) 500 None)
                 sample_world = None) by (vm_compute; reflexivity).
  rewrite Hc in Hp. destruct Hp as [-> _]. vm_compute. reflexivity.
Defined.

Lemma enqueue_backup_correct_witness :
  exists p answer,
    amqp_publish p (w_broker sample_world)
      = (answer, w_broker (run service (enqueue_backup ref_state (sample_claims 7) (uuid_of 2))
                             sample_world).2)
    /\ job_from_json (p_payload p) = Ok (MkBackupJob (uuid_of 2) (uuid_of 7) "/data" false).
Proof.
  pose proof (enqueue_backup_correct ref_state (sample_claims 7) (uuid_of 2) sample_world
    eq_refl) as He.
  assert (Hb : own_row (sample_claims 7) (uuid_of 2) sample_world = Some (sample_row 2 7 "running" 12))
    by (vm_compute; reflexivity).
  rewrite Hb in He. destruct (run _ _ _) as [r w'].
  destruct He as (_ & _ & p & a & Hp & Hj & _). exists p, a. split; [exact Hp|exact Hj].
Defined.
