(* ===== verification/CacheSpec.v ===== *)
(** What the cache promises: it is a lossy map.  A value it returns for an identifier or a
    tenant was stored for that identifier or tenant; values may vanish at any time, and only
    the acknowledged commands are certain to have taken effect. *)

From S2P Require Import Prelude Codec Prog Models Errors SocketAddr Config RateLimit Db State.
From S2P Require Import Cache.

Section spec.
Context `{UuidCrate} `{SerdeJson} `{Postgres} `{RedisServer} `{Broker}.

(** The values a read of the identifier or of the tenant may return. *)
Definition may_hit (w : World) (id : Uuid) (b : Backup) : Prop :=
  exists v, redis_holds (w_redis w) (backup_key id) v /\ backup_from_json v = Ok b.
Definition may_hit_page (w : World) (t : Uuid) (p : list Backup * Z) : Prop :=
  exists v, redis_holds (w_redis w) (tenant_key t) v /\ page_from_json v = Ok p.

(** Nothing appears. *)
Definition forgets (w w' : World) : Prop :=
  (forall id b, may_hit w' id b -> may_hit w id b)
  /\ (forall t p, may_hit_page w' t p -> may_hit_page w t p).

Lemma shrinks_forgets (w w' : World) :
  redis_shrinks (w_redis w) (w_redis w') -> forgets w w'.
Proof using Type. intros Hs. split; intros k x (v & Hv & Hx); exists v; auto. Qed.

Lemma forgets_refl (w : World) : forgets w w.
Proof using Type. apply shrinks_forgets. by intros k v. Qed.

(** The acknowledgement of a command, when there is a server to send it to. *)
Definition set_acked (self : CacheLayer) (k v : string) (w : World) : Prop :=
  cl_redis self <> None /\ (redis_set_ex k v (ttl_now self w) (w_redis w)).1 = Ok tt.
Definition del_acked (self : CacheLayer) (k : string) (w : World) : Prop :=
  cl_redis self <> None /\ (redis_del k (w_redis w)).1 = Ok tt.

Lemma set_effect_holds `{!RedisLaws} (self : CacheLayer) (k : string)
    (j : result string SerdeError) (w : World) (k' v' : string) :
  redis_holds (w_redis (set_effect self k j w)) k' v' ->
  redis_holds (w_redis w) k' v' \/ (k' = k /\ j = Ok v' /\ ttl_now self w <> 0).
Proof using Type.
  unfold set_effect. destruct (cl_redis self), j as [v|e]; try by left.
  cbn [w_redis with_redis]. destruct (decide (ttl_now self w = 0)) as [->|Hne].
  - left. by apply (proj2 (redis_set_ex_zero k v _)).
  - intros [?|[-> ->]]%redis_set_ex_holds; auto.
Qed.

Lemma del_effect_acked `{!RedisLaws} (self : CacheLayer) (k : string) (w : World) (v : string) :
  del_acked self k w -> ~ redis_holds (w_redis (del_effect self k w)) k v.
Proof using Type.
  unfold del_effect. intros [Hc Hok]. destruct (cl_redis self); [|done].
  by apply redis_del_ok.
Qed.

(** What a read returns was there. *)
Lemma get_backup_may_hit `{!RedisLaws} (self : CacheLayer) (id : Uuid) (w : World) :
  let '(o, w') := run service (get_backup self id) w in
  (forall b, o = Some b -> may_hit w id b) /\ forgets w w'.
Proof using Type.
  rewrite run_get_backup. destruct (cl_redis self); [|by split; [|apply forgets_refl]].
  pose proof (redis_get_holds (backup_key id) (w_redis w)) as Hh.
  pose proof (redis_get_shrinks (backup_key id) (w_redis w)) as Hs.
  destruct (redis_get _ _) as [[v|e] s]; cbn [fst snd] in *; cbn [ok mbind option_bind];
    (split; [|by apply shrinks_forgets]); [|done].
  intros b Hb. exists v. split; [by apply Hh|]. destruct (backup_from_json v); cbn in Hb; congruence.
Qed.

Lemma get_tenant_backups_may_hit `{!RedisLaws} (self : CacheLayer) (t : Uuid) (w : World) :
  let '(o, w') := run service (get_tenant_backups self t) w in
  (forall p, o = Some p -> may_hit_page w t p) /\ forgets w w'.
Proof using Type.
  rewrite run_get_tenant_backups.
  destruct (cl_redis self); [|by split; [|apply forgets_refl]].
  pose proof (redis_get_holds (tenant_key t) (w_redis w)) as Hh.
  pose proof (redis_get_shrinks (tenant_key t) (w_redis w)) as Hs.
  destruct (redis_get _ _) as [[v|e] s]; cbn [fst snd] in *; cbn [ok mbind option_bind];
    (split; [|by apply shrinks_forgets]); [|done].
  intros p Hp. exists v. split; [by apply Hh|]. destruct (page_from_json v); cbn in Hp; congruence.
Qed.

(** A store adds at most the stored value, under its own key. *)
Lemma set_backup_may_hit `{!UuidLaws} `{!SerdeJsonLaws} `{!RedisLaws} (self : CacheLayer)
    (b : Backup) (w : World) :
  let w' := (run service (set_backup self b) w).2 in
  (forall id b', may_hit w' id b' ->
     may_hit w id b' \/ (id = b_id b /\ b' = b /\ ttl_now self w <> 0))
  /\ (forall t p, may_hit_page w' t p -> may_hit_page w t p)
  /\ (forall v, backup_to_json b = Ok v -> set_acked self (backup_key (b_id b)) v w ->
        forall b', may_hit w' (b_id b) b' -> b' = b).
Proof using Type.
  rewrite run_set_backup. cbn [snd]. split_and!.
  - intros id b' (v & Hv & Hb'). apply set_effect_holds in Hv as [Hv|(Hk & Hj & Ht)].
    + left. by exists v.
    + right. apply backup_key_inj in Hk. apply backup_json_roundtrip in Hj. split_and!; congruence.
  - intros t p (v & Hv & Hp). apply set_effect_holds in Hv as [Hv|(Hk & _)]; [by exists v|].
    by apply eq_sym, keys_disjoint in Hk.
  - intros v Hj [Hc Hok] b' (v' & Hv' & Hb'). revert Hv'. unfold set_effect.
    destruct (cl_redis self); [|done]. rewrite Hj. intros Hv'.
    apply redis_set_ex_ok in Hv' as ->; [|done].
    apply backup_json_roundtrip in Hj. congruence.
Qed.

Lemma set_tenant_backups_may_hit `{!UuidLaws} `{!SerdeJsonLaws} `{!RedisLaws}
    (self : CacheLayer) (t : Uuid) (l : list Backup) (n : Z) (w : World) :
  let w' := (run service (set_tenant_backups self t l n) w).2 in
  (forall id b, may_hit w' id b -> may_hit w id b)
  /\ (forall t' p, may_hit_page w' t' p ->
        may_hit_page w t' p \/ (t' = t /\ p = (l, n) /\ ttl_now self w <> 0))
  /\ (forall v, page_to_json (l, n) = Ok v -> set_acked self (tenant_key t) v w ->
        forall p, may_hit_page w' t p -> p = (l, n)).
Proof using Type.
  rewrite run_set_tenant_backups. cbn [snd]. split_and!.
  - intros id b (v & Hv & Hb). apply set_effect_holds in Hv as [Hv|(Hk & _)]; [by exists v|].
    by apply keys_disjoint in Hk.
  - intros t' p (v & Hv & Hp). apply set_effect_holds in Hv as [Hv|(Hk & Hj & Ht)].
    + left. by exists v.
    + right. apply tenant_key_inj in Hk. apply page_json_roundtrip in Hj. split_and!; congruence.
  - intros v Hj [Hc Hok] p (v' & Hv' & Hp). revert Hv'. unfold set_effect.
    destruct (cl_redis self); [|done]. rewrite Hj. intros Hv'.
    apply redis_set_ex_ok in Hv' as ->; [|done].
    apply page_json_roundtrip in Hj. congruence.
Qed.

(** *** The abstract specification *)

(** A lossy map from [K] to [V]: what a read returns was there; a store adds at most its value
    under its key, nothing at a TTL of zero, and replaces the old one when it is acknowledged;
    a removal adds nothing and, acknowledged, leaves nothing; values may vanish at any time. *)
Record lossy_map {K V P : Type} (hit : World -> K -> V -> Prop)
    (get : K -> Prog SEff (option V)) (put : P -> Prog SEff unit) (del : K -> Prog SEff unit)
    (key : P -> K) (value : P -> V) (ttl : World -> Z)
    (put_acked : P -> World -> Prop) (removal_acked : K -> World -> Prop) : Prop := {
  get_hits : forall k v w, (run service (get k) w).1 = Some v -> hit w k v;
  get_adds_nothing : forall k k' v w, hit (run service (get k) w).2 k' v -> hit w k' v;
  put_adds_one : forall p k v w, hit (run service (put p) w).2 k v ->
    hit w k v \/ (k = key p /\ v = value p /\ ttl w <> 0);
  put_replaces : forall p v w, put_acked p w ->
    hit (run service (put p) w).2 (key p) v -> v = value p;
  del_adds_nothing : forall k k' v w, hit (run service (del k) w).2 k' v -> hit w k' v;
  del_removes : forall k v w, removal_acked k w -> ~ hit (run service (del k) w).2 k v;
}.

(** A store of a value that serializes, answered with OK. *)
Definition put_acknowledged (self : CacheLayer) (k : string) (json : result string SerdeError)
    (w : World) : Prop :=
  exists v, json = Ok v /\ set_acked self k v w.

Definition row_map (self : CacheLayer) : Prop :=
  lossy_map may_hit (get_backup self) (set_backup self) (invalidate_backup self) b_id id
    (ttl_now self) (fun b => put_acknowledged self (backup_key (b_id b)) (backup_to_json b))
    (fun i => del_acked self (backup_key i)).

Definition page_map (self : CacheLayer) : Prop :=
  lossy_map may_hit_page (get_tenant_backups self)
    (fun p => set_tenant_backups self p.1 p.2.1 p.2.2) (invalidate_tenant_backups self) fst snd
    (ttl_now self) (fun p => put_acknowledged self (tenant_key p.1) (page_to_json p.2))
    (fun t => del_acked self (tenant_key t)).

Section contract.
Context `{!UuidLaws} `{!SerdeJsonLaws} `{!RedisLaws} (self : CacheLayer).

Lemma rows_lossy : row_map self.
Proof using Type*.
  split; cbn beta.
  - intros i b w Hb. pose proof (get_backup_may_hit self i w) as Hg.
    destruct (run _ _ w) as [o w']. by apply (proj1 Hg).
  - intros i i' b w. pose proof (get_backup_may_hit self i w) as Hg.
    destruct (run _ _ w) as [o w']. apply Hg.
  - intros b i c w. apply (set_backup_may_hit self b w).
  - intros b c w (v & Hv & Ha). by apply (set_backup_may_hit self b w) with (v := v).
  - intros i i' b w. rewrite run_invalidate_backup. apply shrinks_forgets, del_effect_shrinks.
  - intros i b w Ha (v & Hv & _). rewrite run_invalidate_backup in Hv.
    by eapply del_effect_acked.
Qed.

Lemma pages_lossy : page_map self.
Proof using Type*.
  split; cbn beta.
  - intros t p w Hp. pose proof (get_tenant_backups_may_hit self t w) as Hg.
    destruct (run _ _ w) as [o w']. by apply (proj1 Hg).
  - intros t t' p w. pose proof (get_tenant_backups_may_hit self t w) as Hg.
    destruct (run _ _ w) as [o w']. apply Hg.
  - intros [t [l n]] t' p w. apply (set_tenant_backups_may_hit self t l n w).
  - intros [t [l n]] p w (v & Hv & Ha).
    by apply (set_tenant_backups_may_hit self t l n w) with (v := v).
  - intros t t' p w. rewrite run_invalidate_tenant_backups.
    apply shrinks_forgets, del_effect_shrinks.
  - intros t p w Ha (v & Hv & _). rewrite run_invalidate_tenant_backups in Hv.
    by eapply del_effect_acked.
Qed.

(** C18. The cache is two lossy maps, of rows and of pages, under every failure of Redis, and
    they do not disturb each other: no operation on a row adds a page, and none on a page
    adds a row. *)
Theorem cache_lossy_map :
  row_map self /\ page_map self
  /\ (forall w b i t p,
        may_hit_page (run service (set_backup self b) w).2 t p
        \/ may_hit_page (run service (invalidate_backup self i) w).2 t p
        \/ may_hit_page (run service (get_backup self i) w).2 t p -> may_hit_page w t p)
  /\ (forall w q t i b,
        may_hit (run service (set_tenant_backups self t q.1 q.2) w).2 i b
        \/ may_hit (run service (invalidate_tenant_backups self t) w).2 i b
        \/ may_hit (run service (get_tenant_backups self t) w).2 i b -> may_hit w i b).
Proof using Type*.
  split; [apply rows_lossy|]. split; [apply pages_lossy|]. split.
  - intros w b i t p [Hp|[Hp|Hp]].
    + by apply (set_backup_may_hit self b w) in Hp.
    + rewrite run_invalidate_backup in Hp.
      eapply shrinks_forgets; [apply del_effect_shrinks|exact Hp].
    + pose proof (get_backup_may_hit self i w) as Hg. destruct (run _ _ w) as [o w'].
      by apply Hg.
  - intros w [l n] t i b [Hb|[Hb|Hb]].
    + by apply (set_tenant_backups_may_hit self t l n w) in Hb.
    + rewrite run_invalidate_tenant_backups in Hb.
      eapply shrinks_forgets; [apply del_effect_shrinks|exact Hb].
    + pose proof (get_tenant_backups_may_hit self t w) as Hg. destruct (run _ _ w) as [o w'].
      by apply Hg.
Qed.
End contract.

(** Without a connection the cache is inert. *)
Lemma cache_disabled (self : CacheLayer) (b : Backup) (id : Uuid) (w : World) :
  cl_redis self = None ->
  run service (get_backup self id) w = (None, w)
  /\ run service (set_backup self b) w = (tt, w)
  /\ run service (invalidate_backup self id) w = (tt, w)
  /\ run service (ping self) w = (false, w).
Proof using Type.
  intros Hc. unfold get_backup, set_backup, invalidate_backup, ping. by rewrite Hc.
Qed.
End spec.

#[local] Existing Instance Reference.uuids.
#[local] Existing Instance Reference.uuids_laws.
#[local] Existing Instance Reference.json.
#[local] Existing Instance Reference.row_json_laws.
#[local] Existing Instance ReferenceDb.server.
#[local] Existing Instance ReferenceRedis.server.
#[local] Existing Instance ReferenceRedis.redis_server_laws.
#[local] Existing Instance ReferenceBroker.broker.

(** After storing a row in an empty cache, that row and no other can be read. *)
Lemma cache_lossy_map_witness :
  let b := sample_row 1 7 "pending" 10 in
  let w := ref_world [b] ReferenceRedis.empty 20 in
  let w' := (run service (set_backup (cache ref_state) b) w).2 in
  may_hit w' (uuid_of 1) b /\ (forall c, may_hit w' (uuid_of 1) c -> c = b).
Proof.
  intros b w w'. split; [by exists (encode_text b)|]. intros c Hc.
  destruct (cache_lossy_map (cache ref_state)) as ([_ _ _ Hs _ _] & _).
  refine (Hs b c w _ Hc). exists (encode_text b).
  split; [reflexivity|split; [discriminate|reflexivity]].
Defined.
