(* ===== verification/Endpoints.v ===== *)
(** The backup endpoints as calls with an HTTP answer: the operations a client can ask for
    ([BackupOp]) and, for each, its handler with the [IntoResponse] of its result. *)

From S2P Require Import Prelude Prog Models Errors SocketAddr Config Merge RateLimit.
From S2P Require Import Entropy Db State Cache Jobs Backups.
Local Open Scope prog_scope.

(** [Result<_, AppError>] of a handler as a response. *)
Definition respond {A} (ok_response : A -> Response) (p : Prog SEff (result A AppError))
    : Prog SEff Response :=
  r <- p ;;
  Ret (match r with Ok a => ok_response a | Err e => into_response e end).

(** [(StatusCode, Json(..))], and [Json(..)] alone, which is a 200. *)
Definition json_response (st : StatusCode) (b : Body) : Response :=
  {| status := st; headers := []; body := b |}.

Inductive BackupOp : Type :=
  | CreateOp (req : CreateBackupRequest)
  | GetOp (id : Uuid)
  | ListOp (params : ListParams)
  | UpdateOp (id : Uuid) (req : UpdateBackupRequest)
  | DeleteOp (id : Uuid)
  | AnalyzeOp (id : Uuid)
  | EnqueueOp (id : Uuid).

(** The identifier in the path. *)
Definition op_target (op : BackupOp) : option Uuid :=
  match op with
  | GetOp id | UpdateOp id _ | DeleteOp id | AnalyzeOp id | EnqueueOp id => Some id
  | CreateOp _ | ListOp _ => None
  end.

Section endpoints.
Context `{UuidCrate} `{SerdeJson} `{JobJson} `{Libm}.

Definition serve_op (state : AppState) (claims : Claims) (op : BackupOp) : Prog SEff Response :=
  match op with
  | CreateOp req =>
      respond (fun p => json_response p.1 (JsonBackup p.2)) (create_backup state claims req)
  | GetOp id => respond (fun r => json_response OK (JsonBackup r)) (get_backup state claims id)
  | ListOp params =>
      respond (fun l => json_response OK (JsonBackups l)) (list_backups state claims params)
  | UpdateOp id req =>
      respond (fun r => json_response OK (JsonBackup r)) (update_backup state claims id req)
  | DeleteOp id =>
      respond (fun st => json_response st NoBody) (delete_backup state claims id)
  | AnalyzeOp id =>
      respond (fun r => json_response OK (JsonBackup r)) (analyze_backup state claims id)
  | EnqueueOp id =>
      respond (fun p => json_response p.1 (JsonValue p.2)) (enqueue_backup state claims id)
  end.
End endpoints.

Lemma run_respond `{Postgres} `{RedisServer} `{Broker} {A} (f : A -> Response)
    (p : Prog SEff (result A AppError)) (w : World) :
  run service (respond f p) w =
  let '(r, w') := run service p w in
  (match r with Ok a => f a | Err e => into_response e end, w').
Proof. unfold respond. rewrite run_bind. by destruct (run service p w). Qed.
