(* ===== verification/Coherence.v ===== *)
(** Refinement: with Redis up, the cached endpoints answer as a plain table would.  The
    specification [allowed] says, for each operation, which responses and which new tables
    are right for a table; the theorem says that any sequence of requests served one after
    the other, with keys expiring and time passing in between, is a history of that table.
    The invariant is that every cached value is what the table holds now. *)

From S2P Require Import Prelude Codec Prog Models Errors SocketAddr Config Merge RateLimit.
From S2P Require Import Entropy Db State Cache Jobs Backups BackupsSpec BackupsProps.
From S2P Require Import CacheSpec Endpoints.

(** ** The specification: a table *)

Abbreviation Table := (gmap Uuid Backup).

Definition at_table (m : Table) (now : DateTime) : Pg := MkPg m now 0 [].

Section spec.
Context `{UuidCrate} `{Libm}.

Definition owned (claims : Claims) (m : Table) (id : Uuid) : option Backup :=
  select_backup id (c_tenant_id claims) (at_table m 0).

Inductive allowed (claims : Claims) (now : DateTime) (m : Table)
    : BackupOp -> Response -> Table -> Prop :=
  | allow_invalid req e :
      validate_source_path (req_source_path req) = Err e ->
      allowed claims now m (CreateOp req) (into_response e) m
  | allow_create req row :
      is_ok (validate_source_path (req_source_path req)) = true ->
      m !! b_id row = None -> fresh_row claims req now row ->
      allowed claims now m (CreateOp req)
        (json_response CREATED (JsonBackup (response_of row))) (<[b_id row := row]> m)
  | allow_no_identifier req e :
      is_ok (validate_source_path (req_source_path req)) = true ->
      e = no_random_values \/ (e = unique_violation /\ m <> ∅) ->
      allowed claims now m (CreateOp req) (into_response (Database e)) m
  | allow_missing op id :
      op_target op = Some id -> owned claims m id = None ->
      allowed claims now m op (into_response (backup_not_found id)) m
  | allow_get id b :
      owned claims m id = Some b ->
      allowed claims now m (GetOp id) (json_response OK (JsonBackup (response_of b))) m
  | allow_list params limit offset page :
      limit = clamp (lp_limit params) 1 100 -> offset = Z.max (lp_offset params) 0 ->
      let p := list_filter (c_tenant_id claims) (lp_status params) in
      is_page p limit offset (at_table m now) page ->
      allowed claims now m (ListOp params)
        (json_response OK (JsonBackups
           (list_response (page, count_rows p (at_table m now)) limit offset))) m
  | allow_update id req b :
      owned claims m id = Some b ->
      let b' := set_columns (option_map status_to_string (req_status req)) (req_size_bytes req)
                  now b in
      allowed claims now m (UpdateOp id req)
        (json_response OK (JsonBackup (response_of b'))) (<[id := b']> m)
  | allow_delete id b :
      owned claims m id = Some b ->
      allowed claims now m (DeleteOp id) (json_response NO_CONTENT NoBody) (delete id m)
  | allow_analyze id b :
      owned claims m id = Some b ->
      allowed claims now m (AnalyzeOp id)
        (json_response OK (JsonBackup (with_entropy (response_of b)
           (shannon_entropy (synthetic_data (b_source_path b) 4096))))) m
  | allow_enqueue id b :
      owned claims m id = Some b ->
      allowed claims now m (EnqueueOp id) (json_response ACCEPTED (JsonValue (enqueued id))) m
  | allow_internal op id b e :
      op = AnalyzeOp id \/ op = EnqueueOp id -> owned claims m id = Some b ->
      allowed claims now m op (into_response (Internal e)) m.
End spec.

(** ** Tables with the same rows of a kind *)

Lemma rows_where_perm (p : Backup -> bool) (db1 db2 : Pg) :
  table_ok db1 -> table_ok db2 ->
  (forall id b, p b = true -> backups db1 !! id = Some b <-> backups db2 !! id = Some b) ->
  Permutation (rows_where p db1) (rows_where p db2).
Proof.
  intros Hok1 Hok2 Heq. apply NoDup_Permutation.
  1,2: eapply NoDup_fmap_1; by apply rows_where_NoDup.
  intros b. rewrite !rows_where_elem. naive_solver.
Qed.

Lemma is_page_perm (p : Backup -> bool) (l o : Z) (db1 db2 : Pg) (page : list Backup) :
  Permutation (rows_where p db1) (rows_where p db2) ->
  is_page p l o db1 page -> is_page p l o db2 page.
Proof.
  intros Hp (ord & Ho & Hs & ->). exists ord. by rewrite <-Hp.
Qed.

Lemma count_rows_perm (p : Backup -> bool) (db1 db2 : Pg) :
  Permutation (rows_where p db1) (rows_where p db2) -> count_rows p db1 = count_rows p db2.
Proof. intros Hp. unfold count_rows. by rewrite (Permutation_length Hp). Qed.

(** ** Coherence *)

Section coherence.
Context `{UuidCrate} `{SerdeJson} `{JobJson} `{Libm}.
Context `{PG : Postgres} `{RedisServer} `{Broker}.
Context (state : AppState).

(** The page that the configuration caches. *)
Definition is_cached_page (w : World) (t : Uuid) (p : list Backup * Z) : Prop :=
  is_page (of_tenant t) (cached_list_limit (w_config w)) (cached_list_offset (w_config w))
    (w_pg w) p.1
  /\ p.2 = count_rows (of_tenant t) (w_pg w).

(** Every cached value is what the table holds now. *)
Definition coherent (w : World) : Prop :=
  cl_redis (cache state) = None
  \/ (forall id b, may_hit w id b -> backups (w_pg w) !! id = Some b)
     /\ (forall t p, may_hit_page w t p -> is_cached_page w t p).

Context `{!RedisUp}.

Definition inv (w : World) : Prop :=
  quiet w /\ table_ok (w_pg w) /\ redis_up (w_redis w) /\ coherent w.

(** What happens between two requests: time passes, keys expire; the rest of the world may
    change, but not the table, nor which page is cached. *)
Definition between (w w' : World) : Prop :=
  backups (w_pg w') = backups (w_pg w) /\ quiet w'
  /\ redis_shrinks (w_redis w) (w_redis w') /\ redis_up (w_redis w')
  /\ cached_list_limit (w_config w') = cached_list_limit (w_config w)
  /\ cached_list_offset (w_config w') = cached_list_offset (w_config w).

Lemma is_cached_page_same (w w' : World) (t : Uuid) (p : list Backup * Z) :
  backups (w_pg w') = backups (w_pg w) ->
  cached_list_limit (w_config w') = cached_list_limit (w_config w) ->
  cached_list_offset (w_config w') = cached_list_offset (w_config w) ->
  is_cached_page w t p -> is_cached_page w' t p.
Proof using Type.
  intros Hb Hl Ho. unfold is_cached_page, is_page, count_rows, rows_where.
  by rewrite Hb, Hl, Ho.
Qed.

Lemma between_inv (w w' : World) : inv w -> between w w' -> inv w'.
Proof using Type.
  intros (_ & Hok & _ & Hco) (Hb & Hq & Hs & Hup & Hl & Ho). split; [done|].
  split; [unfold table_ok; by rewrite Hb|]. split; [done|].
  destruct Hco as [?|[Hrow Hpage]]; [by left|right].
  apply shrinks_forgets in Hs as [Hf1 Hf2]. split.
  - intros id b Hh. rewrite Hb. by apply Hrow, Hf1.
  - intros t p Hh. eapply is_cached_page_same; [done|done|done|]. by apply Hpage, Hf2.
Qed.

(** A change to one row, with that row's entry and its tenant's list evicted. *)
Lemma change_inv (w w' : World) (id t : Uuid) :
  inv w -> quiet w' -> table_ok (w_pg w') -> redis_up (w_redis w') ->
  redis_shrinks (w_redis w) (w_redis w') -> w_config w' = w_config w ->
  (forall i, i <> id -> backups (w_pg w') !! i = backups (w_pg w) !! i) ->
  (forall b, backups (w_pg w) !! id = Some b \/ backups (w_pg w') !! id = Some b ->
     b_tenant_id b = t) ->
  (cl_redis (cache state) = None \/ forall b, ~ may_hit w' id b) ->
  evicted state (tenant_key t) w' ->
  inv w'.
Proof using Type.
  intros (_ & Hok & _ & Hco) Hq' Hok' Hup' Hs Hcfg Hother Htenant Hid Ht.
  split; [done|]. split; [done|]. split; [done|].
  destruct Hco as [?|[Hrow Hpage]]; [by left|]. destruct Hid as [?|Hid]; [by left|].
  destruct Ht as [?|Ht]; [by left|]. right. apply shrinks_forgets in Hs as [Hf1 Hf2]. split.
  - intros i b Hh. destruct (decide (i = id)) as [->|Hne]; [by edestruct Hid|].
    rewrite Hother by done. by apply Hrow, Hf1.
  - intros t' p Hh. destruct (decide (t' = t)) as [->|Hne].
    { destruct Hh as (v & Hv & _). by edestruct Ht. }
    destruct (Hpage t' p (Hf2 _ _ Hh)) as [Hpg Hn]. unfold is_cached_page. rewrite Hcfg, Hn.
    assert (Hperm : Permutation (rows_where (of_tenant t') (w_pg w))
                      (rows_where (of_tenant t') (w_pg w'))).
    { apply rows_where_perm; [done|done|]. intros i b Hp.
      destruct (decide (i = id)) as [->|]; [|by rewrite Hother].
      apply bool_decide_eq_true in Hp.
      split; intros Hb; exfalso; apply Hne; rewrite <-Hp; eauto. }
    split; [by eapply is_page_perm|by apply count_rows_perm].
Qed.

Lemma evicted_may_hit (id : Uuid) (w : World) :
  evicted state (backup_key id) w ->
  cl_redis (cache state) = None \/ forall b, ~ may_hit w id b.
Proof using Type. intros [?|Hn]; [by left|right]. intros b (v & Hv & _). by eapply Hn. Qed.

Lemma tick_between (w : World) : inv w -> between w (tick w).
Proof using Type.
  intros (Hq & _ & Hup & _). split_and!; try done. by apply begin_exec_quiet.
Qed.

Lemma get_effect_between `{!RedisLaws} (k : string) (w : World) :
  inv w -> between w (get_effect state k w).
Proof using Type.
  intros (Hq & _ & Hup & _). unfold get_effect. destruct (cl_redis _).
  - split_and!; try done; [apply redis_get_shrinks|by apply up_get].
  - by split_and!.
Qed.

Lemma set_effect_other (self : CacheLayer) (k : string) (j : result string SerdeError)
    (w : World) :
  quiet (set_effect self k j w) = quiet w /\ w_pg (set_effect self k j w) = w_pg w
  /\ w_config (set_effect self k j w) = w_config w
  /\ (redis_up (w_redis w) -> redis_up (w_redis (set_effect self k j w))).
Proof using Type.
  unfold set_effect. destruct (cl_redis self), j; try by split_and!.
  split_and!; try done. apply up_set_ex.
Qed.

(** Storing what the table holds. *)
Lemma set_row_inv `{!UuidLaws} `{!SerdeJsonLaws} `{!RedisLaws} (id : Uuid) (b : Backup)
    (w : World) :
  inv w -> backups (w_pg w) !! id = Some b ->
  inv (set_effect (cache state) (backup_key (b_id b)) (backup_to_json b) w).
Proof using Type PG.
  intros (Hq & Hok & Hup & Hco) Hb.
  destruct (set_effect_other (cache state) (backup_key (b_id b)) (backup_to_json b) w)
    as (Eq & Hpg & Hcfg & Hup').
  unfold inv, coherent, is_cached_page. rewrite Eq, Hpg, Hcfg.
  split; [done|]. split; [done|]. split; [by apply Hup'|].
  destruct Hco as [?|[Hrow Hpage]]; [by left|right].
  pose proof (set_backup_may_hit (cache state) b w) as Hset. rewrite run_set_backup in Hset.
  destruct Hset as (Hset & Hlist & _). split.
  - intros i c [Hc|(-> & -> & _)]%Hset; [by apply Hrow|].
    by destruct (Hok id b Hb) as [-> _].
  - intros t p Hp%Hlist. by apply Hpage.
Qed.

Lemma set_page_inv `{!UuidLaws} `{!SerdeJsonLaws} `{!RedisLaws} (t : Uuid)
    (p : list Backup * Z) (w : World) :
  inv w -> is_cached_page w t p ->
  inv (set_effect (cache state) (tenant_key t) (page_to_json p) w).
Proof using Type PG.
  intros (Hq & Hok & Hup & Hco) Hp.
  destruct (set_effect_other (cache state) (tenant_key t) (page_to_json p) w)
    as (Eq & Hpg & Hcfg & Hup').
  unfold inv, coherent, is_cached_page. rewrite Eq, Hpg, Hcfg.
  split; [done|]. split; [done|]. split; [by apply Hup'|].
  destruct Hco as [?|[Hrow Hpage]]; [by left|right].
  destruct p as [items n].
  pose proof (set_tenant_backups_may_hit (cache state) t items n w) as Hset.
  rewrite run_set_tenant_backups in Hset. destruct Hset as (Hset & Hlist & _). split.
  - intros i c Hc%Hset. by apply Hrow.
  - intros t' p' [Hc|(-> & -> & _)]%Hlist; [by apply Hpage|done].
Qed.

(** *** The operations, one by one *)

Context `{!PostgresLaws} `{!UuidLaws} `{!SerdeJsonLaws} `{!RedisLaws}.

Definition refines_at (claims : Claims) (op : BackupOp) (w : World) : Prop :=
  let '(resp, w') := run service (serve_op state claims op) w in
  allowed claims (pg_clock (w_pg w)) (backups (w_pg w)) op resp (backups (w_pg w')) /\ inv w'.

Lemma inv_tick (w : World) : inv w -> inv (tick w).
Proof using Type. intros Hi. by eapply between_inv, tick_between. Qed.

Lemma inv_get_effect (k : string) (w : World) : inv w -> inv (get_effect state k w).
Proof using Type*. intros Hi. by eapply between_inv, get_effect_between. Qed.

Lemma get_effect_pg (k : string) (w : World) :
  w_pg (get_effect state k w) = w_pg w /\ w_config (get_effect state k w) = w_config w.
Proof using Type. unfold get_effect. by destruct (cl_redis _). Qed.

Lemma cached_own_current (claims : Claims) (id : Uuid) (w : World) (b : Backup) :
  inv w -> cached_own state claims id w = Some b -> own_row claims id w = Some b.
Proof using Type*.
  intros (_ & _ & _ & Hco). unfold cached_own. destruct (cl_redis _) eqn:Ec; [|done].
  destruct Hco as [?|[Hrow _]]; [congruence|].
  destruct (redis_get (backup_key id) (w_redis w)) as [[v|err] s'] eqn:Eg; [|done].
  cbn [fst ok mbind option_bind]. destruct (backup_from_json v) as [row|err] eqn:Ej; [|done].
  cbn [ok mbind option_bind]. case_bool_decide; [|done]. intros [= ->].
  apply select_backup_spec. split; [|done]. apply Hrow. exists v. split; [|done].
  apply (redis_get_holds (backup_key id)). by rewrite Eg.
Qed.

Lemma cached_page_current (t : Uuid) (params : ListParams) (w : World) p :
  inv w -> cached_page state t params w = Some p ->
  lp_status params = None /\ Z.max (lp_offset params) 0 = cached_list_offset (w_config w)
  /\ clamp (lp_limit params) 1 100 = cached_list_limit (w_config w)
  /\ is_cached_page w t p.
Proof using Type*.
  intros (_ & _ & _ & Hco). unfold cached_page, use_list_cache.
  destruct (lp_status params); [done|]. cbn [andb].
  destruct (Z.eqb_spec (Z.max (lp_offset params) 0) (cached_list_offset (w_config w))); [|done].
  destruct (Z.eqb_spec (clamp (lp_limit params) 1 100) (cached_list_limit (w_config w))); [|done].
  cbn [andb]. destruct (cl_redis _) eqn:Ec; [|done].
  destruct Hco as [?|[_ Hpage]]; [congruence|].
  destruct (redis_get (tenant_key t) (w_redis w)) as [[v|err] s'] eqn:Eg; [|done].
  cbn [fst ok mbind option_bind]. intros Hp. split_and!; try done. apply Hpage. exists v. split.
  - apply (redis_get_holds (tenant_key t)). by rewrite Eg.
  - destruct (page_from_json v); cbn in Hp; congruence.
Qed.

Lemma get_refines (claims : Claims) (id : Uuid) (w : World) :
  inv w -> refines_at claims (GetOp id) w.
Proof using Type*.
  intros Hi. unfold refines_at. cbn [serve_op].
  rewrite run_respond, run_get_backup_handler by apply Hi. cbv zeta.
  pose proof (inv_get_effect (backup_key id) w Hi) as Hi1.
  destruct (get_effect_pg (backup_key id) w) as [Hpg _].
  destruct (cached_own state claims id w) as [b|] eqn:Hc.
  - apply cached_own_current in Hc; [|done]. rewrite Hpg. split; [by constructor|done].
  - destruct (own_row claims id w) as [b|] eqn:Hb.
    + rewrite set_effect_pg. cbn [tick with_pg w_pg begin_exec backups snd]. rewrite Hpg.
      split; [by constructor|]. apply select_backup_spec in Hb as [Hb _].
      eapply set_row_inv; [by apply inv_tick|]. cbn. by rewrite Hpg.
    + cbn [tick with_pg w_pg begin_exec backups snd]. rewrite Hpg.
      split; [by constructor|by apply inv_tick].
Qed.

Lemma list_refines (claims : Claims) (params : ListParams) (w : World) :
  inv w -> refines_at claims (ListOp params) w.
Proof using Type*.
  intros Hi. unfold refines_at. cbn [serve_op].
  rewrite run_respond, run_list_backups by apply Hi. cbv zeta.
  set (t := c_tenant_id claims). set (use := use_list_cache params (w_config w)).
  set (w1 := if use then get_effect state (tenant_key t) w else w).
  assert (Hi1 : inv w1) by (unfold w1; destruct use; [by apply inv_get_effect|done]).
  assert (Hw1 : w_pg w1 = w_pg w /\ w_config w1 = w_config w)
    by (unfold w1; destruct use; [apply get_effect_pg|done]). destruct Hw1 as [Hpg Hcfg].
  destruct (cached_page state t params w) as [p|] eqn:Hc.
  - apply cached_page_current in Hc as (Hst & Ho & Hl & [Hp Hn]); [|done].
    rewrite Hpg. split; [|done]. destruct p as [page n]. cbn [fst snd] in *. rewrite Hn.
    pose proof (allow_list claims (pg_clock (w_pg w)) (backups (w_pg w)) params _ _ page
      eq_refl eq_refl) as Ha.
    rewrite Hst in Ha. apply Ha. by rewrite Hl, Ho.
  - set (p := page_of _ _ _ _ _).
    assert (Hp : is_page (list_filter t (lp_status params)) (clamp (lp_limit params) 1 100)
                   (Z.max (lp_offset params) 0) (w_pg w) p) by apply page_of_is_page.
    assert (Hi2 : inv (tick (tick w1))) by (by apply inv_tick, inv_tick).
    split.
    + assert (Hm : backups (w_pg (tick (tick w1))) = backups (w_pg w)) by (cbn; by rewrite Hpg).
      case_match; rewrite ?set_effect_pg, Hm; by apply allow_list.
    + destruct use eqn:Eu; [|done]. apply set_page_inv; [done|].
      unfold use, use_list_cache in Eu. destruct (lp_status params); [done|]. cbn [andb] in Eu.
      apply andb_true_iff in Eu as [Eo%Z.eqb_eq El%Z.eqb_eq].
      apply (is_cached_page_same w); [cbn; by rewrite Hpg|cbn; by rewrite Hcfg..|].
      split; [by rewrite <-Eo, <-El|done].
Qed.

Lemma del_effect_other (k : string) (w : World) :
  quiet (del_effect (cache state) k w) = quiet w
  /\ w_pg (del_effect (cache state) k w) = w_pg w
  /\ w_config (del_effect (cache state) k w) = w_config w.
Proof using Type. unfold del_effect. by destruct (cl_redis _). Qed.

(** What follows every write: the row's and the tenant's entries are deleted. *)
Lemma write_inv (id t : Uuid) (m : Table) (w : World) :
  inv w -> table_ok (with_backups m (w_pg w)) ->
  (forall i, i <> id -> m !! i = backups (w_pg w) !! i) ->
  (forall b, backups (w_pg w) !! id = Some b \/ m !! id = Some b -> b_tenant_id b = t) ->
  inv (del_effect (cache state) (tenant_key t)
         (del_effect (cache state) (backup_key id) (with_rows m w))).
Proof using Type*.
  intros Hi Hok Hm Ht. pose proof Hi as (Hq & _ & Hup & _).
  destruct (two_dels_evict state (backup_key id) (tenant_key t) (with_rows m w) Hup)
    as (Hk1 & Hk2 & Hup').
  eapply (change_inv _ _ id t); try done.
  - unfold quiet. autorewrite with world. by apply begin_exec_quiet.
  - autorewrite with world. exact Hok.
  - etrans; [|apply del_effect_shrinks]. apply (del_effect_shrinks _ _ (with_rows m w)).
  - by autorewrite with world.
  - by autorewrite with world.
  - by autorewrite with world.
  - by apply evicted_may_hit.
Qed.

Lemma update_refines (claims : Claims) (id : Uuid) (req : UpdateBackupRequest) (w : World) :
  inv w -> refines_at claims (UpdateOp id req) w.
Proof using Type*.
  intros Hi. unfold refines_at. cbn [serve_op].
  rewrite run_respond, run_update_backup by first [apply quiet_fault_now, Hi|apply Hi].
  destruct (own_row claims id w) as [b|] eqn:Hb;
    [|split; [by constructor|by apply inv_tick]].
  cbv beta iota zeta. autorewrite with world. split; [by constructor|].
  apply select_backup_spec in Hb as [Hb Ht]. pose proof Hi as (_ & Hok & _).
  destruct (Hok id b Hb) as [Hid Hst]. apply write_inv; [done| | |].
  - intros i c. cbn [with_backups backups]. destruct (decide (i = id)) as [->|Hne].
    + rewrite lookup_insert_eq. intros [= <-]. split; [done|]. cbn.
      destruct (req_status req); [apply status_check_to_string|done].
    + rewrite lookup_insert_ne by done. apply Hok.
  - intros i Hne. by rewrite lookup_insert_ne.
  - rewrite lookup_insert_eq, Hb. by intros c [[= <-]|[= <-]].
Qed.

Lemma delete_refines (claims : Claims) (id : Uuid) (w : World) :
  inv w -> refines_at claims (DeleteOp id) w.
Proof using Type*.
  intros Hi. unfold refines_at. cbn [serve_op].
  rewrite run_respond, run_delete_backup by apply quiet_fault_now, Hi.
  destruct (own_row claims id w) as [b|] eqn:Hb;
    [|split; [by constructor|by apply inv_tick]].
  cbv beta iota zeta. autorewrite with world. split; [by econstructor|].
  apply select_backup_spec in Hb as [Hb Ht]. pose proof Hi as (_ & Hok & _).
  apply write_inv; [done| | |].
  - intros i c. cbn [with_backups backups]. intros [_ Hc]%lookup_delete_Some. by apply Hok.
  - intros i Hne. by rewrite lookup_delete_ne.
  - rewrite lookup_delete_eq, Hb. by intros c [[= <-]|?].
Qed.

Lemma create_refines (claims : Claims) (req : CreateBackupRequest) (w : World) :
  inv w -> refines_at claims (CreateOp req) w.
Proof using Type*.
  intros Hi. unfold refines_at. cbn [serve_op]. rewrite run_respond.
  destruct (validate_source_path (req_source_path req)) as [[]|e] eqn:Hv.
  2: { unfold create_backup. rewrite Hv. split; [by constructor|done]. }
  assert (Hvok : is_ok (validate_source_path (req_source_path req)) = true) by (by rewrite Hv).
  rewrite run_create_backup by (done || apply Hi). cbv zeta.
  destruct (gen_random_uuid _) as [id|].
  2: { split; [apply allow_no_identifier; [done|by left]|by apply inv_tick]. }
  destruct (backups (w_pg w) !! id) as [b|] eqn:Hid.
  { split; [|by apply inv_tick]. apply allow_no_identifier; [done|]. right. split; [done|].
    intros He. change (backups (w_pg w) = ∅) in He. by rewrite He in Hid. }
  cbv beta iota zeta. autorewrite with world.
  split; [by apply (allow_create _ _ _ _ (MkBackup _ _ _ _ _ _ _ _))|].
  pose proof Hi as (Hq & Hok & Hup & Hco).
  set (row := MkBackup _ _ _ _ _ _ _ _).
  destruct (del_effect_evicts state (tenant_key (c_tenant_id claims))
    (with_rows (<[id := row]> (backups (w_pg w))) w) Hup) as [Ht Hup'].
  eapply (change_inv _ _ id (c_tenant_id claims)); try done.
  - unfold quiet. autorewrite with world. by apply begin_exec_quiet.
  - autorewrite with world. intros i c. cbn [with_rows w_pg with_pg with_backups backups].
    destruct (decide (i = id)) as [->|Hne].
    + rewrite lookup_insert_eq. by intros [= <-].
    + rewrite lookup_insert_ne by done. apply Hok.
  - apply (del_effect_shrinks _ _ (with_rows (<[id := row]> (backups (w_pg w))) w)).
  - by autorewrite with world.
  - intros i Hne. autorewrite with world. cbn. by rewrite lookup_insert_ne.
  - autorewrite with world. cbn. rewrite Hid, lookup_insert_eq. by intros c [?|[= <-]].
  - destruct Hco as [?|[Hrow _]]; [by left|right]. intros c (v & Hv1 & Hv2).
    apply del_effect_shrinks in Hv1. rewrite (Hrow id c) in Hid; [done|]. by exists v.
Qed.

Lemma analyze_refines (claims : Claims) (id : Uuid) (w : World) :
  inv w -> refines_at claims (AnalyzeOp id) w.
Proof using Type*.
  intros Hi. unfold refines_at. cbn [serve_op].
  rewrite run_respond, run_analyze_backup by apply Hi.
  destruct (own_row claims id w) as [b|] eqn:Hb;
    [|split; [by constructor|by apply inv_tick]].
  split; [|by apply inv_tick]. destruct (joined w).
  - eapply allow_internal; [by left|done].
  - by constructor.
Qed.

Lemma enqueue_refines (claims : Claims) (id : Uuid) (w : World) :
  inv w -> refines_at claims (EnqueueOp id) w.
Proof using Type*.
  intros Hi. unfold refines_at. cbn [serve_op].
  rewrite run_respond, run_enqueue_backup by apply Hi.
  destruct (own_row claims id w) as [b|] eqn:Hb;
    [|split; [by constructor|by apply inv_tick]].
  destruct (amqp_channel state).
  - destruct (amqp_publish _ _) as [[[]|e] q]; (split; [|by apply inv_tick]).
    + by econstructor.
    + eapply allow_internal; [by right|done].
  - split; [|by apply inv_tick]. eapply allow_internal; [by right|done].
Qed.

Lemma serve_op_refines (claims : Claims) (op : BackupOp) (w : World) :
  inv w -> refines_at claims op w.
Proof using Type*.
  intros Hi. destruct op; auto using create_refines, get_refines, list_refines, update_refines,
    delete_refines, analyze_refines, enqueue_refines.
Qed.

(** *** Histories *)

Record Event : Type := MkEvent {
  ev_claims : Claims;
  ev_op : BackupOp;
  ev_now : DateTime;
  ev_response : Response;
}.

(** The service: requests one after the other, and the environment in between. *)
Inductive history : World -> list Event -> World -> Prop :=
  | history_nil w : history w [] w
  | history_request w claims op es w' :
      history (run service (serve_op state claims op) w).2 es w' ->
      history w (MkEvent claims op (pg_clock (w_pg w))
                   (run service (serve_op state claims op) w).1 :: es) w'
  | history_between w w1 es w' :
      between w w1 -> history w1 es w' -> history w es w'.

(** The table: each response is right for the table it meets. *)
Inductive table_history : Table -> list Event -> Table -> Prop :=
  | table_nil m : table_history m [] m
  | table_request m m1 e es m' :
      allowed (ev_claims e) (ev_now e) m (ev_op e) (ev_response e) m1 ->
      table_history m1 es m' -> table_history m (e :: es) m'.

(** With Redis up, the service refines a plain table: any sequence of create, read,
    list, update, delete, analyze and enqueue requests of any tenants, served one after the
    other, with time passing and cache entries expiring in between, receives only responses
    that are right for the table at that moment, as if there were no cache; and the cache
    is still coherent at the end. *)
Theorem cached_service_refines_table (w w' : World) (es : list Event) :
  inv w -> history w es w' ->
  table_history (backups (w_pg w)) es (backups (w_pg w')) /\ inv w'.
Proof using Type*.
  intros Hi Hh. induction Hh as [w|w claims op es w' Hh IH|w w1 es w' Hb Hh IH].
  - split; [constructor|done].
  - pose proof (serve_op_refines claims op w Hi) as Hr. unfold refines_at in Hr.
    destruct (run service _ w) as [resp w1]. cbn [fst snd] in *. destruct Hr as [Ha Hi1].
    destruct (IH Hi1) as [Ht ?]. split; [|done]. by econstructor.
  - destruct (IH (between_inv _ _ Hi Hb)) as [Ht ?]. destruct Hb as [<- _]. by split.
Qed.
End coherence.

(** ** Witness *)

#[local] Existing Instance Reference.uuids.
#[local] Existing Instance Reference.uuids_laws.
#[local] Existing Instance Reference.json.
#[local] Existing Instance Reference.row_json_laws.
#[local] Existing Instance ReferenceJobs.json.
#[local] Existing Instance ReferenceDb.server.
#[local] Existing Instance ReferenceDb.pg_server_laws.
#[local] Existing Instance ReferenceRedis.server.
#[local] Existing Instance ReferenceRedis.redis_server_laws.
#[local] Existing Instance ReferenceRedis.up.
#[local] Existing Instance ReferenceBroker.broker.
#[local] Existing Instance sample_libm.

Lemma sample_world_inv : inv ref_state sample_world.
Proof.
  split; [done|]. split; [exact sample_world_ok|]. split; [done|]. right. split.
  - intros id b (v & Hv & _). discriminate Hv.
  - intros t p (v & Hv & _). discriminate Hv.
Qed.

(** A read that fills the cache, an update, a read by the owner and one by another tenant. *)
Lemma cached_service_refines_table_witness :
  exists es w',
    history ref_state sample_world es w'
    /\ map ev_op es = [GetOp (uuid_of 1);
                       UpdateOp (uuid_of 1) (MkUpdateBackupRequest (Some Running) (Some 5));
                       GetOp (uuid_of 1); GetOp (uuid_of 1)]
    /\ table_history (backups (w_pg sample_world)) es (backups (w_pg w')).
Proof.
  eexists _, _. split.
  - apply (history_request _ _ (sample_claims 7) (GetOp (uuid_of 1))).
    apply (history_request _ _ (sample_claims 7)
             (UpdateOp (uuid_of 1) (MkUpdateBackupRequest (Some Running) (Some 5)))).
    apply (history_request _ _ (sample_claims 7) (GetOp (uuid_of 1))).
    apply (history_request _ _ (sample_claims 8) (GetOp (uuid_of 1))).
    apply history_nil.
  - split; [reflexivity|].
    refine (proj1 (cached_service_refines_table ref_state sample_world _ _ sample_world_inv _)).
    do 4 apply history_request. apply history_nil.
Defined.
