(* ===== verification/Grpc.v ===== *)
(** The gRPC endpoint of the service ([grpc.rs]), through which the worker reports the status
    and the result of a job.  Its handlers hold the database pool only: no cache. *)

From S2P Require Import Prelude Codec Prog Models Errors SocketAddr Config Merge RateLimit.
From S2P Require Import Db State.
Local Open Scope prog_scope.

(** ** Messages ([proto/backup.proto]) *)

Record StatusUpdate : Type := MkStatusUpdate {
  su_backup_id : string;
  su_status : string;
}.

Record ProcessingResult : Type := MkProcessingResult {
  pr_backup_id : string;
  pr_status : string;
  pr_size_bytes : Z;
  pr_entropy : f64;
  pr_suspicious : bool;
  pr_error_message : string;
}.

Record Ack : Type := MkAck { ack_success : bool; ack_message : string }.

(** [tonic::Status], with the codes the service uses and the one of a failed transport. *)
Inductive Code : Type := InvalidArgument | NotFoundCode | InternalCode | UnavailableCode.
Record Status : Type := MkStatus { st_code : Code; st_message : string }.

(** ** Handlers *)

Section handlers.
Context `{UuidCrate}.

(** [.execute(&*self.db).await.map_err(|e| Status::internal(..))?] *)
Definition grpc_query {R} (q : Stmt R) : Prog SEff (result R Status) :=
  r <- perform (Sql q) ;;
  Ret (map_err (fun e => MkStatus InternalCode ("database error: " +:+ sqlx_msg e)) r).

(** [.parse().map_err(|e| Status::invalid_argument(..))?] *)
Definition parse_backup_id (s : string) : result Uuid Status :=
  ok_or (uuid_parse s)
    (MkStatus InvalidArgument ("invalid backup_id: " +:+ uuid_parse_error s)).

Definition update_status (msg : StatusUpdate) : Prog SEff (result Ack Status) :=
  backup_id <-! parse_backup_id (su_backup_id msg) ;;
  affected <-? grpc_query (UpdateStatus backup_id (su_status msg)) ;;
  if affected =? 0 then
    Ret (Err (MkStatus NotFoundCode ("backup " +:+ uuid_to_string backup_id +:+ " not found")))
  else Ret (Ok {| ack_success := true; ack_message := "status updated" |}).

(** [metrics::counter!("backup_jobs_processed_total", "status" => status)] *)
Definition jobs_processed (status : string) : Counter :=
  {| counter_name := "backup_jobs_processed_total"; counter_status := status |}.

Definition report_result (result : ProcessingResult) : Prog SEff (Prelude.result Ack Status) :=
  backup_id <-! parse_backup_id (pr_backup_id result) ;;
  _ <-? (if String.eqb (pr_status result) "completed" then
           _ <-? grpc_query (CompleteBackup backup_id (pr_size_bytes result)) ;;
           perform (Increment (jobs_processed "success")) ;;;
           Ret (Ok tt)
         else
           _ <-? grpc_query (FailBackup backup_id) ;;
           perform (Increment (jobs_processed "failure")) ;;;
           Ret (Ok tt)) ;;
  Ret (Ok {| ack_success := true; ack_message := "result recorded" |}).
End handlers.

(** ** What they do *)

Section run.
Context `{UuidCrate} `{Postgres} `{RedisServer} `{Broker}.

Lemma run_grpc_query {R} (q : Stmt R) (w : World) :
  run service (grpc_query q) w =
  let '(r, db) := exec q (w_pg w) in
  (map_err (fun e => MkStatus InternalCode ("database error: " +:+ sqlx_msg e)) r,
   with_pg db w).
Proof using Type.
  unfold grpc_query. rewrite run_bind, run_perform. cbn [service].
  by destruct (exec q (w_pg w)).
Qed.

(** The calls touch nothing but the database and the counters. *)
Definition only_db (w w' : World) : Prop := w' = with_pg (w_pg w') w.
Definition only_db_counted (cs : list Counter) (w w' : World) : Prop :=
  w' = with_counted (w_counted w ++ cs) (with_pg (w_pg w') w).

Lemma only_db_with (db : Pg) (w : World) : only_db w (with_pg db w).
Proof using Type. done. Qed.

Lemma update_status_only_db (msg : StatusUpdate) (w : World) :
  only_db w (run service (update_status msg) w).2.
Proof using Type.
  unfold update_status. destruct (parse_backup_id _) as [id|e]; cbn [try_pure];
    [|by destruct w].
  rewrite run_try, run_grpc_query. destruct (exec _ _) as [[n|e] db]; [|done].
  cbn [map_err]. by case_match.
Qed.

(** The label of the counter of a reported status. *)
Definition report_label (status : string) : string :=
  if String.eqb status "completed" then "success" else "failure".

(** One statement and, when it succeeded, one increment. *)
Lemma run_report_query (q : Stmt Z) (label : string) (w : World) :
  run service (_ <-? grpc_query q ;; perform (Increment (jobs_processed label)) ;;; Ret (Ok tt)) w =
  let '(r, db) := exec q (w_pg w) in
  match r with
  | Ok _ => (Ok tt, with_counted (w_counted w ++ [jobs_processed label]) (with_pg db w))
  | Err e => (Err (MkStatus InternalCode ("database error: " +:+ sqlx_msg e)), with_pg db w)
  end.
Proof using Type.
  rewrite run_try, run_grpc_query. by destruct (exec q (w_pg w)) as [[n|e] db].
Qed.

(** Exactly the acknowledged results are counted. *)
Lemma report_result_only_db (msg : ProcessingResult) (w : World) :
  let '(r, w') := run service (report_result msg) w in
  only_db_counted (if is_ok r then [jobs_processed (report_label (pr_status msg))] else []) w w'.
Proof using Type.
  unfold report_result, report_label. destruct (parse_backup_id _) as [id|e]; cbn [try_pure].
  - rewrite run_try. destruct (String.eqb _ _); rewrite run_report_query;
      destruct (exec _ _) as [[n|e] db]; unfold only_db_counted; cbn; by rewrite ?app_nil_r.
  - unfold only_db_counted. cbn. rewrite app_nil_r. by destruct w.
Qed.

(** An [UPDATE] by identifier on a well-formed table. *)
Lemma update_by_id_spec (id : Uuid) (st : string) (size : option Z) (db : Pg) :
  table_ok db ->
  update_by_id id st size db =
  match backups db !! id with
  | None => (Ok 0, db)
  | Some b =>
      if status_check st
      then (Ok 1, with_backups (<[id := set_columns (Some st) size (pg_clock db) b]> (backups db)) db)
      else (Err check_violation, db)
  end.
Proof using Type.
  intros Hok. unfold update_by_id. destruct (backups db !! id) as [b|] eqn:Hb; [|done].
  destruct (Hok id b Hb) as [Hid _]. unfold replace_row. cbn [b_status set_columns unwrap_or b_id].
  rewrite Hid. by destruct (status_check st).
Qed.

Lemma exec_by_id {Q : Stmt Z} (id : Uuid) (st : string) (size : option Z) (db : Pg) :
  pg_quiet db -> table_ok db ->
  (forall d, exec_stmt Q d = update_by_id id st size d) ->
  exists db1, backups db1 = backups db /\ pg_quiet db1 /\ pg_clock db1 = pg_clock db /\
  exec Q db =
  match backups db !! id with
  | None => (Ok 0, db1)
  | Some b =>
      if status_check st
      then (Ok 1, with_backups (<[id := set_columns (Some st) size (pg_clock db) b]> (backups db)) db1)
      else (Err check_violation, db1)
  end.
Proof using Type.
  intros Hq Hok HQ. exists (begin_exec db).2. split; [done|].
  split; [by apply begin_exec_quiet|]. split; [done|].
  rewrite exec_quiet, HQ by done. exact (update_by_id_spec id st size (begin_exec db).2 Hok).
Qed.

(** C20. A status update sets the status and [updated_at] of exactly the named row when the
    identifier parses, the row exists and the status is one of the four known ones; it is
    refused as an invalid argument, as not found, or as an internal error (the table's
    [CHECK]) otherwise, and then the table is as before.  Whatever happens, nothing but the
    database is touched: in particular no cache entry is evicted. *)
Theorem update_status_correct (msg : StatusUpdate) (w : World) :
  pg_quiet (w_pg w) -> table_ok (w_pg w) ->
  let '(r, w') := run service (update_status msg) w in
  only_db w w'
  /\ match uuid_parse (su_backup_id msg) with
     | None => (exists m, r = Err (MkStatus InvalidArgument m)) /\ w' = w
     | Some id =>
         match backups (w_pg w) !! id with
         | None => (exists m, r = Err (MkStatus NotFoundCode m))
                   /\ backups (w_pg w') = backups (w_pg w)
         | Some b =>
             match status_from_string (su_status msg) with
             | Some _ =>
                 r = Ok (MkAck true "status updated")
                 /\ exists b', backups (w_pg w') = <[id := b']> (backups (w_pg w))
                      /\ identity_columns b' = identity_columns b
                      /\ b_status b' = su_status msg /\ b_size_bytes b' = b_size_bytes b
                      /\ b_updated_at b' = pg_clock (w_pg w)
             | None => (exists m, r = Err (MkStatus InternalCode m))
                       /\ backups (w_pg w') = backups (w_pg w)
             end
         end
     end.
Proof using Type.
  intros Hq Hok. pose proof (update_status_only_db msg w) as Ho.
  unfold update_status, parse_backup_id in *.
  destruct (uuid_parse (su_backup_id msg)) as [id|]; cbn [ok_or try_pure] in *;
    [|split; [done|]; split; [by eexists|done]].
  rewrite run_try, run_grpc_query in *.
  destruct (@exec_by_id (UpdateStatus id (su_status msg)) id (su_status msg) None
    (w_pg w) Hq Hok ltac:(done)) as (db1 & Hdb & _ & _ & E).
  rewrite E in *. destruct (backups (w_pg w) !! id) as [b|].
  - destruct (status_from_string (su_status msg)) as [s|] eqn:Es.
    + assert (Hc : status_check (su_status msg) = true)
        by (apply status_check_from_string; by exists s).
      rewrite Hc in *. split; [done|]. split; [done|]. eexists. split; [done|]. done.
    + assert (Hc : status_check (su_status msg) = false).
      { apply not_true_is_false. intros [? ?]%status_check_from_string. congruence. }
      rewrite Hc in *. split; [done|]. split; [by eexists|done].
  - split; [done|]. split; [by eexists|done].
Qed.

(** The text of a failed statement. *)
Definition database_status (e : SqlxError) : Status :=
  MkStatus InternalCode ("database error: " +:+ sqlx_msg e).

(** The table after a result was written: the named row completed with the reported size, or
    failed with its size kept; a table without that row as it was. *)
Definition result_written (msg : ProcessingResult) (id : Uuid) (now : DateTime)
    (m m' : gmap Uuid Backup) : Prop :=
  match m !! id with
  | None => m' = m
  | Some b =>
      exists b', m' = <[id := b']> m
        /\ identity_columns b' = identity_columns b
        /\ b_updated_at b' = now
        /\ if String.eqb (pr_status msg) "completed"
           then b_status b' = "completed" /\ b_size_bytes b' = pr_size_bytes msg
           else b_status b' = "failed" /\ b_size_bytes b' = b_size_bytes b
  end.

(** One [UPDATE] of a reported result, whatever happens to it. *)
Lemma exec_result {q : Stmt Z} (msg : ProcessingResult) (id : Uuid) (st : string)
    (size : option Z) (db : Pg) :
  table_ok db -> status_check st = true ->
  (forall d, exec_stmt q d = update_by_id id st size d) ->
  (forall b, if String.eqb (pr_status msg) "completed"
             then st = "completed" /\ unwrap_or size (b_size_bytes b) = pr_size_bytes msg
             else st = "failed" /\ size = None) ->
  let '(r, db') := exec q db in
  match fault_now db with
  | None => is_ok r = true /\ result_written msg id (pg_clock db) (backups db) (backups db')
  | Some (FaultBefore e) => r = Err e /\ backups db' = backups db
  | Some (FaultAfter e) =>
      r = Err e /\ result_written msg id (pg_clock db) (backups db) (backups db')
  end.
Proof using Type.
  intros Hok Hst Hq Hsz. rewrite exec_fault_now.
  assert (Hw : is_ok (exec_stmt q (begin_exec db).2).1 = true
          /\ result_written msg id (pg_clock db) (backups db)
               (backups (exec_stmt q (begin_exec db).2).2)).
  { rewrite Hq. pose proof (update_by_id_spec id st size (begin_exec db).2 Hok) as ->.
    cbn [begin_exec snd backups pg_clock]. unfold result_written.
    destruct (backups db !! id) as [b|]; [|done]. rewrite Hst. split; [done|].
    eexists. split; [done|]. split; [done|]. split; [done|]. specialize (Hsz b).
    case_match; destruct Hsz as [-> Hsz]; (split; [done|]); [exact Hsz|by rewrite Hsz]. }
  destruct (fault_now db) as [[e|e]|]; [done|by destruct Hw|].
  by destruct (exec_stmt q (begin_exec db).2).
Qed.

(** C21. A reported result, whatever happens to its statement.  An identifier that does not
    parse is refused as an invalid argument.  When the statement is executed and answered,
    the named row is completed with the reported size, or, for any status text other than
    [completed], marked failed with its size kept, and the result is acknowledged; a result
    for a row that does not exist changes no row and is acknowledged all the same.  When the
    statement fails, the answer is the internal error with its text, never an acknowledgement;
    the table is as before, unless the statement was executed and only its answer was lost.
    Nothing but the database and the counter of processed jobs changes, and that counts
    exactly the acknowledged results, each once under its outcome. *)
Theorem report_result_correct (msg : ProcessingResult) (w : World) :
  table_ok (w_pg w) ->
  let '(r, w') := run service (report_result msg) w in
  only_db_counted (if is_ok r then [jobs_processed (report_label (pr_status msg))] else []) w w'
  /\ match uuid_parse (pr_backup_id msg) with
     | None => (exists m, r = Err (MkStatus InvalidArgument m)) /\ w' = w
     | Some id =>
         let written :=
           result_written msg id (pg_clock (w_pg w)) (backups (w_pg w)) (backups (w_pg w')) in
         match fault_now (w_pg w) with
         | None => r = Ok (MkAck true "result recorded") /\ written
         | Some (FaultBefore e) =>
             r = Err (database_status e) /\ backups (w_pg w') = backups (w_pg w)
         | Some (FaultAfter e) => r = Err (database_status e) /\ written
         end
     end.
Proof using Type.
  intros Hok. pose proof (report_result_only_db msg w) as Ho.
  unfold report_result, parse_backup_id in *.
  destruct (uuid_parse (pr_backup_id msg)) as [id|]; cbn [ok_or try_pure] in *;
    [|split; [done|]; split; [by eexists|done]].
  rewrite run_try in *. cbv zeta.
  pose proof (@exec_result (CompleteBackup id (pr_size_bytes msg)) msg id "completed"
    (Some (pr_size_bytes msg)) (w_pg w) Hok eq_refl ltac:(done)) as Hc.
  pose proof (@exec_result (FailBackup id) msg id "failed" None (w_pg w) Hok eq_refl
    ltac:(done)) as Hf.
  destruct (String.eqb (pr_status msg) "completed"); rewrite run_report_query in *;
    [specialize (Hc ltac:(done)); clear Hf; rename Hc into Hx
    |specialize (Hf ltac:(done)); clear Hc; rename Hf into Hx];
    destruct (exec _ (w_pg w)) as [[n|e] db]; (split; [exact Ho|]);
    destruct (fault_now (w_pg w)) as [[err|err]|]; destruct Hx as [Hr Hx]; simplify_eq/=;
    by split.
Qed.
End run.

(** ** Witnesses *)

#[local] Existing Instance Reference.uuids.
#[local] Existing Instance ReferenceDb.server.
#[local] Existing Instance ReferenceRedis.server.
#[local] Existing Instance ReferenceBroker.broker.

Definition one_row_world (st : string) : World :=
  ref_world [sample_row 1 7 st 10] ReferenceRedis.empty 20.

Lemma one_row_ok (st : string) : status_check st = true -> table_ok (w_pg (one_row_world st)).
Proof.
  intros Hst. apply table_ok_of_rows.
  change (list_to_map _) with (<[uuid_of 1 := sample_row 1 7 st 10]> (∅ : gmap Uuid Backup)).
  rewrite insert_empty, map_to_list_singleton. cbn [forallb fst snd sample_row b_id b_status].
  rewrite Hst. by rewrite bool_decide_eq_true_2.
Qed.

Lemma parse_sample : uuid_parse (uuid_to_string (uuid_of 1)) = Some (uuid_of 1).
Proof. apply (@uuid_parse_display _ Reference.uuids_laws). Qed.

(** A known status is stored, an unknown one is refused. *)
Lemma update_status_correct_witness :
  (run service (update_status (MkStatusUpdate (uuid_to_string (uuid_of 1)) "running"))
     (one_row_world "pending")).1 = Ok (MkAck true "status updated")
  /\ exists m, (run service (update_status (MkStatusUpdate (uuid_to_string (uuid_of 1)) "paused"))
                  (one_row_world "pending")).1 = Err (MkStatus InternalCode m).
Proof.
  split.
  - pose proof (update_status_correct (MkStatusUpdate (uuid_to_string (uuid_of 1)) "running")
      (one_row_world "pending") eq_refl (one_row_ok "pending" eq_refl)) as Hu.
    destruct (run service _ _) as [r w']. cbn [su_backup_id su_status] in Hu.
    rewrite parse_sample in Hu. exact (proj1 (proj2 Hu)).
  - pose proof (update_status_correct (MkStatusUpdate (uuid_to_string (uuid_of 1)) "paused")
      (one_row_world "pending") eq_refl (one_row_ok "pending" eq_refl)) as Hu.
    destruct (run service _ _) as [r w']. cbn [su_backup_id su_status] in Hu.
    rewrite parse_sample in Hu. exact (proj1 (proj2 Hu)).
Defined.

(** The worker's report completes the row; one whose statement fails is not acknowledged. *)
Lemma report_result_correct_witness :
  let msg := MkProcessingResult (uuid_to_string (uuid_of 1)) "completed" 1048576 S754_nan false "" in
  let w := one_row_world "running" in
  let refused := MkSqlxError Unavailable "pool timed out" in
  let w2 := with_pg (MkPg (backups (w_pg w)) 20 0 [Some (FaultBefore refused)]) w in
  (exists b', backups (w_pg (run service (report_result msg) w).2)
              = <[uuid_of 1 := b']> (backups (w_pg w))
              /\ b_status b' = "completed" /\ b_size_bytes b' = 1048576)
  /\ (run service (report_result msg) w2).1 = Err (database_status refused).
Proof.
  intros msg w refused w2. split.
  - pose proof (report_result_correct msg w (one_row_ok "running" eq_refl)) as Hr.
    destruct (run service _ _) as [r w']. cbn [msg pr_backup_id pr_status] in Hr.
    rewrite parse_sample in Hr. cbv zeta in Hr. change (fault_now (w_pg w)) with (@None DbFault) in Hr.
    destruct Hr as (_ & _ & Hr). unfold result_written in Hr.
    assert (Hb : backups (w_pg w) !! uuid_of 1 = Some (sample_row 1 7 "running" 10))
      by (vm_compute; reflexivity).
    rewrite Hb in Hr. destruct Hr as (b' & Hm & _ & _ & Hst & Hsz).
    exists b'. split; [exact Hm|]. split; [exact Hst|exact Hsz].
  - pose proof (report_result_correct msg w2 (one_row_ok "running" eq_refl)) as Hr.
    destruct (run service _ _) as [r w']. cbn [msg pr_backup_id pr_status] in Hr.
    rewrite parse_sample in Hr. exact (proj1 (proj2 Hr)).
Defined.
