(* ===== verification/Stale.v ===== *)
(** Where the cache is not coherent.  [Coherence] shows that the HTTP endpoints keep every
    cached value equal to the table's; this file shows the two ways in which the rest of the
    service does not: the gRPC endpoint writes rows without evicting anything, and a change
    of the paging configuration leaves pages cached under the old paging. *)

From S2P Require Import Prelude Codec Prog Models Errors SocketAddr Config Merge RateLimit.
From S2P Require Import Entropy Db State Cache Jobs Backups BackupsSpec BackupsProps.
From S2P Require Import CacheSpec Grpc.

Section stale.
Context `{UuidCrate} `{SerdeJson} `{JobJson} `{Libm}.
Context `{Postgres} `{RedisServer} `{Broker}.

(** The cache answers a read of [id] with [b]. *)
Definition hit (state : AppState) (id : Uuid) (b : Backup) (w : World) : Prop :=
  cl_redis (cache state) <> None
  /\ exists v, (redis_get (backup_key id) (w_redis w)).1 = Ok v /\ backup_from_json v = Ok b.

(** The cache answers a listing of the tenant with [p]. *)
Definition hit_page (state : AppState) (t : Uuid) (p : list Backup * Z) (w : World) : Prop :=
  cl_redis (cache state) <> None
  /\ exists v, (redis_get (tenant_key t) (w_redis w)).1 = Ok v /\ page_from_json v = Ok p.

Lemma hit_cached_own (state : AppState) (claims : Claims) (id : Uuid) (b : Backup) (w : World) :
  hit state id b w -> b_tenant_id b = c_tenant_id claims ->
  cached_own state claims id w = Some b.
Proof using Type.
  intros [Hc (v & Hv & Hb)] Ht. unfold cached_own. destruct (cl_redis _); [|done].
  rewrite Hv. cbn [ok mbind option_bind]. rewrite Hb. cbn [ok mbind option_bind].
  by rewrite bool_decide_eq_true_2.
Qed.

(** C22. The worker's progress is invisible to the owner of a cached backup: after an
    acknowledged gRPC status update the table holds the new status, but a read through the
    API still answers with the old row, until the entry expires. *)
Theorem grpc_update_leaves_stale_read (state : AppState) (claims : Claims)
    (id : Uuid) (b : Backup) (msg : StatusUpdate) (s : BackupStatus) (w : World) :
  quiet w -> table_ok (w_pg w) ->
  own_row claims id w = Some b -> hit state id b w ->
  uuid_parse (su_backup_id msg) = Some id ->
  su_status msg = status_to_string s -> status_to_string s <> b_status b ->
  let '(r, w1) := run service (update_status msg) w in
  r = Ok (MkAck true "status updated")
  /\ (exists b1, own_row claims id w1 = Some b1 /\ b_status b1 = status_to_string s)
  /\ exists resp, (run service (get_backup state claims id) w1).1 = Ok resp
                  /\ r_status resp = b_status b /\ r_status resp <> status_to_string s.
Proof using Type.
  intros Hq Hok Hown Hhit Hid Hst Hne.
  pose proof Hown as [Hrow Ht]%select_backup_spec.
  assert (Hs : status_from_string (su_status msg) = Some s)
    by (rewrite Hst; apply status_from_to_string).
  unfold update_status, parse_backup_id. rewrite Hid. cbn [ok_or try_pure].
  rewrite run_try, run_grpc_query.
  destruct (@exec_by_id _ (UpdateStatus id (su_status msg)) id (su_status msg) None
    (w_pg w) Hq Hok ltac:(done)) as (db1 & Hdb & _ & _ & E).
  assert (Hdb1 : pg_quiet (exec (UpdateStatus id (su_status msg)) (w_pg w)).2)
    by (rewrite exec_quiet by done; apply exec_stmt_quiet, begin_exec_quiet, Hq).
  rewrite E in Hdb1 |- *. rewrite Hrow in Hdb1 |- *.
  assert (Hc : status_check (su_status msg) = true)
    by (apply status_check_from_string; by exists s).
  rewrite Hc in Hdb1 |- *.
  cbn [map_err Z.eqb run snd] in Hdb1 |- *. split; [done|]. split.
  - exists (set_columns (Some (su_status msg)) None (pg_clock (w_pg w)) b).
    split; [|exact Hst].
    apply select_backup_spec. cbn. by rewrite lookup_insert_eq.
  - rewrite run_get_backup_handler by done. cbv zeta.
    rewrite (hit_cached_own _ _ _ b) by done. eexists. split; [done|]. cbn.
    split; [done|congruence].
Qed.

(** C23. The cached page does not know the paging it was made with: after a configuration
    update that raises the cached limit, a listing with the new limit is answered with the
    old, shorter page under the new limit, although the table has more rows. *)
Theorem paging_change_serves_old_page (state : AppState) (claims : Claims)
    (page : list Backup) (n old new : Z) (w : World) :
  let t := c_tenant_id claims in
  let params := MkListParams (cached_list_offset (w_config w)) new None in
  quiet w -> table_ok (w_pg w) ->
  old = cached_list_limit (w_config w) -> 1 <= old < new -> new <= 100 ->
  0 <= cached_list_offset (w_config w) ->
  is_page (of_tenant t) old (cached_list_offset (w_config w)) (w_pg w) page ->
  n = count_rows (of_tenant t) (w_pg w) ->
  cached_list_offset (w_config w) + new <= n ->
  hit_page state t (page, n) w ->
  let w1 := (run service (with_config_mut (fun cfg =>
               apply_update cfg (MkRemoteConfigUpdate None None (Some new) None))) w).2 in
  exists l, (run service (list_backups state claims params) w1).1 = Ok l
            /\ lr_limit l = new
            /\ Z.of_nat (length (items l)) = old
            /\ old < Z.min (lr_limit l) (total l - lr_offset l).
Proof using Type.
  intros t params Hq Hok Hold Ho Hnew Hoff Hpage Hn Htot [Hc (v & Hv & Hp)] w1.
  apply is_page_facts in Hpage as (Hlen & _); [|done|lia|lia].
  rewrite run_list_backups by done. cbv zeta.
  assert (Hu : use_list_cache params (w_config w1) = true).
  { unfold use_list_cache. cbn [params lp_status lp_offset lp_limit].
    rewrite clamp_id, Z.max_l by lia. cbn. by rewrite !Z.eqb_refl. }
  assert (Hcp : cached_page state (c_tenant_id claims) params w1 = Some (page, n)).
  { unfold cached_page. rewrite Hu. destruct (cl_redis _); [|done].
    change (w_redis w1) with (w_redis w). fold t. rewrite Hv. cbn [ok mbind option_bind].
    by rewrite Hp. }
  rewrite Hcp. eexists. split; [reflexivity|]. cbn [list_response lr_limit lr_offset items total].
  cbn [params lp_limit lp_offset fst snd]. rewrite clamp_id, Z.max_l, length_map by lia. lia.
Qed.
End stale.

(** ** Witnesses *)

#[local] Existing Instance Reference.uuids.
#[local] Existing Instance Reference.json.
#[local] Existing Instance ReferenceDb.server.
#[local] Existing Instance ReferenceDb.pg_server_laws.
#[local] Existing Instance ReferenceRedis.server.
#[local] Existing Instance ReferenceBroker.broker.

(** A Redis that holds one entry for ten more seconds. *)
Definition holding (k v : string) : ReferenceRedis.Store :=
  ReferenceRedis.MkStore {[ k := (v, 10) ]} 0 [].

Lemma holding_get (k v : string) : (redis_get k (holding k v)).1 = Ok v.
Proof.
  cbn. unfold ReferenceRedis.live. cbn [ReferenceRedis.entries holding].
  by rewrite lookup_singleton_eq.
Qed.

Lemma grpc_update_leaves_stale_read_witness :
  let b := sample_row 1 7 "pending" 10 in
  let w := ref_world [b] (holding (backup_key (uuid_of 1)) (encode_text b)) 20 in
  let msg := MkStatusUpdate (uuid_to_string (uuid_of 1)) "running" in
  exists resp,
    (run service (get_backup ref_state (sample_claims 7) (uuid_of 1))
       (run service (update_status msg) w).2).1 = Ok resp
    /\ r_status resp = "pending".
Proof.
  intros b w msg.
  assert (Hok : table_ok (w_pg w)) by (apply (one_row_ok "pending"); reflexivity).
  assert (Hown : own_row (sample_claims 7) (uuid_of 1) w = Some b) by (by apply select_backup_spec).
  assert (Hhit : hit ref_state (uuid_of 1) b w).
  { split; [done|]. exists (encode_text b). split; [apply holding_get|].
    exact (@backup_json_roundtrip _ Reference.row_json_laws b _ eq_refl). }
  pose proof (grpc_update_leaves_stale_read ref_state (sample_claims 7) (uuid_of 1) b msg Running w
    eq_refl Hok Hown Hhit parse_sample eq_refl ltac:(discriminate)) as Hg.
  destruct (run service (update_status msg) w) as [r w1].
  destruct Hg as (_ & _ & resp & Hr & Hst & _). exists resp. split; [exact Hr|exact Hst].
Defined.

(** Pages of one row are cached; the limit becomes two, and the tenant has two rows. *)
Lemma paging_change_serves_old_page_witness :
  let rows := [sample_row 1 7 "pending" 10; sample_row 2 7 "running" 12] in
  let one := apply_update sample_config (MkRemoteConfigUpdate None None (Some 1) (Some 0)) in
  let page := page_of 0 (of_tenant (uuid_of 7)) 1 0 (ReferenceDb.pg_of rows 20) in
  let w := with_config one
             (ref_world rows (holding (tenant_key (uuid_of 7)) (encode_text (page, 2))) 20) in
  let w1 := (run service (with_config_mut (fun cfg =>
               apply_update cfg (MkRemoteConfigUpdate None None (Some 2) None))) w).2 in
  exists l,
    (run service (list_backups ref_state (sample_claims 7) (MkListParams 0 2 None)) w1).1 = Ok l
    /\ length (items l) = 1%nat /\ lr_limit l = 2.
Proof.
  intros rows one page w w1.
  assert (Hok : table_ok (w_pg w)) by (apply table_ok_of_rows; vm_compute; reflexivity).
  assert (Hn : 2 = count_rows (of_tenant (uuid_of 7)) (w_pg w)) by (vm_compute; reflexivity).
  assert (Hhit : hit_page ref_state (uuid_of 7) (page, 2) w).
  { split; [done|]. exists (encode_text (page, 2)). split; [apply holding_get|].
    exact (@page_json_roundtrip _ Reference.row_json_laws (page, 2) _ eq_refl). }
  destruct (paging_change_serves_old_page ref_state (sample_claims 7) page 2 1 2 w
    eq_refl Hok eq_refl ltac:(lia) ltac:(lia) ltac:(done) (page_of_is_page _ _ _ _ _) Hn
    ltac:(done) Hhit) as (l & Hl & Hlim & Hlen & _).
  exists l. split; [exact Hl|]. split; [lia|exact Hlim].
Defined.
