(* ===== verification/Race.v ===== *)
(** A race of the cache: [get_backup] reads the row, an update writes it and evicts the
    entry, and only then [get_backup] stores the row it has read.  Both requests are answered
    correctly, and the cache is left with the old row.  [Coherence] excludes this by running
    one request at a time. *)

From S2P Require Import Prelude Codec Prog Models Errors SocketAddr Config Merge RateLimit.
From S2P Require Import Entropy Db State Cache Jobs Backups BackupsSpec BackupsProps.
From S2P Require Import CacheSpec Endpoints.
From stdpp Require Import relations.
Local Open Scope prog_scope.

(** Nothing else changes the world. *)
Definition undisturbed {S} : S -> S -> Prop := fun _ _ => False.

Section race.
Context `{UuidCrate} `{SerdeJson} `{JobJson} `{Libm}.
Context `{Postgres} `{RedisServer} `{Broker}.

Definition read_answer (b : Backup) : Response :=
  json_response OK (JsonBackup (response_of b)).

(** The calls of a read: [GET], on a miss [SELECT], and then the store of the row. *)
Lemma read_calls (state : AppState) (claims : Claims) (id : Uuid) :
  cl_redis (cache state) <> None ->
  exists k1 k2,
    serve_op state claims (GetOp id) = Vis (RedisGet (backup_key id)) k1
    /\ (forall w, cached_own state claims id w = None ->
          k1 (redis_get (backup_key id) (w_redis w)).1
          = Vis (Sql (SelectBackup id (c_tenant_id claims))) k2)
    /\ forall b w, run service (k2 (Ok (Some b))) w
         = (read_answer b, (run service (set_backup (cache state) b) w).2).
Proof using Type.
  intros Hc. unfold cached_own. cbn [serve_op]. unfold respond, get_backup, Cache.get_backup.
  destruct (cl_redis (cache state)) as [r|]; [|done].
  eexists _, _. split; [reflexivity|]. split.
  - intros w Hmiss. cbn [bind perform] in *.
    destruct (ok (redis_get _ _).1) as [j|]; cbn [mbind option_bind] in *; [|reflexivity].
    destruct (ok (backup_from_json j)) as [c|]; cbn [mbind option_bind] in *; [|reflexivity].
    rewrite Hmiss. reflexivity.
  - intros b w. refine (eq_trans (run_bind _ _ _ _) _). rewrite run_bind.
    by destruct (run service (set_backup (cache state) b) w).
Qed.

(** The update of the row of its caller, one statement later. *)
Lemma run_update_own (state : AppState) (claims : Claims) (id : Uuid)
    (req : UpdateBackupRequest) (b : Backup) (w : World) :
  quiet w -> table_ok (w_pg w) -> own_row claims id w = Some b ->
  let b' := set_columns (option_map status_to_string (req_status req)) (req_size_bytes req)
              (pg_clock (w_pg w)) b in
  let '(r, w') := run service (update_backup state claims id req) (tick w) in
  r = Ok (response_of b') /\ own_row claims id w' = Some b'.
Proof using Type.
  intros Hq Hok Hown b'.
  rewrite run_update_backup; [|by apply quiet_fault_now, begin_exec_quiet|exact Hok].
  change (own_row claims id (tick w)) with (own_row claims id w). rewrite Hown.
  split; [done|]. apply select_backup_spec in Hown as [Hb Ht].
  apply select_backup_spec. rewrite !del_effect_pg. cbn.
  by rewrite lookup_insert_eq.
Qed.

(** What the cache answers was in it. *)
Lemma cached_own_may_hit `{!RedisLaws} (state : AppState) (claims : Claims) (id : Uuid)
    (c : Backup) (w : World) :
  cached_own state claims id w = Some c -> may_hit w id c.
Proof using Type.
  unfold cached_own. destruct (cl_redis (cache state)); [|done].
  pose proof (redis_get_holds (backup_key id) (w_redis w)) as Hh.
  destruct (redis_get _ _).1 as [v|e]; [|done]. cbn [ok mbind option_bind]. intros Hc.
  exists v. split; [by apply Hh|]. destruct (backup_from_json v) as [b|e]; [|done].
  cbn [ok mbind option_bind] in Hc. by case_bool_decide; simplify_eq.
Qed.

(** C24. A read and an update of the same backup can interleave so that both are answered
    as they should, the read with the row before the update and the update with the row
    after it, the table holds the new row, and the cache is left with the old one: when its
    store was acknowledged, everything that the cache answers from then on is the row of
    before the update, until the entry expires. *)
Theorem read_update_race `{!UuidLaws} `{!SerdeJsonLaws} `{!RedisLaws} (state : AppState)
    (claims : Claims) (id : Uuid) (req : UpdateBackupRequest) (b : Backup) (w : World) :
  quiet w -> table_ok (w_pg w) -> cl_redis (cache state) <> None ->
  own_row claims id w = Some b -> cached_own state claims id w = None ->
  let b' := set_columns (option_map status_to_string (req_status req)) (req_size_bytes req)
              (pg_clock (w_pg w)) b in
  let w2 := (run service (update_backup state claims id req)
               (tick (get_effect state (backup_key id) w))).2 in
  let w3 := (run service (set_backup (cache state) b) w2).2 in
  rtc (pool_step service (serve_op state claims) undisturbed) (MkPool w [])
    (MkPool w3 [(GetOp id, Ret (read_answer b)); (UpdateOp id req, Ret (read_answer b'))])
  /\ own_row claims id w3 = Some b'
  /\ (forall v, backup_to_json b = Ok v -> set_acked (cache state) (backup_key id) v w2 ->
        forall c, cached_own state claims id w3 = Some c -> c = b).
Proof using Type.
  intros Hq Hok Hc Hown Hmiss b' w2 w3.
  destruct (read_calls state claims id Hc) as (k1 & k2 & E1 & E2 & E3).
  set (w1 := get_effect state (backup_key id) w) in *.
  assert (Hget : service _ (RedisGet (backup_key id)) w
                 = ((redis_get (backup_key id) (w_redis w)).1, w1)).
  { unfold w1, get_effect. cbn [service]. destruct (cl_redis (cache state)); [|done].
    by destruct (redis_get _ _). }
  assert (Hw1 : w_pg w1 = w_pg w)
    by (unfold w1, get_effect; by destruct (cl_redis (cache state))).
  assert (Hsel : service _ (Sql (SelectBackup id (c_tenant_id claims))) w1
                 = (Ok (Some b), tick w1)).
  { cbn [service]. rewrite exec_quiet by by rewrite Hw1. cbn [exec_stmt].
    unfold tick. rewrite <- Hown. unfold own_row. by rewrite Hw1. }
  assert (Hown1 : own_row claims id w1 = Some b) by (unfold own_row; by rewrite Hw1).
  pose proof (run_update_own state claims id req b w1 ltac:(unfold quiet; by rewrite Hw1)
                ltac:(by rewrite Hw1) Hown1) as Hupd.
  cbv zeta in Hupd. rewrite Hw1 in Hupd. fold b' in Hupd.
  destruct (run service (update_backup state claims id req) (tick w1)) as [r w2'] eqn:Hrun.
  destruct Hupd as [-> Hnew]. split.
  - eapply rtc_l; [apply (step_accept _ _ _ w [] (GetOp id))|].
    eapply rtc_l; [apply (step_accept _ _ _ w [_] (UpdateOp id req))|]. cbn [app].
    rewrite E1.
    etrans.
    { by eapply (pool_call _ _ _ w w1 _ 0%nat); [|exact Hget]. }
    cbn [insert list_insert]. rewrite E2 by done.
    etrans.
    { by eapply (pool_call _ _ _ w1 (tick w1) _ 0%nat); [|exact Hsel]. }
    cbn [insert list_insert].
    etrans; [by eapply (pool_finish _ _ _ _ _ 1%nat)|].
    cbn [insert list_insert serve_op]. rewrite run_respond, Hrun. cbn [fst snd].
    etrans; [by eapply (pool_finish _ _ _ _ _ 0%nat)|]. cbn [insert list_insert].
    by rewrite E3.
  - split; [unfold w3, own_row; rewrite run_set_backup; cbn [snd]; by rewrite set_effect_pg|].
    intros v Hv Hack c Hcc.
    destruct (set_backup_may_hit (cache state) b w2) as (_ & _ & Hlast).
    destruct (Hok id b) as [Hid _]; [by apply select_backup_spec in Hown as [? _]|].
    rewrite Hid in Hlast. apply (Hlast v Hv Hack). by eapply cached_own_may_hit.
Qed.
End race.

(** ** Witness *)

#[local] Existing Instance Reference.uuids.
#[local] Existing Instance Reference.uuids_laws.
#[local] Existing Instance Reference.json.
#[local] Existing Instance Reference.row_json_laws.
#[local] Existing Instance ReferenceJobs.json.
#[local] Existing Instance sample_libm.
#[local] Existing Instance ReferenceDb.server.
#[local] Existing Instance ReferenceDb.pg_server_laws.
#[local] Existing Instance ReferenceRedis.server.
#[local] Existing Instance ReferenceRedis.redis_server_laws.
#[local] Existing Instance ReferenceBroker.broker.

(** After the race the table says "completed" and the cache answers "pending". *)
Lemma read_update_race_witness :
  exists w3,
    rtc (pool_step service (serve_op ref_state (sample_claims 7)) undisturbed)
      (MkPool sample_world [])
      (MkPool w3 [(GetOp (uuid_of 1), Ret (read_answer (sample_row 1 7 "pending" 10)));
                  (UpdateOp (uuid_of 1) (MkUpdateBackupRequest (Some Completed) None),
                   Ret (read_answer (set_columns (Some "completed") None 20
                                       (sample_row 1 7 "pending" 10))))])
    /\ (exists b', own_row (sample_claims 7) (uuid_of 1) w3 = Some b' /\ b_status b' = "completed")
    /\ cached_own ref_state (sample_claims 7) (uuid_of 1) w3 = Some (sample_row 1 7 "pending" 10).
Proof.
  assert (Hown : own_row (sample_claims 7) (uuid_of 1) sample_world
                 = Some (sample_row 1 7 "pending" 10)) by (vm_compute; reflexivity).
  assert (Hmiss : cached_own ref_state (sample_claims 7) (uuid_of 1) sample_world = None)
    by (vm_compute; reflexivity).
  destruct (read_update_race ref_state (sample_claims 7) (uuid_of 1)
    (MkUpdateBackupRequest (Some Completed) None) (sample_row 1 7 "pending" 10) sample_world
    eq_refl sample_world_ok ltac:(discriminate) Hown Hmiss) as (Hreach & Hnew & Hold).
  eexists. split; [exact Hreach|]. split; [by eexists|].
  lazymatch goal with |- ?x = _ =>
    assert (exists c, x = Some c) as [c Hc] by (eexists; vm_compute; reflexivity)
  end.
  rewrite Hc. apply (f_equal Some). eapply Hold; [reflexivity| |exact Hc].
  split; [discriminate|]. vm_compute. reflexivity.
Defined.
