(* ===== verification/Cancel.v ===== *)
(** Dropped handlers.  The handler of a request is a future: when the client goes away or the
    timeout layer gives up, it is dropped at the call it is waiting for and the rest of it
    never runs.  The file shows that a dropped operation has written its row completely or
    not at all, and that it may have left the cache behind. *)

From S2P Require Import Prelude Codec Prog Models Errors SocketAddr Config Merge RateLimit.
From S2P Require Import Entropy Db State Cache Jobs Backups BackupsSpec BackupsProps.
From S2P Require Import CacheSpec Endpoints Grpc Stale.
Local Open Scope prog_scope.

(** ** One writing call *)

Section writes.
Context {E : Type -> Type} (reads : forall X, E X -> Prop).

(** No call writes, whatever the answers are. *)
Fixpoint only_reads {A} (p : Prog E A) : Prop :=
  match p with
  | Ret _ => True
  | Vis e k => reads _ e /\ forall x, only_reads (k x)
  end.

(** At most one call writes, whatever the answers are. *)
Fixpoint writes_once {A} (p : Prog E A) : Prop :=
  match p with
  | Ret _ => True
  | Vis e k => (reads _ e /\ forall x, writes_once (k x)) \/ forall x, only_reads (k x)
  end.

Lemma only_reads_once {A} (p : Prog E A) : only_reads p -> writes_once p.
Proof using Type. induction p as [a|X e k IH]; [done|]. intros [He Hk]. left. auto. Qed.

Lemma only_reads_bind {A B} (p : Prog E A) (f : A -> Prog E B) :
  only_reads p -> (forall a, only_reads (f a)) -> only_reads (bind p f).
Proof using Type. intros Hp Hf. induction p as [a|X e k IH]; cbn; [auto|]. destruct Hp. auto. Qed.

Lemma writes_once_bind {A B} (p : Prog E A) (f : A -> Prog E B) :
  writes_once p -> (forall a, only_reads (f a)) -> writes_once (bind p f).
Proof using Type.
  intros Hp Hf. induction p as [a|X e k IH]; cbn; [by apply only_reads_once|].
  destruct Hp as [[He Hk]|Hk]; [left; auto|right]. intros x. by apply only_reads_bind.
Qed.

Lemma reads_then_once {A B} (p : Prog E A) (f : A -> Prog E B) :
  only_reads p -> (forall a, writes_once (f a)) -> writes_once (bind p f).
Proof using Type.
  intros Hp Hf. induction p as [a|X e k IH]; cbn; [auto|]. destruct Hp. left. auto.
Qed.

(** What the reading calls leave alone. *)
Context {S V : Type} (h : Handler E S) (view : S -> V).
Context (reads_keep : forall X (e : E X) s, reads X e -> view (h X e s).2 = view s).

Lemma only_reads_view {A} (n : nat) (p : Prog E A) (s : S) :
  only_reads p -> view (run_for n h p s).2 = view s /\ view (run h p s).2 = view s.
Proof using Type*.
  revert n s. induction p as [a|X e k IH]; intros n s; [by destruct n|]. intros [He Hk].
  pose proof (reads_keep X e s He) as Hv.
  destruct n as [|n]; cbn; destruct (h X e s) as [x s']; cbn [snd] in Hv.
  - destruct (IH x 0%nat s' (Hk x)) as [_ ->]. done.
  - destruct (IH x n s' (Hk x)) as [-> ->]. done.
Qed.

(** Dropped anywhere, the program has written everything or nothing. *)
Lemma dropped_all_or_nothing {A} (n : nat) (p : Prog E A) (s : S) :
  writes_once p ->
  view (run_for n h p s).2 = view s \/ view (run_for n h p s).2 = view (run h p s).2.
Proof using Type*.
  revert n s. induction p as [a|X e k IH]; intros n s Hp; [by destruct n; left|].
  destruct n as [|n]; cbn; [by left|]. destruct Hp as [[He Hk]|Hk].
  - pose proof (reads_keep X e s He) as Hv. destruct (h X e s) as [x s']. cbn [snd] in Hv.
    rewrite <-Hv. by apply IH.
  - destruct (h X e s) as [x s']. right. destruct (only_reads_view n (k x) s' (Hk x)) as [-> ->]. done.
Qed.
End writes.
Arguments only_reads {E} reads {A} p.
Arguments writes_once {E} reads {A} p.

(** ** The operations *)

(** The statements that do not write. *)
Definition reads_stmt {R} (q : Stmt R) : bool :=
  match q with
  | SelectBackup _ _ | ListByStatus _ _ _ _ | CountByStatus _ _ | ListAll _ _ _ | CountAll _
  | SelectOne => true
  | _ => false
  end.

(** The calls that change neither the table nor the queue. *)
Definition keeps_stores (X : Type) (e : SEff X) : Prop :=
  match e with
  | Sql q => reads_stmt q = true
  | Publish _ => False
  | _ => True
  end.

Section operations.
Context `{UuidCrate} `{SerdeJson} `{JobJson} `{Libm}.
Context `{Postgres} `{RedisServer} `{Broker}.

(** The durable state: the table and the queue. *)
Definition stores (w : World) : gmap Uuid Backup * BrokerState := (backups (w_pg w), w_broker w).

Lemma exec_reads {R} (q : Stmt R) (db : Pg) :
  reads_stmt q = true -> backups (exec q db).2 = backups db.
Proof using Type.
  intros Hq. unfold exec, begin_exec. destruct (pg_faults db) as [|[[e|e]|] fs]; destruct q; done.
Qed.

Lemma keeps_stores_spec X (e : SEff X) (w : World) :
  keeps_stores X e -> stores (service X e w).2 = stores w.
Proof using Type.
  unfold stores. destruct e as [R q|k|k v ttl|k| | |f|t c| |p|R f|u|n|c]; cbn [keeps_stores service];
    intros He; try done; try by repeat case_match.
  pose proof (exec_reads q (w_pg w) He) as Hb. destruct (exec q (w_pg w)) as [r db].
  cbn in *. by rewrite Hb.
Qed.

Abbreviation reading := (only_reads keeps_stores).
Abbreviation writing_once := (writes_once keeps_stores).

Lemma reading_query {R} (q : Stmt R) : reads_stmt q = true -> reading (query q).
Proof using Type. by repeat split. Qed.

Lemma writing_query {R} (q : Stmt R) : writing_once (query q).
Proof using Type. by right. Qed.

(** The cache's calls, under any predicate that they satisfy. *)
Definition cache_call (X : Type) (e : SEff X) : Prop :=
  match e with
  | RedisGet _ | RedisSetEx _ _ _ | RedisDel _ | RedisPing | ReadConfig => True
  | _ => False
  end.

Section cache_calls.
Context (P : forall X, SEff X -> Prop) (cache_P : forall X (e : SEff X), cache_call X e -> P X e).
Hint Extern 1 (cache_call _ _) => exact I : core.

Lemma reading_get (c : CacheLayer) (id : Uuid) : only_reads P (Cache.get_backup c id).
Proof using Type*. unfold Cache.get_backup. destruct (cl_redis c); cbn; auto. Qed.

Lemma reading_set (c : CacheLayer) (b : Backup) : only_reads P (set_backup c b).
Proof using Type*.
  unfold set_backup, ttl_secs. destruct (cl_redis c), (cl_config c), (backup_to_json b);
    cbn; auto 8.
Qed.

Lemma reading_get_page (c : CacheLayer) (t : Uuid) : only_reads P (get_tenant_backups c t).
Proof using Type*. unfold get_tenant_backups. destruct (cl_redis c); cbn; auto. Qed.

Lemma reading_set_page (c : CacheLayer) (t : Uuid) (l : list Backup) (n : Z) :
  only_reads P (set_tenant_backups c t l n).
Proof using Type*.
  unfold set_tenant_backups, ttl_secs. destruct (cl_redis c), (cl_config c), (page_to_json (l, n));
    cbn; auto 8.
Qed.

Lemma reading_invalidate (c : CacheLayer) (id : Uuid) : only_reads P (invalidate_backup c id).
Proof using Type*. unfold invalidate_backup. destruct (cl_redis c); cbn; auto. Qed.

Lemma reading_invalidate_page (c : CacheLayer) (t : Uuid) :
  only_reads P (invalidate_tenant_backups c t).
Proof using Type*. unfold invalidate_tenant_backups. destruct (cl_redis c); cbn; auto. Qed.

Lemma reading_ping (c : CacheLayer) : only_reads P (ping c).
Proof using Type*. unfold ping. destruct (cl_redis c); cbn; auto. Qed.
End cache_calls.

Lemma cache_call_keeps (X : Type) (e : SEff X) : cache_call X e -> keeps_stores X e.
Proof using Type. by destruct e. Qed.

Create HintDb writes.
Hint Resolve cache_call_keeps reading_query writing_query reading_get reading_set reading_get_page
  reading_set_page reading_invalidate reading_invalidate_page : writes.
Hint Extern 3 (only_reads _ (bind _ _)) => apply only_reads_bind : writes.
Hint Extern 3 (only_reads _ (try_bind _ _)) => apply only_reads_bind : writes.
Hint Extern 3 (only_reads _ (Ret _)) => exact I : writes.
Hint Extern 4 (only_reads _ (match ?x with _ => _ end)) => destruct x : writes.
Hint Extern 4 (only_reads _ (try_pure ?x _)) => destruct x; cbn [try_pure] : writes.

Lemma serve_op_writes_once (state : AppState) (claims : Claims) (op : BackupOp) :
  writing_once (serve_op state claims op).
Proof using Type.
  assert (Hfetch : forall id, reading (fetch_backup claims id)) by (intros id; split; [done|]; by intros [[b|]|e]).
  destruct op as [req|id|params|id req|id|id|id]; cbn [serve_op]; unfold respond.
  - apply writes_once_bind; [|by intros [?|?]]. unfold create_backup.
    destruct (validate_source_path _); cbn [try_pure]; [|done].
    apply writes_once_bind; [apply writing_query|]. intros [b|e]; [|done].
    auto 6 with writes.
  - apply only_reads_once, only_reads_bind; [|by intros [?|?]]. unfold get_backup.
    apply only_reads_bind; [apply reading_get, cache_call_keeps|]. intros cached.
    destruct (cached ≫= _); [done|]. apply only_reads_bind; [done|]. intros [b|e]; [|done].
    auto 6 with writes.
  - apply only_reads_once, only_reads_bind; [|by intros [?|?]]. unfold list_backups.
    cbv zeta. apply only_reads_bind; [done|]. intros cfg. set (use := _ && _). clearbody use.
    apply only_reads_bind; [destruct use; [apply reading_get_page, cache_call_keeps|done]|]. intros [p|]; [done|].
    apply only_reads_bind; [|intros [p|e]; [|done]].
    + unfold list_from_db. destruct (lp_status params); repeat split; intros [?|?]; repeat split;
        by intros [?|?].
    + apply only_reads_bind; [destruct use; [apply reading_set_page, cache_call_keeps|done]|done].
  - apply writes_once_bind; [|by intros [?|?]]. unfold update_backup.
    apply writes_once_bind; [apply writing_query|]. intros [[b|]|e]; cbn; try done.
    auto 8 with writes.
  - apply writes_once_bind; [|by intros [?|?]]. unfold delete_backup.
    apply writes_once_bind; [apply writing_query|]. intros [n|e]; [|done].
    destruct (n =? 0); [done|]. auto 8 with writes.
  - apply only_reads_once, only_reads_bind; [|by intros [?|?]]. unfold analyze_backup.
    apply only_reads_bind; [done|]. intros [b|e]; [|done]. split; [done|]. by intros [?|?].
  - apply writes_once_bind; [|by intros [?|?]]. unfold enqueue_backup.
    apply reads_then_once; [done|]. intros [b|e]; [|done].
    destruct (amqp_channel state); cbn [ok_or try_pure]; [|done].
    unfold publish_job. right. by intros [[]|e].
Qed.

(** A dropped request is atomic: wherever the client or the timeout cuts an operation
    off, and whatever the database, Redis and the broker answered, the table and the queue
    are as they were before the request or as the whole operation would have left them; and
    when an answer was produced it is the answer of the whole operation. *)
Theorem dropped_operation_atomic (state : AppState) (claims : Claims) (op : BackupOp)
    (n : nat) (w : World) :
  let '(answer, w1) := run_for n service (serve_op state claims op) w in
  let '(resp, w2) := run service (serve_op state claims op) w in
  (stores w1 = stores w \/ stores w1 = stores w2)
  /\ (forall a, answer = Some a -> a = resp /\ w1 = w2).
Proof using Type.
  pose proof (dropped_all_or_nothing keeps_stores service stores keeps_stores_spec n _ w
                (serve_op_writes_once state claims op)) as Hd.
  pose proof (run_for_some n service (serve_op state claims op) w) as Hs.
  destruct (run_for n _ _ w) as [answer w1], (run service _ w) as [resp w2].
  split; [exact Hd|]. intros a ->. by specialize (Hs w1 a eq_refl); simplify_eq.
Qed.
End operations.

(** ** What is left behind *)

(** The failures that the next statements will meet. *)
Definition schedule (fs : list (option DbFault)) (db : Pg) : Pg :=
  {| backups := backups db; pg_clock := pg_clock db; pg_execs := pg_execs db; pg_faults := fs |}.

Section stale.
Context `{UuidCrate} `{SerdeJson} `{JobJson} `{Libm}.
Context `{Postgres} `{RedisServer} `{Broker}.

(** A read of [id] is still answered with [b]. *)
Definition still_reads (state : AppState) (claims : Claims) (id : Uuid) (b : Backup) (w : World)
    : Prop :=
  (run service (get_backup state claims id) w).1 = Ok (response_of b).

Lemma hit_still_reads (state : AppState) (claims : Claims) (id : Uuid) (b : Backup) (db : Pg)
    (w : World) :
  pg_quiet db -> hit state id b w -> b_tenant_id b = c_tenant_id claims ->
  still_reads state claims id b (with_pg db w).
Proof using Type.
  intros Hq Hhit Ht. unfold still_reads. rewrite run_get_backup_handler by done. cbv zeta.
  by rewrite (hit_cached_own _ _ _ b).
Qed.

(** The row that an update makes. *)
Definition updated_row (req : UpdateBackupRequest) (now : DateTime) (b : Backup) : Backup :=
  set_columns (option_map status_to_string (req_status req)) (req_size_bytes req) now b.

Lemma exec_stmt_update (claims : Claims) (id : Uuid) (req : UpdateBackupRequest) (b : Backup)
    (db : Pg) :
  table_ok db -> select_backup id (c_tenant_id claims) db = Some b ->
  exec_stmt (UpdateBackup id (c_tenant_id claims) (option_map status_to_string (req_status req))
               (req_size_bytes req)) db
  = (Ok (Some (updated_row req (pg_clock db) b)),
     with_backups (<[id := updated_row req (pg_clock db) b]> (backups db)) db).
Proof using Type.
  intros Hok Hs. cbn [exec_stmt]. unfold update_backup_row. rewrite Hs.
  apply select_backup_spec in Hs as [Hb _]. destruct (Hok id b Hb) as [Hid Hst].
  unfold replace_row. fold (updated_row req (pg_clock db) b).
  assert (Hc : status_check (b_status (updated_row req (pg_clock db) b)) = true).
  { cbn. destruct (req_status req); [apply status_check_to_string|done]. }
  rewrite Hc. cbn [b_id updated_row set_columns]. by rewrite Hid.
Qed.

Lemma own_row_insert (claims : Claims) (id : Uuid) (b : Backup) (m : gmap Uuid Backup) (db : Pg)
    (w : World) :
  b_tenant_id b = c_tenant_id claims ->
  own_row claims id (with_pg (with_backups (<[id := b]> m) db) w) = Some b.
Proof using Type. intros Ht. apply select_backup_spec. cbn. by rewrite lookup_insert_eq. Qed.

(** C25. A write that is cut off leaves the cache behind.  When the cache holds the row of an
    update and the request is dropped after its first call, or the database executes the
    statement and the answer is lost (a 500), the table has the new row and a read still
    answers the old one; and a backup whose deletion is dropped after its first call is gone
    from the table and still answered. *)
Theorem cut_write_leaves_stale_read (state : AppState) (claims : Claims) (id : Uuid)
    (req : UpdateBackupRequest) (b : Backup) (e : SqlxError) (w : World) :
  quiet w -> table_ok (w_pg w) -> own_row claims id w = Some b -> hit state id b w ->
  let b' := updated_row req (pg_clock (w_pg w)) b in
  (let '(answer, w1) := run_for 1 service (update_backup state claims id req) w in
   answer = None /\ own_row claims id w1 = Some b' /\ still_reads state claims id b w1)
  /\ (let '(r, w1) := run service (update_backup state claims id req)
                        (with_pg (schedule [Some (FaultAfter e)] (w_pg w)) w) in
      r = Err (Database e) /\ own_row claims id w1 = Some b' /\ still_reads state claims id b w1)
  /\ (let '(answer, w1) := run_for 1 service (delete_backup state claims id) w in
      answer = None /\ own_row claims id w1 = None /\ still_reads state claims id b w1).
Proof using Type.
  intros Hq Hok Hown Hhit b'. pose proof Hown as [Hb Ht]%select_backup_spec.
  pose proof Hhit as [Hc _]. destruct (cl_redis (cache state)) as [r|] eqn:Er; [|done].
  pose proof (exec_stmt_update claims id req b (begin_exec (w_pg w)).2 Hok Hown) as Hu.
  cbn [begin_exec snd pg_clock backups] in Hu. fold b' in Hu.
  pose proof (begin_exec_quiet (w_pg w) Hq) as Hq1.
  split; [|split].
  - unfold update_backup, query, try_bind, perform, invalidate_backup. rewrite Er.
    cbn [bind run_for service]. rewrite exec_quiet by done. cbn [begin_exec snd]. rewrite Hu.
    cbn [map_err bind ok_or try_pure run_for].
    split; [done|]. split; [by apply own_row_insert|]. by apply hit_still_reads.
  - unfold update_backup. rewrite run_try, run_query. unfold exec.
    cbn [w_pg with_pg schedule begin_exec pg_faults tail backups pg_clock pg_execs].
    unfold quiet, pg_quiet in Hq. rewrite Hq in Hu. cbn [tail] in Hu. rewrite Hu.
    cbn [snd map_err]. split; [done|]. split; [by apply own_row_insert|].
    by apply hit_still_reads.
  - unfold delete_backup, query, try_bind, perform, invalidate_backup. rewrite Er.
    cbn [bind run_for service]. rewrite exec_quiet by done. cbn [exec_stmt].
    unfold delete_backup_row. change (select_backup id (c_tenant_id claims) (begin_exec (w_pg w)).2)
      with (own_row claims id w). rewrite Hown. cbn [map_err bind Z.eqb run_for].
    split; [done|]. split; [|by apply hit_still_reads].
    apply select_backup_none. cbn. intros c. by rewrite lookup_delete_eq.
Qed.
End stale.

(** ** Witness *)

#[local] Existing Instance Reference.uuids.
#[local] Existing Instance Reference.json.
#[local] Existing Instance ReferenceDb.server.
#[local] Existing Instance ReferenceRedis.server.
#[local] Existing Instance ReferenceBroker.broker.

Lemma cut_write_leaves_stale_read_witness :
  let b := sample_row 1 7 "pending" 10 in
  let w := ref_world [b] (holding (backup_key (uuid_of 1)) (encode_text b)) 20 in
  let w1 := (run_for 1 service (delete_backup ref_state (sample_claims 7) (uuid_of 1)) w).2 in
  own_row (sample_claims 7) (uuid_of 1) w1 = None
  /\ still_reads ref_state (sample_claims 7) (uuid_of 1) b w1.
Proof.
  intros b w.
  assert (Hok : table_ok (w_pg w)) by (apply (one_row_ok "pending"); reflexivity).
  assert (Hown : own_row (sample_claims 7) (uuid_of 1) w = Some b) by (by apply select_backup_spec).
  assert (Hhit : hit ref_state (uuid_of 1) b w).
  { split; [done|]. exists (encode_text b). split; [apply holding_get|].
    exact (@backup_json_roundtrip _ Reference.row_json_laws b _ eq_refl). }
  destruct (cut_write_leaves_stale_read ref_state (sample_claims 7) (uuid_of 1)
    (MkUpdateBackupRequest None None) b check_violation w eq_refl Hok Hown Hhit) as (_ & _ & Hd).
  destruct (run_for 1 service (delete_backup ref_state (sample_claims 7) (uuid_of 1)) w)
    as [answer w1]. destruct Hd as (_ & Hgone & Hread). split; [exact Hgone|exact Hread].
Defined.
