(* ===== verification/Router.v ===== *)
(** The HTTP surface ([router.rs], the rate limiting middleware, [handlers/health.rs]): which
    handler a request reaches, through which layers, with which arguments.  What axum's
    extractors do with a body, a query string or a path parameter that does not parse is a
    parameter.  The transport layers around the routes are in [Transport]. *)

From S2P Require Import Prelude Codec Prog Models Errors SocketAddr Config Merge RateLimit.
From S2P Require Import Entropy Db State Cache Auth Jobs Backups Endpoints.
Local Open Scope prog_scope.

(** ** Health *)

(** GET /health *)
Definition health : Prog SEff Response :=
  Ret (json_response OK (JsonValue (JObj [("status", JStr "ok")]))).

(** GET /ready *)
Definition readiness (state : AppState) : Prog SEff Response :=
  r <- perform (Sql SelectOne) ;;
  let db_ok := is_ok r in
  redis_ok <- ping (cache state) ;;
  let status := if db_ok && redis_ok then OK else SERVICE_UNAVAILABLE in
  let body := JObj [("status", JStr (if status =? OK then "ready" else "not ready"));
                    ("checks", JObj [("database", JBool db_ok); ("redis", JBool redis_ok)])] in
  Ret (json_response status (JsonValue body)).

(** ** Rate limiting *)

Definition rate_limit_headers (info : RateLimitInfo) (r : Response) : Response :=
  header_insert "X-RateLimit-Reset" (u64_to_string (rl_reset_secs info))
    (header_insert "X-RateLimit-Remaining" (u64_to_string (rl_remaining info))
       (header_insert "X-RateLimit-Limit" (u64_to_string (rl_limit info)) r)).

Definition too_many_requests (c : RateLimitConfig) : Response :=
  {| status := TOO_MANY_REQUESTS;
     headers := [("Retry-After", u64_to_string (window_secs c));
                 ("X-RateLimit-Limit", u64_to_string (max_requests c));
                 ("X-RateLimit-Remaining", "0")];
     body := JsonValue (JObj [("error", JStr "rate limit exceeded"); ("status", JNum 429);
                              ("retry_after_secs", JNum (window_secs c))]) |}.

Definition rate_limit_middleware (request : Request) (next : Request -> Prog SEff Response)
    : Prog SEff (result Response Response) :=
  cfg <- config ;;
  let config := rate_limit cfg in
  match option_map c_tenant_id (rq_claims request) with
  | None => resp <- next request ;; Ret (Ok resp)
  | Some tenant_id =>
      r <- perform (RateCheck tenant_id config) ;;
      match r with
      | Ok info => response <- next request ;; Ret (Ok (rate_limit_headers info response))
      | Err _ => Ret (Err (too_many_requests config))
      end
  end.

(** ** Extractors *)

(** The rejections are the responses that axum makes. *)
Class Extractors : Type := {
  json_create : Request -> result CreateBackupRequest Response;
  json_update : Request -> result UpdateBackupRequest Response;
  json_login : Request -> result LoginRequest Response;
  query_list : Request -> result ListParams Response;
  path_rejection : string -> Response;
  missing_extension : Response;
  method_not_allowed : Response;
  no_route : Response;
}.

Section router.
Context `{UuidCrate} `{SerdeJson} `{JobJson} `{Libm} `{JsonWebToken} `{HeaderValues}.
Context `{Extractors}.

(** [Path<Uuid>] *)
Definition path_id (s : string) : result Uuid Response := ok_or (uuid_parse s) (path_rejection s).

(** [Extension<Claims>] *)
Definition extension (r : Request) : result Claims Response :=
  ok_or (rq_claims r) missing_extension.

Definition and_then {A B} (r : result A Response) (f : A -> result B Response)
    : result B Response :=
  match r with Ok a => f a | Err e => Err e end.

(** A [get] route also serves HEAD, and axum leaves out the body of the answer. *)
Definition get_or_head (m : Method) : Method := match m with HEAD => GET | _ => m end.

Definition strip_body (r : Request) (resp : Response) : Response :=
  match rq_method r with
  | HEAD => {| status := status resp; headers := headers resp; body := NoBody |}
  | _ => resp
  end.

(** The protected routes' method routers, and the arguments of the handlers, extracted in
    order. *)
Definition extract (r : Request) : result (Claims * BackupOp) Response :=
  match rq_route r, get_or_head (rq_method r) with
  | BackupsRoute, GET =>
      and_then (extension r) (fun c => and_then (query_list r) (fun p => Ok (c, ListOp p)))
  | BackupsRoute, POST =>
      and_then (extension r) (fun c => and_then (json_create r) (fun b => Ok (c, CreateOp b)))
  | BackupRoute s, GET =>
      and_then (extension r) (fun c => and_then (path_id s) (fun id => Ok (c, GetOp id)))
  | BackupRoute s, PATCH =>
      and_then (extension r) (fun c => and_then (path_id s) (fun id =>
        and_then (json_update r) (fun b => Ok (c, UpdateOp id b))))
  | BackupRoute s, DELETE =>
      and_then (extension r) (fun c => and_then (path_id s) (fun id => Ok (c, DeleteOp id)))
  | AnalyzeRoute s, POST =>
      and_then (extension r) (fun c => and_then (path_id s) (fun id => Ok (c, AnalyzeOp id)))
  | ProcessRoute s, POST =>
      and_then (extension r) (fun c => and_then (path_id s) (fun id => Ok (c, EnqueueOp id)))
  | _, _ => Err method_not_allowed
  end.

Definition backup_routes (state : AppState) (r : Request) : Prog SEff Response :=
  match extract r with
  | Ok (claims, op) => serve_op state claims op
  | Err rejection => Ret rejection
  end.

(** The protected routes under their two layers: the one added last runs first. *)
Definition protected (state : AppState) (r : Request) : Prog SEff Response :=
  respond id (auth_middleware r (fun r =>
    x <- rate_limit_middleware r (backup_routes state) ;;
    Ret (match x with Ok resp => resp | Err resp => resp end))).

(** The public routes; [None] for the others. *)
Definition public (state : AppState) (r : Request) : option (Prog SEff Response) :=
  match rq_route r, get_or_head (rq_method r) with
  | HealthRoute, GET => Some health
  | ReadyRoute, GET => Some (readiness state)
  | LoginRoute, POST =>
      Some (match json_login r with
            | Ok req => respond (fun l => json_response OK (JsonLogin l)) (login req)
            | Err rejection => Ret rejection
            end)
  | HealthRoute, _ | ReadyRoute, _ | LoginRoute, _ => Some (Ret method_not_allowed)
  | _, _ => None
  end.

(** [Router::new().merge(protected).merge(public)] *)
Definition merged (state : AppState) (r : Request) : Prog SEff Response :=
  resp <- match public state r with
          | Some p => p
          | None =>
              match rq_route r with
              | OtherRoute _ => Ret no_route
              | _ => protected state r
              end
          end ;;
  Ret (strip_body r resp).
End router.

(** ** What the layers do *)

Section layers.
Context `{UuidCrate} `{SerdeJson} `{JobJson} `{Libm} `{JsonWebToken} `{HeaderValues}.
Context `{Extractors} `{Postgres} `{RedisServer} `{Broker}.

Lemma run_ping (self : CacheLayer) (w : World) :
  run service (ping self) w =
  match cl_redis self with
  | None => (false, w)
  | Some _ => (is_ok (redis_ping (w_redis w)).1, with_redis (redis_ping (w_redis w)).2 w)
  end.
Proof using Type.
  unfold ping. destruct (cl_redis self); [|done]. rewrite run_bind, run_perform.
  cbn [service]. by destruct (redis_ping (w_redis w)).
Qed.

(** Readiness answers 200 exactly when the database executes a statement and Redis, when
    it was reached at startup, answers a ping, and 503 otherwise, with both checks in the
    body; liveness answers 200 whatever the state of the two.  Neither changes the table. *)
Theorem readiness_reports_both (state : AppState) (w : World) :
  let db := is_ok (exec SelectOne (w_pg w)).1 in
  let redis := match cl_redis (cache state) with
               | None => false
               | Some _ => is_ok (redis_ping (w_redis w)).1
               end in
  let '(r, w') := run service (readiness state) w in
  status r = (if db && redis then 200 else 503)
  /\ (exists text, body r = JsonValue (JObj
        [("status", JStr text);
         ("checks", JObj [("database", JBool db); ("redis", JBool redis)])])
        /\ (text = "ready" <-> status r = 200))
  /\ backups (w_pg w') = backups (w_pg w)
  /\ run service health w = (json_response 200 (JsonValue (JObj [("status", JStr "ok")])), w).
Proof using Type.
  intros db redis. unfold readiness. rewrite run_bind, run_perform. cbn [service].
  assert (Hb : backups (exec SelectOne (w_pg w)).2 = backups (w_pg w))
    by (unfold exec, begin_exec; by destruct (pg_faults (w_pg w)) as [|[[]|] ?]).
  unfold db in *. destruct (exec SelectOne (w_pg w)) as [r pg]. cbn [fst snd] in *.
  rewrite run_bind, run_ping. unfold redis.
  destruct (cl_redis (cache state)); cbn [run w_redis with_pg].
  2: { rewrite andb_false_r. split; [done|]. split; [|done]. by eexists. }
  destruct (is_ok r && is_ok (redis_ping (w_redis w)).1); (split; [done|]);
    (split; [by eexists|done]).
Qed.

Lemma run_rate_limit (r : Request) (next : Request -> Prog SEff Response) (w : World) :
  run service (rate_limit_middleware r next) w =
  let c := rate_limit (w_config w) in
  match rq_claims r with
  | None => let '(resp, w') := run service (next r) w in (Ok resp, w')
  | Some claims =>
      let '(d, l) := check_and_increment (w_limiter w) (c_tenant_id claims) c (w_instant w) in
      match d with
      | Ok info => let '(resp, w') := run service (next r) (with_limiter l w) in
                   (Ok (rate_limit_headers info resp), w')
      | Err _ => (Err (too_many_requests c), with_limiter l w)
      end
  end.
Proof using Type.
  unfold rate_limit_middleware. rewrite run_bind, run_config.
  destruct (rq_claims r) as [claims|]; cbn [option_map].
  - rewrite run_bind, run_perform. cbn [service].
    destruct (check_and_increment _ _ _ _) as [[info|[]] l]; [|done].
    rewrite run_bind. by destruct (run service (next r) _).
  - rewrite run_bind. by destruct (run service (next r) w).
Qed.

(** The three headers of an admitted request. *)
Lemma rate_limit_headers_spec (info : RateLimitInfo) (r : Response) :
  let r' := rate_limit_headers info r in
  status r' = status r /\ body r' = body r
  /\ assoc "X-RateLimit-Limit" (headers r') = Some (u64_to_string (rl_limit info))
  /\ assoc "X-RateLimit-Remaining" (headers r') = Some (u64_to_string (rl_remaining info))
  /\ assoc "X-RateLimit-Reset" (headers r') = Some (u64_to_string (rl_reset_secs info)).
Proof using Type.
  unfold rate_limit_headers. split; [done|]. split; [done|].
  split; [rewrite 2!header_insert_ne by done; apply header_insert_eq|].
  split; [rewrite header_insert_ne by done; apply header_insert_eq|]. apply header_insert_eq.
Qed.

(** C19. The middleware's protocol: within the tenant's budget the inner handler runs once
    and its answer gets the three rate limit headers; over it the handler does not run, the
    answer is 429 with [Retry-After] and only the limiter's counter changes.  A request
    without claims passes without being counted. *)
Theorem rate_limit_protocol (r : Request) (next : Request -> Prog SEff Response) (w : World) :
  let c := rate_limit (w_config w) in
  let '(x, w') := run service (rate_limit_middleware r next) w in
  match rq_claims r with
  | None => exists resp, run service (next r) w = (resp, w') /\ x = Ok resp
  | Some claims =>
      let d := check_and_increment (w_limiter w) (c_tenant_id claims) c (w_instant w) in
      match d.1 with
      | Ok info =>
          exists resp resp', run service (next r) (with_limiter d.2 w) = (resp, w')
            /\ x = Ok resp' /\ status resp' = status resp /\ body resp' = body resp
            /\ assoc "X-RateLimit-Limit" (headers resp')
               = Some (u64_to_string (max_requests c))
            /\ assoc "X-RateLimit-Remaining" (headers resp')
               = Some (u64_to_string (rl_remaining info))
            /\ assoc "X-RateLimit-Reset" (headers resp') = Some (u64_to_string (window_secs c))
      | Err _ =>
          exists resp, x = Err resp /\ w' = with_limiter d.2 w /\ status resp = 429
            /\ assoc "Retry-After" (headers resp) = Some (u64_to_string (window_secs c))
            /\ assoc "X-RateLimit-Remaining" (headers resp) = Some "0"
      end
  end.
Proof using Type.
  intros c. rewrite run_rate_limit. fold c. cbv zeta.
  destruct (rq_claims r) as [claims|].
  - assert (Hinfo : forall info l,
      check_and_increment (w_limiter w) (c_tenant_id claims) c (w_instant w) = (Ok info, l) ->
      rl_limit info = max_requests c /\ rl_reset_secs info = window_secs c).
    { intros info l. unfold check_and_increment, decide_entry. case_match; [done|].
      by intros [= <- _]. }
    destruct (check_and_increment _ _ _ _) as [[info|[]] l]; cbn [fst snd].
    + destruct (Hinfo info l eq_refl) as [Hl Hr].
      destruct (run service (next r) (with_limiter l w)) as [resp w'].
      destruct (rate_limit_headers_spec info resp) as (Hs & Hb & H1' & H2' & H3').
      exists resp, (rate_limit_headers info resp). rewrite <-Hl, <-Hr. by split_and!.
    + by eexists.
  - destruct (run service (next r) w) as [resp w']. by eexists.
Qed.

(** A protected route: the others are public. *)
Definition is_protected (r : Request) : bool :=
  match rq_route r with
  | BackupsRoute | BackupRoute _ | AnalyzeRoute _ | ProcessRoute _ => true
  | HealthRoute | ReadyRoute | LoginRoute | OtherRoute _ => false
  end.

Lemma public_protected (state : AppState) (r : Request) :
  is_protected r = true -> public state r = None.
Proof using Type. unfold is_protected, public. by destruct (rq_route r), (rq_method r). Qed.

(** The extractors read the claims that the middleware stored. *)
Lemma extract_claims (r : Request) (c c' : Claims) (op : BackupOp) :
  extract (insert_claims c r) = Ok (c', op) -> c' = c.
Proof using Type.
  unfold extract, extension, and_then. cbn [rq_claims insert_claims ok_or].
  repeat case_match; intros [=]; congruence.
Qed.

(** A protected route: 401 without a valid token; counted, refused over the budget, rejected
    by the extractors or served with the token's claims otherwise. *)
Lemma run_protected (state : AppState) (r : Request) (w : World) :
  run service (protected state r) w =
  match accepted_claims w r with
  | None =>
      (into_response (match bearer_token r with
                      | None => Unauthorized "missing or invalid Authorization header"
                      | Some t => Jwt (match jwt_decode t (jwt_secret (w_config w))
                                               (timestamp (w_utc w)) with
                                       | Err e => e | Ok _ => MkJwtError "" end)
                      end), w)
  | Some c =>
      let '(d, l) := check_and_increment (w_limiter w) (c_tenant_id c)
                       (rate_limit (w_config w)) (w_instant w) in
      match d with
      | Err _ => (too_many_requests (rate_limit (w_config w)), with_limiter l w)
      | Ok info =>
          match extract (insert_claims c r) with
          | Err rejection => (rate_limit_headers info rejection, with_limiter l w)
          | Ok (c', op) =>
              let '(resp, w') := run service (serve_op state c' op) (with_limiter l w) in
              (rate_limit_headers info resp, w')
          end
      end
  end.
Proof using Type.
  unfold protected. rewrite run_respond, auth_middleware_run. unfold accepted_claims.
  destruct (bearer_token r) as [t|]; [|done]. cbn [mbind option_bind].
  destruct (jwt_decode _ _ _) as [c|e]; cbn [ok]; [|done].
  rewrite run_bind, run_rate_limit. cbn [rq_claims insert_claims]. cbv zeta.
  destruct (check_and_increment _ _ _ _) as [[info|[]] l]; [|done].
  unfold backup_routes. destruct (extract (insert_claims c r)) as [[c' op]|rejection]; [|done].
  by destruct (run service (serve_op state c' op) (with_limiter l w)).
Qed.

Lemma run_merged_protected (state : AppState) (r : Request) (w : World) :
  is_protected r = true ->
  run service (merged state r) w =
  let '(resp, w') := run service (protected state r) w in (strip_body r resp, w').
Proof using Type.
  intros Hp. unfold merged. rewrite run_bind, public_protected by done.
  unfold is_protected in Hp. destruct (rq_route r); try done; by destruct (run service _ w).
Qed.
End layers.

(** ** Reference extractors *)

(** Extractors that accept one fixed body and the default query. *)
Module ReferenceExtractors.
Definition rejected (st : StatusCode) : Response := json_response st NoBody.

Definition axum : Extractors := {|
  json_create _ := Ok (MkCreateBackupRequest "/data" false);
  json_update _ := Ok (MkUpdateBackupRequest None None);
  json_login _ := Ok (MkLoginRequest "admin" "admin");
  query_list _ := Ok (list_params None None None);
  path_rejection _ := rejected BAD_REQUEST;
  missing_extension := rejected INTERNAL_SERVER_ERROR;
  method_not_allowed := rejected METHOD_NOT_ALLOWED;
  no_route := rejected NOT_FOUND;
|}.
End ReferenceExtractors.
