(* ===== verification/Transport.v ===== *)
(** The layers around the routes ([router.rs]): body limit, compression, timeout, trace and
    CORS, in the order in which the source adds them, the last one outermost.  What a layer
    answers by itself and what it adds to a response are parameters with the documented
    behaviour of tower-http; the limit, the status code and the order are the source's.  The
    30 seconds of the timeout layer are an arbitrary number of awaited calls ([deadline]):
    the call at which they are over, or never. *)

From S2P Require Import Prelude Codec Prog Models Errors SocketAddr Config Merge RateLimit.
From S2P Require Import Entropy Db State Cache Auth Jobs Backups Endpoints Stale Cancel Router.
Local Open Scope prog_scope.

(** ** The layers *)

Class TowerHttp : Type := {
  content_length : Request -> option Z;
  too_large : Response;
  compress : Request -> Response -> Response;
  timed_out : StatusCode -> Response;
  preflight : Request -> Response;
  with_cors : Request -> Response -> Response;
}.

(** Bodies are compared as a client sees them, after the decoding. *)
Class TowerHttpLaws `{TowerHttp} : Prop := {
  too_large_status : status too_large = PAYLOAD_TOO_LARGE;
  compress_same : forall r x, status (compress r x) = status x /\ body (compress r x) = body x;
  timed_out_status : forall st, status (timed_out st) = st;
  with_cors_same : forall r x, status (with_cors r x) = status x /\ body (with_cors r x) = body x;
}.

(** A service made of awaited calls, and one that is driven to its answer. *)
Abbreviation Inner := (Request -> Prog SEff Response).

Section layers.
Context `{TowerHttp} `{Postgres} `{RedisServer} `{Broker}.

Abbreviation Outer := (Request -> World -> Response * World).

(** [RequestBodyLimitLayer]: a declared length above the limit is refused at once. *)
Definition body_limit_layer (limit : Z) (inner : Inner) : Inner := fun r =>
  match content_length r with
  | Some n => if limit <? n then Ret too_large else inner r
  | None => inner r
  end.

Definition compression_layer (inner : Inner) : Inner := fun r =>
  resp <- inner r ;; Ret (compress r resp).

(** [TimeoutLayer]: the inner future is dropped at the deadline. *)
Definition timeout_layer (st : StatusCode) (deadline : option nat) (inner : Inner) : Outer :=
  fun r w =>
  match deadline with
  | None => run service (inner r) w
  | Some n =>
      let '(answer, w') := run_for n service (inner r) w in
      (match answer with Some resp => resp | None => timed_out st end, w')
  end.

(** [TraceLayer] writes log lines. *)
Definition trace_layer (inner : Outer) : Outer := inner.

(** [CorsLayer] answers OPTIONS requests by itself. *)
Definition cors_layer (inner : Outer) : Outer := fun r w =>
  match rq_method r with
  | OPTIONS => (preflight r, w)
  | _ => let '(resp, w') := inner r w in (with_cors r resp, w')
  end.
End layers.

Section router.
Context `{UuidCrate} `{SerdeJson} `{JobJson} `{Libm} `{JsonWebToken} `{HeaderValues}.
Context `{Extractors} `{TowerHttp} `{Postgres} `{RedisServer} `{Broker}.

(** [10 * 1024 * 1024] *)
Definition body_limit : Z := 10 * 1024 * 1024.

Definition create_router (state : AppState) (deadline : option nat) :
    Request -> World -> Response * World :=
  cors_layer (trace_layer (timeout_layer REQUEST_TIMEOUT deadline
    (compression_layer (body_limit_layer body_limit (merged state))))).

(** ** What the layers keep *)

(** The program under the timeout layer. *)
Definition under_timeout (state : AppState) : Inner :=
  compression_layer (body_limit_layer body_limit (merged state)).

(** The declared length is within the limit. *)
Definition within_limit (r : Request) : bool :=
  match content_length r with Some n => n <=? body_limit | None => true end.

Lemma run_under_timeout (state : AppState) (r : Request) (w : World) :
  run service (under_timeout state r) w =
  if within_limit r
  then let '(resp, w') := run service (merged state r) w in (compress r resp, w')
  else (compress r too_large, w).
Proof using Type.
  unfold under_timeout, compression_layer, body_limit_layer, within_limit.
  rewrite run_bind. destruct (content_length r) as [n|].
  - rewrite Z.ltb_antisym. destruct (n <=? body_limit); cbn [negb]; [|done].
    by destruct (run service (merged state r) w).
  - by destruct (run service (merged state r) w).
Qed.

(** The request goes through the layers to its handler. *)
Definition passes (r : Request) : bool :=
  match rq_method r with OPTIONS => false | _ => true end.

Lemma cors_passes (inner : Request -> World -> Response * World) (r : Request) (w : World) :
  passes r = true ->
  cors_layer inner r w = let '(resp, w') := inner r w in (with_cors r resp, w').
Proof using Type. unfold passes, cors_layer. by destruct (rq_method r). Qed.

Lemma merged_writes_once (state : AppState) (r : Request) :
  writes_once keeps_stores (merged state r).
Proof using Type.
  unfold merged. apply writes_once_bind; [|done].
  destruct (public state r) as [p|] eqn:Ep.
  - apply only_reads_once. unfold public in Ep.
    assert (Hready : only_reads keeps_stores (readiness state)).
    { unfold readiness, ping. split; [done|]. intros x. by destruct (cl_redis (cache state)). }
    assert (Hlogin : forall req, only_reads keeps_stores
              (respond (fun l => json_response OK (JsonLogin l)) (login req))).
    { intros req. apply only_reads_bind; [|by intros [?|?]]. unfold login.
      destruct (credentials _ _) as [[t roles]|]; cbn [ok_or try_pure]; [|done].
      split; [done|]. intros cfg. split; [done|]. intros now. cbn. by destruct (map_err _ _). }
    destruct (rq_route r), (get_or_head (rq_method r)); simplify_eq; try done.
    by destruct (json_login r).
  - clear Ep. assert (Hprot : writes_once keeps_stores (protected state r)).
    { unfold protected. apply writes_once_bind; [|by intros [?|?]].
      unfold auth_middleware. apply reads_then_once; [done|]. intros cfg.
      destruct (bearer_token r); cbn [ok_or try_pure]; [|done].
      apply reads_then_once; [by split|]. intros [c|e]; [|done].
      apply writes_once_bind; [|done]. apply writes_once_bind; [|done].
      unfold rate_limit_middleware. apply reads_then_once; [done|]. intros cfg'.
      cbn [rq_claims insert_claims option_map]. apply reads_then_once; [done|].
      intros [info|[]]; [|done]. apply writes_once_bind; [|done].
      unfold backup_routes. destruct (extract _) as [[c' op]|resp]; [|done].
      apply serve_op_writes_once. }
    by destruct (rq_route r).
Qed.

Lemma under_timeout_writes_once (state : AppState) (r : Request) :
  writes_once keeps_stores (under_timeout state r).
Proof using Type.
  unfold under_timeout, compression_layer, body_limit_layer. apply writes_once_bind; [|done].
  destruct (content_length r) as [n|]; [destruct (body_limit <? n)|]; try done;
    apply merged_writes_once.
Qed.

(** ** The guarantees *)

Lemma run_for_bind {A B} (n : nat) (p : Prog SEff A) (f : A -> Prog SEff B) (w : World) :
  run_for n service (bind p f) w =
  match run_for n service p w with
  | (None, w') => (None, w')
  | (Some a, w') => run_for (n - calls service p w) service (f a) w'
  end.
Proof using Type.
  revert n w. induction p as [a|X e k IH]; intros n w; [by destruct n|].
  destruct n as [|n]; cbn; [done|]. destruct (service X e w) as [x w']. apply IH.
Qed.

(** A request without a valid token gets no further than the configuration and the clock. *)
Lemma run_for_rejected (state : AppState) (n : nat) (r : Request) (w : World) :
  is_protected r = true -> accepted_claims w r = None ->
  run_for n service (protected state r) w = (None, w)
  \/ exists resp, run_for n service (protected state r) w = (Some resp, w)
                  /\ status resp = UNAUTHORIZED.
Proof using Type.
  intros Hp Ha. unfold accepted_claims in Ha.
  unfold protected, respond, auth_middleware, config, verify_token, perform, try_bind.
  destruct n as [|n]; [by left|]. cbn [bind run_for service].
  destruct (bearer_token r) as [t|]; cbn [mbind option_bind ok_or try_pure bind run_for] in *.
  2: { right. eexists. by destruct n. }
  destruct n as [|n]; [by left|]. cbn [run_for service bind].
  destruct (jwt_decode _ _ _) as [c|e]; [done|]. right. eexists. by destruct n.
Qed.

Context `{!TowerHttpLaws}.

Lemma rejected_outcome (state : AppState) (deadline : option nat) (r : Request) (w : World) :
  is_protected r = true -> accepted_claims w r = None ->
  let '(resp, w') := timeout_layer REQUEST_TIMEOUT deadline (under_timeout state) r w in
  w' = w /\ (status resp = UNAUTHORIZED
             \/ (status resp = PAYLOAD_TOO_LARGE /\ within_limit r = false)
             \/ (status resp = REQUEST_TIMEOUT /\ deadline <> None)).
Proof using Type*.
  intros Hp Ha. unfold timeout_layer. destruct deadline as [n|].
  - unfold under_timeout, compression_layer, body_limit_layer. rewrite run_for_bind.
    assert (Hin : within_limit r = true -> match content_length r with
              | Some m => if body_limit <? m then Ret too_large else merged state r
              | None => merged state r end = merged state r).
    { unfold within_limit. destruct (content_length r) as [m|]; [|done].
      rewrite Z.ltb_antisym. by intros ->. }
    destruct (within_limit r) eqn:El.
    + rewrite Hin by done. unfold merged. rewrite public_protected by done.
      replace (match rq_route r with OtherRoute _ => Ret no_route | _ => protected state r end)
        with (protected state r) by (unfold is_protected in Hp; by destruct (rq_route r)).
      rewrite run_for_bind. destruct (run_for_rejected state n r w Hp Ha) as [->|(resp & -> & Hs)].
      * rewrite timed_out_status. auto.
      * destruct (n - _)%nat; cbn [run_for]; destruct (_ - _)%nat; cbn [run_for];
          (split; [done|]); left; rewrite (proj1 (compress_same _ _)); unfold strip_body;
          by destruct (rq_method r).
    + unfold within_limit in El. destruct (content_length r) as [m|]; [|done].
      rewrite Z.ltb_antisym, El. cbn [negb].
      destruct n; cbn [run_for]; destruct (_ - _)%nat; cbn [run_for];
        (split; [done|]); right; left; by rewrite (proj1 (compress_same _ _)), too_large_status.
  - rewrite run_under_timeout, run_merged_protected, run_protected, Ha by done.
    destruct (within_limit r); (split; [done|]); [left|right; left];
      rewrite (proj1 (compress_same _ _)), ?too_large_status; [|done].
    unfold strip_body. by destruct (bearer_token r), (rq_method r).
Qed.

(** C4. No backup operation without a valid token, through all the layers.  On a protected
    route, a request without one changes nothing, not even a rate limit counter, wherever the
    deadline falls, and is answered 401 (or 413 for its declared length, or 408); with one,
    and time enough, it is counted for the token's tenant, refused with 429 over the budget,
    rejected by the extractors or else served as exactly one operation with the token's
    claims, and the client sees the status and the body of that operation (no body for a
    HEAD request). *)
Theorem protected_routes_guarded (state : AppState) (deadline : option nat) (r : Request)
    (w : World) :
  is_protected r = true -> passes r = true ->
  let '(resp, w') := create_router state deadline r w in
  match accepted_claims w r with
  | None =>
      w' = w /\ (status resp = 401 \/ (status resp = 413 /\ within_limit r = false)
                 \/ (status resp = 408 /\ deadline <> None))
  | Some c =>
      deadline = None -> within_limit r = true ->
      let '(d, l) := check_and_increment (w_limiter w) (c_tenant_id c)
                       (rate_limit (w_config w)) (w_instant w) in
      match d with
      | Err _ => status resp = 429 /\ w' = with_limiter l w
      | Ok _ =>
          match extract (insert_claims c r) with
          | Err rejection => status resp = status rejection /\ w' = with_limiter l w
          | Ok (c', op) =>
              c' = c
              /\ exists served, run service (serve_op state c op) (with_limiter l w) = (served, w')
                   /\ status resp = status served
                   /\ body resp = match rq_method r with HEAD => NoBody | _ => body served end
          end
      end
  end.
Proof using Type*.
  intros Hp Hpass. unfold create_router, trace_layer. rewrite cors_passes by done.
  fold (under_timeout state).
  destruct (accepted_claims w r) as [c|] eqn:Ha.
  - destruct (timeout_layer _ _ _ _ _) as [resp w'] eqn:Et. intros -> Hl.
    cbn [timeout_layer] in Et.
    rewrite run_under_timeout, Hl, run_merged_protected, run_protected, Ha in Et by done.
    rewrite (proj1 (with_cors_same _ _)), (proj2 (with_cors_same _ _)).
    assert (Hst : forall x, status (compress r (strip_body r x)) = status x)
      by (intros x; rewrite (proj1 (compress_same _ _)); unfold strip_body; by destruct (rq_method r)).
    assert (Hbd : forall x, body (compress r (strip_body r x))
                            = match rq_method r with HEAD => NoBody | _ => body x end)
      by (intros x; rewrite (proj2 (compress_same _ _)); unfold strip_body; by destruct (rq_method r)).
    destruct (check_and_increment _ _ _ _) as [[info|[]] l].
    + destruct (extract (insert_claims c r)) as [[c' op]|rejection] eqn:He.
      * apply extract_claims in He as ->. split; [done|].
        destruct (run service (serve_op state c op) (with_limiter l w)) as [served w2].
        simplify_eq. exists served. by rewrite Hst, Hbd.
      * simplify_eq. by rewrite Hst.
    + simplify_eq. by rewrite Hst.
  - pose proof (rejected_outcome state deadline r w Hp Ha) as Hr.
    destruct (timeout_layer _ _ _ _ _) as [resp w'].
    by rewrite (proj1 (with_cors_same _ _)).
Qed.

(** C5. Requests are atomic through all the layers.  Wherever the deadline (or the client)
    cuts a request off, whatever its route, method and token, and whatever the database,
    Redis and the broker answered, the table and the queue are as they were before it or as
    its whole run would have left them; a request that was cut off is answered 408, and an
    OPTIONS request is answered by the CORS layer alone and changes nothing. *)
Theorem request_atomic (state : AppState) (n : nat) (r : Request) (w : World) :
  let '(resp1, w1) := create_router state (Some n) r w in
  let '(resp2, w2) := create_router state None r w in
  (stores w1 = stores w \/ stores w1 = stores w2)
  /\ ((resp1, w1) = (resp2, w2) \/ status resp1 = REQUEST_TIMEOUT)
  /\ (rq_method r = OPTIONS -> w1 = w /\ w2 = w /\ resp1 = resp2).
Proof using Type*.
  unfold create_router, trace_layer. fold (under_timeout state).
  destruct (passes r) eqn:Ep.
  - rewrite !cors_passes by done. cbn [timeout_layer].
    pose proof (dropped_all_or_nothing keeps_stores service stores keeps_stores_spec n _ w
                  (under_timeout_writes_once state r)) as Hd.
    pose proof (run_for_some n service (under_timeout state r) w) as Hs.
    destruct (run_for n _ _ w) as [answer w1], (run service _ w) as [resp2 w2]. cbn [snd] in Hd.
    destruct answer as [resp1|]; (split; [exact Hd|]); (split; [|by unfold passes in Ep; intros E; rewrite E in Ep]).
    + left. specialize (Hs w1 resp1 eq_refl). by simplify_eq.
    + right. by rewrite (proj1 (with_cors_same _ _)), timed_out_status.
  - assert (Ho : rq_method r = OPTIONS) by (unfold passes in Ep; by destruct (rq_method r)).
    unfold cors_layer. rewrite Ho. split; [by left|]. split; [by left|done].
Qed.
End router.

(** ** Witnesses *)

(** Layers that add nothing. *)
Module ReferenceTower.
Definition layers : TowerHttp := {|
  content_length r := Some (Z.of_nat (String.length (rq_body r)));
  too_large := json_response PAYLOAD_TOO_LARGE NoBody;
  compress _ x := x;
  timed_out st := json_response st NoBody;
  preflight _ := json_response OK NoBody;
  with_cors _ x := header_insert "access-control-allow-origin" "*" x;
|}.

Lemma layers_laws : @TowerHttpLaws layers.
Proof. by split. Qed.
End ReferenceTower.

#[local] Existing Instance Reference.uuids.
#[local] Existing Instance Reference.json.
#[local] Existing Instance ReferenceJobs.json.
#[local] Existing Instance sample_libm.
#[local] Existing Instance ReferenceJwt.library.
#[local] Existing Instance ReferenceJwt.headers.
#[local] Existing Instance ReferenceExtractors.axum.
#[local] Existing Instance ReferenceTower.layers.
#[local] Existing Instance ReferenceTower.layers_laws.
#[local] Existing Instance ReferenceDb.server.
#[local] Existing Instance ReferenceRedis.server.
#[local] Existing Instance ReferenceBroker.broker.

Definition without_token : Request :=
  {| rq_method := POST; rq_route := BackupsRoute; rq_headers := []; rq_query := "";
     rq_body := "{}"; rq_claims := None |}.

(** A creation without a token is refused, at once or at the deadline, and the world is as
    before. *)
Lemma protected_routes_guarded_witness :
  let w := ref_world [] ReferenceRedis.empty 20 in
  (create_router ref_state None without_token w).2 = w
  /\ status (create_router ref_state None without_token w).1 <> 200.
Proof.
  intros w. pose proof (protected_routes_guarded ref_state None without_token w eq_refl eq_refl) as Hg.
  destruct (create_router _ _ _ _) as [resp w'].
  assert (Ha : accepted_claims w without_token = None) by reflexivity.
  rewrite Ha in Hg. destruct Hg as [-> Hs]. split; [reflexivity|]. cbn [fst].
  destruct Hs as [->|[[-> _]|[-> _]]]; discriminate.
Defined.

(** A logged-in creation, cut off after any of its calls. *)
Definition creation_with (t : string) : Request :=
  {| rq_method := POST; rq_route := BackupsRoute;
     rq_headers := [("Authorization", "Bearer " +:+ t)]; rq_query := ""; rq_body := "{}";
     rq_claims := None |}.

Lemma request_atomic_witness :
  let w := ref_world [] ReferenceRedis.empty 20 in
  let t := encode_text (claims_at 20 "admin" demo_tenant ["admin"], jwt_secret sample_config) in
  let cut n := create_router ref_state (Some n) (creation_with t) w in
  let whole := create_router ref_state None (creation_with t) w in
  status whole.1 = 201 /\ status (cut 4%nat).1 = 408
  /\ Forall (fun n => stores (cut n).2 = stores w \/ stores (cut n).2 = stores whole.2)
       [0; 1; 2; 3; 4; 5; 6]%nat.
Proof.
  intros w t cut whole. split; [vm_compute; reflexivity|]. split; [vm_compute; reflexivity|].
  apply Forall_true. intros n.
  pose proof (request_atomic ref_state n (creation_with t) w) as Ha. fold (cut n) whole in Ha.
  destruct (cut n) as [resp1 w1], whole as [resp2 w2]. exact (proj1 Ha).
Defined.
