(* ===== verification/HttpTable.v ===== *)
(** The whole service against the plain table: any sequence of HTTP requests through the
    router, its layers and the cache.  A request either is one operation on the table, with
    the claims of its token, or leaves the table alone; which of the two is decided by the
    token, the limiter and the extractors ([operation_of]). *)

From S2P Require Import Prelude Codec Prog Models Errors SocketAddr Config Merge RateLimit.
From S2P Require Import Entropy Db State Cache Auth Jobs Backups BackupsSpec BackupsProps.
From S2P Require Import CacheSpec Endpoints Coherence Stale Cancel Router Transport.
Local Open Scope prog_scope.

Section http.
Context `{UuidCrate} `{SerdeJson} `{JobJson} `{Libm} `{JsonWebToken} `{HeaderValues}.
Context `{Extractors} `{TowerHttp} `{Postgres} `{RedisServer} `{Broker}.
Context (state : AppState).

(** The operation that a request is served as, if any. *)
Definition operation_of (w : World) (r : Request) : option (Claims * BackupOp) :=
  if passes r && within_limit r && is_protected r then
    c ← accepted_claims w r;
    _ ← ok (check_and_increment (w_limiter w) (c_tenant_id c) (rate_limit (w_config w))
              (w_instant w)).1;
    ok (extract (insert_claims c r))
  else None.

(** The client sees the status and the body (HEAD: no body) of the operation's response. *)
Definition shows (r : Request) (resp served : Response) : Prop :=
  status resp = status served
  /\ body resp = match rq_method r with HEAD => NoBody | _ => body served end.

Context `{!RedisUp}.
Context `{!PostgresLaws} `{!UuidLaws} `{!SerdeJsonLaws} `{!RedisLaws}.

(** A request that is no operation leaves the table and the cache's coherence alone. *)
Definition harmless (w w' : World) : Prop :=
  backups (w_pg w') = backups (w_pg w) /\ inv state w'.

Lemma harmless_same (w : World) : inv state w -> harmless w w.
Proof using Type. by split. Qed.

Lemma inv_limiter (l : Limiter) (w : World) : inv state w -> inv state (with_limiter l w).
Proof using Type. done. Qed.

Lemma inv_ping (w : World) :
  inv state w -> inv state (with_redis (redis_ping (w_redis w)).2 w).
Proof using Type*.
  intros Hi. apply (between_inv state w); [done|]. destruct Hi as (Hq & _ & Hup & _).
  split_and!; try done; [apply redis_ping_shrinks|by apply up_ping].
Qed.

Lemma readiness_harmless (w : World) :
  inv state w -> harmless w (run service (readiness state) w).2.
Proof using Type*.
  intros Hi. unfold readiness. rewrite run_bind, run_perform. cbn [service].
  rewrite exec_quiet by apply Hi. cbn [exec_stmt].
  change (with_pg (begin_exec (w_pg w)).2 w) with (tick w).
  pose proof (inv_tick state w Hi) as Ht. rewrite run_bind, run_ping.
  destruct (cl_redis (cache state)); cbn [run snd]; (split; [done|]); [by apply inv_ping|done].
Qed.

Lemma public_harmless (r : Request) (p : Prog SEff Response) (w : World) :
  inv state w -> public state r = Some p -> harmless w (run service p w).2.
Proof using Type*.
  intros Hi. unfold public.
  assert (Hlogin : forall req, harmless w (run service
            (respond (fun l => json_response OK (JsonLogin l)) (login req)) w).2)
    by (intros req; rewrite run_respond, login_run; by apply harmless_same).
  destruct (rq_route r), (get_or_head (rq_method r)); intros Hp; simplify_eq;
    try (by apply harmless_same); try (by apply readiness_harmless).
  destruct (json_login r); [apply Hlogin|by apply harmless_same].
Qed.

(** What a protected route does. *)
Lemma protected_step (r : Request) (w : World) :
  inv state w ->
  let '(resp, w') := run service (protected state r) w in
  match (c ← accepted_claims w r;
         _ ← ok (check_and_increment (w_limiter w) (c_tenant_id c) (rate_limit (w_config w))
                   (w_instant w)).1;
         ok (extract (insert_claims c r))) with
  | Some (c, op) =>
      exists served, status resp = status served /\ body resp = body served
        /\ allowed c (pg_clock (w_pg w)) (backups (w_pg w)) op served (backups (w_pg w'))
        /\ inv state w'
  | None => harmless w w'
  end.
Proof using Type*.
  intros Hi. rewrite run_protected. destruct (accepted_claims w r) as [c|];
    cbn [mbind option_bind]; [|by apply harmless_same].
  destruct (check_and_increment _ _ _ _) as [[info|[]] l]; cbn [fst ok mbind option_bind].
  2: { split; [done|by apply inv_limiter]. }
  destruct (extract (insert_claims c r)) as [[c' op]|rejection] eqn:He; cbn [ok].
  2: { split; [done|by apply inv_limiter]. }
  pose proof (extract_claims r c c' op He) as ->.
  pose proof (serve_op_refines state c op (with_limiter l w) (inv_limiter l w Hi)) as Hr.
  unfold refines_at in Hr. destruct (run service _ _) as [served w']. exists served.
  destruct (rate_limit_headers_spec info served) as (Hs & Hb & _). by destruct Hr.
Qed.

(** One HTTP request. *)
Lemma router_step (r : Request) (w : World) :
  inv state w ->
  let '(resp, w') := create_router state None r w in
  match operation_of w r with
  | Some (c, op) =>
      exists served, allowed c (pg_clock (w_pg w)) (backups (w_pg w)) op served (backups (w_pg w'))
        /\ (TowerHttpLaws -> shows r resp served) /\ inv state w'
  | None => harmless w w'
  end.
Proof using Type*.
  intros Hi. unfold operation_of, create_router, trace_layer.
  destruct (passes r) eqn:Hp; cbn [andb].
  2: { unfold cors_layer, passes in *. destruct (rq_method r); try done; by apply harmless_same. }
  rewrite cors_passes by done. cbn [timeout_layer]. fold (under_timeout state).
  rewrite run_under_timeout. destruct (within_limit r); cbn [andb]; [|by apply harmless_same].
  unfold merged. rewrite run_bind. destruct (is_protected r) eqn:Ep.
  - rewrite public_protected by done.
    replace (match rq_route r with OtherRoute _ => Ret no_route | _ => protected state r end)
      with (protected state r) by (unfold is_protected in Ep; by destruct (rq_route r)).
    pose proof (protected_step r w Hi) as Hs.
    destruct (run service (protected state r) w) as [resp w']. cbn [run].
    destruct (c ← accepted_claims w r; _) as [[c op]|]; [|exact Hs].
    destruct Hs as (served & Hst & Hbd & Ha & Hi'). exists served. split; [done|]. split; [|done].
    intros Hlaws. unfold shows.
    rewrite (proj1 (with_cors_same _ _)), (proj2 (with_cors_same _ _)),
      (proj1 (compress_same _ _)), (proj2 (compress_same _ _)). unfold strip_body.
    by destruct (rq_method r).
  - assert (Hh : harmless w (run service (match public state r with
               | Some p => p
               | None => match rq_route r with OtherRoute _ => Ret no_route
                                             | _ => protected state r end end) w).2).
    { destruct (public state r) as [p|] eqn:Epub; [by eapply public_harmless|].
      unfold is_protected in Ep. unfold public in Epub.
      destruct (rq_route r); first [done|by destruct (get_or_head (rq_method r))
        |by apply harmless_same]. }
    destruct (run service _ w) as [resp w']. cbn [run]. exact Hh.
Qed.

(** ** Histories *)

Record HttpEvent : Type := MkHttpEvent {
  he_request : Request;
  he_operation : option (Claims * BackupOp);
  he_now : DateTime;
  he_response : Response;
}.

(** The service: requests one after the other, and the environment in between. *)
Inductive http_history : World -> list HttpEvent -> World -> Prop :=
  | http_nil w : http_history w [] w
  | http_request w r es w' :
      http_history (create_router state None r w).2 es w' ->
      http_history w (MkHttpEvent r (operation_of w r) (pg_clock (w_pg w))
                        (create_router state None r w).1 :: es) w'
  | http_between w w1 es w' :
      between w w1 -> http_history w1 es w' -> http_history w es w'.

(** The table: an operation is answered as the table allows, and nothing else changes it. *)
Inductive http_table_history : Table -> list HttpEvent -> Table -> Prop :=
  | http_table_nil m : http_table_history m [] m
  | http_table_operation m m1 r c op now resp served es m' :
      allowed c now m op served m1 -> shows r resp served ->
      http_table_history m1 es m' ->
      http_table_history m (MkHttpEvent r (Some (c, op)) now resp :: es) m'
  | http_table_other m r now resp es m' :
      http_table_history m es m' ->
      http_table_history m (MkHttpEvent r None now resp :: es) m'.

(** Requests served one right after the other. *)
Fixpoint serve_all (w : World) (rs : list Request) : list HttpEvent * World :=
  match rs with
  | [] => ([], w)
  | r :: rs =>
      let '(resp, w1) := create_router state None r w in
      let '(es, w') := serve_all w1 rs in
      (MkHttpEvent r (operation_of w r) (pg_clock (w_pg w)) resp :: es, w')
  end.

Lemma serve_all_history (w : World) (rs : list Request) :
  http_history w (serve_all w rs).1 (serve_all w rs).2.
Proof using Type.
  revert w. induction rs as [|r rs IH]; intros w; [constructor|]. cbn [serve_all].
  pose proof (http_request w r (serve_all (create_router state None r w).2 rs).1 _ (IH _)) as Hr.
  destruct (create_router state None r w) as [resp w1]. cbn [fst snd] in *.
  by destruct (serve_all w1 rs).
Qed.

Context `{!TowerHttpLaws}.

Lemma http_refines (w w' : World) (es : list HttpEvent) :
  inv state w -> http_history w es w' ->
  http_table_history (backups (w_pg w)) es (backups (w_pg w')) /\ inv state w'.
Proof using Type*.
  intros Hi Hh. induction Hh as [w|w r es w' Hh IH|w w1 es w' Hb Hh IH].
  - split; [constructor|done].
  - pose proof (router_step r w Hi) as Hr.
    destruct (create_router state None r w) as [resp w1]. cbn [fst snd] in *.
    destruct (operation_of w r) as [[c op]|].
    + destruct Hr as (served & Ha & Hs & Hi1). destruct (IH Hi1) as [Ht ?]. split; [|done].
      econstructor; [exact Ha|by apply Hs|done].
    + destruct Hr as [Hb Hi1]. destruct (IH Hi1) as [Ht ?]. rewrite Hb in Ht. split; [|done].
      by constructor.
  - destruct (IH (between_inv _ _ _ Hi Hb)) as [Ht ?]. destruct Hb as [<- _]. by split.
Qed.
(** C1. The whole service is a table.  Any sequence of HTTP requests, to any route, with any
    method, token, body and claims, sent through all the layers of the router to the cached
    handlers with Redis up, with time passing, keys expiring and counters and clocks moving
    in between, is a history of a plain table: a request is one operation on the table, under
    the claims of its token, exactly when it reaches a protected route with an accepted
    token, within the body limit and the tenant's budget, and its input is readable; then
    the client sees the response that the table gives, and any other request leaves the table
    alone.  The cache is coherent at the end. *)
Theorem http_service_refines_table (w w' : World) (es : list HttpEvent) :
  inv state w -> http_history w es w' ->
  http_table_history (backups (w_pg w)) es (backups (w_pg w')) /\ inv state w'.
Proof using Type*. apply http_refines. Qed.

(** ** The life of a backup *)

Lemma allowed_get (c : Claims) (now : DateTime) (m m' : Table) (id : Uuid) (resp : Response) :
  allowed c now m (GetOp id) resp m' ->
  m' = m /\ resp = match owned c m id with
                   | Some b => json_response OK (JsonBackup (response_of b))
                   | None => into_response (backup_not_found id)
                   end.
Proof using Type.
  inversion 1 as [| | |op i Hi Ho| i b Ho| | | | | |op i b e Hop]; subst; cbn in *; simplify_eq.
  - by rewrite Ho.
  - by rewrite Ho.
  - by destruct Hop.
Qed.

Lemma allowed_update (c : Claims) (now : DateTime) (m m' : Table) (id : Uuid)
    (req : UpdateBackupRequest) (resp : Response) (b : Backup) :
  owned c m id = Some b -> allowed c now m (UpdateOp id req) resp m' ->
  let b' := set_columns (option_map status_to_string (req_status req)) (req_size_bytes req) now b in
  m' = <[id := b']> m /\ resp = json_response OK (JsonBackup (response_of b')).
Proof using Type.
  intros Hb.
  inversion 1 as [| | |op i Hi Ho| | |i r b0 Ho| | | |op i b0 e Hop]; subst; cbn in *; simplify_eq.
  - done.
  - by destruct Hop.
Qed.

Lemma allowed_delete (c : Claims) (now : DateTime) (m m' : Table) (id : Uuid)
    (resp : Response) (b : Backup) :
  owned c m id = Some b -> allowed c now m (DeleteOp id) resp m' ->
  m' = delete id m /\ resp = json_response NO_CONTENT NoBody.
Proof using Type.
  intros Hb.
  inversion 1 as [| | |op i Hi Ho| | | |i b0 Ho| | |op i b0 e Hop]; subst; cbn in *; simplify_eq.
  - done.
  - by destruct Hop.
Qed.

Lemma allowed_created (c : Claims) (now : DateTime) (m m' : Table) (req : CreateBackupRequest)
    (resp : Response) (r : BackupResponse) :
  allowed c now m (CreateOp req) resp m' -> body resp = JsonBackup r ->
  exists row, r = response_of row /\ status resp = 201 /\ m' = <[r_id r := row]> m
              /\ m !! r_id r = None /\ fresh_row c req now row.
Proof using Type.
  inversion 1 as [req0 e He|req0 row Hv Hm Hf|req0 e Hv He|op i Hi Ho| | | | | | |op i b e Hop];
    subst; cbn [body json_response]; intros Hr; try done.
  - destruct e; done.
  - injection Hr as <-. by exists row.
Qed.

Lemma owned_insert (c : Claims) (id : Uuid) (b : Backup) (m : Table) :
  b_tenant_id b = c_tenant_id c -> owned c (<[id := b]> m) id = Some b.
Proof using Type. intros Ht. apply select_backup_spec. cbn. by rewrite lookup_insert_eq. Qed.

Lemma owned_deleted (c : Claims) (id : Uuid) (m : Table) : owned c (delete id m) id = None.
Proof using Type. apply select_backup_none. cbn. intros b. by rewrite lookup_delete_eq. Qed.

(** A row of the tenant is counted and, when all the rows fit on the page, on it. *)
Lemma allowed_first_page (c : Claims) (now : DateTime) (m m' : Table) (resp : Response)
    (id : Uuid) (b : Backup) :
  owned c m id = Some b -> allowed c now m (ListOp (list_params None None None)) resp m' ->
  m' = m /\ status resp = 200
  /\ exists l, body resp = JsonBackups l /\ 1 <= total l
               /\ (total l <= lr_limit l -> response_of b ∈ items l).
Proof using Type.
  intros Hb. inversion 1 as [| | |op i Hi Ho| |params limit offset page Hl Hf p Hp| | | | |op i b0 e Hop];
    subst; try done; [|by destruct Hop].
  split; [done|]. split; [done|]. eexists. split; [done|].
  cbn [list_response total lr_limit items fst snd].
  apply select_backup_spec in Hb as [Hb Ht].
  assert (Hin : b ∈ rows_where p (at_table m' now)).
  { apply rows_where_elem. split; [by apply bool_decide_eq_true_2|by exists id]. }
  split.
  - unfold count_rows. destruct (rows_where p (at_table m' now)); [by apply elem_of_nil in Hin|].
    cbn [length]. lia.
  - intros Hfit. destruct Hp as (o & Hperm & _ & ->). apply list_elem_of_fmap_2.
    change (drop _ o) with o.
    rewrite take_ge by (rewrite (Permutation_length Hperm); unfold count_rows in Hfit; lia).
    by rewrite Hperm.
Qed.

(** One event of a table history that is an operation with a body. *)
Lemma table_history_step (m m' : Table) (e : HttpEvent) (es : list HttpEvent) (c : Claims)
    (op : BackupOp) :
  http_table_history m (e :: es) m' -> he_operation e = Some (c, op) ->
  rq_method (he_request e) <> HEAD ->
  exists m1 served, allowed c (he_now e) m op served m1
    /\ status (he_response e) = status served /\ body (he_response e) = body served
    /\ http_table_history m1 es m'.
Proof using Type.
  inversion 1 as [|m0 m1 r c0 op0 now resp served es0 m0' Ha Hs Ht|]; subst; cbn; intros Hop Hm;
    simplify_eq.
  exists m1, served. destruct Hs as [Hst Hbd]. split; [done|]. split; [done|]. split; [|done].
  rewrite Hbd. by destruct (rq_method r).
Qed.

(** What the client reads of a response. *)
Definition seen (e : HttpEvent) : StatusCode * Body :=
  (status (he_response e), body (he_response e)).

Definition lifecycle (id : Uuid) (req : CreateBackupRequest) (upd : UpdateBackupRequest)
    : list BackupOp :=
  [CreateOp req; GetOp id; ListOp (list_params None None None); UpdateOp id upd; GetOp id;
   DeleteOp id; GetOp id].

(** C8. The life of a backup over HTTP.  A client with one token creates a backup, reads it,
    lists, updates, reads again, deletes and reads a last time, with anything in between
    that does not change the table (other requests' time passing, cache entries expiring, a
    configuration change outside the cached page).  When the creation was answered with a
    backup, every other answer is determined: 200 with the same backup, a list that counts it
    and contains it when everything fits on the page, 200 with exactly the asked changes,
    200 with the updated backup, 204, and 404; and the table is as it was before. *)
Theorem backup_lifecycle (w w' : World) (es : list HttpEvent) (e1 : HttpEvent) (c : Claims)
    (req : CreateBackupRequest) (upd : UpdateBackupRequest) (r : BackupResponse) :
  inv state w -> http_history w (e1 :: es) w' ->
  body (he_response e1) = JsonBackup r ->
  map he_operation (e1 :: es) = map (fun op => Some (c, op)) (lifecycle (r_id r) req upd) ->
  Forall (fun e => rq_method (he_request e) <> HEAD) (e1 :: es) ->
  exists l r' m,
    map seen (e1 :: es) =
      [(201, JsonBackup r); (200, JsonBackup r); (200, JsonBackups l); (200, JsonBackup r');
       (200, JsonBackup r'); (204, NoBody);
       (404, JsonValue (JObj [("error", JStr m); ("status", JNum 404)]))]
    /\ r_tenant_id r = c_tenant_id c /\ r_source_path r = req_source_path req
    /\ r_encryption_enabled r = req_encryption_enabled req
    /\ r_status r = "pending" /\ r_size_bytes r = 0
    /\ 1 <= total l /\ (total l <= lr_limit l -> r ∈ items l)
    /\ r_id r' = r_id r /\ r_tenant_id r' = r_tenant_id r /\ r_source_path r' = r_source_path r
    /\ r_status r' = match req_status upd with Some s => status_to_string s | None => "pending" end
    /\ r_size_bytes r' = unwrap_or (req_size_bytes upd) 0
    /\ backups (w_pg w') = backups (w_pg w).
Proof using Type*.
  intros Hi Hh Hb1 Hops Hm. destruct (http_refines _ _ _ Hi Hh) as [Ht _].
  destruct es as [|e2 [|e3 [|e4 [|e5 [|e6 [|e7 [|e8 es]]]]]]]; try done.
  cbn [map lifecycle] in Hops. injection Hops as Ho1 Ho2 Ho3 Ho4 Ho5 Ho6 Ho7.
  rewrite !Forall_cons in Hm. destruct Hm as (Hm1 & Hm2 & Hm3 & Hm4 & Hm5 & Hm6 & Hm7 & _).
  destruct (table_history_step _ _ _ _ _ _ Ht Ho1 Hm1) as (m1 & x1 & A1 & S1 & B1 & T1).
  rewrite Hb1 in B1. symmetry in B1.
  destruct (allowed_created _ _ _ _ _ _ _ A1 B1) as (row & -> & X1 & -> & Hnew & Hf).
  destruct Hf as (Ft & Fp & Fe & Fz & Fs & Fc & Fu).
  pose proof (owned_insert c (b_id row) row (backups (w_pg w)) Ft) as Hown.
  cbn [r_id response_of] in *.
  destruct (table_history_step _ _ _ _ _ _ T1 Ho2 Hm2) as (m2 & x2 & A2 & S2 & B2 & T2).
  apply allowed_get in A2 as [-> ->]. rewrite Hown in S2, B2.
  destruct (table_history_step _ _ _ _ _ _ T2 Ho3 Hm3) as (m3 & x3 & A3 & S3 & B3 & T3).
  destruct (allowed_first_page _ _ _ _ _ _ _ Hown A3) as (-> & X3 & l & X3b & Hl1 & Hl2).
  destruct (table_history_step _ _ _ _ _ _ T3 Ho4 Hm4) as (m4 & x4 & A4 & S4 & B4 & T4).
  destruct (allowed_update _ _ _ _ _ _ _ _ Hown A4) as [-> ->].
  set (row' := set_columns _ _ _ row) in *. rewrite insert_insert_eq in T4.
  assert (Hown' : owned c (<[b_id row := row']> (backups (w_pg w))) (b_id row) = Some row')
    by (by apply owned_insert).
  destruct (table_history_step _ _ _ _ _ _ T4 Ho5 Hm5) as (m5 & x5 & A5 & S5 & B5 & T5).
  apply allowed_get in A5 as [-> ->]. rewrite Hown' in S5, B5.
  destruct (table_history_step _ _ _ _ _ _ T5 Ho6 Hm6) as (m6 & x6 & A6 & S6 & B6 & T6).
  destruct (allowed_delete _ _ _ _ _ _ _ Hown' A6) as [-> ->].
  destruct (table_history_step _ _ _ _ _ _ T6 Ho7 Hm7) as (m7 & x7 & A7 & S7 & B7 & T7).
  apply allowed_get in A7 as [-> ->]. rewrite owned_deleted in S7, B7.
  assert (Hend : backups (w_pg w') = backups (w_pg w))
    by (inversion T7; subst; by apply delete_insert_id).
  exists l, (response_of row'), ("backup " +:+ uuid_to_string (b_id row)).
  assert (Hst : b_status row = "pending")
    by (by apply (status_to_from_string _ Pending) in Fs as <-).
  split.
  { cbn [map]. unfold seen. rewrite Hb1, S1, X1, S2, B2, S3, X3, B3, X3b, S4, B4, S5, B5, S6, B6, S7, B7.
    done. }
  cbn [r_id r_tenant_id r_source_path r_encryption_enabled r_status r_size_bytes response_of].
  split_and!; try done; unfold row'; cbn; [by destruct (req_status upd)|by rewrite Fz].
Qed.
End http.

(** ** Witnesses *)

#[local] Existing Instance Reference.uuids.
#[local] Existing Instance Reference.uuids_laws.
#[local] Existing Instance Reference.json.
#[local] Existing Instance Reference.row_json_laws.
#[local] Existing Instance ReferenceJobs.json.
#[local] Existing Instance sample_libm.
#[local] Existing Instance ReferenceJwt.library.
#[local] Existing Instance ReferenceJwt.headers.
#[local] Existing Instance ReferenceExtractors.axum.
#[local] Existing Instance ReferenceTower.layers.
#[local] Existing Instance ReferenceTower.layers_laws.
#[local] Existing Instance ReferenceDb.server.
#[local] Existing Instance ReferenceDb.pg_server_laws.
#[local] Existing Instance ReferenceRedis.server.
#[local] Existing Instance ReferenceRedis.redis_server_laws.
#[local] Existing Instance ReferenceRedis.up.
#[local] Existing Instance ReferenceBroker.broker.

Definition start_world : World := ref_world [] ReferenceRedis.empty 20.

Lemma start_world_inv : inv ref_state start_world.
Proof.
  split; [done|]. split; [by intros id b Hb|]. split; [done|]. right.
  split; intros x y (v & Hv & _); discriminate Hv.
Qed.

Definition admin_claims : Claims := claims_at 20 "admin" demo_tenant ["admin"].
Definition admin_token : string := encode_text (admin_claims, jwt_secret sample_config).

Definition call (m : Method) (route : Route) : Request :=
  {| rq_method := m; rq_route := route; rq_headers := [("Authorization", "Bearer " +:+ admin_token)];
     rq_query := ""; rq_body := ""; rq_claims := None |}.

(** The identifier that the reference database draws first. *)
Definition first_id : Uuid := uuid_of 1001.

Definition after_creation : list Request :=
  let one := BackupRoute (uuid_to_string first_id) in
  [call GET one; call GET BackupsRoute; call PATCH one; call GET one; call DELETE one; call GET one].

(** A creation, an attempt without a token, a probe and a listing. *)
Lemma http_service_refines_table_witness :
  let rs := [call POST BackupsRoute; without_token; call GET HealthRoute; call GET BackupsRoute] in
  let es := (serve_all ref_state start_world rs).1 in
  http_table_history ∅ es (backups (w_pg (serve_all ref_state start_world rs).2))
  /\ map (fun e => status (he_response e)) es = [201; 401; 200; 200].
Proof.
  intros rs es. split; [|vm_compute; reflexivity].
  exact (proj1 (http_service_refines_table ref_state start_world _ es start_world_inv
                  (serve_all_history ref_state start_world rs))).
Defined.

Lemma backup_lifecycle_witness :
  let r1 := call POST BackupsRoute in
  let w1 := (create_router ref_state None r1 start_world).2 in
  let e1 := MkHttpEvent r1 (operation_of start_world r1) 20
              (create_router ref_state None r1 start_world).1 in
  let es := (serve_all ref_state w1 after_creation).1 in
  map (fun e => (seen e).1) (e1 :: es) = [201; 200; 200; 200; 200; 204; 404]
  /\ backups (w_pg (serve_all ref_state w1 after_creation).2) = ∅.
Proof.
  intros r1 w1 e1 es. set (req := MkCreateBackupRequest "/data" false).
  set (upd := MkUpdateBackupRequest None None).
  destruct (backup_lifecycle ref_state start_world (serve_all ref_state w1 after_creation).2 es e1
    admin_claims req upd (MkBackupResponse first_id demo_tenant "/data" 0 "pending" false 20 20 None)
    start_world_inv) as (l & r' & m & Hs & Hrest).
  - exact (http_request ref_state start_world r1 es _ (serve_all_history ref_state w1 after_creation)).
  - vm_compute. reflexivity.
  - vm_compute. reflexivity.
  - vm_compute. repeat constructor; discriminate.
  - split; [|apply Hrest].
    transitivity (map fst (map seen (e1 :: es))); [by rewrite map_map|]. by rewrite Hs.
Defined.
