(* ===== verification/Metrics.v ===== *)
(** The metrics route and what the counters count ([main.rs], [grpc.rs]).  The route is added
    to the router after its layers, so no token, limit or deadline applies to it.  How the
    exporter prints the counters is a parameter. *)

From S2P Require Import Prelude Codec Prog Models Errors SocketAddr Config Merge RateLimit.
From S2P Require Import Entropy Db State Cache Auth Jobs Backups Endpoints Grpc Stale Cancel.
From S2P Require Import Router Transport.
Local Open Scope prog_scope.

(** [PrometheusHandle::render], from the increments so far. *)
Class Prometheus : Type := { render : list Counter -> string }.

#[export] Instance Counter_eq_dec : EqDecision Counter.
Proof. solve_decision. Defined.

Definition METRICS : string := "/metrics".

Section metrics.
Context `{UuidCrate} `{SerdeJson} `{JobJson} `{Libm} `{JsonWebToken} `{HeaderValues}.
Context `{Extractors} `{TowerHttp} `{Prometheus} `{Postgres} `{RedisServer} `{Broker}.

Definition metrics (r : Request) (w : World) : Response :=
  match get_or_head (rq_method r) with
  | GET => strip_body r (json_response OK (TextBody (render (w_counted w))))
  | _ => method_not_allowed
  end.

(** [create_router(state).route("/metrics", get(..))] *)
Definition app (state : AppState) (deadline : option nat) : Request -> World -> Response * World :=
  fun r w =>
  match rq_route r with
  | OtherRoute path =>
      if String.eqb path METRICS then (metrics r w, w) else create_router state deadline r w
  | _ => create_router state deadline r w
  end.

(** ** What a request calls *)

(** No request writes the configuration, fetches a remote one or counts. *)
Definition request_call (X : Type) (e : SEff X) : Prop :=
  match e with
  | WriteConfig _ | HttpGet _ | IntervalTick _ | Increment _ => False
  | _ => True
  end.

Abbreviation requesting := (only_reads request_call).

Lemma cache_call_request (X : Type) (e : SEff X) : cache_call X e -> request_call X e.
Proof using Type. by destruct e. Qed.

Lemma requesting_query {R} (q : Stmt R) : requesting (query q).
Proof using Type. by repeat split. Qed.

Lemma requesting_try {A B Er} (p : Prog SEff (result A Er)) (f : A -> Prog SEff (result B Er)) :
  requesting p -> (forall a, requesting (f a)) -> requesting (try_bind p f).
Proof using Type. intros Hp Hf. apply only_reads_bind; [done|]. by intros [a|e]; [apply Hf|]. Qed.

Lemma requesting_respond {A} (f : A -> Response) (p : Prog SEff (result A AppError)) :
  requesting p -> requesting (respond f p).
Proof using Type. intros Hp. by apply only_reads_bind. Qed.

Create HintDb requests.
Hint Resolve cache_call_request requesting_query requesting_respond reading_get reading_set
  reading_get_page reading_set_page reading_invalidate reading_invalidate_page reading_ping
  : requests.
Hint Extern 1 (only_reads _ (Ret _)) => exact I : requests.
Hint Extern 1 (only_reads _ config) => by split : requests.
Hint Extern 3 (only_reads _ (try_bind _ _)) => apply requesting_try; [|intros ?] : requests.
Hint Extern 4 (only_reads _ (bind _ _)) => apply only_reads_bind; [|intros ?] : requests.
Hint Extern 5 (only_reads _ (try_pure ?x _)) => destruct x; cbn [try_pure] : requests.
Hint Extern 6 (only_reads _ (match ?x with _ => _ end)) => destruct x : requests.

Lemma serve_op_requests (state : AppState) (claims : Claims) (op : BackupOp) :
  requesting (serve_op state claims op).
Proof using Type.
  assert (Hfetch : forall id, requesting (fetch_backup claims id))
    by (intros id; unfold fetch_backup; auto 6 with requests).
  assert (Hlist : forall t st l o, requesting (list_from_db t st l o))
    by (intros t [s|] l o; unfold list_from_db; auto 8 with requests).
  destruct op; cbn [serve_op]; apply requesting_respond.
  - unfold create_backup. auto 10 with requests.
  - unfold get_backup. apply only_reads_bind; [auto with requests|]. intros cached.
    destruct (cached ≫= _); auto 10 with requests.
  - unfold list_backups. cbv zeta. apply only_reads_bind; [by split|]. intros cfg.
    set (use := _ && _). clearbody use. auto 12 with requests.
  - unfold update_backup. cbv zeta. auto 10 with requests.
  - unfold delete_backup. auto 10 with requests.
  - unfold analyze_backup. cbv zeta. apply requesting_try; [done|]. intros b.
    split; [done|]. by intros [x|e].
  - unfold enqueue_backup. apply requesting_try; [done|]. intros b.
    destruct (amqp_channel state); cbn [ok_or try_pure]; [|done]. unfold publish_job.
    split; [done|]. by intros [[]|e].
Qed.

Lemma merged_requests (state : AppState) (r : Request) : requesting (merged state r).
Proof using Type.
  unfold merged. apply only_reads_bind; [|done].
  assert (Hprot : requesting (protected state r)).
  { apply requesting_respond. unfold auth_middleware. split; [done|]. intros cfg.
    destruct (bearer_token r); cbn [bind ok_or try_pure]; [|done].
    apply requesting_try; [by split|]. intros c. apply only_reads_bind; [|done].
    apply only_reads_bind; [|done]. unfold rate_limit_middleware. split; [done|]. intros cfg'.
    cbn [bind rq_claims insert_claims option_map]. split; [done|]. intros [info|[]]; [|done].
    cbn [bind]. apply only_reads_bind; [|done]. unfold backup_routes.
    destruct (extract _) as [[c' op]|resp]; [apply serve_op_requests|done]. }
  assert (Hready : requesting (readiness state)).
  { unfold readiness. split; [done|]. intros x. cbn [bind].
    apply only_reads_bind; [apply reading_ping, cache_call_request|done]. }
  unfold public. destruct (rq_route r), (get_or_head (rq_method r)); try done.
  destruct (json_login r) as [req|]; [|done]. apply requesting_respond. unfold login.
  destruct (credentials _ _) as [[t roles]|]; cbn [ok_or try_pure]; [|done].
  split; [done|]. intros cfg. cbn [bind]. apply requesting_try; [by split|done].
Qed.

(** What no request changes. *)
Definition settings (w : World) : AppConfig * list Counter * list (result HttpResponse ReqwestError)
  := (w_config w, w_counted w, w_http w).

Lemma request_call_settings X (e : SEff X) (w : World) :
  request_call X e -> settings (service X e w).2 = settings w.
Proof using Type.
  destruct e; cbn [request_call service]; intros He; try done; by repeat case_match.
Qed.

Lemma app_settings (state : AppState) (deadline : option nat) (r : Request) (w : World) :
  settings (app state deadline r w).2 = settings w.
Proof using Type.
  assert (Hrouter : settings (create_router state deadline r w).2 = settings w).
  { assert (Hu : requesting (under_timeout state r)).
    { unfold under_timeout, compression_layer, body_limit_layer. apply only_reads_bind; [|done].
      repeat case_match; try done; apply merged_requests. }
    pose proof (fun n => only_reads_view request_call service settings request_call_settings
                  n _ w Hu) as Hv.
    assert (Hinner : settings (timeout_layer REQUEST_TIMEOUT deadline (under_timeout state) r w).2
                     = settings w).
    { unfold timeout_layer. destruct deadline as [n|].
      - destruct (Hv n) as [He _]. by destruct (run_for _ _ _ _).
      - by destruct (Hv O). }
    unfold create_router, trace_layer, cors_layer. fold (under_timeout state).
    destruct (rq_method r); try done; by destruct (timeout_layer _ _ _ _ _). }
  unfold app. destruct (rq_route r); try done. by case_match.
Qed.

(** ** What is counted *)

(** What the two servers of the process are asked. *)
Inductive ServiceCall : Type :=
  | HttpCall (deadline : option nat) (r : Request)
  | StatusCall (m : StatusUpdate)
  | ReportCall (m : ProcessingResult).

(** One of them served; for a gRPC call, whether it was acknowledged. *)
Definition serve_call (state : AppState) (c : ServiceCall) (w : World) : bool * World :=
  match c with
  | HttpCall deadline r => (false, (app state deadline r w).2)
  | StatusCall m => let '(r, w') := run service (update_status m) w in (is_ok r, w')
  | ReportCall m => let '(r, w') := run service (report_result m) w in (is_ok r, w')
  end.

Fixpoint serve_calls (state : AppState) (cs : list ServiceCall) (w : World)
    : list (ServiceCall * bool) * World :=
  match cs with
  | [] => ([], w)
  | c :: cs =>
      let '(acknowledged, w1) := serve_call state c w in
      let '(log, w') := serve_calls state cs w1 in ((c, acknowledged) :: log, w')
  end.

(** An acknowledged result with the given outcome. *)
Definition recorded_result (label : string) (e : ServiceCall * bool) : bool :=
  match e.1 with
  | ReportCall m => e.2 && String.eqb (report_label (pr_status m)) label
  | _ => false
  end.

(** The value of a counter. *)
Definition count_of (c : Counter) (w : World) : nat :=
  length (List.filter (fun c' => bool_decide (c' = c)) (w_counted w)).

Lemma count_of_app (c : Counter) (w : World) (cs : list Counter) (w' : World) :
  w_counted w' = w_counted w ++ cs ->
  count_of c w' = (count_of c w + length (List.filter (fun c' => bool_decide (c' = c)) cs))%nat.
Proof using Type. intros He. unfold count_of. by rewrite He, List.filter_app, length_app. Qed.

Lemma serve_call_counts (state : AppState) (c : ServiceCall) (w : World) (label : string) :
  let '(acknowledged, w') := serve_call state c w in
  count_of (jobs_processed label) w'
  = (count_of (jobs_processed label) w
     + if recorded_result label (c, acknowledged) then 1 else 0)%nat.
Proof using Type.
  destruct c as [deadline r|m|m]; cbn [serve_call].
  - pose proof (app_settings state deadline r w) as [= _ Hc _]. unfold count_of. rewrite Hc.
    cbn [recorded_result fst]. lia.
  - pose proof (update_status_only_db m w) as Ho. destruct (run service _ w) as [r w'].
    unfold only_db in Ho. cbn [snd] in Ho. unfold count_of. rewrite Ho.
    cbn [w_counted with_pg recorded_result fst]. lia.
  - pose proof (report_result_only_db m w) as Ho. destruct (run service _ w) as [r w'].
    unfold only_db_counted in Ho.
    rewrite (count_of_app _ w (if is_ok r then [jobs_processed (report_label (pr_status m))] else []))
      by (by rewrite Ho). f_equal. unfold recorded_result. cbn [fst snd].
    destruct (is_ok r); [|done]. cbn [List.filter andb].
    destruct (String.eqb_spec (report_label (pr_status m)) label) as [->|Hne].
    + by rewrite bool_decide_eq_true_2.
    + rewrite bool_decide_eq_false_2; [done|]. by intros [= ?].
Qed.

(** C40. The metrics count what happened.  After any sequence of HTTP requests (cut off or
    not), status updates and result reports, whatever the database answers, the counter of
    each outcome has grown by exactly the number of reports that were acknowledged with that
    outcome; and /metrics, outside of every layer, shows the counters to anyone, without a
    token, and changes nothing. *)
Theorem metrics_count_results (state : AppState) (cs : list ServiceCall) (w : World) :
  let '(log, w') := serve_calls state cs w in
  (forall label, count_of (jobs_processed label) w'
     = (count_of (jobs_processed label) w
        + length (List.filter (recorded_result label) log))%nat)
  /\ (forall deadline r, rq_route r = OtherRoute METRICS ->
        app state deadline r w' = (metrics r w', w')
        /\ (rq_method r = GET ->
            metrics r w' = json_response OK (TextBody (render (w_counted w'))))).
Proof using Type.
  destruct (serve_calls state cs w) as [log w'] eqn:Es. split.
  - intros label. revert w log Es. induction cs as [|c cs IH]; intros w log Es.
    + injection Es as <- <-. cbn. lia.
    + cbn [serve_calls] in Es. pose proof (serve_call_counts state c w label) as Hc.
      destruct (serve_call state c w) as [a w1].
      destruct (serve_calls state cs w1) as [log1 w2] eqn:E1. injection Es as <- <-.
      rewrite (IH w1 log1 E1), Hc. cbn [List.filter].
      destruct (recorded_result label (c, a)); cbn [length]; lia.
  - intros deadline r Hr. unfold app, metrics, strip_body. rewrite Hr, String.eqb_refl.
    split; [done|]. by intros ->.
Qed.
End metrics.

(** ** Witness *)

#[local] Existing Instance Reference.uuids.
#[local] Existing Instance Reference.json.
#[local] Existing Instance ReferenceJobs.json.
#[local] Existing Instance sample_libm.
#[local] Existing Instance ReferenceJwt.library.
#[local] Existing Instance ReferenceJwt.headers.
#[local] Existing Instance ReferenceExtractors.axum.
#[local] Existing Instance ReferenceTower.layers.
#[local] Existing Instance ReferenceDb.server.
#[local] Existing Instance ReferenceRedis.server.
#[local] Existing Instance ReferenceBroker.broker.

(** An exporter that prints the number of increments. *)
Definition sample_exporter : Prometheus := {| render cs := pretty (length cs) |}.
#[local] Existing Instance sample_exporter.

Definition scrape : Request :=
  {| rq_method := GET; rq_route := OtherRoute METRICS; rq_headers := []; rq_query := "";
     rq_body := ""; rq_claims := None |}.

Definition report (status : string) : ServiceCall :=
  ReportCall (MkProcessingResult (uuid_to_string (uuid_of 1)) status 5 (S754_zero false) false "").

Lemma metrics_count_results_witness :
  let w := one_row_world "running" in
  let cs := [report "completed"; HttpCall None scrape; report "failed"; report "completed"] in
  let w' := (serve_calls ref_state cs w).2 in
  count_of (jobs_processed "success") w' = 2%nat
  /\ app ref_state None scrape w' = (json_response OK (TextBody "3"), w').
Proof.
  intros w cs w'. pose proof (metrics_count_results ref_state cs w) as Hm.
  rewrite (surjective_pairing (serve_calls ref_state cs w)) in Hm. fold w' in Hm.
  destruct Hm as [Hc Ha]. split; [rewrite Hc; vm_compute; reflexivity|].
  destruct (Ha None scrape eq_refl) as [-> Hg]. rewrite Hg by reflexivity. f_equal.
Defined.
