(* ===== verification/Bounds.v ===== *)
(** Termination: how many calls each operation awaits at most, whatever is answered, failures
    included.  No handler of the service waits in a loop, so a request that is given ten
    answers is never cut off. *)

From S2P Require Import Prelude Codec Prog Models Errors SocketAddr Config Merge RateLimit.
From S2P Require Import Entropy Db State Cache Auth Jobs Backups Endpoints Grpc Stale Cancel.
From S2P Require Import Router Transport.
Local Open Scope prog_scope.

(** The calls of one backup operation. *)
Definition op_calls (op : BackupOp) : nat :=
  match op with
  | CreateOp _ => 2
  | GetOp _ => 4
  | ListOp _ => 6
  | UpdateOp _ _ | DeleteOp _ => 3
  | AnalyzeOp _ | EnqueueOp _ => 2
  end.

(** Authentication and rate limiting make two calls each, and the longest operation six. *)
Definition request_calls : nat := 10.

Section bounds.
Context `{UuidCrate} `{SerdeJson} `{JobJson} `{Libm}.

(** [bind] with its bounds given. *)
Local Ltac split_calls n m := apply (calls_at_most_bind n m).

Lemma query_calls {R} (q : Stmt R) : calls_at_most 1 (query q).
Proof using Type. done. Qed.

Lemma cache_get_calls (c : CacheLayer) (id : Uuid) : calls_at_most 1 (Cache.get_backup c id).
Proof using Type. unfold Cache.get_backup. by destruct (cl_redis c). Qed.

Lemma cache_page_calls (c : CacheLayer) (t : Uuid) : calls_at_most 1 (get_tenant_backups c t).
Proof using Type. unfold get_tenant_backups. by destruct (cl_redis c). Qed.

Lemma cache_set_calls (c : CacheLayer) (b : Backup) : calls_at_most 2 (set_backup c b).
Proof using Type.
  unfold set_backup, ttl_secs. destruct (cl_redis c), (cl_config c), (backup_to_json b);
    cbn; auto.
Qed.

Lemma cache_set_page_calls (c : CacheLayer) (t : Uuid) (l : list Backup) (n : Z) :
  calls_at_most 2 (set_tenant_backups c t l n).
Proof using Type.
  unfold set_tenant_backups, ttl_secs. destruct (cl_redis c), (cl_config c), (page_to_json (l, n));
    cbn; auto.
Qed.

Lemma invalidate_calls (c : CacheLayer) (id : Uuid) : calls_at_most 1 (invalidate_backup c id).
Proof using Type. unfold invalidate_backup. by destruct (cl_redis c). Qed.

Lemma invalidate_page_calls (c : CacheLayer) (t : Uuid) :
  calls_at_most 1 (invalidate_tenant_backups c t).
Proof using Type. unfold invalidate_tenant_backups. by destruct (cl_redis c). Qed.

Lemma fetch_calls (claims : Claims) (id : Uuid) : calls_at_most 1 (fetch_backup claims id).
Proof using Type. split_calls 1%nat 0%nat; [done|]. by intros [[b|]|e]. Qed.

Lemma evict_calls {A} (c : CacheLayer) (id t : Uuid) (a : A) :
  calls_at_most 2 (invalidate_backup c id ;;; invalidate_tenant_backups c t ;;; Ret a).
Proof using Type.
  split_calls 1%nat 1%nat; [apply invalidate_calls|intros _].
  by split_calls 1%nat 0%nat; [apply invalidate_page_calls|].
Qed.

Lemma list_db_calls (t : Uuid) (st : option string) (limit offset : Z) :
  calls_at_most 2 (list_from_db t st limit offset).
Proof using Type.
  unfold list_from_db. destruct st as [s|]; (split_calls 1%nat 1%nat; [done|]);
    (intros [l|e]; [|done]); (split_calls 1%nat 0%nat; [done|]); by intros [n|e].
Qed.

Lemma respond_calls {A} (n : nat) (f : A -> Response) (p : Prog SEff (result A AppError)) :
  calls_at_most n p -> calls_at_most n (respond f p).
Proof using Type.
  intros Hp. unfold respond. rewrite <-(Nat.add_0_r n). by apply calls_at_most_bind.
Qed.

Lemma serve_op_calls (state : AppState) (claims : Claims) (op : BackupOp) :
  calls_at_most (op_calls op) (serve_op state claims op).
Proof using Type.
  destruct op as [req|id|params|id req|id|id|id]; apply respond_calls; cbn [op_calls].
  - unfold create_backup. destruct (validate_source_path _); cbn [try_pure]; [|done].
    split_calls 1%nat 1%nat; [done|]. intros [b|e]; [|done].
    by split_calls 1%nat 0%nat; [apply invalidate_page_calls|].
  - split_calls 1%nat 3%nat; [apply cache_get_calls|]. intros cached.
    destruct (cached ≫= _); [done|]. split_calls 1%nat 2%nat; [apply fetch_calls|].
    intros [b|e]; [|done]. by split_calls 2%nat 0%nat; [apply cache_set_calls|].
  - split_calls 1%nat 5%nat; [done|]. intros cfg. split_calls 1%nat 4%nat.
    { case_match; [apply cache_page_calls|done]. }
    intros [p|]; [done|]. split_calls 2%nat 2%nat; [apply list_db_calls|].
    intros [p|e]; [|done]. split_calls 2%nat 0%nat; [|done].
    case_match; [apply cache_set_page_calls|done].
  - split_calls 1%nat 2%nat; [done|]. intros [[b|]|e]; cbn [ok_or try_pure]; [|done|done].
    apply evict_calls.
  - split_calls 1%nat 2%nat; [done|]. intros [n|e]; [|done]. case_match; [done|].
    apply evict_calls.
  - split_calls 1%nat 1%nat; [apply fetch_calls|]. intros [b|e]; [|done].
    split_calls 1%nat 0%nat; [done|]. by intros [x|e].
  - split_calls 1%nat 1%nat; [apply fetch_calls|]. intros [b|e]; [|done].
    destruct (amqp_channel state); cbn [ok_or try_pure]; [|done].
    split_calls 1%nat 0%nat; [|by intros [[]|e]]. unfold publish_job.
    split_calls 1%nat 0%nat; [done|]. by intros [[]|e].
Qed.

Lemma update_status_calls (msg : StatusUpdate) : calls_at_most 1 (update_status msg).
Proof using Type.
  unfold update_status. destruct (parse_backup_id _); cbn [try_pure]; [|done].
  split_calls 1%nat 0%nat; [done|]. intros [n|e]; [|done]. by case_match.
Qed.

Lemma report_result_calls (msg : ProcessingResult) : calls_at_most 2 (report_result msg).
Proof using Type.
  unfold report_result. destruct (parse_backup_id _); cbn [try_pure]; [|done].
  split_calls 2%nat 0%nat; [|by intros [[]|e]].
  destruct (String.eqb _ _); split_calls 1%nat 1%nat; try done; by intros [n|e].
Qed.

(** ** Requests *)

Context `{JsonWebToken} `{HeaderValues} `{Extractors} `{TowerHttp}.

Lemma protected_calls (state : AppState) (r : Request) :
  calls_at_most request_calls (protected state r).
Proof using Type.
  apply respond_calls. unfold auth_middleware. split_calls 1%nat 9%nat; [done|]. intros cfg.
  destruct (bearer_token r); cbn [ok_or try_pure]; [|done].
  split_calls 1%nat 8%nat; [done|]. intros [c|e]; [|done].
  split_calls 8%nat 0%nat; [|done]. split_calls 8%nat 0%nat; [|done].
  unfold rate_limit_middleware. split_calls 1%nat 7%nat; [done|]. intros cfg'.
  cbn [rq_claims insert_claims option_map]. split_calls 1%nat 6%nat; [done|].
  intros [info|[]]; [|done]. split_calls 6%nat 0%nat; [|done].
  unfold backup_routes. destruct (extract _) as [[c' op]|resp]; [|done].
  eapply calls_at_most_mono; [|apply serve_op_calls]. destruct op; cbn; lia.
Qed.

Lemma login_calls (req : LoginRequest) : calls_at_most 2 (login req).
Proof using Type.
  unfold login. destruct (credentials _ _) as [[t roles]|]; cbn [ok_or try_pure]; [|done].
  split_calls 1%nat 1%nat; [done|]. intros cfg. split_calls 1%nat 0%nat; [done|]. by intros [t'|e].
Qed.

Lemma readiness_calls (state : AppState) : calls_at_most 2 (readiness state).
Proof using Type.
  unfold readiness, ping. split_calls 1%nat 1%nat; [done|]. intros r.
  split_calls 1%nat 0%nat; [by destruct (cl_redis (cache state))|done].
Qed.

Lemma merged_calls (state : AppState) (r : Request) : calls_at_most request_calls (merged state r).
Proof using Type.
  unfold merged. split_calls 10%nat 0%nat; [|done].
  assert (Hpub : forall p, public state r = Some p -> calls_at_most 10 p).
  { unfold public. intros p. destruct (rq_route r), (get_or_head (rq_method r));
      intros Hp; simplify_eq; try done;
      try (by eapply calls_at_most_mono; [|apply readiness_calls]; lia).
    destruct (json_login r); [|done]. apply (calls_at_most_mono 2); [lia|].
    apply respond_calls, login_calls. }
  destruct (public state r) as [p|]; [by apply Hpub|].
  destruct (rq_route r); try done; apply protected_calls.
Qed.

Lemma under_timeout_calls (state : AppState) (r : Request) :
  calls_at_most request_calls (under_timeout state r).
Proof using Type.
  unfold under_timeout, compression_layer, body_limit_layer. split_calls 10%nat 0%nat; [|done].
  repeat case_match; try done; apply merged_calls.
Qed.

Context `{Postgres} `{RedisServer} `{Broker}.

(** C10. Every request terminates, in a bounded number of awaited calls whatever each of them
    answers: a backup operation makes at most two to six calls depending on its kind, a gRPC
    call one or two, and a whole request through the layers ten; so a deadline that leaves
    time for ten calls never cuts a request off: the router then answers what it answers
    without one. *)
Theorem requests_terminate (state : AppState) :
  (forall S (h : Handler SEff S) claims op s,
      (calls h (serve_op state claims op) s <= op_calls op)%nat)
  /\ (forall S (h : Handler SEff S) msg s, (calls h (update_status msg) s <= 1)%nat)
  /\ (forall S (h : Handler SEff S) msg s, (calls h (report_result msg) s <= 2)%nat)
  /\ (forall S (h : Handler SEff S) r s, (calls h (under_timeout state r) s <= 10)%nat)
  /\ (forall n r w, (10 <= n)%nat ->
        create_router state (Some n) r w = create_router state None r w).
Proof using Type.
  split_and!; intros.
  - apply calls_at_most_calls, serve_op_calls.
  - apply calls_at_most_calls, update_status_calls.
  - apply calls_at_most_calls, report_result_calls.
  - apply calls_at_most_calls, under_timeout_calls.
  - pose proof (calls_at_most_calls 10 service _ w (under_timeout_calls state r)) as Hc.
    unfold create_router, trace_layer, cors_layer. fold (under_timeout state).
    cbn [timeout_layer]. destruct (rq_method r); try done;
      rewrite run_for_whole by lia; by destruct (run service (under_timeout state r) w).
Qed.
End bounds.

(** ** Witness *)

#[local] Existing Instance Reference.uuids.
#[local] Existing Instance Reference.json.
#[local] Existing Instance ReferenceJobs.json.
#[local] Existing Instance sample_libm.
#[local] Existing Instance ReferenceJwt.library.
#[local] Existing Instance ReferenceJwt.headers.
#[local] Existing Instance ReferenceExtractors.axum.
#[local] Existing Instance ReferenceTower.layers.
#[local] Existing Instance ReferenceDb.server.
#[local] Existing Instance ReferenceRedis.server.
#[local] Existing Instance ReferenceBroker.broker.

(** A logged-in listing that misses the cache makes the ten calls: the bound is exact. *)
Lemma requests_terminate_witness :
  let w := ref_world [] ReferenceRedis.empty 20 in
  let t := encode_text (claims_at 20 "admin" demo_tenant ["admin"], jwt_secret sample_config) in
  let r := {| rq_method := GET; rq_route := BackupsRoute;
              rq_headers := [("Authorization", "Bearer " +:+ t)]; rq_query := ""; rq_body := "";
              rq_claims := None |} in
  calls service (under_timeout ref_state r) w = 10%nat
  /\ create_router ref_state (Some 10%nat) r w = create_router ref_state None r w
  /\ create_router ref_state (Some 9%nat) r w <> create_router ref_state None r w.
Proof.
  intros w t r. split; [vm_compute; reflexivity|]. split.
  - destruct (requests_terminate ref_state) as (_ & _ & _ & _ & Ht). apply Ht. lia.
  - intros He. apply (f_equal (fun x => status x.1)) in He. vm_compute in He. discriminate He.
Defined.
