(* ===== verification/Contract.v ===== *)
(** The types of the responses: for every operation the status codes and the body it may
    answer with, whatever the database, Redis, the broker and the thread pool answer.  What a
    500 says does not depend on what failed. *)

From S2P Require Import Prelude Codec Prog Models Errors SocketAddr Config Merge RateLimit.
From S2P Require Import Entropy Db State Cache Auth Jobs Backups Endpoints Grpc Router.
Local Open Scope prog_scope.

(** The body of [AppError::into_response], with one of the given statuses; an error of another
    crate shows one fixed message. *)
Definition error_body (allowed : list StatusCode) (resp : Response) : Prop :=
  exists m, body resp = JsonValue (JObj [("error", JStr m); ("status", JNum (status resp))])
    /\ status resp ∈ allowed
    /\ (status resp = INTERNAL_SERVER_ERROR -> m = "internal server error").

(** What each operation answers when it succeeds. *)
Definition success_body (op : BackupOp) (resp : Response) : Prop :=
  match op with
  | CreateOp req =>
      status resp = 201
      /\ exists b, body resp = JsonBackup b /\ r_entropy b = None
  | GetOp _ | UpdateOp _ _ =>
      status resp = 200 /\ exists b, body resp = JsonBackup b /\ r_entropy b = None
  | ListOp _ =>
      status resp = 200
      /\ exists l, body resp = JsonBackups l /\ 1 <= lr_limit l <= 100 /\ 0 <= lr_offset l
                   /\ Forall (fun b => r_entropy b = None) (items l)
  | DeleteOp _ => status resp = 204 /\ body resp = NoBody
  | AnalyzeOp _ =>
      status resp = 200 /\ exists b e, body resp = JsonBackup b /\ r_entropy b = Some e
  | EnqueueOp _ =>
      status resp = 202
      /\ exists id, body resp = JsonValue (JObj [("message", JStr "backup job enqueued");
                                                 ("backup_id", JStr id)])
  end.

(** The errors of each operation: a validation error only of a creation, a 404 only of an
    operation on one backup. *)
Definition op_errors (op : BackupOp) : list StatusCode :=
  match op with
  | CreateOp _ => [400; 500]
  | ListOp _ => [500]
  | _ => [404; 500]
  end.

Definition op_contract (op : BackupOp) (resp : Response) : Prop :=
  headers resp = [] /\ (success_body op resp \/ error_body (op_errors op) resp).

Lemma into_response_body (allowed : list StatusCode) (e : AppError) :
  status (into_response e) ∈ allowed ->
  headers (into_response e) = [] /\ error_body allowed (into_response e).
Proof. intros Hs. split; [by destruct e|]. destruct e; eexists; (split; [done|]); split; done. Qed.

Section contract.
Context `{UuidCrate} `{SerdeJson} `{JobJson} `{Libm}.

(** The values and errors of a handler. *)
Definition outcome {A} (Q : A -> Prop) (allowed : list StatusCode) (r : result A AppError) : Prop :=
  match r with Ok a => Q a | Err e => (error_status e).1 ∈ allowed end.

Lemma returns_respond {A} (Q : A -> Prop) (allowed : list StatusCode) (f : A -> Response)
    (p : Prog SEff (result A AppError)) (R : Response -> Prop) :
  returns (outcome Q allowed) p -> (forall a, Q a -> R (f a)) ->
  (forall resp, headers resp = [] /\ error_body allowed resp -> R resp) ->
  returns R (respond f p).
Proof using Type.
  intros Hp Hf He. unfold respond. eapply returns_bind; [exact Hp|]. intros [a|e]; cbn; [auto|].
  intros Hs. apply He, into_response_body. destruct e; exact Hs.
Qed.

Lemma returns_try {A B} (R : A -> Prop) (Q : B -> Prop) (allowed : list StatusCode)
    (p : Prog SEff (result A AppError)) (f : A -> Prog SEff (result B AppError)) :
  returns (outcome R allowed) p -> (forall a, R a -> returns (outcome Q allowed) (f a)) ->
  returns (outcome Q allowed) (try_bind p f).
Proof using Type.
  intros Hp Hf. unfold try_bind. eapply returns_bind; [exact Hp|]. intros [a|e]; cbn; auto.
Qed.

(** After the answer is known. *)
Lemma returns_then {A B} (Q : B -> Prop) (p : Prog SEff A) (q : Prog SEff B) :
  returns Q q -> returns Q (p ;;; q).
Proof using Type. intros Hq. eapply returns_bind; [apply returns_any|done]. Qed.

Lemma returns_query {R} (q : Stmt R) (allowed : list StatusCode) :
  500 ∈ allowed -> returns (outcome (fun _ => True) allowed) (query q).
Proof using Type. intros Ha. unfold query. by intros [x|e]. Qed.

Lemma returns_fetch (claims : Claims) (id : Uuid) :
  returns (outcome (fun _ => True) [404; 500]) (fetch_backup claims id).
Proof using Type.
  eapply returns_try; [apply returns_query; set_solver|]. intros [b|] _; cbn; set_solver.
Qed.

Lemma serve_op_contract (state : AppState) (claims : Claims) (op : BackupOp) :
  returns (op_contract op) (serve_op state claims op).
Proof using Type.
  assert (Herr : forall resp, headers resp = [] /\ error_body (op_errors op) resp ->
                   op_contract op resp) by (intros resp [? ?]; split; [done|by right]).
  destruct op as [req|id|params|id req|id|id|id]; cbn [serve_op op_errors] in *.
  - apply (returns_respond (fun p => p.1 = 201 /\ r_entropy p.2 = None) [400; 500]); [|..|exact Herr].
    2: { intros a [Hs He]. split; [done|left]. split; [done|]. by eexists. }
    unfold create_backup. destruct (validate_source_path _) as [[]|e] eqn:Ev; cbn [try_pure].
    + eapply returns_try; [apply returns_query; set_solver|]. intros b _. by apply returns_then.
    + unfold validate_source_path in Ev. repeat case_match; simplify_eq; cbn; set_solver.
  - apply (returns_respond (fun r => r_entropy r = None) [404; 500]); [|..|exact Herr].
    2: { intros a He. split; [done|left]. split; [done|]. by eexists. }
    unfold get_backup. eapply returns_bind; [apply returns_any|]. intros cached _.
    destruct (cached ≫= _); [done|]. eapply returns_try; [apply returns_fetch|]. intros b _.
    by apply returns_then.
  - apply (returns_respond (fun l => 1 <= lr_limit l <= 100 /\ 0 <= lr_offset l
             /\ Forall (fun b => r_entropy b = None) (items l)) [500]); [|..|exact Herr].
    2: { intros a He. split; [done|left]. split; [done|]. by eexists. }
    assert (Hl : forall p, outcome (fun l => 1 <= lr_limit l <= 100 /\ 0 <= lr_offset l
               /\ Forall (fun b => r_entropy b = None) (items l)) [500]
             (Ok (list_response p (clamp (lp_limit params) 1 100) (Z.max (lp_offset params) 0)))).
    { intros p. cbn. pose proof (clamp_bounds (lp_limit params) 1 100 ltac:(lia)).
      split; [lia|]. split; [lia|]. apply Forall_map, Forall_true. done. }
    unfold list_backups. cbv zeta. intros cfg. cbn [bind]. set (use := _ && _). clearbody use.
    eapply returns_bind; [apply returns_any|]. intros [p|] _; [apply Hl|].
    eapply (returns_try (fun _ => True)).
    + unfold list_from_db. destruct (lp_status params);
        (eapply returns_try; [apply returns_query; set_solver|]); intros l _;
        (eapply returns_try; [apply returns_query; set_solver|]); done.
    + intros p _. apply returns_then, Hl.
  - apply (returns_respond (fun r => r_entropy r = None) [404; 500]); [|..|exact Herr].
    2: { intros a He. split; [done|left]. split; [done|]. by eexists. }
    unfold update_backup. eapply returns_try; [apply returns_query; set_solver|].
    intros [b|] _; cbn [ok_or try_pure]; [|cbn; set_solver].
    by apply returns_then, returns_then.
  - apply (returns_respond (fun st => st = 204) [404; 500]); [|..|exact Herr].
    2: { intros st ->. split; [done|left]. by split. }
    unfold delete_backup. eapply returns_try; [apply returns_query; set_solver|].
    intros n _. case_match; [cbn; set_solver|]. by apply returns_then, returns_then.
  - apply (returns_respond (fun r => exists e, r_entropy r = Some e) [404; 500]); [|..|exact Herr].
    2: { intros a [e He]. split; [done|left]. split; [done|]. by exists a, e. }
    unfold analyze_backup. eapply returns_try; [apply returns_fetch|]. intros b _ [x|e];
      cbn; [by eexists|set_solver].
  - apply (returns_respond (fun p => p.1 = 202 /\ exists id, p.2 =
             JObj [("message", JStr "backup job enqueued"); ("backup_id", JStr id)]) [404; 500]);
      [|..|exact Herr].
    2: { intros [st j] [Hs [i Hi]]. cbn in Hs, Hi. subst. split; [done|left]. split; [done|]. by exists i. }
    unfold enqueue_backup. eapply returns_try; [apply returns_fetch|]. intros b _.
    destruct (amqp_channel state); cbn [ok_or try_pure]; [|cbn; set_solver].
    eapply returns_bind; [apply returns_any|]. intros [x|e] _; cbn; [by split; [|eexists]|set_solver].
Qed.

(** ** The other routes and the gRPC calls *)

Context `{JsonWebToken} `{HeaderValues} `{Extractors}.

Definition login_contract (resp : Response) : Prop :=
  (status resp = 200 /\ exists t, body resp = JsonLogin (MkLoginResponse t "Bearer" 86400))
  \/ error_body [401] resp.

Lemma login_keeps_contract (req : LoginRequest) :
  returns login_contract (respond (fun l => json_response OK (JsonLogin l)) (login req)).
Proof using Type.
  apply (returns_respond (fun l => exists t, l = MkLoginResponse t "Bearer" 86400) [401]).
  - unfold login. destruct (credentials _ _) as [[t roles]|]; cbn [ok_or try_pure];
      [|cbn; set_solver].
    intros cfg. cbn [bind]. eapply (returns_try (fun _ => True)).
    + intros now. cbn. by destruct (jwt_encode _ _); cbn; [|set_solver].
    + intros tok _. by eexists.
  - intros l [t ->]. left. split; [done|]. by eexists.
  - intros resp [_ He]. by right.
Qed.

(** What a request to a protected route may be answered: a 401 that shows nothing of the
    token, a 429, the extractors' rejection, or one operation's answer. *)
Inductive protected_answer (r : Request) (resp : Response) : Prop :=
  | answer_unauthorized : error_body [401] resp -> protected_answer r resp
  | answer_too_many c : resp = too_many_requests c -> protected_answer r resp
  | answer_rejected c rejection :
      extract (insert_claims c r) = Err rejection ->
      status resp = status rejection -> body resp = body rejection -> protected_answer r resp
  | answer_served c op x :
      extract (insert_claims c r) = Ok (c, op) -> op_contract op x ->
      status resp = status x -> body resp = body x -> protected_answer r resp.

Lemma protected_keeps_contract (state : AppState) (r : Request) :
  returns (protected_answer r) (protected state r).
Proof using Type.
  apply (returns_respond (protected_answer r) [401]); [|done|intros resp [_ He]; by constructor].
  unfold auth_middleware. intros cfg. cbn [bind].
  destruct (bearer_token r); cbn [ok_or try_pure]; [|cbn; set_solver].
  eapply (returns_try (fun _ => True)); [intros now; cbn; by destruct (jwt_decode _ _ _); cbn; [|set_solver]|].
  intros c _. eapply (returns_bind (protected_answer r)); [|done].
  eapply (returns_bind (fun x => match x with Ok a | Err a => protected_answer r a end));
    [|by intros [x|x]].
  unfold rate_limit_middleware. intros cfg'. cbn [bind rq_claims insert_claims option_map].
  intros [info|[]]; cbn [bind]; [|by eapply answer_too_many].
  unfold backup_routes. destruct (extract (insert_claims c r)) as [[c' op]|rejection] eqn:He.
  - pose proof (extract_claims r c c' op He) as ->.
    eapply returns_bind; [apply serve_op_contract|]. intros x Hx. by eapply answer_served.
  - by eapply answer_rejected.
Qed.

(** The codes of a refused gRPC call. *)
Definition grpc_contract (codes : list Code) (r : result Ack Status) : Prop :=
  match r with Ok a => ack_success a = true | Err e => st_code e ∈ codes end.

Lemma grpc_keeps_contract (su : StatusUpdate) (pr : ProcessingResult) :
  returns (grpc_contract [InvalidArgument; NotFoundCode; InternalCode]) (update_status su)
  /\ returns (grpc_contract [InvalidArgument; InternalCode]) (report_result pr).
Proof using Type.
  assert (Hp : forall i (codes : list Code), InvalidArgument ∈ codes ->
            match parse_backup_id i with Ok _ => True | Err e => st_code e ∈ codes end)
    by (intros i codes Hc; unfold parse_backup_id; by destruct (uuid_parse i)).
  split.
  - unfold update_status. specialize (Hp (su_backup_id su)). destruct (parse_backup_id _);
      cbn [try_pure]; [|apply Hp; set_solver].
    intros [n|e]; cbn; [|set_solver]. case_match; cbn; set_solver.
  - unfold report_result. specialize (Hp (pr_backup_id pr)). destruct (parse_backup_id _);
      cbn [try_pure]; [|apply Hp; set_solver].
    destruct (String.eqb _ _); intros [n|e]; cbn; try done; set_solver.
Qed.

(** C9. Every response has its type, whatever the calls answer (any failure of the database,
    Redis, the broker or the thread pool included).  A backup operation answers with its own
    success code and body (a page within the limits, an entropy exactly after an analysis)
    or with an error body that repeats a status the operation may have, a validation error
    only for a creation and a 404 only for an operation on one backup, and every 500 says
    the same, whatever failed; a protected route answers only that, a 401, a 429 or the
    extractors' rejection; a login gives a bearer token for 86400 seconds or a 401; a refused
    gRPC call has one of its documented codes. *)
Theorem responses_keep_contract {S} (h : Handler SEff S) (s : S) (state : AppState) :
  (forall claims op, op_contract op (run h (serve_op state claims op) s).1)
  /\ (forall r, protected_answer r (run h (protected state r) s).1)
  /\ (forall req, login_contract
        (run h (respond (fun l => json_response OK (JsonLogin l)) (login req)) s).1)
  /\ (forall m, grpc_contract [InvalidArgument; NotFoundCode; InternalCode]
                (run h (update_status m) s).1)
  /\ (forall m, grpc_contract [InvalidArgument; InternalCode] (run h (report_result m) s).1).
Proof using Type.
  split_and!; intros; apply returns_run.
  - apply serve_op_contract.
  - apply protected_keeps_contract.
  - apply login_keeps_contract.
  - apply (grpc_keeps_contract m (MkProcessingResult "" "" 0 (S754_zero false) false "")).
  - apply (grpc_keeps_contract (MkStatusUpdate "" "") m).
Qed.
End contract.
