(* ===== verification/Apollo.v ===== *)
(** The remote configuration updater ([apollo/fetch.rs]): one fetch, one update cycle, and
    the loop, which is modelled for any number of ticks. *)

From S2P Require Import Prelude Prog Models Errors SocketAddr Config Merge RateLimit Db State.
Local Open Scope prog_scope.

Record ApolloUpdaterConfig : Type := MkApolloUpdaterConfig {
  url : string;
  interval : Z;
  timeout : Z;
}.

(** [resp.json::<RemoteConfigUpdate>()]: the text of a body as a payload. *)
Class RemoteJson : Type := {
  update_from_json : string -> result RemoteConfigUpdate ReqwestError;
}.

(** The numbers of a payload have the types of its fields. *)
Class RemoteJsonLaws `{RemoteJson} : Prop := {
  update_from_json_wf : forall s u, update_from_json s = Ok u -> update_wf u = true;
}.

(** [Response::error_for_status_ref]: 4xx and 5xx are errors. *)
Definition error_for_status (r : HttpResponse) : result unit ReqwestError :=
  if (400 <=? http_status r) && (http_status r <? 600)
  then Err {| reqwest_msg := "HTTP status error" |} else Ok tt.

(** [?] from [reqwest::Error] into [anyhow::Error] *)
Definition anyhow_of {A} (r : result A ReqwestError) : result A AnyhowError :=
  map_err (fun e => MkAnyhowError (reqwest_msg e)) r.

Inductive LoopState : Type := Running | Panicked.

Section fetch.
Context `{RemoteJson}.

Definition fetch_config (url : string) : Prog SEff (result RemoteConfigUpdate AnyhowError) :=
  sent <- perform (HttpGet url) ;;
  resp <-! anyhow_of sent ;;
  _ <-! anyhow_of (error_for_status resp) ;;
  update <-! anyhow_of (update_from_json (http_body resp)) ;;
  Ret (Ok update).

Definition run_one_update (url : string) : Prog SEff bool :=
  r <- fetch_config url ;;
  match r with
  | Ok update => with_config_mut (fun cfg => apply_update cfg update) ;;; Ret true
  | Err _ => Ret false
  end.

(** [ticks] iterations of the [loop]. *)
Fixpoint updater_iterations (config : ApolloUpdaterConfig) (ticks : nat) : Prog SEff unit :=
  match ticks with
  | O => Ret tt
  | S ticks' =>
      perform (IntervalTick (interval config)) ;;;
      r <- fetch_config (url config) ;;
      match r with
      | Ok update => with_config_mut (fun cfg => apply_update cfg update)
      | Err _ => Ret tt
      end ;;;
      updater_iterations config ticks'
  end.

(** [tokio::time::interval] panics on a zero period. *)
Definition run_updater_loop (config : ApolloUpdaterConfig) (ticks : nat)
    : Prog SEff LoopState :=
  if interval config =? 0 then Ret Panicked
  else updater_iterations config ticks ;;; Ret Running.

(** ** What a sequence of answers does *)

(** The payload of one answer, when there is one. *)
Definition payload (r : result HttpResponse ReqwestError) : option RemoteConfigUpdate :=
  resp ← ok r; _ ← ok (error_for_status resp); ok (update_from_json (http_body resp)).

Fixpoint payloads (rs : list (result HttpResponse ReqwestError)) : list RemoteConfigUpdate :=
  match rs with
  | [] => []
  | r :: rs => match payload r with Some u => u :: payloads rs | None => payloads rs end
  end.

Context `{Postgres} `{RedisServer} `{Broker}.

Definition next_http (w : World) : World := with_http (tail (w_http w)) w.

Lemma run_fetch_config (u : string) (w : World) :
  exists e, run service (fetch_config u) w =
    (match head (w_http w) with
     | Some r => ok_or (payload r) (e r)
     | None => Err (MkAnyhowError "timeout")
     end, next_http w).
Proof using Type.
  exists (fun r => match r with
    | Err e => MkAnyhowError (reqwest_msg e)
    | Ok resp => match error_for_status resp with
      | Err e => MkAnyhowError (reqwest_msg e)
      | Ok _ => match update_from_json (http_body resp) with
        | Err e => MkAnyhowError (reqwest_msg e) | Ok _ => MkAnyhowError "" end end end).
  unfold fetch_config, next_http. rewrite run_bind, run_perform. cbn [service].
  destruct (w_http w) as [|[resp|e] rs]; [done| |done].
  cbn [head anyhow_of map_err try_pure payload ok mbind option_bind].
  destruct (error_for_status resp) as [[]|e]; [|done].
  cbn [anyhow_of map_err try_pure ok mbind option_bind].
  by destruct (update_from_json _) as [up|e].
Qed.

(** The configuration after the first [ticks] answers. *)
Definition updated (ticks : nat) (w : World) : World :=
  with_config (fold_left apply_update (payloads (take ticks (w_http w))) (w_config w))
    (with_http (drop ticks (w_http w)) w).

Lemma run_updater_iterations (c : ApolloUpdaterConfig) (ticks : nat) (w : World) :
  run service (updater_iterations c ticks) w = (tt, updated ticks w).
Proof using Type.
  revert w. induction ticks as [|n IH]; intros w; [by destruct w|].
  cbn [updater_iterations]. rewrite run_bind, run_perform. cbn [service].
  rewrite run_bind. destruct (run_fetch_config (url c) w) as [e ->].
  rewrite run_bind. unfold next_http, updated.
  destruct (w_http w) as [|r rs] eqn:Er; cbn [head tail].
  - cbn [run]. rewrite IH. unfold updated. cbn. by rewrite drop_nil, take_nil.
  - unfold ok_or. destruct (payload r) as [up|] eqn:Ep.
    + unfold with_config_mut. rewrite run_perform. cbn [service]. rewrite IH.
      unfold updated. cbn [take payloads]. by rewrite Ep.
    + cbn [run]. rewrite IH. unfold updated. cbn [take payloads]. by rewrite Ep.
Qed.

Lemma fold_updates_protected (us : list RemoteConfigUpdate) (c : AppConfig) :
  protected_fields (fold_left apply_update us c) = protected_fields c.
Proof using Type.
  revert c. induction us as [|u us IH]; intros c; [done|]. cbn. rewrite IH.
  apply apply_update_protected.
Qed.

Lemma apply_update_wf (c : AppConfig) (u : RemoteConfigUpdate) :
  update_wf u = true -> config_wf c = true -> config_wf (apply_update c u) = true.
Proof using Type.
  destruct_update u; unfold update_wf, config_wf; simpl; rewrite ?andb_true_iff; tauto.
Qed.

Lemma payloads_wf `{!RemoteJsonLaws} (rs : list (result HttpResponse ReqwestError)) :
  Forall (fun u => update_wf u = true) (payloads rs).
Proof using Type.
  induction rs as [|r rs IH]; [constructor|]. cbn. destruct (payload r) as [u|] eqn:Ep; [|done].
  constructor; [|done]. unfold payload in Ep. destruct r as [resp|]; [|done]. cbn in Ep.
  destruct (error_for_status resp); [|done]. cbn in Ep.
  destruct (update_from_json (http_body resp)) as [u'|] eqn:Eu; [|done]. injection Ep as ->.
  by eapply update_from_json_wf.
Qed.

(** C29. The updater survives every answer: with a positive interval, after any number of
    ticks the loop is still running, it has asked once per tick, and the configuration is
    the initial one with the payloads of the successful answers applied in their order,
    failed, refused and unreadable answers skipped.  It stays well formed, its protected
    fields and the rest of the world are untouched. *)
Theorem updater_loop_applies_payloads `{!RemoteJsonLaws} (c : ApolloUpdaterConfig)
    (ticks : nat) (w : World) :
  0 < interval c -> config_wf (w_config w) = true ->
  let '(st, w') := run service (run_updater_loop c ticks) w in
  st = Running
  /\ w_http w' = drop ticks (w_http w)
  /\ w_config w' = fold_left apply_update (payloads (take ticks (w_http w))) (w_config w)
  /\ config_wf (w_config w') = true
  /\ protected_fields (w_config w') = protected_fields (w_config w)
  /\ with_config (w_config w) (with_http (w_http w) w') = w.
Proof using Type.
  intros Hi Hwf. unfold run_updater_loop. rewrite (proj2 (Z.eqb_neq _ _)) by lia.
  rewrite run_bind, run_updater_iterations. cbn [run].
  split; [done|]. split; [done|]. split; [done|]. split.
  - cbn [updated w_config with_config]. pose proof (payloads_wf (take ticks (w_http w))) as Hus.
    revert Hus Hwf. generalize (w_config w). induction (payloads _) as [|u us IH]; [done|].
    intros cfg [Hu Hus]%Forall_cons Hwf. cbn. apply IH; [done|]. by apply apply_update_wf.
  - split; [apply fold_updates_protected|]. by destruct w.
Qed.
End fetch.

(** ** Witness *)

(** A codec that knows two bodies. *)
Module ReferenceRemote.
Definition json : RemoteJson := {|
  update_from_json s :=
    if String.eqb s "ttl 600" then Ok (MkRemoteConfigUpdate None (Some 600) None None)
    else if String.eqb s "{}" then Ok default_update
    else Err {| reqwest_msg := "error decoding response body" |} |}.

Lemma remote_json_laws : @RemoteJsonLaws json.
Proof.
  split. intros s u. cbn. repeat case_match; [by intros [= <-]..|done].
Qed.
End ReferenceRemote.

#[local] Existing Instance ReferenceRemote.json.
#[local] Existing Instance ReferenceRemote.remote_json_laws.
#[local] Existing Instance ReferenceDb.server.
#[local] Existing Instance ReferenceRedis.server.
#[local] Existing Instance ReferenceBroker.broker.

(** A refusal, an unreadable body and a payload: the third tick changes the TTL. *)
Lemma updater_loop_applies_payloads_witness :
  let w := with_http [Ok (MkHttpResponse 503 ""); Ok (MkHttpResponse 200 "???");
                      Ok (MkHttpResponse 200 "ttl 600")]
             (ref_world [] ReferenceRedis.empty 20) in
  cache_ttl_secs (w_config (run service
    (run_updater_loop (MkApolloUpdaterConfig "http://apollo" 60 10) 3) w).2) = 600.
Proof.
  intros w.
  pose proof (updater_loop_applies_payloads (MkApolloUpdaterConfig "http://apollo" 60 10) 3 w
    eq_refl eq_refl) as Hu.
  destruct (run service _ w) as [st w1]. destruct Hu as (_ & _ & Hc & _). cbn [snd].
  rewrite Hc. reflexivity.
Defined.
