(* ===== verification/Migrations.v ===== *)
(** Startup of the database ([db.rs]): the pool's options and [run_migrations].  Every
    statement of [run_migrations] may fail, before or after it was executed. *)

From S2P Require Import Prelude Prog Models Errors Db.
Local Open Scope prog_scope.

(** [PgPoolOptions] as [create_pool] sets them, in seconds. *)
Record PgPoolOptions : Type := MkPgPoolOptions {
  max_connections : Z;
  min_connections : Z;
  acquire_timeout : Z;
  idle_timeout : Z;
}.

Definition pool_options : PgPoolOptions :=
  {| max_connections := 20; min_connections := 2; acquire_timeout := 5; idle_timeout := 600 |}.

(** The statements of [run_migrations], and their execution on the pool. *)
Inductive MigStmt : Type -> Type :=
  | CreateMigrationsTable : MigStmt unit
  | SelectApplied : MigStmt (list Z)
  | RunScript001 : MigStmt unit
  | InsertVersion (version : Z) (description : string) : MigStmt unit.

Inductive MigEff : Type -> Type :=
  | Execute {X} (q : MigStmt X) : MigEff (result X SqlxError).

Definition run_migrations : Prog MigEff (result unit SqlxError) :=
  _ <-? perform (Execute CreateMigrationsTable) ;;
  already_run <-? perform (Execute SelectApplied) ;;
  let applied : gset Z := list_to_set already_run in
  if bool_decide (1 ∈ applied) then Ret (Ok tt)
  else
    _ <-? perform (Execute RunScript001) ;;
    _ <-? perform (Execute (InsertVersion 1 "create_backups")) ;;
    Ret (Ok tt).

(** ** The database *)

(** The rows of [_sqlx_migrations] when it exists, whether the [backups] table exists, and
    the failures ahead. *)
Record Schema : Type := MkSchema {
  sc_versions : option (list Z);
  sc_backups : bool;
  sc_faults : list (option DbFault);
}.

Definition no_such_table : SqlxError :=
  {| sqlx_kind := Unavailable; sqlx_msg := "relation _sqlx_migrations does not exist" |}.
Definition several_commands : SqlxError :=
  {| sqlx_kind := Unavailable;
     sqlx_msg := "cannot insert multiple commands into a prepared statement" |}.

Section server.
(** Whether the client sends the script's six statements in a way the server accepts. *)
Context (script_accepted : bool).

Definition mig_exec {X} (q : MigStmt X) (s : Schema) : result X SqlxError * Schema :=
  match q in MigStmt X return result X SqlxError * Schema with
  | CreateMigrationsTable =>
      (Ok tt, MkSchema (Some (unwrap_or (sc_versions s) [])) (sc_backups s) (sc_faults s))
  | SelectApplied => (ok_or (sc_versions s) no_such_table, s)
  | RunScript001 =>
      if script_accepted then (Ok tt, MkSchema (sc_versions s) true (sc_faults s))
      else (Err several_commands, s)
  | InsertVersion v _ =>
      match sc_versions s with
      | None => (Err no_such_table, s)
      | Some vs =>
          if bool_decide (v ∈ vs) then (Err unique_violation, s)
          else (Ok tt, MkSchema (Some (vs ++ [v])) (sc_backups s) (sc_faults s))
      end
  end.

(** The fault of the next statement is used up. *)
Definition next_fault (s : Schema) : option DbFault * Schema :=
  (match sc_faults s with f :: _ => f | [] => None end,
   MkSchema (sc_versions s) (sc_backups s) (tail (sc_faults s))).

Definition migrator : Handler MigEff Schema := fun X e s =>
  match e in MigEff X return X * Schema with
  | Execute q =>
      let '(f, s) := next_fault s in
      match f with
      | None => mig_exec q s
      | Some (FaultBefore e) => (Err e, s)
      | Some (FaultAfter e) => (Err e, (mig_exec q s).2)
      end
  end.

(** One startup, with the failures it meets. *)
Definition startup (s : Schema) (faults : list (option DbFault)) : result unit SqlxError * Schema :=
  run migrator run_migrations (MkSchema (sc_versions s) (sc_backups s) faults).

Definition versions (s : Schema) : list Z := unwrap_or (sc_versions s) [].

(** A recorded migration was applied. *)
Definition schema_ok (s : Schema) : Prop := 1 ∈ versions s -> sc_backups s = true.

(** What one statement of the program can do to the schema. *)
Definition schema_grows (s s' : Schema) : Prop :=
  versions s ⊆ versions s' /\ (sc_backups s = true -> sc_backups s' = true).

Lemma schema_grows_same (s s' : Schema) :
  sc_versions s' = sc_versions s -> sc_backups s' = sc_backups s -> schema_grows s s'.
Proof using Type. unfold schema_grows, versions. by intros -> ->. Qed.

Lemma migrator_grows {X} (e : MigEff X) (s : Schema) : schema_grows s (migrator X e s).2.
Proof using Type.
  assert (Hq : forall Y (q : MigStmt Y) (s : Schema), schema_grows s (mig_exec q s).2).
  { clear. intros Y q s. destruct q; cbn [mig_exec].
    - by destruct s as [[vs|] ? ?]; split.
    - by apply schema_grows_same.
    - destruct script_accepted; [by split|by apply schema_grows_same].
    - destruct (sc_versions s) as [vs|] eqn:E; [|by apply schema_grows_same].
      case_bool_decide; [by apply schema_grows_same|].
      split; [|done]. unfold versions. rewrite E. cbn. set_solver. }
  destruct e as [Y q]. cbn [migrator next_fault].
  destruct (match sc_faults s with f :: _ => f | [] => None end) as [[e|e]|];
    [by apply schema_grows_same|apply (Hq Y q (MkSchema _ _ _))..].
Qed.
End server.

(** The schema of a database that the service can use. *)
Definition migrated (s : Schema) : Prop := 1 ∈ versions s /\ sc_backups s = true.

Definition restarts (accepted : bool) (hist : list (list (option DbFault))) (s : Schema) : Schema :=
  fold_left (fun s faults => (startup accepted s faults).2) hist s.

Lemma run_grows (accepted : bool) {A} (p : Prog MigEff A) (s : Schema) :
  schema_grows s (run (migrator accepted) p s).2.
Proof.
  revert s. induction p as [a|X e k IH]; intros s; [by split|]. cbn.
  pose proof (migrator_grows accepted e s) as [H1 H2].
  destruct (migrator accepted X e s) as [x s']. destruct (IH x s') as [H1' H2'].
  split; [by etrans|auto].
Qed.

(** One startup, statement by statement. *)
Lemma startup_cases (accepted : bool) (s : Schema) (faults : list (option DbFault)) :
  let '(r, s') := startup accepted s faults in
  (1 ∈ versions s' -> 1 ∈ versions s \/ sc_backups s' = true)
  /\ (r = Ok tt -> 1 ∈ versions s')
  /\ (accepted = false -> 1 ∈ versions s' -> 1 ∈ versions s).
Proof.
  destruct s as [vs b fs]. unfold startup, versions.
  cbn [run_migrations perform try_bind bind run migrator next_fault mig_exec sc_versions
       sc_backups sc_faults tail].
  repeat (case_match; simplify_eq/=);
    rewrite ?bool_decide_eq_true, ?bool_decide_eq_false, ?elem_of_list_to_set in *;
    split_and!; intros; by try set_solver.
Qed.

Lemma startup_ok (accepted : bool) (s : Schema) (faults : list (option DbFault)) :
  schema_ok s -> schema_ok (startup accepted s faults).2.
Proof.
  intros Hok H1. pose proof (startup_cases accepted s faults) as Hc.
  pose proof (run_grows accepted run_migrations (MkSchema (sc_versions s) (sc_backups s) faults))
    as [_ Hb]. unfold startup in *.
  destruct (run _ _ _) as [r s']. cbn [snd] in *. destruct Hc as (Hc & _).
  destruct (Hc H1) as [Hv|?]; [|done]. by apply Hb, Hok.
Qed.

Lemma restarts_ok (accepted : bool) (hist : list (list (option DbFault))) (s : Schema) :
  schema_ok s -> schema_ok (restarts accepted hist s)
                 /\ schema_grows s (restarts accepted hist s).
Proof.
  revert s. induction hist as [|fs hist IH]; intros s Hok; [by split; [|split]|].
  cbn. destruct (IH _ (startup_ok accepted s fs Hok)) as [? [Hv Hb]]. split; [done|].
  pose proof (run_grows accepted run_migrations (MkSchema (sc_versions s) (sc_backups s) fs))
    as [Hv' Hb']. split; [by etrans|auto].
Qed.

(** A startup that meets no failure. *)
Lemma quiet_startup (accepted : bool) (s : Schema) :
  schema_ok s ->
  let '(r, s') := startup accepted s [] in
  if accepted || bool_decide (1 ∈ versions s) then r = Ok tt /\ migrated s'
  else r = Err several_commands /\ versions s' = versions s /\ sc_backups s' = sc_backups s.
Proof.
  intros Hok. pose proof (startup_cases accepted s []) as Hc.
  pose proof (startup_ok accepted s [] Hok) as Hok'. unfold schema_ok in Hok'.
  assert (Hr : if accepted || bool_decide (1 ∈ versions s) then (startup accepted s []).1 = Ok tt
               else startup accepted s []
                    = (Err several_commands, MkSchema (Some (versions s)) (sc_backups s) [])).
  { destruct s as [vs b fs], accepted; unfold startup, versions;
      cbn [run_migrations perform try_bind bind run migrator next_fault mig_exec sc_versions
           sc_backups sc_faults tail ok_or orb];
      repeat (case_match; simplify_eq/=);
      rewrite ?bool_decide_eq_true, ?bool_decide_eq_false, ?elem_of_list_to_set in *; done. }
  destruct (accepted || _); [|by rewrite Hr].
  destruct (startup accepted s []) as [r s1]. cbn [fst snd] in *. unfold migrated. naive_solver.
Qed.

Lemma migrated_startup (accepted : bool) (s : Schema) :
  1 ∈ versions s -> startup accepted s [] = (Ok tt, MkSchema (Some (versions s)) (sc_backups s) []).
Proof.
  intros H1. destruct s as [vs b fs]. unfold startup.
  cbn [run_migrations perform try_bind bind run migrator next_fault mig_exec sc_versions
       sc_backups sc_faults tail ok_or].
  by rewrite bool_decide_eq_true_2 by (by apply elem_of_list_to_set).
Qed.

Lemma refused_never_records (hist : list (list (option DbFault))) (s : Schema) :
  1 ∉ versions s -> 1 ∉ versions (restarts false hist s).
Proof.
  revert s. induction hist as [|fs hist IH]; intros s H1; [done|].
  apply IH. intros Hin. apply H1. pose proof (startup_cases false s fs) as Hc.
  destruct (startup false s fs) as [r s']. destruct Hc as (_ & _ & Hc). by apply Hc.
Qed.


