(* ===== verification/JobPath.v ===== *)
(** The way of a job from the service to the worker: the topology that either process declares
    ([backup-common/src/worker.rs]), the message that the service publishes, and the queue that
    the worker consumes ([backup-worker/src/main.rs]), which has the name in a constant of its
    own. *)

From S2P Require Import Prelude Codec Prog Models Errors Db State Entropy Jobs Grpc Worker.
Local Open Scope prog_scope.

(** A list without repetition that has one element only. *)
Lemma NoDup_only {A} (x : A) (l : list A) :
  NoDup l -> x ∈ l -> (forall y, y ∈ l -> y = x) -> l = [x].
Proof.
  intros Hnd Hx Hall. destruct l as [|a [|b l]]; [set_solver| |].
  - by rewrite (Hall a) by set_solver.
  - apply NoDup_cons in Hnd as [Ha _]. rewrite (Hall a), (Hall b) in Ha by set_solver. set_solver.
Qed.

Section path.
Context `{UuidCrate} `{JobJson} `{Libm} `{Postgres} `{RedisServer} `{Broker}.
Context `{AmqpServer}.

(** The broker delivers the message to the queue that the worker consumes. *)
Definition reaches_worker (s : AmqpState) (p : Publication) : Prop :=
  Worker.QUEUE_NAME ∈ delivers s (p_exchange p) (p_routing_key p).

Lemma topology_reaches_worker `{!AmqpLaws} (s : AmqpState) (job : BackupJob) :
  topology_declared s -> reaches_worker s (job_publication job).
Proof using Type. apply topology_delivers. Qed.

Lemma run_publish_job (channel : Channel) (job : BackupJob) (w : World) :
  run service (publish_job channel job) w =
  let '(r, b) := amqp_publish (job_publication job) (w_broker w) in (r, with_broker b w).
Proof using Type.
  unfold publish_job. rewrite run_try, run_perform. cbn [service].
  by destruct (amqp_publish _ (w_broker w)) as [[[]|e] b].
Qed.

(** The worker's first act on a message that is a job. *)
Lemma handle_reports_job {S} (h : Handler WEff S) (st : S) (d : Delivery) (job : BackupJob) :
  job_from_json (data d) = Ok job ->
  let '(_, _, l) := acts h (handle_delivery d) st in
  exists accepted rest, l = Reported_running (running_update job) accepted :: rest.
Proof using Type.
  intros Hj. unfold handle_delivery. rewrite Hj, acts_bind.
  unfold process_and_report, awaited, perform, try_bind. cbn [bind]. rewrite acts_vis.
  destruct (h _ (CallUpdateStatus _) st) as [a s1].
  match goal with |- context [acts h ?p s1] => destruct (acts h p s1) as [[r s2] l1] end.
  match goal with |- context [acts h ?p s2] => destruct (acts h p s2) as [[r' s3] l2] end.
  cbn. by eexists _, _.
Qed.

(** C35. Once [connect_rabbitmq] has succeeded in either process, on a broker in any state and
    whatever was declared, refused or lost before and is called later, the message that
    [publish_job] sends for a job reaches the queue that the worker consumes, through an
    exchange and a queue that are durable, and is itself persistent; it reaches no other queue
    if none was bound to the exchange under the key before; and the worker, handed this
    message, starts with reporting that very job as running, whatever its calls answer. *)
Theorem published_job_reaches_worker `{!JobJsonLaws} `{!AmqpLaws} {A} (s : AmqpState)
    (url : string) (later : Prog AmqpEff A) (channel : Channel) (job : BackupJob) :
  let '(connected, s1) := run amqp_call (connect_rabbitmq url) s in
  is_ok connected = true ->
  let s2 := (run amqp_call later s1).2 in
  exists p : Publication,
    (forall w, run service (publish_job channel job) w =
               let '(r, b) := amqp_publish p (w_broker w) in (r, with_broker b w))
    /\ (forall n, exists k, run_worker n = Vis (BasicConsume Worker.QUEUE_NAME "backup-worker") k)
    /\ reaches_worker s1 p /\ reaches_worker s2 p
    /\ (exists kind, exchange_of s2 (p_exchange p) = Some (kind, true))
    /\ queue_of s2 Worker.QUEUE_NAME = Some true /\ p_delivery_mode p = 2
    /\ ((forall q, ~ bound s q (p_exchange p) (p_routing_key p)) ->
        delivers s1 (p_exchange p) (p_routing_key p) = [Worker.QUEUE_NAME])
    /\ (forall S (h : Handler WEff S) (st : S) tag,
          let '(_, _, l) := acts h (handle_delivery (MkDelivery tag (p_payload p))) st in
          exists accepted rest, l = Reported_running (running_update job) accepted :: rest).
Proof using Type.
  pose proof (connect_declares url s) as Hc.
  destruct (run amqp_call (connect_rabbitmq url) s) as [connected s1].
  destruct Hc as (_ & Honly & Htop). intros Hok s2. specialize (Htop Hok).
  pose proof (topology_kept s1 s2 (run_amqp_keeps later s1) Htop) as Htop2.
  exists (job_publication job). split; [intros w; apply run_publish_job|].
  split; [by eexists|]. split; [by apply topology_reaches_worker|].
  split; [by apply topology_reaches_worker|].
  split; [eexists; apply Htop2|]. split; [apply Htop2|]. split; [done|]. split.
  - intros Hnone. apply NoDup_only; [apply delivers_once|by apply topology_reaches_worker|].
    destruct Htop as (He & _ & _). intros q Hq. cbn [job_publication p_exchange p_routing_key] in *.
    apply (direct_delivers s1 _ true) in Hq; [|exact He].
    destruct (Honly q Hq) as [Hb|Hb]; [by destruct (Hnone q)|exact Hb].
  - intros S h st tag. apply handle_reports_job. apply job_json_roundtrip.
Qed.
End path.

(** ** Witness *)

#[local] Existing Instance Reference.uuids.
#[local] Existing Instance ReferenceJobs.json.
#[local] Existing Instance ReferenceJobs.job_json_laws.
#[local] Existing Instance sample_libm.
#[local] Existing Instance ReferenceDb.server.
#[local] Existing Instance ReferenceRedis.server.
#[local] Existing Instance ReferenceBroker.broker.
#[local] Existing Instance ReferenceAmqp.server.
#[local] Existing Instance ReferenceAmqp.laws.

(** A first attempt lost the answer to the declaration of the queue; then one process connects,
    and then the other. *)
Lemma published_job_reaches_worker_witness :
  let job := MkBackupJob (uuid_of 1) (uuid_of 2) "/data/test" true in
  let lost := Some (ReferenceAmqp.LostReply (MkLapinError "connection reset")) in
  let s0 := ReferenceAmqp.MkServer ∅ ∅ [] [None; None; None; lost] in
  let s := (run amqp_call (connect_rabbitmq "amqp://localhost") s0).2 in
  let s1 := (run amqp_call (connect_rabbitmq "amqp://localhost") s).2 in
  exists p, delivers s1 (p_exchange p) (p_routing_key p) = ["backup_jobs"]
            /\ reaches_worker (run amqp_call (connect_rabbitmq "amqp://localhost") s1).2 p.
Proof.
  intros job lost s0 s s1.
  pose proof (published_job_reaches_worker s "amqp://localhost"
    (connect_rabbitmq "amqp://localhost") AmqpChannel job) as Hp.
  fold s1 in Hp.
  destruct (run amqp_call (connect_rabbitmq "amqp://localhost") s) as [r s1'] eqn:E.
  subst s1. cbn [snd].
  destruct Hp as (p & _ & _ & _ & H2 & _ & _ & _ & Hd & _).
  - vm_compute in E. injection E as <- _. reflexivity.
  - exists p. split; [|exact H2]. apply Hd. intros q Hb. cbn in Hb.
    vm_compute in Hb. set_solver.
Defined.
