(* ===== verification/WorkerSystem.v ===== *)
(** The worker and the service together: the queue, the worker's calls answered by the
    service's own gRPC handlers on the service's table.  The file shows that the queue is
    drained with every job's backup completed, that this does not depend on how often a job
    is delivered, and what happens to a job whose backup is gone. *)

From S2P Require Import Prelude Codec Prog Models Errors SocketAddr Config Merge RateLimit.
From S2P Require Import Entropy Db State Jobs Grpc Worker.
Local Open Scope prog_scope.

Section cluster.
Context `{UuidCrate} `{JobJson} `{Libm}.
Context `{Postgres} `{RedisServer} `{Broker}.

(** The service's world, the queue in delivery order and the unsettled deliveries. *)
Record Cluster : Type := MkCluster {
  cl_world : World;
  queue : list Delivery;
  unacked : list Delivery;
}.

Definition settle (d : Delivery) (c : Cluster) : Cluster :=
  MkCluster (cl_world c) (queue c) (List.filter (fun d' => negb (bool_decide (d' = d))) (unacked c)).

(** A broker that delivers the queue and then shuts the worker down, and puts a requeued
    delivery back in front; a network and a thread pool without failures. *)
Definition cluster : Handler WEff Cluster := fun X e c =>
  match e in WEff X return X * Cluster with
  | BasicConsume _ _ => (Ok tt, c)
  | Select =>
      match queue c with
      | [] => (ShutdownChanged true, c)
      | d :: ds => (NextDelivery (Some (Ok d)), MkCluster (cl_world c) ds (d :: unacked c))
      end
  | BasicAck d => (Ok tt, settle d c)
  | BasicNack d requeue =>
      (Ok tt, let c := settle d c in
              if requeue then MkCluster (cl_world c) (d :: queue c) (unacked c) else c)
  | CallUpdateStatus m =>
      let '(r, w) := run service (update_status m) (cl_world c) in
      (r, MkCluster w (queue c) (unacked c))
  | CallReportResult m =>
      let '(r, w) := run service (report_result m) (cl_world c) in
      (r, MkCluster w (queue c) (unacked c))
  | Blocking f => (Ok (f tt), c)
  | Sleep _ => (tt, c)
  end.

(** The row of a job that was processed. *)
Definition completed_row (now : DateTime) (b : Backup) : Backup :=
  set_columns (Some "completed") (Some 1048576) now b.

Lemma completed_row_idem (now : DateTime) (b : Backup) :
  completed_row now (completed_row now b) = completed_row now b.
Proof using Type. done. Qed.

(** The table with the jobs' rows completed. *)
Definition complete (now : DateTime) (id : Uuid) (m : gmap Uuid Backup) : gmap Uuid Backup :=
  alter (completed_row now) id m.

Context `{!UuidLaws}.

(** A service with no failure ahead. *)
Definition ready (w : World) : Prop := pg_quiet (w_pg w) /\ table_ok (w_pg w).

(** The state after a call that left [m] in the table. *)
Definition after (w w' : World) (m : gmap Uuid Backup) : Prop :=
  ready w' /\ pg_clock (w_pg w') = pg_clock (w_pg w) /\ backups (w_pg w') = m.

Lemma ready_update (w : World) (db1 : Pg) (id : Uuid) (b b' : Backup) :
  ready w -> backups db1 = backups (w_pg w) -> pg_quiet db1 ->
  pg_clock db1 = pg_clock (w_pg w) -> backups (w_pg w) !! id = Some b ->
  row_ok id b' -> after w (with_pg (with_backups (<[id := b']> (backups (w_pg w))) db1) w)
                    (<[id := b']> (backups (w_pg w))).
Proof using Type.
  intros [_ Hok] Hdb Hq1 Hc Hb Hb'. split; [|done]. split; [done|].
  intros i c. cbn. destruct (decide (i = id)) as [->|].
  - rewrite lookup_insert_eq. by intros [= <-].
  - rewrite lookup_insert_ne by done. apply Hok.
Qed.

Lemma run_report_running (job : BackupJob) (w : World) :
  ready w -> exists w',
    run service (update_status (running_update job)) w =
    (match backups (w_pg w) !! j_backup_id job with
     | Some _ => Ok (MkAck true "status updated")
     | None => Err (MkStatus NotFoundCode
                      ("backup " +:+ uuid_to_string (j_backup_id job) +:+ " not found"))
     end, w')
    /\ after w w' (match backups (w_pg w) !! j_backup_id job with
                   | Some b => <[j_backup_id job := set_columns (Some "running") None
                                                     (pg_clock (w_pg w)) b]> (backups (w_pg w))
                   | None => backups (w_pg w)
                   end).
Proof using Type*.
  intros Hr. pose proof Hr as [Hq Hok]. unfold update_status, parse_backup_id.
  cbn [running_update su_backup_id su_status]. rewrite uuid_parse_display.
  cbn [ok_or try_pure]. rewrite run_try, run_grpc_query.
  destruct (@exec_by_id _ (UpdateStatus (j_backup_id job) "running") (j_backup_id job) "running"
    None (w_pg w) Hq Hok ltac:(done)) as (db1 & Hdb & Hq1 & Hc1 & ->).
  destruct (backups (w_pg w) !! j_backup_id job) as [b|] eqn:Hb; cbn [map_err Z.eqb run].
  - eexists. split; [reflexivity|]. eapply ready_update; try done.
    destruct (Hok _ _ Hb) as [Hid _]. by split.
  - eexists. split; [reflexivity|]. split; [|by split]. split; [done|].
    unfold table_ok. cbn. by rewrite Hdb.
Qed.

Lemma run_report_completed (job : BackupJob) (m : ProcessingResult) (w : World) (b : Backup) :
  ready w -> backups (w_pg w) !! j_backup_id job = Some b ->
  pr_backup_id m = uuid_to_string (j_backup_id job) -> pr_status m = "completed" ->
  exists w', run service (report_result m) w = (Ok (MkAck true "result recorded"), w')
    /\ after w w' (<[j_backup_id job := set_columns (Some "completed") (Some (pr_size_bytes m))
                                          (pg_clock (w_pg w)) b]> (backups (w_pg w))).
Proof using Type*.
  intros Hr Hb Hid Hst. pose proof Hr as [Hq Hok]. unfold report_result, parse_backup_id.
  rewrite Hid, uuid_parse_display, Hst. cbn [ok_or try_pure String.eqb Ascii.eqb Bool.eqb].
  rewrite run_try, run_report_query.
  destruct (@exec_by_id _ (CompleteBackup (j_backup_id job) (pr_size_bytes m)) (j_backup_id job)
    "completed" (Some (pr_size_bytes m)) (w_pg w) Hq Hok ltac:(done))
    as (db1 & Hdb & Hq1 & Hc1 & ->).
  rewrite Hb. cbn [map_err run]. eexists. split; [reflexivity|].
  eapply ready_update; try done. destruct (Hok _ _ Hb) as [Hi _]. by split.
Qed.

Lemma insert_after_insert (w w1 w2 : World) (id : Uuid) (b1 b2 : Backup) :
  after w w1 (<[id := b1]> (backups (w_pg w))) ->
  after w1 w2 (<[id := b2]> (backups (w_pg w1))) ->
  after w w2 (<[id := b2]> (backups (w_pg w))).
Proof using Type.
  intros (_ & Hc1 & Hb1) (Hr & Hc2 & Hb2). split; [done|]. split; [congruence|].
  by rewrite Hb2, Hb1, insert_insert_eq.
Qed.

(** [process_and_report] with what it computes as arguments. *)
Definition report_with (job : BackupJob) (size : Z) (entropy : unit -> f64)
    : Prog WEff (result unit AnyhowError) :=
  _ <-? awaited st_message (perform (CallUpdateStatus (running_update job))) ;;
  e <-? awaited join_msg (perform (Blocking entropy)) ;;
  perform (Sleep 100) ;;;
  _ <-? awaited st_message
          (perform (CallReportResult (completed_result job size e (is_suspicious (classify e))))) ;;
  Ret (Ok tt).

Lemma process_with (job : BackupJob) :
  j_source_path job <> "" ->
  exists entropy, process_and_report job = report_with job 1048576 entropy.
Proof using Type.
  intros Hpath. unfold process_and_report. cbv zeta.
  assert (Hb : bytes (j_source_path job) <> []) by (by destruct (j_source_path job)).
  pose proof (cycle_take_length _ (bytes (j_source_path job)) (Z.to_nat 8192) Hb) as Hlen.
  revert Hlen. generalize (cycle_take (bytes (j_source_path job)) (bytes (j_source_path job))
    (Z.to_nat 8192)). intros data Hlen.
  exists (fun _ => shannon_entropy data). rewrite Hlen, Z2Nat.id by done. done.
Qed.

Lemma run_report_with (job : BackupJob) (size : Z) (entropy : unit -> f64) (c : Cluster) :
  ready (cl_world c) ->
  exists r w', run cluster (report_with job size entropy) c
               = (r, MkCluster w' (queue c) (unacked c))
    /\ match backups (w_pg (cl_world c)) !! j_backup_id job with
       | Some b => r = Ok tt /\ after (cl_world c) w' (<[j_backup_id job :=
                      set_columns (Some "completed") (Some size) (pg_clock (w_pg (cl_world c))) b]>
                      (backups (w_pg (cl_world c))))
       | None => is_ok r = false /\ after (cl_world c) w' (backups (w_pg (cl_world c)))
       end.
Proof using Type*.
  intros Hr. unfold report_with, awaited, perform, try_bind. cbn [bind run cluster].
  destruct (run_report_running job (cl_world c) Hr) as (w1 & -> & Ha1).
  destruct (backups (w_pg (cl_world c)) !! j_backup_id job) as [b|] eqn:Hb;
    cbn [map_err bind run cluster cl_world queue unacked]; [|by eexists _, _].
  set (m := completed_result _ _ _ _).
  pose proof Ha1 as (Hr1 & Hc1 & Hb1).
  destruct (run_report_completed job m w1
    (set_columns (Some "running") None (pg_clock (w_pg (cl_world c))) b) Hr1
    ltac:(by rewrite Hb1, lookup_insert_eq) eq_refl eq_refl) as (w2 & -> & Ha2).
  cbn [map_err bind run]. eexists _, _. split; [reflexivity|]. split; [done|].
  pose proof (insert_after_insert _ _ _ _ _ _ Ha1 Ha2) as Ha.
  by rewrite Hc1 in Ha.
Qed.

(** The calls of the worker on the cluster. *)
Lemma run_process (job : BackupJob) (c : Cluster) :
  ready (cl_world c) -> j_source_path job <> "" ->
  exists r w', run cluster (process_and_report job) c = (r, MkCluster w' (queue c) (unacked c))
    /\ match backups (w_pg (cl_world c)) !! j_backup_id job with
       | Some b => r = Ok tt /\ after (cl_world c) w' (<[j_backup_id job :=
                      completed_row (pg_clock (w_pg (cl_world c))) b]>
                      (backups (w_pg (cl_world c))))
       | None => is_ok r = false /\ after (cl_world c) w' (backups (w_pg (cl_world c)))
       end.
Proof using Type*.
  intros Hr Hpath. destruct (process_with job Hpath) as [entropy ->].
  by apply run_report_with.
Qed.

Lemma settle_one (d : Delivery) (w : World) (q : list Delivery) :
  settle d (MkCluster w q [d]) = MkCluster w q [].
Proof using Type. unfold settle. cbn. by rewrite bool_decide_eq_true_2. Qed.

(** The row a delivery is about. *)
Definition job_of_delivery (d : Delivery) : option BackupJob := ok (job_from_json (data d)).

Definition target (d : Delivery) : option Uuid := j_backup_id <$> job_of_delivery d.

(** A readable job with a path. *)
Definition sound_job (d : Delivery) : Prop :=
  exists job, job_of_delivery d = Some job /\ j_source_path job <> "".

Lemma run_handle (d : Delivery) (w : World) (q : list Delivery) :
  ready w -> sound_job d ->
  exists id w', target d = Some id /\
    match backups (w_pg w) !! id with
    | Some b =>
        run cluster (handle_delivery d) (MkCluster w q [d]) = (Ok tt, MkCluster w' q [])
        /\ after w w' (<[id := completed_row (pg_clock (w_pg w)) b]> (backups (w_pg w)))
    | None =>
        run cluster (handle_delivery d) (MkCluster w q [d]) = (Ok tt, MkCluster w' (d :: q) [])
        /\ after w w' (backups (w_pg w))
    end.
Proof using Type*.
  intros Hr (job & Hjob & Hpath). unfold target. rewrite Hjob. exists (j_backup_id job).
  unfold job_of_delivery in Hjob. unfold handle_delivery.
  destruct (job_from_json (data d)) as [job'|e]; [|done]. injection Hjob as ->.
  rewrite run_bind.
  destruct (run_process job (MkCluster w q [d]) Hr Hpath) as (r & w' & -> & Hcase).
  cbn [cl_world queue unacked] in *. exists w'. split; [done|].
  destruct (backups (w_pg w) !! j_backup_id job) as [b|].
  - destruct Hcase as [-> Ha]. unfold awaited, perform. cbn [bind run cluster map_err].
    by rewrite settle_one.
  - destruct Hcase as [Hno Ha]. destruct r as [[]|e]; [done|].
    unfold awaited, perform. cbn [bind run cluster map_err]. by rewrite settle_one.
Qed.

Lemma run_loop_delivery (n : nat) (w : World) (d : Delivery) (q : list Delivery) :
  run cluster (worker_loop (S n)) (MkCluster w (d :: q) []) =
  let '(r, c) := run cluster (handle_delivery d) (MkCluster w q [d]) in
  match r with Ok _ => run cluster (worker_loop n) c | Err e => (Err e, c) end.
Proof using Type.
  cbn [worker_loop]. rewrite run_bind, run_perform. cbn [cluster queue cl_world unacked].
  apply run_try.
Qed.

(** The rows of the targets completed, the others as they are. *)
Definition completes (now : DateTime) (ids : list Uuid) (m m' : gmap Uuid Backup) : Prop :=
  forall id, m' !! id = if decide (id ∈ ids) then completed_row now <$> m !! id else m !! id.

Lemma completes_cons (now : DateTime) (id : Uuid) (ids : list Uuid) (b : Backup)
    (m m' : gmap Uuid Backup) :
  m !! id = Some b -> completes now ids (<[id := completed_row now b]> m) m' ->
  completes now (id :: ids) m m'.
Proof using Type.
  intros Hb Hc i. rewrite Hc. destruct (decide (i = id)) as [->|Hne].
  - rewrite lookup_insert_eq, Hb. destruct (decide (id ∈ id :: ids)) as [_|Hn].
    + by destruct (decide (id ∈ ids)).
    + by destruct Hn; apply elem_of_cons; left.
  - rewrite lookup_insert_ne by done.
    destruct (decide (i ∈ ids)) as [Hi|Hi], (decide (i ∈ id :: ids)) as [Hi'|Hi']; try done.
    + by destruct Hi'; apply elem_of_cons; right.
    + by apply elem_of_cons in Hi' as [?|?].
Qed.

Lemma run_loop_drains (q : list Delivery) (w : World) :
  ready w -> Forall (fun d => sound_job d /\ forall id, target d = Some id ->
                               is_Some (backups (w_pg w) !! id)) q ->
  exists w', run cluster (worker_loop (S (length q))) (MkCluster w q [])
             = (Ok Stopped, MkCluster w' [] [])
    /\ completes (pg_clock (w_pg w)) (omap target q) (backups (w_pg w)) (backups (w_pg w')).
Proof using Type*.
  revert w. induction q as [|d q IH]; intros w Hr Hq; [by eexists|].
  apply Forall_cons in Hq as [[Hd Hrow] Hq]. cbn [length].
  destruct (run_handle d w q Hr Hd) as (id & w1 & Hid & Hcase).
  destruct (Hrow id Hid) as [b Hb]. rewrite Hb in Hcase. destruct Hcase as [Hrun Ha].
  pose proof Ha as (Hr1 & Hc1 & Hb1).
  rewrite run_loop_delivery, Hrun.
  destruct (IH w1 Hr1) as (w' & -> & Hc).
  { eapply Forall_impl; [exact Hq|]. intros d' [Hd' Hrow']. split; [done|].
    intros id' Hid'. rewrite Hb1. apply lookup_insert_is_Some'. right. by apply Hrow'. }
  exists w'. split; [done|]. cbn [omap list_omap]. rewrite Hid.
  rewrite Hc1, Hb1 in Hc. by eapply completes_cons.
Qed.

(** The worker drains the queue: with the service up and no failures, jobs of existing
    backups, in any number, order and repetition, are all processed and acknowledged and the
    worker then stops cleanly; at the end exactly the rows of those jobs are completed, with
    the simulated size of 1 MiB and all their other columns as they were, and a job that
    was delivered more than once leaves the same row as one delivered once. *)
Theorem worker_drains_queue (q : list Delivery) (w : World) :
  ready w -> Forall (fun d => sound_job d /\ forall id, target d = Some id ->
                               is_Some (backups (w_pg w) !! id)) q ->
  exists w', run cluster (run_worker (S (length q))) (MkCluster w q [])
             = (Ok Stopped, MkCluster w' [] [])
    /\ forall id, backups (w_pg w') !! id =
         if decide (id ∈ omap target q)
         then completed_row (pg_clock (w_pg w)) <$> backups (w_pg w) !! id
         else backups (w_pg w) !! id.
Proof using Type*.
  intros Hr Hq. destruct (run_loop_drains q w Hr Hq) as (w' & Hrun & Hc). exists w'.
  split; [|exact Hc]. unfold run_worker. rewrite run_try. unfold awaited, perform.
  cbn [bind run cluster map_err]. exact Hrun.
Qed.

(** C26. A job whose backup was deleted is never settled for good: however many iterations the
    worker makes, each delivery fails with not-found and is requeued, the worker does not
    come to rest, the delivery is still in the queue and the table is unchanged. *)
Theorem orphan_job_requeued_forever (d : Delivery) (id : Uuid) (w : World) (iterations : nat) :
  ready w -> sound_job d -> target d = Some id -> backups (w_pg w) !! id = None ->
  exists w', run cluster (run_worker iterations) (MkCluster w [d] [])
             = (Ok Looping, MkCluster w' [d] [])
    /\ backups (w_pg w') = backups (w_pg w).
Proof using Type*.
  intros Hr Hd Hid Hnone. unfold run_worker. rewrite run_try. unfold awaited, perform.
  cbn [bind run cluster map_err]. revert w Hr Hnone.
  induction iterations as [|n IH]; intros w Hr Hnone; [by exists w|].
  rewrite run_loop_delivery. destruct (run_handle d w [] Hr Hd) as (id' & w1 & Hid' & Hcase).
  replace id' with id in Hcase by congruence. rewrite Hnone in Hcase.
  destruct Hcase as [-> (Hr1 & _ & Hb1)].
  destruct (IH w1 Hr1) as (w' & -> & Hb); [by rewrite Hb1|]. exists w'. by rewrite Hb.
Qed.
End cluster.

(** ** Witnesses *)

#[local] Existing Instance Reference.uuids.
#[local] Existing Instance Reference.uuids_laws.
#[local] Existing Instance ReferenceJobs.json.
#[local] Existing Instance sample_libm.
#[local] Existing Instance ReferenceDb.server.
#[local] Existing Instance ReferenceRedis.server.
#[local] Existing Instance ReferenceBroker.broker.

Definition sample_job : BackupJob := MkBackupJob (uuid_of 1) (uuid_of 7) "/data" false.
Definition sample_delivery (tag : Z) : Delivery := MkDelivery tag (job_to_json sample_job).

Lemma sample_delivery_job (tag : Z) : job_of_delivery (sample_delivery tag) = Some sample_job.
Proof.
  unfold job_of_delivery. cbn [data sample_delivery].
  by rewrite (@job_json_roundtrip _ ReferenceJobs.job_json_laws).
Qed.

Lemma sample_delivery_sound (tag : Z) :
  sound_job (sample_delivery tag) /\ target (sample_delivery tag) = Some (uuid_of 1).
Proof.
  unfold sound_job, target. rewrite sample_delivery_job. split; [|done]. by exists sample_job.
Qed.

(** The same job twice: the row is completed. *)
Lemma worker_drains_queue_witness :
  exists w',
    run cluster (run_worker 3)
      (MkCluster (one_row_world "pending") [sample_delivery 1; sample_delivery 2] [])
    = (Ok Stopped, MkCluster w' [] [])
    /\ option_map b_status (backups (w_pg w') !! uuid_of 1) = Some "completed"
    /\ option_map b_size_bytes (backups (w_pg w') !! uuid_of 1) = Some 1048576.
Proof.
  destruct (worker_drains_queue [sample_delivery 1; sample_delivery 2] (one_row_world "pending"))
    as (w' & Hr & Hm).
  - split; [done|exact (one_row_ok "pending" eq_refl)].
  - repeat constructor; try apply sample_delivery_sound;
      rewrite (proj2 (sample_delivery_sound _)); intros id [= <-]; by eexists.
  - exists w'. split; [exact Hr|]. specialize (Hm (uuid_of 1)).
    cbn [omap list_omap] in Hm. rewrite !(proj2 (sample_delivery_sound _)) in Hm.
    rewrite decide_True in Hm by (apply elem_of_cons; by left).
    assert (Hb : backups (w_pg (one_row_world "pending")) !! uuid_of 1
                 = Some (sample_row 1 7 "pending" 10)) by apply lookup_insert_eq.
    rewrite Hm, Hb. split; reflexivity.
Defined.

(** A queued job and an empty table, for a hundred iterations. *)
Lemma orphan_job_requeued_forever_witness :
  exists w',
    run cluster (run_worker 100)
      (MkCluster (ref_world [] ReferenceRedis.empty 20) [sample_delivery 1] [])
    = (Ok Looping, MkCluster w' [sample_delivery 1] []).
Proof.
  destruct (orphan_job_requeued_forever (sample_delivery 1) (uuid_of 1)
    (ref_world [] ReferenceRedis.empty 20) 100) as (w' & Hr & _).
  - split; [done|]. intros id b Hb. discriminate Hb.
  - apply sample_delivery_sound.
  - apply sample_delivery_sound.
  - done.
  - exists w'. exact Hr.
Defined.
