(* ===== verification/WorkerFaults.v ===== *)
(** The worker under failures: gRPC requests and replies that are lost, a thread pool that
    loses computations, a database that fails before or after a statement.  A failed job is
    requeued, so each failure costs one more iteration and nothing else: with finitely many
    failures ahead the queue is drained and the table ends as it does without any. *)

From S2P Require Import Prelude Codec Prog Models Errors SocketAddr Config Merge RateLimit.
From S2P Require Import Entropy Db State Jobs Grpc Worker WorkerSystem.
Local Open Scope prog_scope.

(** ** Failures ahead *)

(** A call that does not reach the service, and one whose reply does not come back. *)
Inductive RpcFault : Type :=
  | LostRequest (e : Status)
  | LostReply (e : Status).

(** How many failures a schedule has. *)
Definition pending {F} (l : list (option F)) : nat := length (omap id l).

Lemma pending_fault {F} (f : F) (l : list (option F)) : pending (Some f :: l) = S (pending l).
Proof. done. Qed.

Lemma pending_none {F} (l : list (option F)) : pending (None :: l) = pending l.
Proof. done. Qed.

Lemma pending_tail {F} (l : list (option F)) : (pending (tail l) <= pending l)%nat.
Proof. destruct l as [|[f|] l]; cbn; lia. Qed.

Lemma pending_tail_fault {F} (f : F) (l : list (option F)) :
  (pending (tail (Some f :: l)) < pending (Some f :: l))%nat.
Proof. cbn. lia. Qed.

Section faulty.
Context `{UuidCrate} `{JobJson} `{Libm}.
Context `{Postgres} `{RedisServer} `{Broker}.

(** The cluster of [WorkerSystem] with the failures that its next calls will meet; those of
    the database are in its world. *)
Record Faulty : Type := MkFaulty {
  healthy : Cluster;
  rpc_faults : list (option RpcFault);
  join_faults : list (option JoinError);
}.

Definition on_healthy {X} (e : WEff X) (c : Faulty) : X * Faulty :=
  let '(x, h) := cluster X e (healthy c) in (x, MkFaulty h (rpc_faults c) (join_faults c)).

(** One gRPC call that the network may lose on either way. *)
Definition rpc (e : WEff (result Ack Status)) (c : Faulty) : result Ack Status * Faulty :=
  let '(r, served) := cluster _ e (healthy c) in
  let rest := tail (rpc_faults c) in
  match rpc_faults c with
  | Some (LostRequest e) :: _ => (Err e, MkFaulty (healthy c) rest (join_faults c))
  | Some (LostReply e) :: _ => (Err e, MkFaulty served rest (join_faults c))
  | _ => (r, MkFaulty served rest (join_faults c))
  end.

Definition faulty : Handler WEff Faulty := fun X e c =>
  match e in WEff X return X * Faulty with
  | CallUpdateStatus m => rpc (CallUpdateStatus m) c
  | CallReportResult m => rpc (CallReportResult m) c
  | Blocking f =>
      (match join_faults c with Some e :: _ => Err e | _ => Ok (f tt) end,
       MkFaulty (healthy c) (rpc_faults c) (tail (join_faults c)))
  | BasicConsume q t => on_healthy (BasicConsume q t) c
  | Select => on_healthy Select c
  | BasicAck d => on_healthy (BasicAck d) c
  | BasicNack d b => on_healthy (BasicNack d b) c
  | Sleep n => on_healthy (Sleep n) c
  end.

Definition f_world (c : Faulty) : World := cl_world (healthy c).
Definition f_rows (c : Faulty) : gmap Uuid Backup := backups (w_pg (f_world c)).

(** All the failures ahead. *)
Definition failures (c : Faulty) : nat :=
  (pending (pg_faults (w_pg (f_world c))) + pending (rpc_faults c) + pending (join_faults c))%nat.

(** ** Work on one row *)

(** Nothing but the row of [id] has changed, and completing it gives the same row as before. *)
Definition worked (id : Uuid) (w w' : World) : Prop :=
  let now := pg_clock (w_pg w) in
  pg_clock (w_pg w') = now
  /\ (table_ok (w_pg w) -> table_ok (w_pg w'))
  /\ (forall i, i <> id -> backups (w_pg w') !! i = backups (w_pg w) !! i)
  /\ completed_row now <$> backups (w_pg w') !! id = completed_row now <$> backups (w_pg w) !! id.

#[export] Instance worked_preorder (id : Uuid) : PreOrder (worked id).
Proof using Type.
  split; [by intros w|]. intros w1 w2 w3 (Hc1 & Ho1 & Hi1 & Hb1) (Hc2 & Ho2 & Hi2 & Hb2).
  rewrite Hc1 in *. split_and!; [done|auto| |congruence].
  intros i Hi. by rewrite Hi2, Hi1.
Qed.

Lemma worked_same (id : Uuid) (db : Pg) (w : World) :
  backups db = backups (w_pg w) -> pg_clock db = pg_clock (w_pg w) -> worked id w (with_pg db w).
Proof using Type.
  intros Hb Hc. unfold worked, table_ok. cbn [w_pg with_pg]. by rewrite Hb, Hc.
Qed.

Lemma worked_row (id : Uuid) (b b' : Backup) (db : Pg) (w : World) :
  backups (w_pg w) !! id = Some b -> backups db = <[id := b']> (backups (w_pg w)) ->
  pg_clock db = pg_clock (w_pg w) -> row_ok id b' ->
  completed_row (pg_clock (w_pg w)) b' = completed_row (pg_clock (w_pg w)) b ->
  worked id w (with_pg db w).
Proof using Type.
  intros Hb Hdb Hc Hok Hrow. unfold worked, table_ok. cbn [w_pg with_pg]. rewrite Hc, Hdb.
  split_and!; [done| | |by rewrite lookup_insert_eq, Hb; cbn; rewrite Hrow].
  - intros Ht i c. destruct (decide (i = id)) as [->|Hne].
    + rewrite lookup_insert_eq. by intros [= <-].
    + rewrite lookup_insert_ne by done. apply Ht.
  - intros i Hi. by rewrite lookup_insert_ne.
Qed.

Lemma worked_counted (id : Uuid) (w w' : World) (l : list Counter) :
  worked id w w' -> worked id w (with_counted l w').
Proof using Type. done. Qed.

Lemma worked_is_Some (id i : Uuid) (w w' : World) :
  worked id w w' -> is_Some (backups (w_pg w) !! i) -> is_Some (backups (w_pg w') !! i).
Proof using Type.
  intros (_ & _ & Ho & Hi) Hs. destruct (decide (i = id)) as [->|Hne]; [|by rewrite Ho].
  apply (fmap_is_Some (completed_row (pg_clock (w_pg w)))). rewrite Hi. by apply fmap_is_Some.
Qed.

Lemma completes_worked (id : Uuid) (ids : list Uuid) (w w1 w' : World) :
  worked id w w1 -> id ∈ ids ->
  completes (pg_clock (w_pg w1)) ids (backups (w_pg w1)) (backups (w_pg w')) ->
  completes (pg_clock (w_pg w)) ids (backups (w_pg w)) (backups (w_pg w')).
Proof using Type.
  intros (Hc & _ & Ho & Hi) Hin Hcs i. specialize (Hcs i). rewrite Hc in Hcs. rewrite Hcs.
  destruct (decide (i = id)) as [->|Hne]; [rewrite !decide_True by done; exact Hi|].
  by rewrite Ho.
Qed.
(** ** The calls *)

Lemma set_columns_completed (st : option string) (size : option Z) (now : DateTime) (b : Backup) :
  completed_row now (set_columns st size now b) = completed_row now b.
Proof using Type. done. Qed.

(** An update of the row by its identifier, whatever the database's next fault is. *)
Lemma exec_by_id_faulty {Q : Stmt Z} (id : Uuid) (st : string) (size : option Z) (b : Backup)
    (w : World) :
  table_ok (w_pg w) -> backups (w_pg w) !! id = Some b -> status_check st = true ->
  (forall d, exec_stmt Q d = update_by_id id st size d) ->
  let '(r, db) := exec Q (w_pg w) in
  worked id w (with_pg db w)
  /\ match r with
     | Ok n => n = 1 /\ (pending (pg_faults db) <= pending (pg_faults (w_pg w)))%nat
               /\ backups db !! id = Some (set_columns (Some st) size (pg_clock (w_pg w)) b)
     | Err _ => (pending (pg_faults db) < pending (pg_faults (w_pg w)))%nat
     end.
Proof using Type.
  intros Hok Hb Hst HQ. unfold exec. set (db1 := (begin_exec (w_pg w)).2).
  pose proof (update_by_id_spec id st size db1 Hok) as Hu.
  change (backups db1) with (backups (w_pg w)) in Hu.
  change (pg_clock db1) with (pg_clock (w_pg w)) in Hu. rewrite Hb, Hst, <-HQ in Hu.
  assert (Hw : worked id w (with_pg (exec_stmt Q db1).2 w)).
  { rewrite Hu. eapply worked_row; [done|done|done| |apply set_columns_completed].
    destruct (Hok id b Hb) as [Hid _]. by split. }
  pose proof (exec_stmt_faults Q db1) as Hf. change (pg_faults db1) with (tail (pg_faults (w_pg w))) in Hf.
  assert (Hp : match (begin_exec (w_pg w)).1 with
               | Some _ => (pending (tail (pg_faults (w_pg w))) < pending (pg_faults (w_pg w)))%nat
               | None => (pending (tail (pg_faults (w_pg w))) <= pending (pg_faults (w_pg w)))%nat
               end).
  { cbn [begin_exec fst]. destruct (pg_faults (w_pg w)) as [|[f|] fs];
      [done|apply pending_tail_fault|apply pending_tail]. }
  rewrite (surjective_pairing (begin_exec (w_pg w))). fold db1.
  destruct (begin_exec (w_pg w)).1 as [[e|e]|].
  - split; [by apply worked_same|exact Hp].
  - split; [exact Hw|by rewrite Hf].
  - rewrite Hu in *. cbn [snd with_backups pg_faults backups] in *. split; [exact Hw|].
    by rewrite Hf, lookup_insert_eq.
Qed.

(** A call that fails uses up a failure. *)
Definition spent (before after : nat) (success : bool) : Prop :=
  if success then (after <= before)%nat else (after < before)%nat.

Context `{!UuidLaws}.

Lemma service_running (job : BackupJob) (w : World) :
  table_ok (w_pg w) -> is_Some (backups (w_pg w) !! j_backup_id job) ->
  let '(r, w') := run service (update_status (running_update job)) w in
  worked (j_backup_id job) w w'
  /\ spent (pending (pg_faults (w_pg w))) (pending (pg_faults (w_pg w'))) (is_ok r).
Proof using Type*.
  intros Hok [b Hb]. unfold update_status, parse_backup_id.
  cbn [running_update su_backup_id su_status]. rewrite uuid_parse_display. cbn [ok_or try_pure].
  rewrite run_try, run_grpc_query.
  pose proof (@exec_by_id_faulty (UpdateStatus (j_backup_id job) "running") (j_backup_id job)
    "running" None b w Hok Hb eq_refl ltac:(done)) as He.
  destruct (exec _ _) as [[n|e] db]; cbn [map_err]; [|done].
  destruct He as (Hw & -> & Hp & _). by split.
Qed.

Lemma service_completed (job : BackupJob) (m : ProcessingResult) (b : Backup) (w : World) :
  table_ok (w_pg w) -> backups (w_pg w) !! j_backup_id job = Some b ->
  pr_backup_id m = uuid_to_string (j_backup_id job) -> pr_status m = "completed" ->
  pr_size_bytes m = 1048576 ->
  let '(r, w') := run service (report_result m) w in
  worked (j_backup_id job) w w'
  /\ spent (pending (pg_faults (w_pg w))) (pending (pg_faults (w_pg w'))) (is_ok r)
  /\ (is_ok r = true ->
      backups (w_pg w') !! j_backup_id job = Some (completed_row (pg_clock (w_pg w)) b)).
Proof using Type*.
  intros Hok Hb Hid Hst Hsz. unfold report_result, parse_backup_id.
  rewrite Hid, uuid_parse_display, Hst, Hsz. cbn [ok_or try_pure String.eqb Ascii.eqb Bool.eqb].
  rewrite run_try, run_report_query.
  pose proof (@exec_by_id_faulty (CompleteBackup (j_backup_id job) 1048576) (j_backup_id job)
    "completed" (Some 1048576) b w Hok Hb eq_refl ltac:(done)) as He.
  destruct (exec _ _) as [[n|e] db]; [|by destruct He].
  destruct He as (Hw & -> & Hp & Hrow). split; [by apply worked_counted|]. by split.
Qed.

(** What a call, or several of them, did to the cluster. *)
Definition step (id : Uuid) (c c' : Faulty) (success : bool) : Prop :=
  worked id (f_world c) (f_world c')
  /\ queue (healthy c') = queue (healthy c) /\ unacked (healthy c') = unacked (healthy c)
  /\ spent (failures c) (failures c') success.

Lemma step_then (id : Uuid) (c c1 c2 : Faulty) (success : bool) :
  step id c c1 true -> step id c1 c2 success -> step id c c2 success.
Proof using Type.
  intros (Hw1 & Hq1 & Hu1 & Hs1) (Hw2 & Hq2 & Hu2 & Hs2).
  split; [by etrans|]. split; [congruence|]. split; [congruence|].
  destruct success; cbn in *; lia.
Qed.

(** One gRPC call under the faults of the network. *)
Lemma step_rpc (id : Uuid) (e : WEff (result Ack Status)) (c : Faulty) (r : result Ack Status)
    (w' : World) :
  cluster _ e (healthy c) = (r, MkCluster w' (queue (healthy c)) (unacked (healthy c))) ->
  worked id (f_world c) w' ->
  spent (pending (pg_faults (w_pg (f_world c)))) (pending (pg_faults (w_pg w'))) (is_ok r) ->
  step id c (rpc e c).2 (is_ok (rpc e c).1)
  /\ (is_ok (rpc e c).1 = true -> is_ok r = true /\ f_world (rpc e c).2 = w').
Proof using Type.
  intros He Hw Hs. unfold rpc. rewrite He. unfold step, failures, spent in *.
  assert (Hpg : (pending (pg_faults (w_pg w')) <= pending (pg_faults (w_pg (f_world c))))%nat)
    by (destruct r; cbn in Hs; lia).
  destruct c as [h [|[[e'|e']|] fs] js]; cbn -[pending] in *;
    unfold f_world in *; cbn -[pending] in *.
  - split; [|done]. split_and!; try done. destruct r; cbn -[pending] in *; lia.
  - split; [|done]. split_and!; try done. rewrite pending_fault. lia.
  - split; [|done]. split_and!; try done. rewrite pending_fault. lia.
  - split; [|done]. split_and!; try done. rewrite pending_none.
    destruct r; cbn -[pending] in *; lia.
Qed.

(** ** The jobs *)

Lemma step_is_Some (id i : Uuid) (c c' : Faulty) (success : bool) :
  step id c c' success -> is_Some (f_rows c !! i) -> is_Some (f_rows c' !! i).
Proof using Type. intros [Hw _]. by eapply worked_is_Some. Qed.

Lemma step_table_ok (id : Uuid) (c c' : Faulty) (success : bool) :
  step id c c' success -> table_ok (w_pg (f_world c)) -> table_ok (w_pg (f_world c')).
Proof using Type. by intros [(_ & Ho & _) _]. Qed.

Lemma step_blocking (id : Uuid) {R} (f : unit -> R) (c : Faulty) :
  step id c (faulty _ (Blocking f) c).2 (is_ok (faulty _ (Blocking f) c).1).
Proof using Type.
  destruct c as [h rs [|[e|] js]]; cbn; (split; [done|]); split_and!; try done;
    unfold failures, f_world; cbn -[pending]; rewrite ?pending_fault, ?pending_none; lia.
Qed.

Lemma step_running (job : BackupJob) (c : Faulty) :
  table_ok (w_pg (f_world c)) -> is_Some (f_rows c !! j_backup_id job) ->
  let '(r, c') := faulty _ (CallUpdateStatus (running_update job)) c in
  step (j_backup_id job) c c' (is_ok r).
Proof using Type*.
  intros Hok Hb. pose proof (service_running job (f_world c) Hok Hb) as Hs.
  destruct (run service _ (f_world c)) as [r w'] eqn:Er. destruct Hs as [Hw Hs].
  pose proof (step_rpc (j_backup_id job) (CallUpdateStatus (running_update job)) c r w') as Hr.
  cbn [faulty]. destruct (rpc _ c) as [x c']. cbn [fst snd] in Hr. apply Hr; [|done|done].
  cbn [cluster]. unfold f_world in Er. by rewrite Er.
Qed.

Lemma step_completed (job : BackupJob) (m : ProcessingResult) (c : Faulty) :
  table_ok (w_pg (f_world c)) -> is_Some (f_rows c !! j_backup_id job) ->
  pr_backup_id m = uuid_to_string (j_backup_id job) -> pr_status m = "completed" ->
  pr_size_bytes m = 1048576 ->
  let '(r, c') := faulty _ (CallReportResult m) c in
  step (j_backup_id job) c c' (is_ok r)
  /\ (is_ok r = true -> f_rows c' !! j_backup_id job =
        completed_row (pg_clock (w_pg (f_world c))) <$> f_rows c !! j_backup_id job).
Proof using Type*.
  intros Hok [b Hb] Hid Hst Hsz.
  pose proof (service_completed job m b (f_world c) Hok Hb Hid Hst Hsz) as Hs.
  destruct (run service _ (f_world c)) as [r w'] eqn:Er. destruct Hs as (Hw & Hs & Hrow).
  pose proof (step_rpc (j_backup_id job) (CallReportResult m) c r w') as Hr.
  cbn [faulty]. destruct (rpc _ c) as [x c']. cbn [fst snd] in Hr. destruct Hr as [Hstep Hx].
  - cbn [cluster]. unfold f_world in Er. by rewrite Er.
  - done.
  - done.
  - split; [done|]. intros [Hrr Hww]%Hx. unfold f_rows at 1. rewrite Hww, Hrow by done.
    by rewrite Hb.
Qed.

(** A job: done with its row completed, or failed at the cost of a failure. *)
Lemma run_report_with_faults (job : BackupJob) (entropy : unit -> f64) (c : Faulty) :
  table_ok (w_pg (f_world c)) -> is_Some (f_rows c !! j_backup_id job) ->
  let '(r, c') := run faulty (report_with job 1048576 entropy) c in
  step (j_backup_id job) c c' (is_ok r)
  /\ (is_ok r = true -> f_rows c' !! j_backup_id job =
        completed_row (pg_clock (w_pg (f_world c))) <$> f_rows c !! j_backup_id job).
Proof using Type*.
  intros Hok Hb. unfold report_with, awaited, perform, try_bind. cbn [bind run].
  pose proof (step_running job c Hok Hb) as H1'.
  destruct (faulty _ (CallUpdateStatus _) c) as [[a|e] c1]; cbn [map_err bind run]; [|by split].
  pose proof (step_blocking (j_backup_id job) entropy c1) as H2'.
  destruct (faulty _ (Blocking _) c1) as [[x|e] c2]; cbn [map_err bind run fst snd is_ok] in *.
  2: { split; [|done]. by eapply step_then. }
  assert (H12 : step (j_backup_id job) c c2 true) by (by eapply step_then).
  replace (faulty _ (Sleep 100) c2) with (tt, c2) by (by destruct c2 as [[] ??]).
  set (m := completed_result _ _ _ _).
  pose proof (step_completed job m c2 ltac:(by eapply step_table_ok)
    ltac:(by eapply step_is_Some) eq_refl eq_refl eq_refl) as H3'.
  destruct (faulty _ (CallReportResult m) c2) as [[y|e] c3]; cbn [map_err bind run];
    destruct H3' as [H3' Hrow]; (split; [by eapply step_then|]); [|done].
  intros _. rewrite Hrow by done. destruct H12 as [(Hc & _ & _ & Hi) _].
  unfold f_rows. by rewrite Hc.
Qed.

(** ** The deliveries *)

(** A cluster with one unsettled delivery at most, the one the worker holds. *)
Definition holding_only (ds : list Delivery) (q : list Delivery) (c : Faulty) : Prop :=
  queue (healthy c) = q /\ unacked (healthy c) = ds.

(** Acknowledging and requeueing do not fail here. *)
Lemma run_settle (d : Delivery) (q : list Delivery) (c : Faulty) :
  holding_only [d] q c ->
  (exists c', faulty _ (BasicAck d) c = (Ok tt, c') /\ holding_only [] q c'
              /\ f_world c' = f_world c /\ failures c' = failures c)
  /\ (exists c', faulty _ (BasicNack d true) c = (Ok tt, c') /\ holding_only [] (d :: q) c'
                 /\ f_world c' = f_world c /\ failures c' = failures c).
Proof using Type.
  destruct c as [[w q' u] rs js]. intros [Hq Hu]. cbn in Hq, Hu. subst.
  split; [exists (MkFaulty (MkCluster w q []) rs js)|exists (MkFaulty (MkCluster w (d :: q) []) rs js)];
    (split; [unfold faulty, on_healthy; cbn [cluster healthy]; by rewrite settle_one|done]).
Qed.

(** What a delivery comes to. *)
Definition delivered (d : Delivery) (id : Uuid) (q : list Delivery) (c c' : Faulty) : Prop :=
  worked id (f_world c) (f_world c')
  /\ ((holding_only [] q c' /\ (failures c' <= failures c)%nat
       /\ f_rows c' !! id = completed_row (pg_clock (w_pg (f_world c))) <$> f_rows c !! id)
      \/ (holding_only [] (d :: q) c' /\ (failures c' < failures c)%nat)).

Lemma run_handle_faults (d : Delivery) (id : Uuid) (q : list Delivery) (c : Faulty) :
  table_ok (w_pg (f_world c)) -> holding_only [d] q c -> sound_job d -> target d = Some id ->
  is_Some (f_rows c !! id) ->
  exists c', run faulty (handle_delivery d) c = (Ok tt, c') /\ delivered d id q c c'.
Proof using Type*.
  intros Hok [Hq Hu] (job & Hjob & Hpath) Hid Hb. unfold target in Hid. rewrite Hjob in Hid.
  injection Hid as <-. unfold job_of_delivery in Hjob. unfold handle_delivery.
  destruct (job_from_json (data d)) as [job'|e]; [|done]. injection Hjob as ->.
  destruct (process_with job Hpath) as [entropy ->]. rewrite run_bind.
  pose proof (run_report_with_faults job entropy c Hok Hb) as Hr.
  destruct (run faulty (report_with _ _ _) c) as [r c1]. destruct Hr as [(Hw & Hq1 & Hu1 & Hs) Hrow].
  destruct (run_settle d q c1) as [(ca & Ha & Hha & Hwa & Hfa) (cn & Hn & Hhn & Hwn & Hfn)];
    [split; congruence|].
  destruct r as [[]|e]; unfold awaited, perform; cbn [bind run].
  - rewrite Ha. exists ca. split; [done|]. split; [by rewrite Hwa|]. left. split; [done|].
    rewrite Hfa. split; [exact Hs|]. unfold f_rows at 1. rewrite Hwa. by apply Hrow.
  - rewrite Hn. exists cn. split; [done|]. split; [by rewrite Hwn|]. right. split; [done|].
    by rewrite Hfn.
Qed.

Lemma run_loop_take (n : nat) (d : Delivery) (q : list Delivery) (c : Faulty) :
  holding_only [] (d :: q) c ->
  exists c1, holding_only [d] q c1 /\ f_world c1 = f_world c /\ failures c1 = failures c
    /\ run faulty (worker_loop (S n)) c =
       let '(r, c2) := run faulty (handle_delivery d) c1 in
       match r with Ok _ => run faulty (worker_loop n) c2 | Err e => (Err e, c2) end.
Proof using Type.
  destruct c as [[w q' u] rs js]. intros [Hq Hu]. cbn in Hq, Hu. subst.
  exists (MkFaulty (MkCluster w q [d]) rs js). split; [done|]. split; [done|]. split; [done|].
  cbn [worker_loop]. rewrite run_bind, run_perform. cbn [faulty on_healthy cluster healthy queue].
  apply run_try.
Qed.

(** The loop ends before its iterations do. *)
Lemma run_loop_drains_faults (n : nat) (q : list Delivery) (c : Faulty) :
  table_ok (w_pg (f_world c)) -> holding_only [] q c ->
  Forall (fun d => sound_job d /\ forall id, target d = Some id -> is_Some (f_rows c !! id)) q ->
  (length q + failures c < n)%nat ->
  exists c', run faulty (worker_loop n) c = (Ok Stopped, c') /\ holding_only [] [] c'
    /\ completes (pg_clock (w_pg (f_world c))) (omap target q) (f_rows c) (f_rows c').
Proof using Type*.
  revert q c. induction n as [|n IH]; intros q c Hok Hc Hq Hn; [lia|].
  destruct q as [|d q].
  { destruct c as [[w q' u] rs js]. destruct Hc as [Hcq Hcu]. cbn in Hcq, Hcu. subst.
    by eexists. }
  pose proof Hq as [[Hd Hrow] Hq']%Forall_cons.
  destruct (run_loop_take n d q c Hc) as (c1 & Hc1 & Hw1 & Hf1 & ->).
  assert (exists id, target d = Some id) as [id Hid]
    by (destruct Hd as (job & Hjob & _); unfold target; rewrite Hjob; by eexists).
  unfold f_rows in Hq, Hrow, Hq'. rewrite <-Hw1 in *. unfold f_rows at 1. rewrite <-Hw1.
  destruct (run_handle_faults d id q c1 Hok Hc1 Hd Hid (Hrow id Hid)) as (c2 & -> & Hw & Hcase).
  assert (Hrows : forall i, is_Some (backups (w_pg (f_world c1)) !! i) -> is_Some (f_rows c2 !! i))
    by (intros i; by eapply worked_is_Some).
  assert (Hsound : forall l, Forall (fun d => sound_job d /\ forall id, target d = Some id ->
              is_Some (backups (w_pg (f_world c1)) !! id)) l ->
            Forall (fun d => sound_job d /\ forall id, target d = Some id ->
              is_Some (f_rows c2 !! id)) l)
    by (intros l Hl; eapply Forall_impl; [exact Hl|]; intros d' [Hd' Hr']; split; auto).
  assert (Hok2 : table_ok (w_pg (f_world c2))) by (by apply Hw).
  destruct Hcase as [(Hh & Hf & Hdone)|[Hh Hf]].
  - destruct (IH q c2 Hok2 Hh (Hsound q Hq') ltac:(cbn in Hn; lia)) as (c' & -> & Hh' & Hcs).
    exists c'. split; [done|]. split; [done|]. cbn [omap list_omap]. rewrite Hid.
    pose proof Hw as (Hclk & _ & Ho & _). rewrite Hclk in Hcs.
    destruct (Hrow id Hid) as [b Hb]. eapply completes_cons; [exact Hb|].
    intros i. rewrite Hcs. destruct (decide (i = id)) as [->|Hne].
    + by rewrite Hdone, lookup_insert_eq; unfold f_rows; rewrite Hb.
    + unfold f_rows. by rewrite lookup_insert_ne, Ho.
  - destruct (IH (d :: q) c2 Hok2 Hh (Hsound _ Hq) ltac:(cbn in Hn |- *; lia))
      as (c' & -> & Hh' & Hcs).
    exists c'. split; [done|]. split; [done|]. eapply completes_worked; [exact Hw| |exact Hcs].
    cbn [omap list_omap]. rewrite Hid. by left.
Qed.

(** C7. The worker drains the queue in spite of failures.  Whatever finite schedule of lost
    gRPC requests and replies, of computations the thread pool loses and of statements that
    fail before or after they are executed lies ahead, jobs of existing backups in any
    number, order and repetition are all processed: the worker stops cleanly after at most
    one iteration for each delivery and one for each failure, nothing is left in the queue
    or unsettled, and the table ends exactly as without failures, with the rows of those
    jobs completed and every other row as it was. *)
Theorem worker_drains_despite_failures (q : list Delivery) (w : World)
    (rpcs : list (option RpcFault)) (joins : list (option JoinError)) :
  table_ok (w_pg w) ->
  Forall (fun d => sound_job d /\ forall id, target d = Some id ->
                    is_Some (backups (w_pg w) !! id)) q ->
  let bound := (length q + pending (pg_faults (w_pg w)) + pending rpcs + pending joins)%nat in
  exists w' rpcs' joins',
    run faulty (run_worker (S bound)) (MkFaulty (MkCluster w q []) rpcs joins)
    = (Ok Stopped, MkFaulty (MkCluster w' [] []) rpcs' joins')
    /\ forall id, backups (w_pg w') !! id =
         if decide (id ∈ omap target q)
         then completed_row (pg_clock (w_pg w)) <$> backups (w_pg w) !! id
         else backups (w_pg w) !! id.
Proof using Type*.
  intros Hok Hq bound.
  destruct (run_loop_drains_faults (S bound) q (MkFaulty (MkCluster w q []) rpcs joins) Hok
    (conj eq_refl eq_refl) Hq) as ([[w' q' u'] rpcs' joins'] & Hr & [Hq' Hu'] & Hc).
  { unfold failures, f_world, bound. cbn -[pending]. lia. }
  cbn in Hq', Hu'. subst. exists w', rpcs', joins'. split; [|exact Hc].
  unfold run_worker, awaited, perform, try_bind. cbn [bind run faulty on_healthy cluster map_err].
  exact Hr.
Qed.
End faulty.

(** ** Witness *)

#[local] Existing Instance Reference.uuids.
#[local] Existing Instance Reference.uuids_laws.
#[local] Existing Instance ReferenceJobs.json.
#[local] Existing Instance sample_libm.
#[local] Existing Instance ReferenceDb.server.
#[local] Existing Instance ReferenceRedis.server.
#[local] Existing Instance ReferenceBroker.broker.

Definition unavailable : Status := MkStatus InternalCode "transport error".

(** A database that loses the reply to its second statement. *)
Definition faulty_world : World :=
  let w := one_row_world "pending" in
  with_pg (MkPg (backups (w_pg w)) (pg_clock (w_pg w)) 0
             [None; Some (FaultAfter check_violation)]) w.

(** Two deliveries of one job, four failures: done in seven iterations. *)
Lemma worker_drains_despite_failures_witness :
  exists w' rpcs' joins',
    run faulty (run_worker 7)
      (MkFaulty (MkCluster faulty_world [sample_delivery 1; sample_delivery 2] [])
         [None; None; Some (LostRequest unavailable); None; Some (LostReply unavailable)]
         [None; Some (MkJoinError "panicked")])
    = (Ok Stopped, MkFaulty (MkCluster w' [] []) rpcs' joins')
    /\ option_map b_status (backups (w_pg w') !! uuid_of 1) = Some "completed".
Proof.
  destruct (worker_drains_despite_failures [sample_delivery 1; sample_delivery 2] faulty_world
    [None; None; Some (LostRequest unavailable); None; Some (LostReply unavailable)]
    [None; Some (MkJoinError "panicked")]) as (w' & rpcs' & joins' & Hr & Hm).
  - exact (one_row_ok "pending" eq_refl).
  - repeat constructor; try apply sample_delivery_sound;
      rewrite (proj2 (sample_delivery_sound _)); intros id [= <-]; by eexists.
  - exists w', rpcs', joins'. split; [exact Hr|]. specialize (Hm (uuid_of 1)).
    cbn [omap list_omap] in Hm. rewrite !(proj2 (sample_delivery_sound _)) in Hm.
    rewrite decide_True in Hm by (apply elem_of_cons; by left).
    assert (Hb : backups (w_pg faulty_world) !! uuid_of 1 = Some (sample_row 1 7 "pending" 10))
      by apply lookup_insert_eq.
    rewrite Hm, Hb. reflexivity.
Defined.
