(* ===== verification/System.v ===== *)
(** Concurrent requests.  Handlers in flight interleave at their awaited calls, are dropped by
    timeouts, meet failures of the database, of Redis and of the broker, and share the world
    with the updater and the worker's reports.  The theorem: whatever the interleaving, a
    tenant's requests only ever see, change and enqueue backups of that tenant. *)

From S2P Require Import Prelude Codec Prog Models Errors SocketAddr Config Merge RateLimit.
From S2P Require Import Entropy Db State Cache Jobs Backups Endpoints Grpc Apollo.
Local Open Scope prog_scope.

(** ** Requests *)

(** What the process runs concurrently: HTTP operations with their claims, the worker's two
    reports, an update cycle of the configuration. *)
Inductive Task : Type :=
  | HttpTask (claims : Claims) (op : BackupOp)
  | StatusTask (m : StatusUpdate)
  | ResultTask (m : ProcessingResult)
  | UpdaterTask (url : string).

Inductive Answer : Type :=
  | HttpAnswer (r : Response)
  | GrpcAnswer (r : result Ack Status)
  | UpdaterAnswer (updated : bool).

Section system.
Context `{UuidCrate} `{SerdeJson} `{JobJson} `{Libm} `{RemoteJson}.
Context `{Postgres} `{RedisServer} `{Broker}.
Context (state : AppState).

Definition serve (t : Task) : Prog SEff Answer :=
  match t with
  | HttpTask claims op => r <- serve_op state claims op ;; Ret (HttpAnswer r)
  | StatusTask m => r <- update_status m ;; Ret (GrpcAnswer r)
  | ResultTask m => r <- report_result m ;; Ret (GrpcAnswer r)
  | UpdaterTask u => b <- run_one_update u ;; Ret (UpdaterAnswer b)
  end.

(** ** Ownership *)

(** Which tenant an identifier was created for; it only grows. *)
Abbreviation Owners := (gmap Uuid Uuid).

(** A row of [tenant] under its recorded identifier. *)
Definition row_of (o : Owners) (tenant : Uuid) (b : Backup) : Prop :=
  b_tenant_id b = tenant /\ o !! b_id b = Some tenant.

Definition cached_row_ok (o : Owners) (k v : string) : Prop :=
  forall id b, k = backup_key id -> backup_from_json v = Ok b ->
  b_id b = id /\ o !! id = Some (b_tenant_id b).

Definition cached_page_ok (o : Owners) (k v : string) : Prop :=
  forall t p, k = tenant_key t -> page_from_json v = Ok p -> Forall (row_of o t) p.1.

Definition entry_ok (o : Owners) (k v : string) : Prop :=
  cached_row_ok o k v /\ cached_page_ok o k v.

(** The invariant: rows and cached values belong to their recorded owner, and identifiers
    still to be drawn have none. *)
Record owned (o : Owners) (w : World) : Prop := {
  owned_table : table_ok (w_pg w);
  owned_rows : forall id b, backups (w_pg w) !! id = Some b -> o !! id = Some (b_tenant_id b);
  owned_cache : forall k v, redis_holds (w_redis w) k v -> entry_ok o k v;
  owned_fresh : forall n id, (pg_execs (w_pg w) < n)%nat -> gen_random_uuid n = Some id ->
    o !! id = None;
}.

(** What a statement's answer tells. *)
Definition stmt_learns (o : Owners) {R} (q : Stmt R) : R -> Prop :=
  match q in Stmt R return R -> Prop with
  | InsertBackup t _ _ => fun b => row_of o t b
  | SelectBackup id t => fun r => forall b, r = Some b -> b_id b = id /\ row_of o t b
  | ListByStatus t _ _ _ | ListAll t _ _ => fun l => Forall (row_of o t) l
  | UpdateBackup id t _ _ => fun r => forall b, r = Some b -> b_id b = id /\ row_of o t b
  | DeleteBackup id t => fun n => n <> 0 -> o !! id = Some t
  | _ => fun _ => True
  end.

(** A job for a backup of its own tenant. *)
Definition job_owned (o : Owners) (p : Publication) : Prop :=
  forall job, job_from_json (p_payload p) = Ok job ->
  o !! j_backup_id job = Some (j_tenant_id job).

Definition eff_may (X : Type) (o : Owners) (e : SEff X) : Prop :=
  match e with
  | RedisSetEx k v _ => entry_ok o k v
  | Publish p => job_owned o p
  | _ => True
  end.

Definition eff_learns (X : Type) (o : Owners) (e : SEff X) : X -> Prop :=
  match e in SEff X return X -> Prop with
  | Sql q => fun r => forall x, r = Ok x -> stmt_learns o q x
  | RedisGet k => fun r => forall v, r = Ok v -> entry_ok o k v
  | _ => fun _ => True
  end.

Lemma row_of_mono (o o' : Owners) (t : Uuid) (b : Backup) :
  o ⊆ o' -> row_of o t b -> row_of o' t b.
Proof using Type. intros Ho [? Hb]. split; [done|]. by eapply lookup_weaken. Qed.

Lemma rows_of_mono (o o' : Owners) (t : Uuid) (l : list Backup) :
  o ⊆ o' -> Forall (row_of o t) l -> Forall (row_of o' t) l.
Proof using Type.
  intros Ho Hl. eapply Forall_impl; [exact Hl|]. intros b. by apply row_of_mono.
Qed.

Lemma entry_ok_mono (o o' : Owners) (k v : string) :
  o ⊆ o' -> entry_ok o k v -> entry_ok o' k v.
Proof using Type.
  intros Ho [Hr Hp]. split.
  - intros id b Hk Hb. destruct (Hr id b Hk Hb) as [? Hid]. split; [done|].
    by eapply lookup_weaken.
  - intros t p Hk Hb. eapply rows_of_mono; [done|by apply Hp].
Qed.

Lemma job_owned_mono (o o' : Owners) (p : Publication) :
  o ⊆ o' -> job_owned o p -> job_owned o' p.
Proof using Type. intros Ho Hp job Hj. eapply lookup_weaken; [by apply Hp|done]. Qed.

Program Definition ownership : Contract SEff Owners (⊆) :=
  {| may := eff_may; learns := eff_learns |}.
Next Obligation.
  intros X o o' e Ho. destruct e; cbn; try done; [by apply entry_ok_mono|by apply job_owned_mono].
Qed.

(** ** Statements *)

Context `{!PostgresLaws}.
(** Two executions never draw the same identifier. *)
Context (draws_differ : forall n m id,
  gen_random_uuid n = Some id -> gen_random_uuid m = Some id -> n = m).

(** A row that appears is under the identifier drawn for this execution. *)
Lemma exec_stmt_new_row {R} (q : Stmt R) (db : Pg) (id : Uuid) (b : Backup) :
  table_ok db -> backups db !! id = None -> backups (exec_stmt q db).2 !! id = Some b ->
  gen_random_uuid (pg_execs db) = Some id.
Proof using Type.
  intros Hok Hnone.
  assert (Hrep : forall i c st sz, backups db !! i = Some c ->
    backups (replace_row (set_columns st sz (pg_clock db) c) db).2 !! id = None).
  { intros i c st sz Hc. unfold replace_row. case_match; [|done]. cbn.
    destruct (Hok i c Hc) as [-> _]. rewrite lookup_insert_ne; [done|]. congruence. }
  assert (Hby : forall i st sz, backups (update_by_id i st sz db).2 !! id = None).
  { intros i st sz. unfold update_by_id. destruct (backups db !! i) as [c|] eqn:Hc; [|done].
    specialize (Hrep i c (Some st) sz Hc). by destruct (replace_row _ db) as [[?|?] ?]. }
  destruct q; cbn [exec_stmt snd]; try congruence;
    try (unfold update_status_row, complete_row, fail_row; rewrite Hby; congruence).
  - unfold insert_backup. destruct (gen_random_uuid (pg_execs db)) as [i|]; [|cbn; congruence].
    case_match; [cbn; congruence|]. cbn.
    intros [[<- _]|[_ ?]]%lookup_insert_Some; [done|congruence].
  - unfold update_backup_row. destruct (select_backup _ _ db) as [c|] eqn:Hs; [|cbn; congruence].
    apply select_backup_spec in Hs as [Hc _]. specialize (Hrep _ c st size Hc).
    destruct (replace_row _ db) as [[?|?] ?]; cbn in *; congruence.
  - unfold delete_backup_row. destruct (select_backup _ _ db); cbn; [|congruence].
    intros [_ ?]%lookup_delete_Some. congruence.
Qed.

Lemma exec_stmt_execs {R} (q : Stmt R) (db : Pg) : pg_execs (exec_stmt q db).2 = pg_execs db.
Proof using Type.
  destruct q; cbn [exec_stmt]; try done;
    unfold insert_backup, update_backup_row, delete_backup_row, update_status_row,
      complete_row, fail_row, update_by_id, replace_row; by repeat case_match; simplify_eq/=.
Qed.

(** What one execution does to the table, whatever fault it meets. *)
Lemma exec_cases {R} (q : Stmt R) (db : Pg) :
  exists m, backups (exec q db).2 = m /\ pg_execs (exec q db).2 = S (pg_execs db)
    /\ (m = backups db \/ m = backups (exec_stmt q (begin_exec db).2).2)
    /\ (forall x, (exec q db).1 = Ok x -> exec q db = exec_stmt q (begin_exec db).2).
Proof using Type.
  unfold exec. destruct (begin_exec db) as [[[e|e]|] db1] eqn:E; injection E as Ef <-;
    eexists; (split; [reflexivity|]); cbn [snd fst pg_execs]; rewrite ?exec_stmt_execs;
    (split; [done|]); (split; [by (left + right)|]); done.
Qed.

Lemma exec_new_row {R} (q : Stmt R) (db : Pg) (id : Uuid) (b : Backup) :
  table_ok db -> backups db !! id = None -> backups (exec q db).2 !! id = Some b ->
  gen_random_uuid (S (pg_execs db)) = Some id.
Proof using Type.
  intros Hok Hnone. destruct (exec_cases q db) as (m & -> & _ & [-> | ->] & _); [congruence|].
  by apply (exec_stmt_new_row q (begin_exec db).2).
Qed.

(** The owners after a statement. *)
Definition owners_after (o : Owners) (m : gmap Uuid Backup) : Owners :=
  o ∪ (b_tenant_id <$> m).

Lemma exec_owned {R} (q : Stmt R) (o : Owners) (w : World) :
  owned o w ->
  o ⊆ owners_after o (backups (exec q (w_pg w)).2)
  /\ owned (owners_after o (backups (exec q (w_pg w)).2)) (with_pg (exec q (w_pg w)).2 w).
Proof using Type*.
  intros [Hok Hrows Hcache Hfresh]. split; [apply map_union_subseteq_l|].
  set (m := backups (exec q (w_pg w)).2). unfold owners_after.
  assert (Hnew : forall id b, m !! id = Some b -> o !! id = Some (b_tenant_id b)
                   \/ (o !! id = None /\ gen_random_uuid (S (pg_execs (w_pg w))) = Some id)).
  { intros id b Hb. destruct (backups (w_pg w) !! id) as [c|] eqn:Hc.
    - left. pose proof (exec_change q (w_pg w) id Hok) as Hch. fold m in Hch.
      rewrite Hc, Hb in Hch. rewrite (Hrows id c Hc). by inversion Hch.
    - right. assert (Hid : gen_random_uuid (S (pg_execs (w_pg w))) = Some id)
        by (by eapply (exec_new_row q)).
      split; [|done]. eapply Hfresh; [|exact Hid]. lia. }
  split; cbn [w_pg w_redis with_pg].
  - by apply exec_table_ok.
  - intros id b Hb. fold m in Hb. apply lookup_union_Some_raw.
    destruct (Hnew id b Hb) as [?|[? _]]; [by left|right]. split; [done|].
    by rewrite lookup_fmap, Hb.
  - intros k v Hv. eapply entry_ok_mono; [apply map_union_subseteq_l|]. by apply Hcache.
  - intros n id Hn Hid. destruct (exec_cases q (w_pg w)) as (m' & _ & He & _).
    rewrite He in Hn. apply lookup_union_None_2; [eapply Hfresh; [|exact Hid]; lia|].
    rewrite lookup_fmap. destruct (m !! id) as [b|] eqn:Hb; [|done]. exfalso.
    destruct (Hnew _ b Hb) as [Ho|[_ Ho]].
    + rewrite (Hfresh n id) in Ho by (lia || done). done.
    + pose proof (draws_differ _ _ _ Hid Ho). lia.
Qed.

(** A statement's answer is true of the owners afterwards. *)
Lemma exec_stmt_learns {R} (q : Stmt R) (o o' : Owners) (db : Pg) (x : R) :
  table_ok db -> o ⊆ o' ->
  (forall id b, backups db !! id = Some b -> o !! id = Some (b_tenant_id b)) ->
  (forall id b, backups (exec_stmt q db).2 !! id = Some b -> o' !! id = Some (b_tenant_id b)) ->
  (exec_stmt q db).1 = Ok x -> stmt_learns o' q x.
Proof using Type*.
  intros Hok Ho Hrows Hrows'.
  assert (Hpage : forall p l f t rows, select_page p l f db = Ok rows ->
            (forall b, p b = true -> b_tenant_id b = t) -> Forall (row_of o' t) rows).
  { intros p l f t rows Hr Hp. apply Forall_forall. intros b Hb.
    destruct (select_page_elem p l f db rows b Hr Hb) as [Hpb [id Hid]].
    rewrite <-(Hp b Hpb). split; [done|]. destruct (Hok id b Hid) as [-> _].
    eapply lookup_weaken; [by apply Hrows|done]. }
  destruct q; cbn [exec_stmt stmt_learns fst snd] in *; try done.
  - unfold insert_backup in *. destruct (gen_random_uuid (pg_execs db)) as [i|]; [|done].
    destruct (backups db !! i); [done|]. intros [= <-]. split; [done|]. cbn [b_id]. rewrite (Hrows' _ _ (lookup_insert_eq _ _ _)). done.
  - intros [= <-] b [Hb <-]%select_backup_spec. destruct (Hok _ _ Hb) as [Hid _].
    split; [done|]. split; [done|]. rewrite Hid. eapply lookup_weaken; [by apply Hrows|done].
  - intros Hr. apply (Hpage _ _ _ _ _ Hr). unfold of_tenant_status, of_tenant.
    intros b [Hb%bool_decide_eq_true _]%andb_true_iff. done.
  - intros Hr. apply (Hpage _ _ _ _ _ Hr). intros b Hb%bool_decide_eq_true. done.
  - unfold update_backup_row, replace_row in *.
    destruct (select_backup id tenant db) as [c|] eqn:Hs; [|by intros [= <-]].
    apply select_backup_spec in Hs as [Hc Ht]. destruct (Hok _ _ Hc) as [Hid _].
    destruct (status_check _); [|done]. cbn [fst snd with_backups backups] in *.
    intros [= <-] b [= <-]. split; [done|]. split; [done|].
    rewrite (Hrows' _ _ (lookup_insert_eq _ _ _)). cbn. by rewrite Ht.
  - unfold delete_backup_row in *. destruct (select_backup id tenant db) as [c|] eqn:Hs;
      cbn [fst snd]; intros [= <-]; [|done]. intros _.
    apply select_backup_spec in Hs as [Hc <-]. eapply lookup_weaken; [by apply Hrows|done].
Qed.

Context `{!RedisLaws}.

(** A change of the world outside the table that adds nothing to Redis. *)
Lemma owned_frame (o : Owners) (w w' : World) :
  owned o w -> backups (w_pg w') = backups (w_pg w) ->
  (pg_execs (w_pg w) <= pg_execs (w_pg w'))%nat ->
  redis_shrinks (w_redis w) (w_redis w') -> owned o w'.
Proof using Type.
  intros [Hok Hrows Hcache Hfresh] Hb He Hs. split.
  - unfold table_ok. by rewrite Hb.
  - rewrite Hb. exact Hrows.
  - intros k v Hv. by apply Hcache, Hs.
  - intros n id Hn. apply Hfresh. lia.
Qed.

Lemma service_sound : sound ownership owned service.
Proof using Type*.
  intros X e o w Hw Hmay.
  assert (Hsame : forall w', w_pg w' = w_pg w -> redis_shrinks (w_redis w) (w_redis w') ->
            owned o w')
    by (intros w' Hpg Hs; eapply owned_frame; [done|by rewrite Hpg|by rewrite Hpg|done]).
  destruct e as [R q|k|k v ttl|k| | |f|t c| |p|R f|u|n|n]; cbn [service].
  - pose proof (exec_owned q o w Hw) as [Ho Hw'].
    exists (owners_after o (backups (exec q (w_pg w)).2)).
    destruct (exec_cases q (w_pg w)) as (_ & _ & _ & _ & Hquiet).
    destruct Hw as [Hok Hrows Hcache Hfresh]. destruct Hw' as [? Hrows' ? ?].
    cbn [w_pg with_pg] in Hrows'.
    destruct (exec q (w_pg w)) as [r db] eqn:E. cbn [fst snd] in *.
    split; [done|]. split; [by split|]. intros x ->. specialize (Hquiet x eq_refl).
    eapply (exec_stmt_learns q o _ (begin_exec (w_pg w)).2); [done|done|done|..];
      rewrite <-Hquiet; [exact Hrows'|done].
  - exists o. pose proof (redis_get_holds k (w_redis w)) as Hh.
    pose proof (redis_get_shrinks k (w_redis w)) as Hs.
    destruct (redis_get k (w_redis w)) as [r s]. cbn [fst snd] in *.
    split; [done|]. split; [by apply Hsame|]. intros v ->. by apply (owned_cache o w), Hh.
  - exists o. pose proof (redis_set_ex_holds k v ttl (w_redis w)) as Hh.
    destruct (redis_set_ex k v ttl (w_redis w)) as [r s]. cbn [fst snd] in *.
    split; [done|]. split; [|done]. destruct Hw as [Hok Hrows Hcache Hfresh]. split; try done.
    intros k' v' [?|[-> ->]]%Hh; [by apply Hcache|exact Hmay].
  - exists o. pose proof (redis_del_shrinks k (w_redis w)) as Hs.
    destruct (redis_del k (w_redis w)) as [r s]. by split; [|split; [apply Hsame|]].
  - exists o. pose proof (redis_ping_shrinks (w_redis w)) as Hs.
    destruct (redis_ping (w_redis w)) as [r s]. by split; [|split; [apply Hsame|]].
  - by exists o.
  - exists o. by split; [|split; [apply Hsame|]].
  - exists o. destruct (check_and_increment _ _ _ _) as [r l].
    by split; [|split; [apply Hsame|]].
  - by exists o.
  - exists o. destruct (amqp_publish p (w_broker w)) as [r b].
    by split; [|split; [apply Hsame|]].
  - exists o. by split; [|split; [apply Hsame|]].
  - exists o. by split; [|split; [apply Hsame|]].
  - by exists o.
  - exists o. by split; [|split; [apply Hsame|]].
Qed.

(** The world with a record of every publication that was sent, confirmed or not. *)
Definition sent (X : Type) (e : SEff X) (_ : X) : list Publication :=
  match e with Publish p => [p] | _ => [] end.

Definition audited : Handler SEff (World * list Publication) := recorded sent service.

Definition owned_log (o : Owners) (s : World * list Publication) : Prop :=
  owned o s.1 /\ Forall (job_owned o) s.2.

Lemma audited_sound : sound ownership owned_log audited.
Proof using Type*.
  intros X e o [w l] [Hw Hl] Hmay. cbn [fst snd] in Hw, Hl.
  destruct (service_sound X e o w Hw Hmay) as (o' & Ho & Hw' & Hlearn).
  exists o'. unfold audited. rewrite recorded_eq. split; [done|]. split; [|done].
  split; [done|]. cbn [fst snd]. apply Forall_app. split.
  - eapply Forall_impl; [exact Hl|]. intros p. by apply job_owned_mono.
  - destruct e; cbn [sent]; try done. apply Forall_singleton. by eapply job_owned_mono.
Qed.

(** ** The handlers *)

Context `{!UuidLaws} `{!SerdeJsonLaws} `{!JobJsonLaws}.

Abbreviation keeps := (obeys ownership).

Lemma keeps_query {R} (q : Stmt R) (o : Owners) (Q : Owners -> result R AppError -> Prop) :
  (forall o' x, o ⊆ o' -> stmt_learns o' q x -> Q o' (Ok x)) ->
  (forall o' e, o ⊆ o' -> Q o' (Err e)) ->
  keeps o (query q) Q.
Proof using Type.
  intros Hok Herr. split; [done|]. intros o' [x|e] Ho Hl; cbn; [|by apply Herr].
  apply Hok; [done|]. by apply Hl.
Qed.

Lemma keeps_skip (o o' : Owners) : o ⊆ o' -> keeps o' (Ret tt) (fun o'' _ => o ⊆ o'').
Proof using Type. done. Qed.

(** Calls whose answers tell nothing. *)
Lemma keeps_perform {X} (e : SEff X) (o : Owners) (Q : Owners -> X -> Prop) :
  eff_may X o e -> (forall o' x, o ⊆ o' -> eff_learns X o' e x -> Q o' x) ->
  keeps o (perform e) Q.
Proof using Type. intros Hm HQ. by apply obeys_perform. Qed.

Lemma keeps_config (o : Owners) (Q : Owners -> AppConfig -> Prop) :
  (forall o' c, o ⊆ o' -> Q o' c) -> keeps o config Q.
Proof using Type. intros HQ. apply keeps_perform; [done|]. auto. Qed.

Lemma row_entry_ok (o : Owners) (b : Backup) (v : string) :
  o !! b_id b = Some (b_tenant_id b) -> backup_to_json b = Ok v ->
  entry_ok o (backup_key (b_id b)) v.
Proof using Type*.
  intros Ho Hv. apply backup_json_roundtrip in Hv. split.
  - intros id c Hk%backup_key_inj Hc. rewrite Hc in Hv. injection Hv as ->. by subst.
  - intros t p Hk. by apply keys_disjoint in Hk.
Qed.

Lemma page_entry_ok (o : Owners) (t : Uuid) (p : list Backup * Z) (v : string) :
  Forall (row_of o t) p.1 -> page_to_json p = Ok v -> entry_ok o (tenant_key t) v.
Proof using Type*.
  intros Ho Hv. apply page_json_roundtrip in Hv. split.
  - intros id c Hk. by apply eq_sym, keys_disjoint in Hk.
  - intros t' p' Hk%tenant_key_inj Hp. rewrite Hp in Hv. injection Hv as ->. by subst.
Qed.

Lemma keeps_get_backup (c : CacheLayer) (id : Uuid) (o : Owners) :
  keeps o (Cache.get_backup c id) (fun o' r => o ⊆ o' /\
    forall b, r = Some b -> b_id b = id /\ o' !! id = Some (b_tenant_id b)).
Proof using Type.
  unfold Cache.get_backup. destruct (cl_redis c); [|done].
  split; [done|]. intros o' r Ho Hl. cbn. split; [done|]. intros b Hb.
  destruct r as [v|e]; [|done]. cbn in Hb.
  destruct (backup_from_json v) as [b'|e] eqn:Ej; [|done]. injection Hb as ->.
  by apply (proj1 (Hl v eq_refl)).
Qed.

Lemma keeps_get_page (c : CacheLayer) (t : Uuid) (o : Owners) :
  keeps o (get_tenant_backups c t) (fun o' r => o ⊆ o' /\
    forall p, r = Some p -> Forall (row_of o' t) p.1).
Proof using Type.
  unfold get_tenant_backups. destruct (cl_redis c); [|done].
  split; [done|]. intros o' r Ho Hl. cbn. split; [done|]. intros p Hp.
  destruct r as [v|e]; [|done]. cbn in Hp.
  destruct (page_from_json v) as [p'|e] eqn:Ej; [|done]. injection Hp as ->.
  by apply (proj2 (Hl v eq_refl)).
Qed.

Lemma keeps_ttl (c : CacheLayer) (o : Owners) (Q : Owners -> Z -> Prop) :
  (forall o' z, o ⊆ o' -> Q o' z) -> keeps o (ttl_secs c) Q.
Proof using Type.
  intros HQ. unfold ttl_secs. destruct (cl_config c); [|by apply HQ].
  split; [done|]. intros o' cfg Ho _. by apply HQ.
Qed.

Lemma keeps_set_backup (c : CacheLayer) (b : Backup) (o : Owners) :
  o !! b_id b = Some (b_tenant_id b) -> keeps o (set_backup c b) (fun o' _ => o ⊆ o').
Proof using Type*.
  intros Hb. unfold set_backup. destruct (cl_redis c); [|by apply keeps_skip]. apply obeys_bind, keeps_ttl.
  intros o1 ttl Ho. destruct (backup_to_json b) as [v|e] eqn:Ej; [|by apply keeps_skip]. apply obeys_bind.
  apply keeps_perform; [|intros; apply keeps_skip; by etrans]. apply row_entry_ok; [|done].
  by eapply lookup_weaken.
Qed.

Lemma keeps_set_page (c : CacheLayer) (t : Uuid) (l : list Backup) (n : Z) (o : Owners) :
  Forall (row_of o t) l -> keeps o (set_tenant_backups c t l n) (fun o' _ => o ⊆ o').
Proof using Type*.
  intros Hl. unfold set_tenant_backups. destruct (cl_redis c); [|by apply keeps_skip].
  apply obeys_bind, keeps_ttl. intros o1 ttl Ho.
  destruct (page_to_json (l, n)) as [v|e] eqn:Ej; [|by apply keeps_skip]. apply obeys_bind.
  apply keeps_perform; [|intros; apply keeps_skip; by etrans]. eapply page_entry_ok; [|exact Ej].
  by eapply rows_of_mono.
Qed.

Lemma keeps_invalidate (c : CacheLayer) (id : Uuid) (o : Owners) :
  keeps o (invalidate_backup c id) (fun o' _ => o ⊆ o').
Proof using Type.
  unfold invalidate_backup. destruct (cl_redis c); [|by apply keeps_skip]. apply obeys_bind.
  apply keeps_perform; [done|]. intros. by apply keeps_skip.
Qed.

Lemma keeps_invalidate_page (c : CacheLayer) (t : Uuid) (o : Owners) :
  keeps o (invalidate_tenant_backups c t) (fun o' _ => o ⊆ o').
Proof using Type.
  unfold invalidate_tenant_backups. destruct (cl_redis c); [|by apply keeps_skip]. apply obeys_bind.
  apply keeps_perform; [done|]. intros. by apply keeps_skip.
Qed.

(** What a response may show to [tenant]. *)
Definition resp_of (o : Owners) (tenant : Uuid) (r : BackupResponse) : Prop :=
  r_tenant_id r = tenant /\ o !! r_id r = Some tenant.

Definition answer_of (o : Owners) (tenant : Uuid) (op : BackupOp) (r : Response) : Prop :=
  match body r with
  | JsonBackup b => resp_of o tenant b /\ forall id, op_target op = Some id -> r_id b = id
  | JsonBackups l => Forall (resp_of o tenant) (items l)
  | _ => True
  end
  /\ (status r < 300 -> forall id, op_target op = Some id -> o !! id = Some tenant).

Definition promise (t : Task) (o : Owners) (a : Answer) : Prop :=
  match t, a with
  | HttpTask claims op, HttpAnswer r => answer_of o (c_tenant_id claims) op r
  | _, _ => True
  end.

Lemma error_answer (o : Owners) (t : Uuid) (op : BackupOp) (e : AppError) :
  answer_of o t op (into_response e).
Proof using Type. by destruct e; split; cbn. Qed.

Lemma response_resp_of (o : Owners) (t : Uuid) (b : Backup) :
  row_of o t b -> resp_of o t (response_of b).
Proof using Type. done. Qed.

Lemma keeps_respond {A} (f : A -> Response) (p : Prog SEff (result A AppError)) (o : Owners)
    (t : Uuid) (op : BackupOp) :
  keeps o p (fun o' r => forall a, r = Ok a -> answer_of o' t op (f a)) ->
  keeps o (respond f p) (fun o' r => answer_of o' t op r).
Proof using Type.
  intros Hp. apply obeys_bind. eapply obeys_mono; [|exact Hp]. intros o' [a|e] _ Ha; cbn.
  - by apply Ha.
  - apply error_answer.
Qed.

(** A row of the caller's under the asked identifier. *)
Lemma answer_row (o : Owners) (t : Uuid) (op : BackupOp) (b : Backup) (st : StatusCode)
    (r : BackupResponse) :
  row_of o t b -> (forall id, op_target op = Some id -> b_id b = id) ->
  r_id r = b_id b -> r_tenant_id r = b_tenant_id b ->
  answer_of o t op (json_response st (JsonBackup r)).
Proof using Type.
  intros [Ht Ho] Hid Hr Hrt. split.
  - split; [split; congruence|]. intros id Hop. rewrite Hr. by apply Hid.
  - intros _ id Hop. by rewrite <-(Hid id Hop).
Qed.

Lemma keeps_fetch (claims : Claims) (id : Uuid) (o : Owners)
    (Q : Owners -> result Backup AppError -> Prop) :
  (forall o' b, o ⊆ o' -> b_id b = id -> row_of o' (c_tenant_id claims) b -> Q o' (Ok b)) ->
  (forall o' e, o ⊆ o' -> Q o' (Err e)) ->
  keeps o (fetch_backup claims id) Q.
Proof using Type.
  intros Hok Herr. apply obeys_try. apply keeps_query; [|done].
  intros o' [b|] Ho Hl; cbn; [|by apply Herr].
  destruct (Hl b eq_refl) as [? ?]. by apply Hok.
Qed.

Lemma keeps_create (claims : Claims) (req : CreateBackupRequest) (o : Owners) :
  keeps o (serve_op state claims (CreateOp req))
    (fun o' r => answer_of o' (c_tenant_id claims) (CreateOp req) r).
Proof using Type*.
  apply keeps_respond. unfold create_backup.
  destruct (validate_source_path _) as [[]|e]; cbn [try_pure]; [|done].
  apply obeys_try. apply keeps_query; [|done]. intros o1 b Ho1 Hb. cbn in Hb.
  apply obeys_bind. eapply obeys_mono; [|apply keeps_invalidate_page].
  intros o2 [] _ Ho2 a [= <-]. cbn. eapply answer_row; [|done|done|done].
  by eapply row_of_mono.
Qed.

Lemma keeps_get (claims : Claims) (id : Uuid) (o : Owners) :
  keeps o (serve_op state claims (GetOp id))
    (fun o' r => answer_of o' (c_tenant_id claims) (GetOp id) r).
Proof using Type*.
  apply keeps_respond. unfold get_backup. apply obeys_bind.
  eapply obeys_mono; [|apply keeps_get_backup]. intros o1 cached _ [Ho1 Hc].
  assert (Hdb : keeps o1
    (try_bind (fetch_backup claims id) (fun backup =>
       bind (set_backup (cache state) backup) (fun _ => Ret (Ok (response_of backup)))))
    (fun o' r => forall a, r = Ok a ->
       answer_of o' (c_tenant_id claims) (GetOp id) (json_response OK (JsonBackup a)))).
  { apply obeys_try. apply keeps_fetch; [|done]. intros o2 b Ho2 Hid Hb.
    apply obeys_bind. pose proof Hb as [Ht Hown].
    eapply obeys_mono; [|apply keeps_set_backup; by rewrite Ht].
    intros o3 [] _ Ho3 a [= <-]. eapply answer_row; [by eapply row_of_mono|..|done|done].
    by intros i [= <-]. }
  destruct cached as [b|]; cbn [mbind option_bind]; [|exact Hdb].
  case_bool_decide as Ht; [|exact Hdb].
  intros a [= <-]. destruct (Hc b eq_refl) as [Hid Hown].
  apply (answer_row _ _ _ b); [|by intros i [= <-]|done|done].
  split; [done|]. by rewrite Hid, <-Ht.
Qed.

Lemma keeps_update (claims : Claims) (id : Uuid) (req : UpdateBackupRequest) (o : Owners) :
  keeps o (serve_op state claims (UpdateOp id req))
    (fun o' r => answer_of o' (c_tenant_id claims) (UpdateOp id req) r).
Proof using Type*.
  apply keeps_respond. unfold update_backup. apply obeys_try.
  apply keeps_query; [|done]. intros o1 [b|] Ho1 Hl; cbn [ok_or try_pure]; [|done].
  destruct (Hl b eq_refl) as [Hid Hb]. apply obeys_bind.
  eapply obeys_mono; [|apply keeps_invalidate]. intros o2 [] _ Ho2. apply obeys_bind.
  eapply obeys_mono; [|apply keeps_invalidate_page]. intros o3 [] _ Ho3 a [= <-].
  eapply answer_row; [|by intros i [= <-]|done|done].
  eapply row_of_mono; [exact Ho3|]. by eapply row_of_mono.
Qed.

Lemma keeps_delete (claims : Claims) (id : Uuid) (o : Owners) :
  keeps o (serve_op state claims (DeleteOp id))
    (fun o' r => answer_of o' (c_tenant_id claims) (DeleteOp id) r).
Proof using Type*.
  apply keeps_respond. unfold delete_backup. apply obeys_try.
  apply keeps_query; [|done]. intros o1 n Ho1 Hl. cbn in Hl.
  destruct (Z.eqb_spec n 0) as [|Hn]; [done|]. specialize (Hl Hn). apply obeys_bind.
  eapply obeys_mono; [|apply keeps_invalidate]. intros o2 [] _ Ho2. apply obeys_bind.
  eapply obeys_mono; [|apply keeps_invalidate_page]. intros o3 [] _ Ho3 a [= <-].
  split; [done|]. intros _ i [= <-]. eapply lookup_weaken; [exact Hl|by etrans].
Qed.

Lemma keeps_analyze (claims : Claims) (id : Uuid) (o : Owners) :
  keeps o (serve_op state claims (AnalyzeOp id))
    (fun o' r => answer_of o' (c_tenant_id claims) (AnalyzeOp id) r).
Proof using Type*.
  apply keeps_respond. unfold analyze_backup. apply obeys_try.
  apply keeps_fetch; [|done]. intros o1 b Ho1 Hid Hb. apply obeys_bind.
  apply keeps_perform; [done|]. intros o2 [e|e] Ho2 _; cbn [map_err try_pure]; [|done].
  intros a [= <-]. eapply answer_row; [by eapply row_of_mono|by intros i [= <-]|done|done].
Qed.

Lemma keeps_enqueue (claims : Claims) (id : Uuid) (o : Owners) :
  keeps o (serve_op state claims (EnqueueOp id))
    (fun o' r => answer_of o' (c_tenant_id claims) (EnqueueOp id) r).
Proof using Type*.
  apply keeps_respond. unfold enqueue_backup. apply obeys_try.
  apply keeps_fetch; [|done]. intros o1 b Ho1 Hid [Ht Hb].
  destruct (amqp_channel state); cbn [ok_or try_pure]; [|done]. apply obeys_bind.
  unfold publish_job. apply obeys_try. apply keeps_perform.
  { intros job. cbn [job_publication p_payload]. rewrite job_json_roundtrip.
    intros [= <-]. cbn. by rewrite Ht, Hb. }
  intros o2 [[]|e] Ho2 _; cbn; [|done]. intros a [= <-]. split; [done|].
  intros _ i [= <-]. rewrite <-Hid. by eapply lookup_weaken.
Qed.

Lemma keeps_list_from_db (t : Uuid) (st : option string) (limit offset : Z) (o : Owners)
    (Q : Owners -> result (list Backup * Z) AppError -> Prop) :
  (forall o' p, o ⊆ o' -> Forall (row_of o' t) p.1 -> Q o' (Ok p)) ->
  (forall o' e, o ⊆ o' -> Q o' (Err e)) ->
  keeps o (list_from_db t st limit offset) Q.
Proof using Type.
  intros Hok Herr. unfold list_from_db.
  destruct st; apply obeys_try; apply keeps_query; try done; intros o1 rows Ho1 Hrows;
    apply obeys_try; apply keeps_query; try (intros o2 e Ho2; apply Herr; by etrans);
    intros o2 n Ho2 _; apply Hok; (by etrans) || by eapply rows_of_mono.
Qed.

Lemma list_answer (o : Owners) (t : Uuid) (params : ListParams) (p : list Backup * Z)
    (limit offset : Z) :
  Forall (row_of o t) p.1 ->
  answer_of o t (ListOp params) (json_response OK (JsonBackups (list_response p limit offset))).
Proof using Type.
  intros Hp. split; [|done]. cbn. apply Forall_map. eapply Forall_impl; [exact Hp|]. done.
Qed.

Lemma keeps_list (claims : Claims) (params : ListParams) (o : Owners) :
  keeps o (serve_op state claims (ListOp params))
    (fun o' r => answer_of o' (c_tenant_id claims) (ListOp params) r).
Proof using Type*.
  apply keeps_respond. unfold list_backups. apply obeys_bind, keeps_config.
  intros o1 cfg Ho1. set (use := _ && _). clearbody use.
  set (Q := fun (o' : Owners) (r : result (ListResponse BackupResponse) AppError) =>
    forall a, r = Ok a ->
    answer_of o' (c_tenant_id claims) (ListOp params) (json_response OK (JsonBackups a))).
  apply obeys_bind.
  assert (Hdb : forall o2, keeps o2
    (try_bind (list_from_db (c_tenant_id claims) (lp_status params)
                 (clamp (lp_limit params) 1 100) (Z.max (lp_offset params) 0))
       (fun p => bind (if use then set_tenant_backups (cache state) (c_tenant_id claims) p.1 p.2
                       else Ret tt)
                   (fun _ => Ret (Ok (list_response p (clamp (lp_limit params) 1 100)
                                        (Z.max (lp_offset params) 0)))))) Q).
  { intros o2. apply obeys_try. apply keeps_list_from_db; [|done]. intros o3 p Ho3 Hp.
    apply obeys_bind. destruct use.
    - eapply obeys_mono; [|by apply keeps_set_page]. intros o4 [] _ Ho4 a [= <-].
      apply list_answer. by eapply rows_of_mono.
    - intros a [= <-]. by apply list_answer. }
  destruct use; [|apply Hdb].
  eapply obeys_mono; [|apply keeps_get_page]. intros o2 cached _ [Ho2 Hc].
  destruct cached as [p|]; [|apply Hdb]. intros a [= <-]. apply list_answer. by apply Hc.
Qed.

Lemma keeps_grpc_query {R} (q : Stmt R) (o : Owners) :
  keeps o (grpc_query q) (fun _ _ => True).
Proof using Type. done. Qed.

Lemma keeps_any_try {A B E} (p : Prog SEff (result A E)) (f : A -> Prog SEff (result B E))
    (o : Owners) :
  keeps o p (fun _ _ => True) -> (forall o' a, keeps o' (f a) (fun _ _ => True)) ->
  keeps o (try_bind p f) (fun _ _ => True).
Proof using Type.
  intros Hp Hf. apply obeys_try. eapply obeys_mono; [|exact Hp]. intros o' [a|e] _ _; [|done].
  apply Hf.
Qed.

Lemma keeps_update_status (m : StatusUpdate) (o : Owners) :
  keeps o (update_status m) (fun _ _ => True).
Proof using Type.
  unfold update_status. destruct (parse_backup_id _); cbn [try_pure]; [|done].
  apply keeps_any_try; [apply keeps_grpc_query|]. intros o' n. by case_match.
Qed.

Lemma keeps_report_result (m : ProcessingResult) (o : Owners) :
  keeps o (report_result m) (fun _ _ => True).
Proof using Type.
  unfold report_result. destruct (parse_backup_id _); cbn [try_pure]; [|done].
  apply keeps_any_try; [|done].
  destruct (String.eqb _ _); (apply keeps_any_try; [apply keeps_grpc_query|done]).
Qed.

Lemma keeps_updater (u : string) (o : Owners) : keeps o (run_one_update u) (fun _ _ => True).
Proof using Type.
  unfold run_one_update, fetch_config. apply obeys_bind. split; [done|]. intros o1 r Ho1 _.
  destruct r as [resp|e]; cbn; [|done].
  destruct (error_for_status resp); cbn; [|done]. by destruct (update_from_json _).
Qed.

Lemma keeps_op (claims : Claims) (op : BackupOp) (o : Owners) :
  keeps o (serve_op state claims op) (fun o' r => answer_of o' (c_tenant_id claims) op r).
Proof using Type*.
  destruct op; auto using keeps_create, keeps_get, keeps_list, keeps_update, keeps_delete,
    keeps_analyze, keeps_enqueue.
Qed.

(** Every task keeps the contract and its promise. *)
Lemma serve_keeps (t : Task) (o : Owners) : keeps o (serve t) (promise t).
Proof using Type*.
  destruct t as [claims op|m|m|u]; apply obeys_bind.
  - eapply obeys_mono; [|apply keeps_op]. by intros o' r _ Hr.
  - eapply obeys_mono; [|apply keeps_update_status]. done.
  - eapply obeys_mono; [|apply keeps_report_result]. done.
  - eapply obeys_mono; [|apply keeps_updater]. done.
Qed.

Lemma answer_of_mono (o o' : Owners) (t : Uuid) (op : BackupOp) (r : Response) :
  o ⊆ o' -> answer_of o t op r -> answer_of o' t op r.
Proof using Type.
  intros Ho [Hb Hs].
  assert (Hresp : forall b, resp_of o t b -> resp_of o' t b)
    by (intros b [? ?]; split; [done|by eapply lookup_weaken]).
  split.
  - destruct (body r); try done; [|eapply Forall_impl; [exact Hb|auto]].
    destruct Hb. split; auto.
  - intros Hst id Hid. eapply lookup_weaken; [by apply Hs|done].
Qed.

Lemma promise_mono (t : Task) (o o' : Owners) (a : Answer) :
  o ⊆ o' -> promise t o a -> promise t o' a.
Proof using Type. destruct t, a; cbn; try done. apply answer_of_mono. Qed.

(** What may happen to the world besides the tasks: clocks, expiry, configuration, limiter,
    broker, failures to come; but nobody else writes the table or fills the cache. *)
Definition elsewhere (w w' : World) : Prop :=
  backups (w_pg w') = backups (w_pg w) /\ pg_execs (w_pg w') = pg_execs (w_pg w)
  /\ redis_shrinks (w_redis w) (w_redis w').

Lemma elsewhere_owned (o : Owners) (w w' : World) : owned o w -> elsewhere w w' -> owned o w'.
Proof using Type. intros Hw (Hb & He & Hs). eapply owned_frame; [done|done|lia|done]. Qed.

(** The same, without a publication of ours. *)
Definition elsewhere_log (s s' : World * list Publication) : Prop :=
  elsewhere s.1 s'.1 /\ s'.2 = s.2.

Lemma elsewhere_owned_log (o : Owners) (s s' : World * list Publication) :
  owned_log o s -> elsewhere_log s s' -> owned_log o s'.
Proof using Type.
  intros [Hw Hl] [He Hs]. split; [by eapply elsewhere_owned|by rewrite Hs].
Qed.

(** C3. Tenant isolation under concurrency.  Start from any world whose rows and cached
    values belong to their owners, and let any number of backup requests of any tenants, of
    worker reports and of configuration updates run in any interleaving of their awaited
    calls, some of them dropped half way, with any failures of the database, Redis and the
    broker, and with keys expiring meanwhile.  Then there is a record of owners, which only
    extends the first one, under which every finished request has answered with rows of its
    own tenant only, with the row it asked for, and with success only for identifiers that
    its tenant owns; every job that was ever sent to the broker is for a backup of the tenant
    that it names; and the table and the cache agree with the record. *)
Theorem tenant_isolation (o : Owners) (w : World)
    (p : Pool SEff (World * list Publication) Task Answer) :
  owned o w -> rtc (pool_step audited serve elsewhere_log) (MkPool (w, []) []) p ->
  exists o', o ⊆ o' /\ owned o' (shared p).1
    /\ Forall (job_owned o') (shared p).2
    /\ forall i claims op r, threads p !! i = Some (HttpTask claims op, Ret (HttpAnswer r)) ->
         answer_of o' (c_tenant_id claims) op r.
Proof using Type*.
  intros Hw Hp.
  destruct (pool_reachable ownership owned_log audited serve elsewhere_log promise promise_mono
    audited_sound elsewhere_owned_log serve_keeps o (w, []) p) as (o' & Ho & [Hw' Hl] & Hq);
    [by split|done|].
  exists o'. split; [done|]. split; [done|]. split; [done|].
  intros i claims op r Hi. by apply (Hq i _ _ Hi).
Qed.
End system.

(** ** Witness *)

#[local] Existing Instance Reference.uuids.
#[local] Existing Instance Reference.uuids_laws.
#[local] Existing Instance Reference.json.
#[local] Existing Instance Reference.row_json_laws.
#[local] Existing Instance ReferenceJobs.json.
#[local] Existing Instance ReferenceJobs.job_json_laws.
#[local] Existing Instance ReferenceRemote.json.
#[local] Existing Instance sample_libm.
#[local] Existing Instance ReferenceDb.server.
#[local] Existing Instance ReferenceDb.pg_server_laws.
#[local] Existing Instance ReferenceRedis.server.
#[local] Existing Instance ReferenceRedis.redis_server_laws.
#[local] Existing Instance ReferenceBroker.broker.

Definition sample_owners : gmap Uuid Uuid := {[ uuid_of 1 := uuid_of 7 ]}.

Lemma one_row_owned : owned sample_owners (one_row_world "pending").
Proof.
  split.
  - exact (one_row_ok "pending" eq_refl).
  - intros id b Hb.
    change ((<[uuid_of 1 := sample_row 1 7 "pending" 10]> ∅ : gmap Uuid Backup) !! id = Some b) in Hb.
    apply lookup_insert_Some in Hb as [[<- <-]|[_ Hb]]; [apply lookup_singleton_eq|].
    by rewrite lookup_empty in Hb.
  - intros k v Hv. discriminate Hv.
  - intros n id Hn [Hlt ->]%ReferenceDb.draw_spec. apply lookup_singleton_ne.
    intros Heq%ReferenceDb.uuid_of_inj; lia.
Qed.

(** Without Redis, a read is one call. *)
Definition bare_state : AppState := {| cache := noop; amqp_channel := None |}.

Definition sample_read (tenant : N) : Task :=
  HttpTask (MkClaims "user" (uuid_of tenant) [] 0 0) (GetOp (uuid_of 1)).

Lemma sample_read_call (tenant : N) :
  exists k, serve bare_state (sample_read tenant)
            = Vis (Sql (SelectBackup (uuid_of 1) (uuid_of tenant))) k
            /\ forall x, exists r, k x = Ret (HttpAnswer r).
Proof.
  eexists. split; [reflexivity|]. intros [[b|]|e]; by eexists.
Qed.

(** The owner and a stranger read the same backup at the same time. *)
Lemma tenant_isolation_witness :
  exists p r7 r8 o,
    rtc (pool_step audited (serve bare_state) elsewhere_log)
      (MkPool (one_row_world "pending", []) []) p
    /\ threads p = [(sample_read 7, Ret (HttpAnswer r7)); (sample_read 8, Ret (HttpAnswer r8))]
    /\ sample_owners ⊆ o
    /\ answer_of o (uuid_of 7) (GetOp (uuid_of 1)) r7
    /\ answer_of o (uuid_of 8) (GetOp (uuid_of 1)) r8.
Proof.
  destruct (sample_read_call 7) as (k7 & E7 & H7). destruct (sample_read_call 8) as (k8 & E8 & H8).
  set (w := (one_row_world "pending", [] : list Publication)).
  set (q7 := SelectBackup (uuid_of 1) (uuid_of 7)). set (q8 := SelectBackup (uuid_of 1) (uuid_of 8)).
  set (w1 := (audited _ (Sql q8) w).2). set (w2 := (audited _ (Sql q7) w1).2).
  destruct (H8 (audited _ (Sql q8) w).1) as [r8 Hr8].
  destruct (H7 (audited _ (Sql q7) w1).1) as [r7 Hr7].
  set (p := MkPool w2 [(sample_read 7, Ret (HttpAnswer r7)); (sample_read 8, Ret (HttpAnswer r8))]
            : Pool SEff (World * list Publication) Task Answer).
  assert (Hp : rtc (pool_step audited (serve bare_state) elsewhere_log) (MkPool w []) p).
  { eapply rtc_l; [apply (step_accept _ _ _ w [] (sample_read 7))|].
    eapply rtc_l; [apply (step_accept _ _ _ w [_] (sample_read 8))|]. cbn [app].
    rewrite E7, E8.
    eapply rtc_l; [apply (step_call _ _ _ w _ 1 (sample_read 8) _ (Sql q8) k8); reflexivity|].
    cbn [insert list_insert]. rewrite Hr8.
    eapply rtc_l; [apply (step_call _ _ _ w1 _ 0 (sample_read 7) _ (Sql q7) k7); reflexivity|].
    cbn [insert list_insert]. rewrite Hr7. apply rtc_refl. }
  destruct (tenant_isolation bare_state ReferenceDb.draws_differ sample_owners
    (one_row_world "pending") p one_row_owned Hp) as (o & Ho & _ & _ & Hans).
  exists p, r7, r8, o. split; [exact Hp|]. split; [reflexivity|]. split; [exact Ho|].
  split; [exact (Hans 0%nat _ _ _ eq_refl)|exact (Hans 1%nat _ _ _ eq_refl)].
Defined.
