(* ===== verification/Linear.v ===== *)
(** Concurrency without Redis: when the service runs without a cache, its concurrent requests
    are linearizable.  The specification is a table that serves each request in one atomic
    step between its arrival and its answer (a listing in two: the page and the total are two
    statements); the theorem is a forward simulation of the interleaved handlers by it. *)

From S2P Require Import Prelude Codec Prog Models Errors SocketAddr Config Merge RateLimit.
From S2P Require Import Entropy Db State Cache Jobs Backups BackupsSpec BackupsProps CacheSpec.
From S2P Require Import Endpoints Coherence Grpc Apollo System.
Local Open Scope prog_scope.

(** ** The specification *)

(** One atomic access to the table. *)
Record Access : Type := MkAccess { ac_now : DateTime; ac_before : Table; ac_after : Table }.

Section spec.
Context `{UuidCrate} `{Libm}.

(** What the worker's two reports may answer and do. *)
Definition status_allowed (m : StatusUpdate) (ac : Access) (r : result Ack Status) : Prop :=
  exists id, uuid_parse (su_backup_id m) = Some id /\
  match ac_before ac !! id with
  | None => (exists t, r = Err (MkStatus NotFoundCode t)) /\ ac_after ac = ac_before ac
  | Some b =>
      if status_check (su_status m)
      then r = Ok (MkAck true "status updated")
           /\ ac_after ac = <[id := set_columns (Some (su_status m)) None (ac_now ac) b]> (ac_before ac)
      else (exists t, r = Err (MkStatus InternalCode t)) /\ ac_after ac = ac_before ac
  end.

Definition result_allowed (m : ProcessingResult) (ac : Access) (r : result Ack Status) : Prop :=
  exists id, uuid_parse (pr_backup_id m) = Some id /\ r = Ok (MkAck true "result recorded") /\
  ac_after ac =
  match ac_before ac !! id with
  | None => ac_before ac
  | Some b =>
      <[id := if String.eqb (pr_status m) "completed"
              then set_columns (Some "completed") (Some (pr_size_bytes m)) (ac_now ac) b
              else set_columns (Some "failed") None (ac_now ac) b]> (ac_before ac)
  end.

(** A listing: the page of one table, the total of a later one. *)
Definition list_allowed (claims : Claims) (params : ListParams) (ac1 ac2 : Access)
    (r : Response) : Prop :=
  let limit := clamp (lp_limit params) 1 100 in
  let offset := Z.max (lp_offset params) 0 in
  let p := BackupsSpec.list_filter (c_tenant_id claims) (lp_status params) in
  ac_after ac1 = ac_before ac1 /\ ac_after ac2 = ac_before ac2
  /\ exists page, is_page p limit offset (at_table (ac_before ac1) (ac_now ac1)) page
     /\ r = json_response OK (JsonBackups (list_response
              (page, count_rows p (at_table (ac_before ac2) (ac_now ac2))) limit offset)).

(** The accesses that a task may have made when it gives an answer. *)
Definition answer_spec (t : Task) (acs : list Access) (a : Answer) : Prop :=
  match t, acs, a with
  | HttpTask claims (ListOp params), [ac1; ac2], HttpAnswer r => list_allowed claims params ac1 ac2 r
  | HttpTask claims (ListOp _), _, _ => False
  | HttpTask claims op, [], HttpAnswer r => forall now m, allowed claims now m op r m
  | HttpTask claims op, [ac], HttpAnswer r =>
      allowed claims (ac_now ac) (ac_before ac) op r (ac_after ac)
  | StatusTask m, [], GrpcAnswer r => exists t, r = Err (MkStatus InvalidArgument t)
  | StatusTask m, [ac], GrpcAnswer r => status_allowed m ac r
  | ResultTask m, [], GrpcAnswer r => exists t, r = Err (MkStatus InvalidArgument t)
  | ResultTask m, [ac], GrpcAnswer r => result_allowed m ac r
  | UpdaterTask _, [], UpdaterAnswer _ => True
  | _, _, _ => False
  end.

(** A table and the requests in flight, each with the accesses it has made. *)
Record TablePool : Type := MkTablePool { tp_table : Table; tp_tasks : list (Task * list Access) }.

(** A request arrives, makes one atomic access that belongs to some answer it may give, or is
    dropped. *)
Inductive table_step : TablePool -> TablePool -> Prop :=
  | table_accept m ts t : table_step (MkTablePool m ts) (MkTablePool m (ts ++ [(t, [])]))
  | table_access m ts i t acs now m' later a :
      ts !! i = Some (t, acs) ->
      answer_spec t (acs ++ MkAccess now m m' :: later) a ->
      table_step (MkTablePool m ts)
        (MkTablePool m' (<[i := (t, acs ++ [MkAccess now m m'])]> ts))
  | table_drop m ts1 x ts2 :
      table_step (MkTablePool m (ts1 ++ x :: ts2)) (MkTablePool m (ts1 ++ ts2)).
End spec.

(** ** Programs that follow the specification *)

Section follows.
Context `{Postgres} `{RedisServer} `{Broker}.

Definition calm (w : World) : Prop := pg_quiet (w_pg w) /\ table_ok (w_pg w).

Definition is_sql {X} (e : SEff X) : bool := match e with Sql _ => true | _ => false end.

(** The access that a call makes. *)
Definition accesses {X} (e : SEff X) (w : World) : list Access :=
  if is_sql e
  then [MkAccess (pg_clock (w_pg w)) (backups (w_pg w)) (backups (w_pg (service X e w).2))]
  else [].

(** Whatever happens between its calls, the program ends with an answer that is right for the
    accesses it has made. *)
Fixpoint follows {A} (Q : list Access -> A -> Prop) (acs : list Access) (p : Prog SEff A) : Prop :=
  match p with
  | Ret a => Q acs a
  | Vis e k => forall w, calm w -> follows Q (acs ++ accesses e w) (k (service _ e w).1)
  end.

Lemma follows_mono {A} (Q R : list Access -> A -> Prop) (acs : list Access) (p : Prog SEff A) :
  (forall acs a, Q acs a -> R acs a) -> follows Q acs p -> follows R acs p.
Proof using Type. intros HQ. revert acs. induction p as [a|X e k IH]; cbn; auto. Qed.

Lemma follows_bind {A B} (Q : list Access -> B -> Prop) (acs : list Access) (p : Prog SEff A)
    (f : A -> Prog SEff B) :
  follows (fun acs a => follows Q acs (f a)) acs p -> follows Q acs (bind p f).
Proof using Type. revert acs. induction p as [a|X e k IH]; cbn; auto. Qed.

(** Without statements. *)
Fixpoint sql_free {A} (p : Prog SEff A) : Prop :=
  match p with Ret _ => True | Vis e k => is_sql e = false /\ forall x, sql_free (k x) end.

Lemma follows_sql_free {A} (Q : list Access -> A -> Prop) (acs : list Access) (p : Prog SEff A) :
  sql_free p -> returns (Q acs) p -> follows Q acs p.
Proof using Type.
  induction p as [a|X e k IH]; cbn; [done|]. intros [He Hk] Hr w _.
  unfold accesses. rewrite He, app_nil_r. by apply IH.
Qed.

Lemma service_calm {X} (e : SEff X) (w : World) : calm w -> calm (service X e w).2.
Proof using Type.
  intros [Hq Hok]. destruct e; cbn [service]; try (by repeat case_match);
    try (by repeat case_match; split).
  pose proof (exec_table_ok q (w_pg w) Hok) as Ht. pose proof (exec_quiet q (w_pg w) Hq) as He.
  pose proof (exec_stmt_quiet q (begin_exec (w_pg w)).2 (begin_exec_quiet _ Hq)) as Hq'.
  rewrite <-He in Hq'. by destruct (exec q (w_pg w)) as [x db].
Qed.

Lemma service_no_sql {X} (e : SEff X) (w : World) :
  is_sql e = false -> backups (w_pg (service X e w).2) = backups (w_pg w).
Proof using Type. destruct e; cbn [service is_sql]; intros He; try done; by repeat case_match. Qed.

(** A program that follows the specification can be completed. *)
Lemma follows_complete {A} (Q : list Access -> A -> Prop) (acs : list Access) (p : Prog SEff A)
    (w : World) :
  calm w -> follows Q acs p -> exists later a, Q (acs ++ later) a.
Proof using Type.
  revert acs w. induction p as [a|X e k IH]; intros acs w Hw Hp; cbn in Hp.
  - exists [], a. by rewrite app_nil_r.
  - destruct (IH _ _ _ (service_calm e w Hw) (Hp w Hw)) as (later & a & Ha).
    exists (accesses e w ++ later), a. by rewrite app_assoc.
Qed.

(** The access of a statement. *)
Definition access_of {R} (q : Stmt R) (w : World) : Access :=
  MkAccess (pg_clock (w_pg w)) (backups (w_pg w))
    (backups (exec_stmt q (begin_exec (w_pg w)).2).2).

Lemma follows_sql {R A} (Q : list Access -> A -> Prop) (acs : list Access) (q : Stmt R)
    (k : result R SqlxError -> Prog SEff A) :
  (forall w, calm w ->
     follows Q (acs ++ [access_of q w]) (k (exec_stmt q (begin_exec (w_pg w)).2).1)) ->
  follows Q acs (Vis (Sql q) k).
Proof using Type.
  intros Hk. cbn [follows]. intros w Hw. specialize (Hk w Hw). unfold accesses, access_of in *.
  cbn [is_sql service]. destruct Hw as [Hq _]. rewrite (exec_quiet q (w_pg w) Hq).
  by destruct (exec_stmt q _) as [x db].
Qed.

Lemma follows_query {R A} (Q : list Access -> result A AppError -> Prop) (acs : list Access)
    (q : Stmt R) (f : R -> Prog SEff (result A AppError)) :
  (forall w, calm w ->
     match (exec_stmt q (begin_exec (w_pg w)).2).1 with
     | Ok x => follows Q (acs ++ [access_of q w]) (f x)
     | Err e => Q (acs ++ [access_of q w]) (Err (Database e))
     end) ->
  follows Q acs (x <-? query q ;; f x).
Proof using Type.
  intros Hf. apply follows_sql. intros w Hw. specialize (Hf w Hw).
  by destruct (exec_stmt q _).1 as [x|e].
Qed.
End follows.

(** ** The handlers without a cache *)

Section handlers.
Context `{UuidCrate} `{SerdeJson} `{JobJson} `{Libm} `{RemoteJson}.
Context `{Postgres} `{RedisServer} `{Broker} `{!PostgresLaws}.
Context (state : AppState) (no_redis : cl_redis (cache state) = None).

(** The response of a handler is right for the accesses. *)
Definition right {A} (claims : Claims) (op : BackupOp) (f : A -> Response) (acs : list Access)
    (r : result A AppError) : Prop :=
  answer_spec (HttpTask claims op) acs
    (HttpAnswer (match r with Ok a => f a | Err e => into_response e end)).

Lemma follows_respond {A} (claims : Claims) (op : BackupOp) (f : A -> Response)
    (p : Prog SEff (result A AppError)) :
  follows (right claims op f) [] p ->
  follows (answer_spec (HttpTask claims op)) [] (r <- respond f p ;; Ret (HttpAnswer r)).
Proof using Type. intros Hp. by apply follows_bind, follows_bind. Qed.

Lemma right_one {A} (claims : Claims) (op : BackupOp) (f : A -> Response) (ac : Access) r :
  (forall params, op <> ListOp params) ->
  allowed claims (ac_now ac) (ac_before ac) op
    (match r with Ok a => f a | Err e => into_response e end) (ac_after ac) ->
  right claims op f ([] ++ [ac]) r.
Proof using Type. unfold right. destruct op; try done. intros Hop. by edestruct Hop. Qed.

(** The fetch of the row, then calls that reach no table. *)
Lemma follows_fetch {A} (claims : Claims) (op : BackupOp) (id : Uuid) (f : A -> Response)
    (g : Backup -> Prog SEff (result A AppError)) :
  op_target op = Some id ->
  (forall b w, calm w -> Coherence.owned claims (backups (w_pg w)) id = Some b ->
     follows (right claims op f)
       ([] ++ [MkAccess (pg_clock (w_pg w)) (backups (w_pg w)) (backups (w_pg w))]) (g b)) ->
  follows (right claims op f) [] (b <-? fetch_backup claims id ;; g b).
Proof using Type.
  intros Hop Hg. apply follows_bind. apply follows_query. intros w Hw. cbn [exec_stmt fst].
  change (select_backup id (c_tenant_id claims) (begin_exec (w_pg w)).2)
    with (Coherence.owned claims (backups (w_pg w)) id).
  unfold access_of. cbn [exec_stmt snd begin_exec backups].
  destruct (Coherence.owned claims (backups (w_pg w)) id) as [b|] eqn:Hb; cbn [ok_or follows].
  - by apply (Hg b w).
  - apply right_one; [by destruct op|]. by apply (allow_missing claims _ _ op id).
Qed.

Lemma get_follows (claims : Claims) (id : Uuid) :
  follows (answer_spec (HttpTask claims (GetOp id))) [] (serve state (HttpTask claims (GetOp id))).
Proof using Type*.
  apply follows_respond. unfold get_backup, Cache.get_backup. rewrite no_redis.
  apply (follows_fetch claims (GetOp id)); [done|]. intros b w Hw Hb.
  unfold set_backup. rewrite no_redis. apply right_one; [done|]. by apply allow_get.
Qed.
Lemma create_follows (claims : Claims) (req : CreateBackupRequest) :
  follows (answer_spec (HttpTask claims (CreateOp req))) []
    (serve state (HttpTask claims (CreateOp req))).
Proof using Type*.
  apply follows_respond. unfold create_backup.
  destruct (validate_source_path (req_source_path req)) as [[]|e] eqn:Hv; cbn [try_pure].
  2: { intros now m. by apply allow_invalid. }
  assert (Hvok : is_ok (validate_source_path (req_source_path req)) = true) by (by rewrite Hv).
  apply follows_query. intros w Hw. unfold access_of. cbn [exec_stmt]. unfold insert_backup.
  cbn [begin_exec snd backups pg_execs].
  destruct (gen_random_uuid (S (pg_execs (w_pg w)))) as [id|].
  2: { apply right_one; [done|]. apply allow_no_identifier; [done|by left]. }
  destruct (backups (w_pg w) !! id) as [b|] eqn:Hid; cbn [fst snd].
  { apply right_one; [done|]. apply allow_no_identifier; [done|]. right. split; [done|].
    intros He. cbn in He. by rewrite He in Hid. }
  unfold invalidate_tenant_backups. rewrite no_redis. apply right_one; [done|].
  by apply (allow_create _ _ _ _ (MkBackup _ _ _ _ _ _ _ _)).
Qed.

Lemma update_follows (claims : Claims) (id : Uuid) (req : UpdateBackupRequest) :
  follows (answer_spec (HttpTask claims (UpdateOp id req))) []
    (serve state (HttpTask claims (UpdateOp id req))).
Proof using Type*.
  apply follows_respond. unfold update_backup, invalidate_backup, invalidate_tenant_backups.
  rewrite no_redis. apply follows_query. intros w [_ Hok]. unfold access_of. cbn [exec_stmt].
  unfold update_backup_row.
  change (select_backup id (c_tenant_id claims) (begin_exec (w_pg w)).2)
    with (Coherence.owned claims (backups (w_pg w)) id).
  destruct (Coherence.owned claims (backups (w_pg w)) id) as [b|] eqn:Hb.
  2: { apply right_one; [done|]. by apply (allow_missing claims _ _ _ id). }
  pose proof Hb as [Hrow _]%select_backup_spec. destruct (Hok id b Hrow) as [Hid Hst].
  unfold replace_row. cbn [b_status set_columns b_id]. rewrite Hid.
  assert (Hc : status_check (unwrap_or (option_map status_to_string (req_status req))
                 (b_status b)) = true)
    by (destruct (req_status req) as [s|]; [apply status_check_to_string|done]).
  rewrite Hc. apply right_one; [done|]. by apply allow_update.
Qed.

Lemma delete_follows (claims : Claims) (id : Uuid) :
  follows (answer_spec (HttpTask claims (DeleteOp id))) []
    (serve state (HttpTask claims (DeleteOp id))).
Proof using Type*.
  apply follows_respond. unfold delete_backup, invalidate_backup, invalidate_tenant_backups.
  rewrite no_redis. apply follows_query. intros w Hw. unfold access_of. cbn [exec_stmt].
  unfold delete_backup_row.
  change (select_backup id (c_tenant_id claims) (begin_exec (w_pg w)).2)
    with (Coherence.owned claims (backups (w_pg w)) id).
  destruct (Coherence.owned claims (backups (w_pg w)) id) as [b|] eqn:Hb.
  - apply right_one; [done|]. by eapply allow_delete.
  - apply right_one; [done|]. by apply (allow_missing claims _ _ _ id).
Qed.

Lemma analyze_follows (claims : Claims) (id : Uuid) :
  follows (answer_spec (HttpTask claims (AnalyzeOp id))) []
    (serve state (HttpTask claims (AnalyzeOp id))).
Proof using Type*.
  apply follows_respond. unfold analyze_backup.
  apply (follows_fetch claims (AnalyzeOp id)); [done|]. intros b w Hw Hb. cbn. intros w' _.
  destruct (w_joins w') as [|[e|] ?]; cbn;
    [by apply allow_analyze|apply (allow_internal _ _ _ _ id b (MkAnyhowError "")); [by left|done]|by apply allow_analyze].
Qed.

Lemma enqueue_follows (claims : Claims) (id : Uuid) :
  follows (answer_spec (HttpTask claims (EnqueueOp id))) []
    (serve state (HttpTask claims (EnqueueOp id))).
Proof using Type*.
  apply follows_respond. unfold enqueue_backup.
  apply (follows_fetch claims (EnqueueOp id)); [done|]. intros b w Hw Hb.
  destruct (amqp_channel state) as [ch|]; cbn.
  - intros w' _. destruct (amqp_publish _ _) as [[[]|e] q]; cbn; [by eapply allow_enqueue|].
    apply (allow_internal _ _ _ _ id b (MkAnyhowError "")); [by right|done].
  - apply (allow_internal _ _ _ _ id b (MkAnyhowError "")); [by right|done].
Qed.
(** The two statements of a listing. *)
Lemma follows_list_from_db {A} (Q : list Access -> result A AppError -> Prop) (tenant : Uuid)
    (st : option string) (limit offset : Z)
    (f : list Backup * Z -> Prog SEff (result A AppError)) :
  0 <= limit -> 0 <= offset ->
  let p := BackupsSpec.list_filter tenant st in
  (forall w1 w2 page,
     is_page p limit offset (at_table (backups (w_pg w1)) (pg_clock (w_pg w1))) page ->
     follows Q [MkAccess (pg_clock (w_pg w1)) (backups (w_pg w1)) (backups (w_pg w1));
                MkAccess (pg_clock (w_pg w2)) (backups (w_pg w2)) (backups (w_pg w2))]
       (f (page, count_rows p (w_pg w2)))) ->
  follows Q [] (q <-? list_from_db tenant st limit offset ;; f q).
Proof using Type*.
  intros Hl Ho p Hf. apply follows_bind. unfold list_from_db, p, BackupsSpec.list_filter in *.
  destruct st as [s|]; apply follows_query; intros w1 _; unfold access_of; cbn [exec_stmt fst snd];
    unfold select_page; rewrite (proj2 (Z.ltb_ge _ _) Hl), (proj2 (Z.ltb_ge _ _) Ho); cbn [orb];
    apply follows_query; intros w2 _; unfold access_of; cbn [exec_stmt fst snd];
    apply (Hf w1 w2);
    exact (page_of_is_page (S (pg_execs (w_pg w1))) _ _ _
             (at_table (backups (w_pg w1)) (pg_clock (w_pg w1)))).
Qed.

Lemma list_follows (claims : Claims) (params : ListParams) :
  follows (answer_spec (HttpTask claims (ListOp params))) []
    (serve state (HttpTask claims (ListOp params))).
Proof using Type*.
  apply follows_respond. unfold list_backups. cbn [config bind perform follows]. intros w0 _.
  cbn [accesses is_sql app service fst].
  unfold get_tenant_backups, set_tenant_backups. rewrite no_redis.
  destruct (_ && _); cbn [bind];
    (apply follows_list_from_db;
      [pose proof (clamp_bounds (lp_limit params) 1 100 ltac:(lia)); lia|lia|];
     intros w1 w2 page Hp; split; [done|]; split; [done|]; by exists page).
Qed.
(** One statement by identifier of the gRPC endpoint. *)
Lemma follows_by_id {A} (Q : list Access -> result A Status -> Prop) (q : Stmt Z) (id : Uuid)
    (st : string) (size : option Z) (f : Z -> Prog SEff (result A Status)) :
  (forall db, exec_stmt q db = update_by_id id st size db) ->
  (forall now m,
     match m !! id with
     | None => follows Q [MkAccess now m m] (f 0)
     | Some b =>
         if status_check st
         then follows Q [MkAccess now m (<[id := set_columns (Some st) size now b]> m)] (f 1)
         else forall t, Q [MkAccess now m m] (Err (MkStatus InternalCode t))
     end) ->
  follows Q [] (n <-? grpc_query q ;; f n).
Proof using Type.
  intros Hq Hf. unfold grpc_query. apply follows_sql. intros w [_ Hok]. unfold access_of.
  rewrite Hq. pose proof (update_by_id_spec id st size (begin_exec (w_pg w)).2 Hok) as ->.
  specialize (Hf (pg_clock (w_pg w)) (backups (w_pg w))). cbn [begin_exec snd backups pg_clock].
  destruct (backups (w_pg w) !! id) as [b|]; [destruct (status_check st)|]; try exact Hf.
  apply Hf.
Qed.

Lemma status_follows (msg : StatusUpdate) :
  follows (answer_spec (StatusTask msg)) [] (serve state (StatusTask msg)).
Proof using Type.
  apply follows_bind. unfold update_status, parse_backup_id.
  destruct (uuid_parse (su_backup_id msg)) as [id|] eqn:Hid; cbn [ok_or try_pure]; [|by eexists].
  eapply follows_by_id; [done|]. intros now m. destruct (m !! id) as [b|] eqn:Hb.
  - destruct (status_check (su_status msg)) eqn:Hc; cbn; [|intros t];
      exists id; (split; [done|]); cbn [ac_before]; rewrite Hb, Hc; eauto.
  - cbn. exists id. split; [done|]. cbn [ac_before]. rewrite Hb. eauto.
Qed.

Lemma result_follows (msg : ProcessingResult) :
  follows (answer_spec (ResultTask msg)) [] (serve state (ResultTask msg)).
Proof using Type.
  apply follows_bind. unfold report_result, parse_backup_id.
  destruct (uuid_parse (pr_backup_id msg)) as [id|] eqn:Hid; cbn [ok_or try_pure]; [|by eexists].
  apply follows_bind. destruct (String.eqb (pr_status msg) "completed") eqn:Hs;
    (eapply follows_by_id; [done|]); intros now m; destruct (m !! id) as [b|] eqn:Hb; cbn;
    intros w _; exists id; (split; [done|]); (split; [done|]); cbn [ac_before ac_after];
    by rewrite Hb, ?Hs.
Qed.

Lemma updater_follows (url : string) :
  follows (answer_spec (UpdaterTask url)) [] (serve state (UpdaterTask url)).
Proof using Type.
  apply follows_sql_free; [|eapply returns_bind; [apply returns_any|done]].
  cbn. split; [done|]. intros [resp|e]; cbn; [|done].
  destruct (error_for_status resp); cbn; [|done].
  by destruct (update_from_json (http_body resp)).
Qed.

Lemma serve_follows (t : Task) : follows (answer_spec t) [] (serve state t).
Proof using Type*.
  destruct t as [claims op|m|m|u].
  - destruct op; [apply create_follows|apply get_follows|apply list_follows|apply update_follows
      |apply delete_follows|apply analyze_follows|apply enqueue_follows].
  - apply status_follows.
  - apply result_follows.
  - apply updater_follows.
Qed.
End handlers.

(** ** The simulation *)

Section simulation.
Context `{UuidCrate} `{SerdeJson} `{JobJson} `{Libm} `{RemoteJson}.
Context `{Postgres} `{RedisServer} `{Broker} `{!PostgresLaws}.
Context (state : AppState) (no_redis : cl_redis (cache state) = None).
(** What else happens: anything that neither touches the table nor breaks the database. *)
Context (env : World -> World -> Prop).
Context (env_calm : forall w w', calm w -> env w w' ->
  pg_quiet (w_pg w') /\ backups (w_pg w') = backups (w_pg w)).

Definition thread_sim (x : Task * Prog SEff Answer) (y : Task * list Access) : Prop :=
  x.1 = y.1 /\ follows (answer_spec y.1) y.2 x.2.

Definition simulates (p : Pool SEff World Task Answer) (q : TablePool) : Prop :=
  calm (shared p) /\ tp_table q = backups (w_pg (shared p))
  /\ Forall2 thread_sim (threads p) (tp_tasks q).

Lemma simulation_step (p p' : Pool SEff World Task Answer) (q : TablePool) :
  pool_step service (serve state) env p p' -> simulates p q ->
  exists q', rtc table_step q q' /\ simulates p' q'.
Proof using Type*.
  intros Hstep (Hcalm & Htable & Hsim). destruct q as [m l]. cbn in Htable. subst m.
  destruct Hstep as [w ts t|w ts i t X e k Hi|w ts1 x ts2|w w' ts Henv]; cbn in *.
  - eexists. split; [by apply rtc_once, (table_accept _ _ t)|]. split_and!; [done|done|].
    apply Forall2_app; [done|]. constructor; [|done]. split; [done|]. by apply serve_follows.
  - destruct (Forall2_lookup_l _ _ _ _ _ Hsim Hi) as ([t' acs] & Hi' & Ht & Hf).
    cbn in Ht, Hf. subst t'. specialize (Hf w Hcalm). pose proof (service_calm e w Hcalm) as Hc.
    unfold accesses in Hf. destruct (is_sql e) eqn:He.
    + destruct (follows_complete _ _ _ _ Hc Hf) as (later & a & Ha).
      rewrite <-app_assoc in Ha. eexists. split; [by eapply rtc_once, table_access|].
      split_and!; [done|done|]. by apply Forall2_insert.
    + rewrite app_nil_r in Hf. exists (MkTablePool (backups (w_pg w)) l). split; [done|].
      split_and!; [done|symmetry; by apply service_no_sql|].
      rewrite <-(list_insert_id l i (t, acs)) by done. by apply Forall2_insert.
  - apply Forall2_app_inv_l in Hsim as (l1 & l2 & Hl1 & Hl2 & ->).
    apply Forall2_cons_inv_l in Hl2 as (y & l3 & _ & Hl3 & ->).
    eexists. split; [by apply rtc_once, table_drop|]. split_and!; [done|done|].
    by apply Forall2_app.
  - destruct (env_calm w w' Hcalm Henv) as [Hq Hb]. eexists. split; [done|].
    split; [|by split]. destruct Hcalm as [_ Hok]. split; [done|]. cbn [shared].
    unfold table_ok. by rewrite Hb.
Qed.

(** C2. Without Redis the concurrent service is linearizable: however its requests, the
    worker's reports and the updater interleave at their awaited calls, and whichever are
    dropped half way, the table and every answer are those of a plain table that serves each
    request in one atomic step, taken after the request arrived and before its answer (a
    listing in two: its page and its total are two statements). *)
Theorem service_linearizable (w : World) (p : Pool SEff World Task Answer) :
  calm w -> rtc (pool_step service (serve state) env) (MkPool w []) p ->
  exists q, rtc table_step (MkTablePool (backups (w_pg w)) []) q
    /\ tp_table q = backups (w_pg (shared p))
    /\ (tp_tasks q).*1 = (threads p).*1
    /\ forall i t a acs, threads p !! i = Some (t, Ret a) -> tp_tasks q !! i = Some (t, acs) ->
         answer_spec t acs a.
Proof using Type*.
  intros Hw Hrtc.
  assert (Hsim : exists q, rtc table_step (MkTablePool (backups (w_pg w)) []) q /\ simulates p q).
  { assert (Hstart : simulates (MkPool w []) (MkTablePool (backups (w_pg w)) []))
      by (split_and!; [done|done|constructor]).
    revert Hstart. generalize (MkTablePool (backups (w_pg w)) []) as q0.
    induction Hrtc as [x|x y z Hxy _ IH]; intros q0 Hstart; [by exists q0|].
    destruct (simulation_step x y q0 Hxy Hstart) as (q1 & Hq1 & Hs1).
    destruct (IH q1 Hs1) as (q2 & Hq2 & Hs2). exists q2. split; [by etrans|done]. }
  destruct Hsim as (q & Hq & Hcalm & Htable & Hts). exists q. split_and!; [done|done| |].
  - clear -Hts. induction Hts as [|x y xs ys [Hxy _] _ IH]; [done|]. cbn. by rewrite IH, Hxy.
  - intros i t a acs Hi Hi'. by destruct (Forall2_lookup_lr _ _ _ _ _ _ Hts Hi Hi').
Qed.
End simulation.

(** ** Witness *)

#[local] Existing Instance Reference.uuids.
#[local] Existing Instance Reference.json.
#[local] Existing Instance ReferenceJobs.json.
#[local] Existing Instance ReferenceRemote.json.
#[local] Existing Instance sample_libm.
#[local] Existing Instance ReferenceDb.server.
#[local] Existing Instance ReferenceDb.pg_server_laws.
#[local] Existing Instance ReferenceRedis.server.
#[local] Existing Instance ReferenceBroker.broker.

Definition sample_list : Task := HttpTask (sample_claims 7) (ListOp (MkListParams 0 20 None)).
Definition sample_create : Task :=
  HttpTask (sample_claims 7) (CreateOp (MkCreateBackupRequest "/data" true)).

(** A listing, and a backup created between its two statements. *)
Definition sample_race : Pool SEff World Task Answer :=
  run_schedule service [0; 0; 1; 0]%nat (ref_world [] ReferenceRedis.empty 20)
    (map (fun t => (t, serve bare_state t)) [sample_list; sample_create]).

(** The answer of the listing is right for its two accesses, and mixes two tables: no item
    and a total of one. *)
Lemma service_linearizable_witness :
  exists q l acs,
    rtc table_step (MkTablePool ∅ []) q
    /\ (tp_tasks q).*1 = [sample_list; sample_create]
    /\ answer_spec sample_list acs (HttpAnswer (json_response OK (JsonBackups l)))
    /\ items l = [] /\ total l = 1.
Proof.
  assert (Hrtc : rtc (pool_step service (serve bare_state) eq)
            (MkPool (ref_world [] ReferenceRedis.empty 20) []) sample_race).
  { etrans; [apply (pool_arrivals _ _ _ _ [sample_list; sample_create])|].
    apply run_schedule_steps. }
  destruct (service_linearizable bare_state eq_refl eq) with (3 := Hrtc) as (q & Hq & Ht & Hts & Ha).
  - intros w w' [Hq Hok] <-. done.
  - split; [reflexivity|]. intros id b Hb. discriminate Hb.
  - assert (Hl : threads sample_race !! 0%nat = Some (sample_list, Ret (HttpAnswer
              (json_response OK (JsonBackups (MkListResponse [] 1 0 20)))))) by reflexivity.
    assert (Hi : (tp_tasks q).*1 = [sample_list; sample_create]) by (rewrite Hts; reflexivity).
    destruct (tp_tasks q) as [|[t acs] rest] eqn:E; [done|]. injection Hi as -> Hrest.
    exists q, (MkListResponse [] 1 0 20), acs. rewrite E. split; [exact Hq|].
    split; [exact (f_equal (cons sample_list) Hrest)|]. split; [exact (Ha 0%nat _ _ _ Hl eq_refl)|done].
Defined.
