(* ===== verification/Startup.v ===== *)
(** Startup and shutdown of the two processes: [main] of the service
    ([backup-service/src/main.rs]) and of the worker ([backup-worker/src/main.rs]), the set-up
    of the telemetry ([backup-common/src/telemetry.rs]), and the connections that they open.
    The environment of a process is given by its answers ([Answers]), all of them arbitrary;
    the theorems say when the service comes to serve requests, what it then serves, and what
    the worker's [main] does whatever becomes of its consumer. *)

From S2P Require Import Prelude Codec Prog Models Errors SocketAddr Config Merge RateLimit Db.
From S2P Require Import State Cache Entropy Jobs Grpc Apollo Migrations Worker JobPath.
Local Open Scope prog_scope.

(** ** The calls of a process *)

Record IoError : Type := MkIoError { io_msg : string }.
Record TransportError : Type := MkTransportError { transport_msg : string }.
Record OtelError : Type := MkOtelError { otel_msg : string }.

(** An OTLP exporter, and a tracer provider with its exporter and the attributes of its
    resource. *)
Record SpanExporter : Type := MkSpanExporter { exporter_endpoint : string }.
Record TracerProvider : Type := MkTracerProvider {
  batch_exporter : SpanExporter;
  resource : list (string * string);
}.

(** What [timeout(30s, worker_handle)] can say of the worker's task. *)
Inductive JoinOutcome : Type :=
  | WorkerStopped
  | WorkerFailed (e : AnyhowError)
  | WorkerPanicked
  | WorkerTimedOut.

(** The branch of the [select!] on the two signals that completes first, with the answer of
    its call: the await of Ctrl+C, or setting up the listener of SIGTERM. *)
Inductive SignalBranch : Type :=
  | CtrlC (r : result unit IoError)
  | Terminate (r : result unit IoError).

Inductive MainEff : Type -> Type :=
  | Dotenv : MainEff unit
  | Environ : MainEff Env
  | SelectSignal : MainEff SignalBranch
  | BuildExporter (endpoint : string) : MainEff (result SpanExporter OtelError)
  | InitSubscriber (tracer : option (TracerProvider * string)) : MainEff unit
  | ShutdownProvider (p : TracerProvider) : MainEff (result unit OtelError)
  | StoreConfig (c : AppConfig) : MainEff unit
  | ReadConfig : MainEff AppConfig
  | ConnectPool (url : string) (o : PgPoolOptions) : MainEff (result unit SqlxError)
  | OnPool {X} (e : MigEff X) : MainEff X
  | OpenRedis (url : string) : MainEff (result unit RedisError)
  | ConnectRedis : MainEff (result unit RedisError)
  | OnAmqp {X} (e : AmqpEff X) : MainEff X
  | CloseAmqp : MainEff unit
  | InstallRecorder : MainEff (result unit IoError)
  | BuildHttpClient (timeout : Z) : MainEff (result unit ReqwestError)
  | SpawnUpdater (c : ApolloUpdaterConfig) : MainEff unit
  | SpawnGrpc (addr : SocketAddr) : MainEff unit
  | BindHttp (addr : SocketAddr) : MainEff (result unit IoError)
  | ServeHttp (state : AppState) : MainEff (result unit IoError)
  | SignalGrpc : MainEff unit
  | JoinGrpc : MainEff unit
  | ConnectGrpc (target : string) : MainEff (result unit TransportError)
  | SpawnWorker : MainEff unit
  | SignalWorker : MainEff unit
  | JoinWorker (timeout_secs : Z) : MainEff JoinOutcome.

(** How [main] ends when not with [Ok(())]: by [?], or by the panic of an [expect]. *)
Inductive Exit : Type :=
  | Failed (e : AnyhowError)
  | Panic (msg : string).

(** [?] into [anyhow::Error], and [expect]. *)
Definition failing {A E} (msg : E -> string) (p : Prog MainEff (result A E))
    : Prog MainEff (result A Exit) :=
  r <- p ;; Ret (map_err (fun e => Failed (MkAnyhowError (msg e))) r).
Definition expecting {A E} (msg : string) (p : Prog MainEff (result A E))
    : Prog MainEff (result A Exit) :=
  r <- p ;; Ret (map_err (fun _ => Panic msg) r).

(** ** Telemetry *)

(** [opentelemetry_semantic_conventions::resource] *)
Definition SERVICE_NAME : string := "service.name".
Definition SERVICE_VERSION : string := "service.version".
(** [env!("CARGO_PKG_VERSION")] of [backup-common] *)
Definition CARGO_PKG_VERSION : string := "0.1.0".

Definition setup_otel_provider (service_name endpoint : string)
    : Prog MainEff (result TracerProvider OtelError) :=
  exporter <-? perform (BuildExporter endpoint) ;;
  let resource := [(SERVICE_NAME, service_name); (SERVICE_VERSION, CARGO_PKG_VERSION)] in
  Ret (Ok (MkTracerProvider exporter resource)).

Definition init_telemetry (service_name : string) : Prog MainEff (option TracerProvider) :=
  env <- perform Environ ;;
  match env "OTEL_EXPORTER_OTLP_ENDPOINT" with
  | Some endpoint =>
      r <- setup_otel_provider service_name endpoint ;;
      match r with
      | Ok provider =>
          perform (InitSubscriber (Some (provider, service_name))) ;;; Ret (Some provider)
      | Err _ => perform (InitSubscriber None) ;;; Ret None
      end
  | None => perform (InitSubscriber None) ;;; Ret None
  end.

Definition shutdown_telemetry (provider : option TracerProvider) : Prog MainEff unit :=
  match provider with
  | Some p => perform (ShutdownProvider p) ;;; Ret tt
  | None => Ret tt
  end.

(** ** The service *)

Definition create_pool (database_url : string) : Prog MainEff (result unit SqlxError) :=
  perform (ConnectPool database_url pool_options).

(** [CacheLayer::new] *)
Definition new_cache : Prog MainEff CacheLayer :=
  cfg <- perform ReadConfig ;;
  opened <- perform (OpenRedis (redis_url cfg)) ;;
  match opened with
  | Ok _ => connected <- perform ConnectRedis ;; Ret (Cache.new opened connected)
  | Err e => Ret (Cache.new opened (Err e))
  end.

(** The block that starts the Apollo updater when there is a URL. *)
Definition start_updater : Prog MainEff (result unit Exit) :=
  cfg <- perform ReadConfig ;;
  match (s ← apollo_config_url cfg; if negb (String.eqb s "") then Some s else None) with
  | None => Ret (Ok tt)
  | Some apollo_url =>
      _ <-? expecting "reqwest client" (perform (BuildHttpClient (apollo_timeout_secs cfg))) ;;
      perform (SpawnUpdater {| url := apollo_url;
                               interval := apollo_poll_interval_secs cfg;
                               timeout := apollo_timeout_secs cfg |}) ;;;
      Ret (Ok tt)
  end.

(** [drop(amqp_conn)]: the connection is there when its channel is. *)
Definition drop_connection (state : AppState) : Prog MainEff unit :=
  match amqp_channel state with Some _ => perform CloseAmqp | None => Ret tt end.

(** [main] from the Apollo block to its end. *)
Definition listen_and_serve (otel_provider : option TracerProvider) (state : AppState)
    : Prog MainEff (result unit Exit) :=
  _ <-? start_updater ;;
  cfg <- perform ReadConfig ;;
  perform (SpawnGrpc (grpc_addr cfg)) ;;;
  cfg <- perform ReadConfig ;;
  _ <-? failing io_msg (perform (BindHttp (listen_addr cfg))) ;;
  _ <-? failing io_msg (perform (ServeHttp state)) ;;
  perform SignalGrpc ;;;
  perform JoinGrpc ;;;
  drop_connection state ;;;
  shutdown_telemetry otel_provider ;;;
  Ret (Ok tt).

Definition service_main : Prog MainEff (result unit Exit) :=
  perform Dotenv ;;;
  otel_provider <- init_telemetry "backup-service" ;;
  env <- perform Environ ;;
  config <-! map_err (fun e => Failed (MkAnyhowError (addr_text e))) (from_env env) ;;
  perform (StoreConfig config) ;;;
  cfg <- perform ReadConfig ;;
  _ <-? failing sqlx_msg (create_pool (database_url cfg)) ;;
  _ <-? failing sqlx_msg (lift (@OnPool) run_migrations) ;;
  cache <- new_cache ;;
  cfg <- perform ReadConfig ;;
  connected <- lift (@OnAmqp) (connect_rabbitmq (Config.amqp_url cfg)) ;;
  _ <-? expecting "failed to install Prometheus recorder" (perform InstallRecorder) ;;
  listen_and_serve otel_provider {| State.cache := cache; amqp_channel := ok connected |}.

(** ** The worker *)

(** Both branches [expect] their call to succeed. *)
Definition shutdown_signal : Prog MainEff (result unit Exit) :=
  first <- perform SelectSignal ;;
  match first with
  | CtrlC r => expecting "failed to listen for ctrl+c" (Ret r)
  | Terminate r => expecting "failed to listen for SIGTERM" (Ret r)
  end.

Definition worker_main : Prog MainEff (result unit Exit) :=
  perform Dotenv ;;;
  otel_provider <- init_telemetry "backup-worker" ;;
  env <- perform Environ ;;
  let config := worker_from_env env in
  _ <-? failing lapin_msg (lift (@OnAmqp) (connect_rabbitmq (amqp_url config))) ;;
  _ <-? failing lapin_msg (lift (@OnAmqp) create_channel) ;;
  _ <-? failing transport_msg (perform (ConnectGrpc (grpc_target config))) ;;
  perform SpawnWorker ;;;
  _ <-? shutdown_signal ;;
  perform SignalWorker ;;;
  perform (JoinWorker 30) ;;;
  perform CloseAmqp ;;;
  shutdown_telemetry otel_provider ;;;
  Ret (Ok tt).

(** ** The environment *)

(** What the outside answers in one run of a process. *)
Record Answers : Type := MkAnswers {
  a_env : Env;
  a_exporter : result SpanExporter OtelError;
  a_pool : result unit SqlxError;
  a_open : result unit RedisError;
  a_connect : result unit RedisError;
  a_recorder : result unit IoError;
  a_client : result unit ReqwestError;
  a_bind : SocketAddr -> result unit IoError;
  a_serve : result unit IoError;
  a_grpc : result unit TransportError;
  a_signal : SignalBranch;
  a_join : JoinOutcome;
  a_flush : result unit OtelError;
}.

Definition signal_answer (ans : Answers) : result unit IoError :=
  match a_signal ans with CtrlC r | Terminate r => r end.

(** What others can see a process do. *)
Inductive Act : Type :=
  | UpdaterStarted (c : ApolloUpdaterConfig)
  | GrpcSpawned (addr : SocketAddr)
  | Bound (addr : SocketAddr)
  | Served (state : AppState)
  | GrpcSignalled
  | GrpcJoined
  | WorkerStarted
  | SignalReceived
  | WorkerSignalled
  | WorkerJoined (r : JoinOutcome)
  | AmqpClosed
  | Flushed.

Section boot.
Context `{AmqpServer}.

(** The process and the servers it talks to: the configuration behind the lock and the
    payloads that the updater merges before each of the reads to come; the database; the
    broker; what the process did. *)
Record Boot : Type := MkBoot {
  b_config : AppConfig;
  b_merges : list (list RemoteConfigUpdate);
  b_schema : Schema;
  b_amqp : AmqpState;
  b_log : list Act;
}.

Definition set_config (c : AppConfig) (b : Boot) : Boot :=
  MkBoot c (b_merges b) (b_schema b) (b_amqp b) (b_log b).
Definition set_schema (s : Schema) (b : Boot) : Boot :=
  MkBoot (b_config b) (b_merges b) s (b_amqp b) (b_log b).
Definition set_amqp (s : AmqpState) (b : Boot) : Boot :=
  MkBoot (b_config b) (b_merges b) (b_schema b) s (b_log b).
Definition did (a : Act) (b : Boot) : Boot :=
  MkBoot (b_config b) (b_merges b) (b_schema b) (b_amqp b) (b_log b ++ [a]).
Definition merge_next (b : Boot) : Boot :=
  MkBoot (fold_left apply_update (unwrap_or (head (b_merges b)) []) (b_config b))
    (tail (b_merges b)) (b_schema b) (b_amqp b) (b_log b).

Context (script_accepted : bool) (ans : Answers).

Definition boot : Handler MainEff Boot := fun X e b =>
  match e in MainEff X return X * Boot with
  | Dotenv => (tt, b)
  | Environ => (a_env ans, b)
  | SelectSignal =>
      (a_signal ans, if is_ok (signal_answer ans) then did SignalReceived b else b)
  | BuildExporter _ => (a_exporter ans, b)
  | InitSubscriber _ => (tt, b)
  | ShutdownProvider _ => (a_flush ans, did Flushed b)
  | StoreConfig c => (tt, set_config c b)
  | ReadConfig => let b := merge_next b in (b_config b, b)
  | ConnectPool _ _ => (a_pool ans, b)
  | OnPool e => let '(x, s) := migrator script_accepted _ e (b_schema b) in (x, set_schema s b)
  | OpenRedis _ => (a_open ans, b)
  | ConnectRedis => (a_connect ans, b)
  | OnAmqp e => let '(x, s) := amqp_call _ e (b_amqp b) in (x, set_amqp s b)
  | CloseAmqp => (tt, did AmqpClosed b)
  | InstallRecorder => (a_recorder ans, b)
  | BuildHttpClient _ => (a_client ans, b)
  | SpawnUpdater c => (tt, did (UpdaterStarted c) b)
  | SpawnGrpc addr => (tt, did (GrpcSpawned addr) b)
  | BindHttp addr =>
      (a_bind ans addr, match a_bind ans addr with Ok _ => did (Bound addr) b | Err _ => b end)
  | ServeHttp state => (a_serve ans, did (Served state) b)
  | SignalGrpc => (tt, did GrpcSignalled b)
  | JoinGrpc => (tt, did GrpcJoined b)
  | ConnectGrpc _ => (a_grpc ans, b)
  | SpawnWorker => (tt, did WorkerStarted b)
  | SignalWorker => (tt, did WorkerSignalled b)
  | JoinWorker _ => (a_join ans, did (WorkerJoined (a_join ans)) b)
  end.

(** ** The parts, run *)

(** The provider that [init_telemetry] returns. *)
Definition tracing (service_name : string) : option TracerProvider :=
  _ ← a_env ans "OTEL_EXPORTER_OTLP_ENDPOINT";
  exporter ← ok (a_exporter ans);
  Some (MkTracerProvider exporter
          [("service.name", service_name); ("service.version", CARGO_PKG_VERSION)]).

Definition flush (provider : option TracerProvider) (b : Boot) : Boot :=
  match provider with Some _ => did Flushed b | None => b end.

Lemma run_init_telemetry (name : string) (b : Boot) :
  run boot (init_telemetry name) b = (tracing name, b).
Proof using Type.
  unfold init_telemetry, setup_otel_provider, tracing. rewrite run_bind, run_perform.
  cbn [boot]. destruct (a_env ans _) as [e|]; [|done].
  rewrite run_bind, run_try, run_perform. cbn [boot]. by destruct (a_exporter ans).
Qed.

Lemma run_shutdown_telemetry (provider : option TracerProvider) (b : Boot) :
  run boot (shutdown_telemetry provider) b = (tt, flush provider b).
Proof using Type. unfold shutdown_telemetry, flush. by destruct provider. Qed.

Lemma run_failing {A E} (msg : E -> string) (p : Prog MainEff (result A E)) (b : Boot) :
  run boot (failing msg p) b =
  let '(r, b') := run boot p b in (map_err (fun e => Failed (MkAnyhowError (msg e))) r, b').
Proof using Type. unfold failing. rewrite run_bind. by destruct (run boot p b). Qed.

Lemma run_expecting {A E} (msg : string) (p : Prog MainEff (result A E)) (b : Boot) :
  run boot (expecting msg p) b =
  let '(r, b') := run boot p b in (map_err (fun _ => Panic msg) r, b').
Proof using Type. unfold expecting. rewrite run_bind. by destruct (run boot p b). Qed.

Lemma run_on_pool {A} (p : Prog MigEff A) (b : Boot) :
  run boot (lift (@OnPool) p) b =
  let '(a, s) := run (migrator script_accepted) p (b_schema b) in (a, set_schema s b).
Proof using Type. by apply run_lift; intros; destruct s. Qed.

Lemma run_on_amqp {A} (p : Prog AmqpEff A) (b : Boot) :
  run boot (lift (@OnAmqp) p) b =
  let '(a, s) := run amqp_call p (b_amqp b) in (a, set_amqp s b).
Proof using Type. by apply run_lift; intros; destruct s. Qed.

(** The cache with a connection, or without one. *)
Definition opened_cache : CacheLayer :=
  Cache.new (a_open ans) (match a_open ans with Ok _ => a_connect ans | Err e => Err e end).

Lemma run_new_cache (b : Boot) : run boot new_cache b = (opened_cache, merge_next b).
Proof using Type.
  unfold new_cache, opened_cache. rewrite !run_bind, !run_perform. cbn [boot].
  rewrite run_bind, run_perform. cbn [boot]. by destruct (a_open ans).
Qed.

Lemma merge_next_protected (b : Boot) :
  protected_fields (b_config (merge_next b)) = protected_fields (b_config b).
Proof using Type. apply fold_updates_protected. Qed.

(** ** Serving *)

(** The updater of a configuration, when it names a URL. *)
Definition updater_acts (c : AppConfig) : list Act :=
  match apollo_config_url c with
  | Some u => [UpdaterStarted (MkApolloUpdaterConfig u (apollo_poll_interval_secs c)
                                 (apollo_timeout_secs c))]
  | None => []
  end.

Definition client_ok (c : AppConfig) : bool :=
  match apollo_config_url c with Some _ => is_ok (a_client ans) | None => true end.

(** The configuration has moved within what a remote payload can set. *)
Definition same_deployment (c : AppConfig) (b : Boot) : Prop :=
  protected_fields (b_config b) = protected_fields c.

Lemma same_deployment_merge (c : AppConfig) (b : Boot) :
  same_deployment c b -> same_deployment c (merge_next b).
Proof using Type. unfold same_deployment. by rewrite merge_next_protected. Qed.

Lemma run_start_updater (c : AppConfig) (b : Boot) :
  same_deployment c b -> apollo_config_url c <> Some "" ->
  run boot start_updater b =
  if client_ok c
  then (Ok tt, let b := merge_next b in
               MkBoot (b_config b) (b_merges b) (b_schema b) (b_amqp b) (b_log b ++ updater_acts c))
  else (Err (Panic "reqwest client"), merge_next b).
Proof using Type.
  intros Hc%same_deployment_merge Hne. unfold start_updater. rewrite run_bind, run_perform.
  cbn [boot]. cbv zeta. revert Hc. generalize (merge_next b). clear b. intros b Hc.
  unfold same_deployment, protected_fields in Hc. injection Hc as _ _ _ _ _ _ -> -> ->.
  unfold client_ok, updater_acts. destruct (apollo_config_url c) as [u|]; cbn [mbind option_bind].
  - destruct (String.eqb_spec u "") as [->|_]; [done|]. cbn [negb].
    rewrite run_try, run_expecting, run_perform. cbn [boot]. by destruct (a_client ans).
  - cbn [run]. rewrite app_nil_r. by destruct b.
Qed.

Definition shutdown_acts (state : AppState) (provider : option TracerProvider) : list Act :=
  if is_ok (a_serve ans)
  then [GrpcSignalled; GrpcJoined]
         ++ match amqp_channel state with Some _ => [AmqpClosed] | None => [] end
         ++ match provider with Some _ => [Flushed] | None => [] end
  else [].

(** How [main] ends when the server does. *)
Definition served_result : result unit Exit :=
  map_err (fun e => Failed (MkAnyhowError (io_msg e))) (a_serve ans).

(** Requests were served only if they already had been. *)
Definition serves_nothing (b b' : Boot) : Prop :=
  forall st, Served st ∈ b_log b' -> Served st ∈ b_log b.

(** Serving until the signal, and the shutdown. *)
Lemma run_stop (state : AppState) (provider : option TracerProvider) (b : Boot) :
  run boot (_ <-? failing io_msg (perform (ServeHttp state)) ;;
            perform SignalGrpc ;;;
            perform JoinGrpc ;;;
            drop_connection state ;;;
            shutdown_telemetry provider ;;;
            Ret (Ok tt)) b =
  (served_result, MkBoot (b_config b) (b_merges b) (b_schema b) (b_amqp b)
                    (b_log b ++ Served state :: shutdown_acts state provider)).
Proof using Type.
  rewrite run_try, run_failing, run_perform. cbn [boot]. unfold served_result, shutdown_acts.
  destruct (a_serve ans) as [[]|err]; [|done]. cbn [map_err is_ok perform bind run boot].
  unfold drop_connection. destruct (amqp_channel state); cbn [perform bind run boot];
    rewrite run_bind, run_shutdown_telemetry; cbn [run]; unfold flush;
    destruct provider; unfold did; cbn [b_log b_config b_merges b_schema b_amqp];
    by rewrite <- !app_assoc.
Qed.

Lemma run_listen_and_serve (c : AppConfig) (provider : option TracerProvider)
    (state : AppState) (b : Boot) :
  same_deployment c b -> apollo_config_url c <> Some "" ->
  let '(r, b') := run boot (listen_and_serve provider state) b in
  b_schema b' = b_schema b /\ b_amqp b' = b_amqp b /\ same_deployment c b'
  /\ if client_ok c && is_ok (a_bind ans (listen_addr c))
     then r = served_result
          /\ b_log b' = b_log b ++ updater_acts c
                          ++ [GrpcSpawned (grpc_addr c); Bound (listen_addr c); Served state]
                          ++ shutdown_acts state provider
     else is_ok r = false /\ serves_nothing b b'.
Proof using Type.
  intros Hc Hne. unfold listen_and_serve. rewrite run_try, (run_start_updater c) by done.
  apply same_deployment_merge in Hc. cbv zeta.
  destruct (client_ok c); cbn [andb]; [|by split_and!; try done; intros st].
  set (b1 := MkBoot _ _ _ _ _).
  assert (Hc1 : same_deployment c b1) by done.
  assert (Hl1 : b_log b1 = b_log b ++ updater_acts c) by done.
  assert (Hs1 : b_schema b1 = b_schema b) by done.
  assert (Ha1 : b_amqp b1 = b_amqp b) by done. clearbody b1.
  rewrite run_bind, run_perform. cbn [boot]. cbv zeta.
  rewrite run_bind, run_perform. cbn [boot].
  rewrite run_bind, run_perform. cbn [boot]. cbv zeta.
  pose proof (same_deployment_merge c b1 Hc1) as Hc2.
  set (b2 := did _ _).
  assert (Hc3 : same_deployment c (merge_next b2)) by by apply same_deployment_merge.
  assert (grpc_addr (b_config (merge_next b1)) = grpc_addr c) as Hgrpc
    by (unfold same_deployment, protected_fields in Hc2; congruence).
  assert (listen_addr (b_config (merge_next b2)) = listen_addr c) as Hlisten
    by (unfold same_deployment, protected_fields in Hc3; congruence).
  rewrite Hlisten. rewrite run_try, run_failing, run_perform. cbn [boot].
  destruct (a_bind ans (listen_addr c)) as [[]|err]; cbn [map_err is_ok].
  - rewrite run_stop. cbn [b_schema b_amqp b_log did merge_next b2]. rewrite Hl1, Hgrpc.
    split_and!; try done. by rewrite <- !app_assoc.
  - split_and!; try done. intros st. cbn [b_log b2 did merge_next]. rewrite Hl1.
    unfold updater_acts. destruct (apollo_config_url c); set_solver.
Qed.
(** ** The service's main *)

(** What starting needs: the database and its schema, the two libraries that are set up
    with [expect], and the port. *)
Definition can_serve (c : AppConfig) (b : Boot) : bool :=
  is_ok (a_pool ans)
  && is_ok (run (migrator script_accepted) run_migrations (b_schema b)).1
  && is_ok (a_recorder ans)
  && (client_ok c && is_ok (a_bind ans (listen_addr c))).

Lemma migrations_done (s : Schema) :
  schema_ok s -> let '(r, s') := run (migrator script_accepted) run_migrations s in
  is_ok r = true -> migrated s'.
Proof using Type.
  intros Hok. pose proof (startup_ok script_accepted s (sc_faults s) Hok) as Hok'.
  pose proof (startup_cases script_accepted s (sc_faults s)) as Hc. unfold startup in *.
  destruct s as [vs t fs]. cbn [sc_versions sc_backups sc_faults] in *.
  destruct (run _ _ _) as [[[]|e] s']; [|done]. destruct Hc as (_ & Hv & _).
  intros _. split; [by apply Hv|]. apply Hok'. by apply Hv.
Qed.

(** The state handed to the router: the cache with the connection that Redis gave, the
    configuration behind the lock, and the channel that the broker gave. *)
Definition wired (connected : result Channel LapinError) : AppState :=
  {| State.cache := opened_cache; amqp_channel := ok connected |}.

(** C17. When the service comes up and what it serves, for every environment.  It serves
    requests exactly when both addresses are readable, the database is reachable and every
    statement of the migrations succeeds, the set-up with [expect] succeeds and the port is
    free; the state of Redis, of RabbitMQ and of the telemetry never matters, nor do the
    remote payloads merged meanwhile.  Then the configuration is well formed, the database is
    migrated, the gRPC server is started for its configured address (what becomes of it is
    only logged) and HTTP is bound to its own, the updater runs exactly when a URL is
    configured, a cache is there exactly when Redis answered, and with a channel the topology
    of the jobs is declared and every published job reaches the worker's queue; after the
    server has ended, the gRPC server is stopped and awaited, the broker's connection, if
    there is one, is closed, and the spans are flushed.  Otherwise [main] ends with an error
    and no request is served. *)
Theorem service_startup `{JobJson} `{!AmqpLaws} (b : Boot) :
  schema_ok (b_schema b) ->
  let '(r, b') := run boot service_main b in
  match from_env (a_env ans) with
  | Ok c =>
      if can_serve c b then
        config_wf c = true /\ same_deployment c b' /\ migrated (b_schema b')
        /\ r = served_result
        /\ exists connected,
             b_log b' = b_log b ++ updater_acts c
               ++ [GrpcSpawned (grpc_addr c); Bound (listen_addr c); Served (wired connected)]
               ++ shutdown_acts (wired connected) (tracing "backup-service")
             /\ cl_redis (State.cache (wired connected))
                = (if is_ok (a_open ans) && is_ok (a_connect ans)
                   then Some RedisConnection else None)
             /\ (amqp_channel (wired connected) <> None ->
                 topology_declared (b_amqp b')
                 /\ forall job, reaches_worker (b_amqp b') (job_publication job))
      else is_ok r = false /\ serves_nothing b b'
  | Err _ => is_ok r = false /\ serves_nothing b b'
  end.
Proof using Type.
  intros Hok. unfold service_main.
  rewrite run_bind, run_perform. cbn [boot].
  rewrite run_bind, run_init_telemetry, run_bind, run_perform. cbn [boot].
  destruct (from_env (a_env ans)) as [c|e] eqn:Hc; cbn [map_err try_pure run];
    [|by split; [|intros st]].
  assert (Hwf : config_wf c = true) by by eapply from_env_wf.
  rewrite run_bind, run_perform. cbn [boot].
  rewrite run_bind, run_perform. cbn [boot]. cbv zeta.
  rewrite run_try, run_failing. unfold create_pool at 1. rewrite run_perform. cbn [boot].
  unfold can_serve.
  destruct (a_pool ans) as [[]|e]; cbn [map_err is_ok andb]; [|by split; [|intros st]].
  rewrite run_try, run_failing, run_on_pool. cbn [b_schema merge_next set_config].
  pose proof (migrations_done (b_schema b) Hok) as Hm.
  destruct (run (migrator script_accepted) run_migrations (b_schema b)) as [[[]|e] sch];
    cbn [map_err is_ok andb fst]; [|by split; [|intros st]].
  rewrite run_bind, run_new_cache, run_bind, run_perform. cbn [boot]. cbv zeta.
  rewrite run_bind, run_on_amqp.
  match goal with |- context [merge_next (merge_next ?x)] => set (b1 := merge_next (merge_next x)) end.
  pose proof (connect_declares (Config.amqp_url (b_config b1)) (b_amqp b1)) as Hd.
  destruct (run amqp_call _ (b_amqp b1)) as [connected am]. destruct Hd as (_ & _ & Hd).
  rewrite run_try, run_expecting, run_perform. cbn [boot].
  destruct (a_recorder ans) as [[]|e]; cbn [map_err is_ok andb]; [|by split; [|intros st]].
  assert (Hb1 : same_deployment c (set_amqp am b1))
    by (do 2 apply same_deployment_merge; by apply (same_deployment_merge c (set_config c b))).
  pose proof (run_listen_and_serve c (tracing "backup-service") (wired connected)
                (set_amqp am b1) Hb1
                (config_wf_url c Hwf)) as Hrun.
  unfold wired at 1 in Hrun. destruct (run boot _ (set_amqp am b1)) as [r b'].
  destruct Hrun as (Hs' & Ha' & Hc' & Hrun).
  destruct (client_ok c && _); [|done]. destruct Hrun as [-> Hlog].
  split_and!; [done|done|by rewrite Hs'; apply Hm|done|]. exists connected.
  split_and!; [done|by unfold wired, opened_cache, Cache.new; destruct (a_open ans), (a_connect ans)|].
  intros Hch. assert (Htop : topology_declared (b_amqp b'))
    by (rewrite Ha'; apply Hd; by destruct connected).
  split; [exact Htop|]. intros job. by apply topology_reaches_worker.
Qed.
(** ** The worker's main *)

(** The two channels of the worker. *)
Definition open_channels (url : string) : Prog AmqpEff (result Channel LapinError) :=
  _ <-? connect_rabbitmq url ;; create_channel.

Lemma run_shutdown_signal (b : Boot) :
  match signal_answer ans with
  | Ok _ => run boot shutdown_signal b = (Ok tt, did SignalReceived b)
  | Err _ => exists msg, run boot shutdown_signal b = (Err (Panic msg), b)
  end.
Proof using Type.
  unfold shutdown_signal. rewrite run_bind, run_perform. cbn [boot]. unfold signal_answer.
  destruct (a_signal ans) as [[[]|e]|[[]|e]]; cbn; by try eexists.
Qed.

End boot.

(** ** Witness *)

#[local] Existing Instance ReferenceJobs.json.
#[local] Existing Instance ReferenceAmqp.server.
#[local] Existing Instance ReferenceAmqp.laws.

(** An empty environment on a fresh database, with Redis, RabbitMQ and the tracing backend
    out of reach: the service serves, without a cache and without a channel. *)
Definition bare_answers : Answers :=
  {| a_env := fun _ => None;
     a_exporter := Err (MkOtelError "no endpoint");
     a_pool := Ok tt;
     a_open := Ok tt;
     a_connect := Err (MkRedisError "connection refused");
     a_recorder := Ok tt;
     a_client := Ok tt;
     a_bind := fun _ => Ok tt;
     a_serve := Ok tt;
     a_grpc := Err (MkTransportError "connection refused");
     a_signal := Terminate (Ok tt);
     a_join := WorkerStopped;
     a_flush := Ok tt |}.

Definition fresh_boot : Boot :=
  MkBoot sample_config [] (MkSchema None false [])
    (ReferenceAmqp.MkServer ∅ ∅ []
       [Some (ReferenceAmqp.LostRequest (MkLapinError "connection refused"))]) [].

Lemma service_startup_witness :
  (run (boot true bare_answers) service_main fresh_boot).1 = Ok tt
  /\ migrated (b_schema (run (boot true bare_answers) service_main fresh_boot).2)
  /\ exists st, Served st ∈ b_log (run (boot true bare_answers) service_main fresh_boot).2
                /\ cl_redis (State.cache st) = None.
Proof.
  assert (Hok : schema_ok (b_schema fresh_boot)) by (intros H; inversion H).
  pose proof (service_startup true bare_answers fresh_boot Hok) as Hs.
  destruct (run (boot true bare_answers) service_main fresh_boot) as [r b'].
  destruct (from_env (a_env bare_answers)) as [c|e] eqn:Hc; [|by vm_compute in Hc].
  assert (Hcan : can_serve true bare_answers c fresh_boot = true)
    by (vm_compute in Hc; injection Hc as <-; reflexivity).
  rewrite Hcan in Hs. destruct Hs as (_ & _ & Hm & Hr & connected & Hlog & Hcl & _).
  split; [exact Hr|]. split; [exact Hm|]. exists (wired bare_answers connected).
  cbn [snd]. split; [|exact Hcl]. rewrite Hlog. apply elem_of_app. right.
  apply elem_of_app. right. by do 2 right; left.
Defined.

(** The worker on a fresh broker, against a service that answers: it comes to its consumer and
    to the end. *)
Definition worker_answers : Answers :=
  {| a_env := fun _ => None;
     a_exporter := Err (MkOtelError "no endpoint");
     a_pool := Ok tt;
     a_open := Ok tt;
     a_connect := Ok tt;
     a_recorder := Ok tt;
     a_client := Ok tt;
     a_bind := fun _ => Ok tt;
     a_serve := Ok tt;
     a_grpc := Ok tt;
     a_signal := CtrlC (Ok tt);
     a_join := WorkerPanicked;
     a_flush := Ok tt |}.

