(* ===== verification/UnitTests.v ===== *)
(** The unit tests of the source ([#[cfg(test)] mod tests] of the modelled files), one
    definition per test, with what a test draws or reads from outside (new identifiers,
    instants) as arguments: a check of the definitions against the expectations of their
    authors, for every identifier and clock.  The test with Redis runs on the reference Redis
    without failures ahead.  Two tests of [ffi.rs] are left out, [repeated_pattern_has_low_entropy]
    and [text_has_moderate_entropy]: in binary64 their bounds depend on the [log] of the C
    library; what holds of their data in exact arithmetic is a lemma here. *)

From S2P Require Import Prelude Codec Prog Models Errors SocketAddr Config Merge RateLimit.
From S2P Require Import Entropy EntropyReal EntropySpec Db State Cache Jobs Backups Grpc.
From Stdlib Require Import Reals Lra.
Local Open Scope prog_scope.
Local Open Scope Z_scope.

Definition is_none {A} (o : option A) : bool := match o with None => true | Some _ => false end.

(** ** [cache.rs] *)

Definition sample_backup (id tenant_id : Uuid) (now : DateTime) : Backup :=
  {| b_id := id; b_tenant_id := tenant_id; b_source_path := "/data"; b_size_bytes := 0;
     b_status := "pending"; b_encryption_enabled := false; b_created_at := now;
     b_updated_at := now |}.

(** [Uuid::nil()] *)
Definition nil_uuid : Uuid := uuid_of 0.

(** [.parse().unwrap()] *)
Definition addr (s : string) : SocketAddr := default (V4 [] 0) (parse_addr s).

(** The configuration of the test with Redis, at the [REDIS_URL] it finds. *)
Definition redis_test_config (url : string) : AppConfig :=
  {| database_url := ""; redis_url := url; amqp_url := ""; jwt_secret := "";
     listen_addr := addr "0.0.0.0:0"; grpc_addr := addr "0.0.0.0:0";
     rate_limit := default_rate_limit; cache_ttl_secs := 300; cached_list_limit := 20;
     cached_list_offset := 0; apollo_config_url := None; apollo_poll_interval_secs := 60;
     apollo_timeout_secs := 10 |}.

Section cache_tests.
Context `{UuidCrate} `{SerdeJson}.

Definition noop_get_backup_returns_none : Prog SEff bool :=
  b <- Cache.get_backup noop nil_uuid ;; Ret (is_none b).

Definition noop_get_tenant_backups_returns_none : Prog SEff bool :=
  p <- get_tenant_backups noop nil_uuid ;; Ret (is_none p).

Definition noop_ping_returns_false : Prog SEff bool :=
  up <- ping noop ;; Ret (negb up).

Definition noop_set_and_invalidate_dont_panic (now : DateTime) : Prog SEff bool :=
  let backup := sample_backup nil_uuid nil_uuid now in
  set_backup noop backup ;;;
  set_tenant_backups noop nil_uuid [backup] 1 ;;;
  invalidate_backup noop (b_id backup) ;;;
  invalidate_tenant_backups noop (b_tenant_id backup) ;;;
  Ret true.

(** [opened], [connected]: what [CacheLayer::new] met, under the configuration below. *)
Definition redis_roundtrip_when_available (opened connected : result unit RedisError)
    (id tenant_id : Uuid) (now : DateTime) : Prog SEff bool :=
  let cache := Cache.new opened connected in
  up <- ping cache ;;
  if negb up then Ret true
  else
    let backup := sample_backup id tenant_id now in
    set_backup cache backup ;;;
    got <- Cache.get_backup cache id ;;
    let got_it := match got with Some b => bool_decide (b_id b = id) | None => false end in
    invalidate_backup cache id ;;;
    gone <- Cache.get_backup cache id ;;
    set_tenant_backups cache tenant_id [backup] 1 ;;;
    page <- get_tenant_backups cache tenant_id ;;
    let got_page := match page with
                    | Some ([b], total) => bool_decide (b_id b = id) && (total =? 1)
                    | _ => false
                    end in
    invalidate_tenant_backups cache tenant_id ;;;
    page_gone <- get_tenant_backups cache tenant_id ;;
    Ret (got_it && is_none gone && got_page && is_none page_gone).
End cache_tests.

(** ** [middleware/rate_limit.rs]: the instants are those of the calls *)

Definition answers (calls : list Call) : list (result RateLimitInfo unit) :=
  map snd (run_calls ∅ calls).1.

Definition allows_requests_under_limit (tenant : Uuid) (nows : list Instant) : bool :=
  let config := {| max_requests := 5; window_secs := 60 |} in
  forallb is_ok (answers (burst tenant config (take 5 nows))).

Definition blocks_requests_over_limit (tenant : Uuid) (nows : list Instant) : bool :=
  let config := {| max_requests := 3; window_secs := 60 |} in
  let results := answers (burst tenant config (take 4 nows)) in
  forallb is_ok (take 3 results) && forallb (fun r => negb (is_ok r)) (drop 3 results).

Definition separate_tenants_have_separate_limits (tenant_a tenant_b : Uuid)
    (nows : list Instant) (last : Instant) : bool :=
  let config := {| max_requests := 2; window_secs := 60 |} in
  let results := answers (burst tenant_a config (take 3 nows) ++ [MkCall tenant_b config last]) in
  forallb is_ok (take 2 results) && forallb (fun r => negb (is_ok r)) (take 1 (drop 2 results))
  && forallb is_ok (drop 3 results).

Definition remaining_count_decreases (tenant : Uuid) (nows : list Instant) : bool :=
  let config := {| max_requests := 5; window_secs := 60 |} in
  match answers (burst tenant config (take 2 nows)) with
  | [Ok first; Ok second] => (rl_remaining first =? 4) && (rl_remaining second =? 3)
  | _ => false
  end.

(** ** [apollo/merge.rs] *)

Definition base_config : AppConfig :=
  {| database_url := "postgres://local"; redis_url := "redis://local";
     amqp_url := "amqp://local"; jwt_secret := "secret"; listen_addr := addr "0.0.0.0:8080";
     grpc_addr := addr "0.0.0.0:50051";
     rate_limit := {| max_requests := 100; window_secs := 60 |};
     cache_ttl_secs := 300; cached_list_limit := 20; cached_list_offset := 0;
     apollo_config_url := None; apollo_poll_interval_secs := 60; apollo_timeout_secs := 10 |}.

Definition merge_only_set_fields : bool :=
  let update := {| u_rate_limit := Some {| u_max_requests := Some 50; u_window_secs := None |};
                   u_cache_ttl_secs := Some 600; u_cached_list_limit := None;
                   u_cached_list_offset := Some 10 |} in
  let config := apply_update base_config update in
  (max_requests (rate_limit config) =? 50) && (window_secs (rate_limit config) =? 60)
  && (cache_ttl_secs config =? 600) && (cached_list_limit config =? 20)
  && (cached_list_offset config =? 10) && String.eqb (database_url config) "postgres://local"
  && String.eqb (jwt_secret config) "secret".

Definition merge_empty_update_changes_nothing : bool :=
  let config := apply_update base_config default_update in
  (max_requests (rate_limit config) =? max_requests (rate_limit base_config))
  && (cache_ttl_secs config =? cache_ttl_secs base_config)
  && (cached_list_limit config =? cached_list_limit base_config).

Definition merge_rate_limit_both_fields : bool :=
  let update := {| u_rate_limit := Some {| u_max_requests := Some 200;
                                           u_window_secs := Some 120 |};
                   u_cache_ttl_secs := u_cache_ttl_secs default_update;
                   u_cached_list_limit := u_cached_list_limit default_update;
                   u_cached_list_offset := u_cached_list_offset default_update |} in
  let config := apply_update base_config update in
  (max_requests (rate_limit config) =? 200) && (window_secs (rate_limit config) =? 120).

(** ** [grpc.rs] *)

Definition some_backup_id : string := "550e8400-e29b-41d4-a716-446655440000".

Definition status_update_construction : bool :=
  let update := {| su_backup_id := some_backup_id; su_status := "running" |} in
  String.eqb (su_status update) "running" && negb (String.eqb (su_backup_id update) "").

Definition f64_4_5 : f64 := binary_normalize 53 1024 9 (-1) false.

Definition processing_result_construction : bool :=
  let result := {| pr_backup_id := some_backup_id; pr_status := "completed";
                   pr_size_bytes := 1048576; pr_entropy := f64_4_5; pr_suspicious := false;
                   pr_error_message := "" |} in
  String.eqb (pr_status result) "completed" && (pr_size_bytes result =? 1048576)
  && negb (pr_suspicious result).

Definition failed_result_carries_error_message : bool :=
  let result := {| pr_backup_id := some_backup_id; pr_status := "failed"; pr_size_bytes := 0;
                   pr_entropy := S754_zero false; pr_suspicious := false;
                   pr_error_message := "disk full" |} in
  String.eqb (pr_status result) "failed" && String.eqb (pr_error_message result) "disk full".

(** ** [worker.rs] of [backup-common] *)

Definition backup_job_serialization_roundtrip `{JobJson} (backup_id tenant_id : Uuid) : bool :=
  let job := {| j_backup_id := backup_id; j_tenant_id := tenant_id;
                j_source_path := "/data/test"; j_encryption_enabled := true |} in
  match job_from_json (job_to_json job) with
  | Ok deserialized =>
      bool_decide (j_backup_id job = j_backup_id deserialized)
      && bool_decide (j_tenant_id job = j_tenant_id deserialized)
      && String.eqb (j_source_path job) (j_source_path deserialized)
      && Bool.eqb (j_encryption_enabled job) (j_encryption_enabled deserialized)
  | Err _ => false
  end.

(** ** [handlers/backups.rs] *)

Definition valid_paths_accepted : bool :=
  is_ok (validate_source_path "/home/user/data")
  && is_ok (validate_source_path "/var/backups/daily").
Definition empty_path_rejected : bool := negb (is_ok (validate_source_path "")).
Definition relative_path_rejected : bool := negb (is_ok (validate_source_path "relative/path")).
Definition traversal_rejected : bool := negb (is_ok (validate_source_path "/home/../etc/passwd")).

(** ** [ffi.rs]: in binary64 *)

Definition empty_data_has_zero_entropy `{Libm} : bool :=
  SFeqb (shannon_entropy []) (S754_zero false).

(** [0.001] *)
Definition f64_0_001 : f64 := S754_finite false 4611686018427388 (-62).

Definition uniform_data_has_zero_entropy `{Libm} : bool :=
  let data := replicate 1024 Byte.x00 in
  f64_lt (shannon_entropy data) f64_0_001.

Definition classify_entropy_levels : bool :=
  bool_decide (classify (binary_normalize 53 1024 1 0 false) = Low)
  && bool_decide (classify (binary_normalize 53 1024 5 0 false) = Normal)
  && bool_decide (classify (binary_normalize 53 1024 7 0 false) = High)
  && bool_decide (classify (S754_finite false 8782019273372467 (-50)) = VeryHigh)
  && is_suspicious VeryHigh && negb (is_suspicious Normal).

(** [(0..1024).map(|i| (i % 4) as u8)] *)
Definition four_symbols : list byte :=
  map (fun i => default Byte.x00 (Byte.of_nat (i mod 4))) (seq 0 1024).

Definition english : list byte :=
  bytes ("The quick brown fox jumps over the lazy dog. " +:+
         "This is a test of entropy calculation in Rust.").

(** ** They pass *)

Lemma entropy_between (p1 p2 q : Z) (data : list byte) :
  data <> [] -> Z.of_nat (length data) <= u64_max -> 0 <= p1 -> 0 <= p2 -> 0 < q ->
  entropy_vs p1 q data = Gt -> entropy_vs p2 q data = Lt ->
  (IZR p1 / IZR q < shannon_entropy data /\ shannon_entropy data < IZR p2 / IZR q)%R.
Proof.
  intros Hne Hl Hp1 Hp2 Hq Hgt Hlt.
  pose proof (entropy_vs_spec p1 q data Hne Hl Hp1 Hq) as H1.
  pose proof (entropy_vs_spec p2 q data Hne Hl Hp2 Hq) as H2.
  rewrite Hgt in H1. rewrite Hlt in H2. by split.
Qed.

(** The exact entropy of the data of the two tests that are left out. *)
Lemma test_data_entropy :
  (19 / 10 < shannon_entropy four_symbols /\ shannon_entropy four_symbols < 21 / 10)%R
  /\ (7 / 2 < shannon_entropy english /\ shannon_entropy english < 11 / 2)%R.
Proof.
  split.
  - apply (entropy_between 19 21 10); try done; vm_compute; reflexivity.
  - apply (entropy_between 7 11 2); try done; vm_compute; reflexivity.
Qed.

(** Calls within one window: the tests take less than a minute. *)
Definition within_window (start : Instant) (nows : list Instant) : Prop :=
  Forall (fun x => start <= x < start + from_secs 60) nows.

(** The answers to a burst, by their position. *)
Lemma answers_burst (t : Uuid) (cfg : RateLimitConfig) (start : Instant) (nows : list Instant) :
  window_secs cfg = 60 -> (length nows < 100)%nat -> within_window start nows ->
  answers (burst t cfg (start :: nows))
  = map (fun i => if Z.of_nat i <? max_requests cfg
                  then Ok {| rl_limit := max_requests cfg;
                             rl_remaining := max_requests cfg - 1 - Z.of_nat i;
                             rl_reset_secs := window_secs cfg |}
                  else Err tt) (seq 0 (S (length nows))).
Proof.
  intros Hw Hl Hn. apply list_eq. intros i. unfold answers.
  change (map snd (run_calls ∅ (burst t cfg (start :: nows))).1)
    with (snd <$> (run_calls ∅ (burst t cfg (start :: nows))).1).
  change (map ?f (seq 0 (S (length nows)))) with (f <$> seq 0 (S (length nows))).
  rewrite !list_lookup_fmap.
  destruct ((start :: nows) !! i) as [now|] eqn:Hi.
  - rewrite (window_admits_first_max t cfg start nows i now); [|by rewrite Hw|unfold u64_max; lia| |done].
    + rewrite lookup_seq_lt by (apply lookup_lt_Some in Hi; cbn [length] in Hi; lia). done.
    + by rewrite Hw.
  - apply lookup_ge_None in Hi. cbn [length] in Hi.
    rewrite (lookup_ge_None_2 (seq _ _)) by (rewrite length_seq; lia).
    rewrite lookup_ge_None_2; [done|]. rewrite run_calls_length. unfold burst.
    rewrite length_map. cbn [length]. lia.
Qed.

Local Ltac inside :=
  unfold within_window; rewrite ?Forall_cons; split_and?; first [apply Forall_nil_2|lia].

Lemma limiter_tests_pass (a b : Uuid) (t0 t1 t2 t3 t4 last : Instant) :
  within_window t0 [t1; t2; t3; t4] -> a <> b ->
  allows_requests_under_limit a [t0; t1; t2; t3; t4] = true
  /\ blocks_requests_over_limit a [t0; t1; t2; t3] = true
  /\ separate_tenants_have_separate_limits a b [t0; t1; t2] last = true
  /\ remaining_count_decreases a [t0; t1] = true.
Proof.
  intros Hw Hab. unfold within_window in Hw. rewrite !Forall_cons in Hw.
  destruct Hw as (H1 & H2 & H3 & H4 & _).
  split_and!.
  - unfold allows_requests_under_limit. cbv zeta. cbn [take]. rewrite answers_burst; [done|done|cbn; lia|inside].
  - unfold blocks_requests_over_limit. cbv zeta. cbn [take]. rewrite answers_burst; [done|done|cbn; lia|inside].
  - unfold separate_tenants_have_separate_limits. cbv zeta. unfold answers. cbn [take].
    set (cfg := {| max_requests := 2; window_secs := 60 |}).
    rewrite run_calls_app, map_app. fold (answers (burst a cfg [t0; t1; t2])).
    rewrite answers_burst; [|done|cbn; lia|inside].
    cbn [run_calls k_tenant k_config k_now]. unfold check_and_increment.
    destruct (run_calls_isolated b (burst a cfg [t0; t1; t2]) ∅ ∅ eq_refl) as [_ ->].
    assert (Hc : calls_of b (burst a cfg [t0; t1; t2]) = []).
    { unfold calls_of. cbn. by rewrite bool_decide_eq_false_2. }
    rewrite Hc. cbn [run_calls snd]. rewrite lookup_empty.
    unfold next_entry, duration_since. cbn [unwrap_or fst snd].
    replace (from_secs (window_secs cfg) <=? Z.max 0 (last - last)) with false; [done|].
    rewrite Z.sub_diag. done.
  - unfold remaining_count_decreases. cbv zeta. cbn [take]. rewrite answers_burst; [done|done|cbn; lia|inside].
Qed.

Section noop.
Context `{UuidCrate} `{SerdeJson}.

(** Without Redis the cache makes no call at all. *)
Lemma noop_tests_pass (now : DateTime) :
  noop_get_backup_returns_none = Ret true /\ noop_get_tenant_backups_returns_none = Ret true
  /\ noop_ping_returns_false = Ret true /\ noop_set_and_invalidate_dont_panic now = Ret true.
Proof using Type. done. Qed.
End noop.

#[local] Existing Instance Reference.uuids.
#[local] Existing Instance Reference.uuids_laws.
#[local] Existing Instance Reference.json.
#[local] Existing Instance ReferenceDb.server.
#[local] Existing Instance ReferenceRedis.server.
#[local] Existing Instance ReferenceBroker.broker.

(** The reference Redis without failures ahead gives back what was just stored, and nothing
    after a deletion. *)
Abbreviation RefWorld := (@World ReferenceRedis.server ReferenceBroker.broker).

Definition calm (w : RefWorld) : Prop :=
  ReferenceRedis.failing (w_redis w) = [] /\ 0 < cache_ttl_secs (w_config w).

Definition connected_cache : CacheLayer := Cache.new (Ok tt) (Ok tt).

Lemma calm_set_get (k v : string) (w : RefWorld) :
  calm w ->
  let w1 := set_effect connected_cache k (Ok v) w in
  calm w1 /\ exists s, @redis_get ReferenceRedis.server k (w_redis w1) = (Ok v, s)
                      /\ calm (with_redis s w1).
Proof.
  intros [Hf Ht] w1.
  assert (Hs : w_redis w1 = ReferenceRedis.with_entries
            (<[k := (v, ReferenceRedis.clock (w_redis w) + cache_ttl_secs (w_config w))]>
               (ReferenceRedis.entries (w_redis w))) (ReferenceRedis.begin (w_redis w)).2).
  { subst w1. unfold set_effect. cbn. unfold ReferenceRedis.begin. rewrite Hf. cbn.
    by rewrite (proj2 (Z.leb_gt _ _)). }
  unfold calm. change (w_config w1) with (w_config w). rewrite Hs. cbn. rewrite Hf.
  split; [done|]. unfold ReferenceRedis.live. cbn.
  rewrite lookup_insert_eq, (proj2 (Z.ltb_lt _ _)) by lia. by eexists.
Qed.

Lemma calm_del_get (k : string) (w : RefWorld) :
  calm w ->
  let w1 := del_effect connected_cache k w in
  exists e s, @redis_get ReferenceRedis.server k (w_redis w1) = (Err e, s)
              /\ calm (with_redis s w1).
Proof.
  intros [Hf Ht] w1.
  assert (Hs : w_redis w1 = ReferenceRedis.with_entries
            (delete k (ReferenceRedis.entries (w_redis w))) (ReferenceRedis.begin (w_redis w)).2).
  { subst w1. unfold del_effect. cbn. unfold ReferenceRedis.begin. by rewrite Hf. }
  unfold calm. change (w_config w1) with (w_config w). rewrite Hs. cbn. rewrite Hf.
  unfold ReferenceRedis.live. cbn. rewrite lookup_delete_eq. by eexists _, _.
Qed.

Lemma redis_test_passes (opened connected : result unit RedisError) (id tenant : Uuid)
    (now : DateTime) (w : RefWorld) :
  calm w ->
  (run service (redis_roundtrip_when_available opened connected id tenant now) w).1 = true.
Proof.
  intros Hc. unfold redis_roundtrip_when_available. destruct opened as [[]|e]; [|done].
  destruct connected as [[]|e]; [|done]. fold connected_cache. cbv zeta.
  set (b := sample_backup id tenant now). pose proof Hc as [Hf Ht].
  assert (Hping : exists w0, run service (ping connected_cache) w = (true, w0) /\ calm w0).
  { eexists. unfold ping. cbn. unfold ReferenceRedis.begin. rewrite Hf. by split. }
  destruct Hping as (w0 & Hp & Hc0). rewrite run_bind, Hp. cbn [negb].
  destruct (calm_set_get (backup_key id) (encode_text b) w0 Hc0) as (_ & s1 & Hg1 & Hc1).
  rewrite run_bind, run_set_backup, run_bind, run_get_backup. cbn [cl_redis connected_cache Cache.new].
  cbn [backup_to_json Reference.json b b_id sample_backup] in *. rewrite Hg1. clear Hg1.
  cbn [ok mbind option_bind backup_from_json Reference.json]. rewrite decode_encode_text.
  cbn [ok_or ok b_id sample_backup]. rewrite bool_decide_eq_true_2 by done.
  destruct (calm_del_get (backup_key id) _ Hc1) as (e2 & s2 & Hg2 & Hc2).
  rewrite run_bind, run_invalidate_backup, run_bind, run_get_backup.
  cbn [cl_redis connected_cache Cache.new]. rewrite Hg2. cbn [ok mbind option_bind is_none].
  destruct (calm_set_get (tenant_key tenant) (encode_text ([b], 1)) _ Hc2) as (_ & s3 & Hg3 & Hc3).
  rewrite run_bind, run_set_tenant_backups, run_bind, run_get_tenant_backups.
  cbn [cl_redis connected_cache Cache.new page_to_json Reference.json]. rewrite Hg3.
  cbn [ok mbind option_bind page_from_json Reference.json]. rewrite decode_encode_text.
  cbn [ok_or ok b_id]. rewrite bool_decide_eq_true_2 by done.
  destruct (calm_del_get (tenant_key tenant) _ Hc3) as (e4 & s4 & Hg4 & _).
  rewrite run_bind, run_invalidate_tenant_backups, run_bind, run_get_tenant_backups.
  cbn [cl_redis connected_cache Cache.new]. by rewrite Hg4.
Qed.

(** The tests pass: for any identifiers (distinct where the test draws two), instants within
    the minute the limiter tests take, any clock, any contents of the reference Redis without
    failures ahead or none at all, any codec of jobs and any [log] that satisfy their laws. *)
Theorem unit_tests_pass `{JobJsonLaws} `{LibmLaws} (id tenant : Uuid) (now : DateTime)
    (opened connected : result unit RedisError) (url : string) (w : RefWorld)
    (t0 t1 t2 t3 t4 last : Instant) :
  ReferenceRedis.failing (w_redis w) = [] -> w_config w = redis_test_config url ->
  within_window t0 [t1; t2; t3; t4] -> id <> tenant ->
  (noop_get_backup_returns_none = Ret true /\ noop_get_tenant_backups_returns_none = Ret true
   /\ noop_ping_returns_false = Ret true /\ noop_set_and_invalidate_dont_panic now = Ret true
   /\ (run service (redis_roundtrip_when_available opened connected id tenant now) w).1 = true)
  /\ (allows_requests_under_limit id [t0; t1; t2; t3; t4] = true
      /\ blocks_requests_over_limit id [t0; t1; t2; t3] = true
      /\ separate_tenants_have_separate_limits id tenant [t0; t1; t2] last = true
      /\ remaining_count_decreases id [t0; t1] = true)
  /\ (merge_only_set_fields && merge_empty_update_changes_nothing && merge_rate_limit_both_fields
      = true)
  /\ (status_update_construction && processing_result_construction
      && failed_result_carries_error_message && backup_job_serialization_roundtrip id tenant = true)
  /\ (valid_paths_accepted && empty_path_rejected && relative_path_rejected && traversal_rejected
      = true)
  /\ (empty_data_has_zero_entropy && uniform_data_has_zero_entropy && classify_entropy_levels
      = true).
Proof.
  intros Hf Hcfg Hw Hne.
  assert (Hc : calm w) by (split; [done|by rewrite Hcfg]). split; [|split; [by apply limiter_tests_pass|]].
  - destruct (noop_tests_pass now) as (? & ? & ? & ?). split_and!; [done|done|done|done|].
    by apply redis_test_passes.
  - split; [by vm_compute|]. split.
    { unfold backup_job_serialization_roundtrip. rewrite job_json_roundtrip.
      rewrite !bool_decide_eq_true_2 by done. by vm_compute. }
    split; [by vm_compute|].
    unfold uniform_data_has_zero_entropy. cbv zeta.
    destruct (uniform_entropy_zero Byte.x00 1024) as [-> _]; [by right; right|].
    by vm_compute.
Qed.
